(* ===== verification/_CoqProject ===== *)
-Q . S2P
Prelude.v
Methods.v
Text.v
Float64.v
Json.v
Bson.v
BsonJson.v
Summary.v
Wire.v
Stream.v
Encode.v
BsonRef.v
SummaryRef.v
WireRef.v
Exposure.v
PrefixRef.v
Protocol.v
Schema.v
Spool.v
SpoolSpec.v
SpoolLife.v
Enrich.v
Destination.v
Outpost.v
Trace.v
Accounted.v
Interleave.v
Blocked.v
OutpostSpec.v
Delivery.v
Dns.v
Proc.v
Kernel.v
Ebpf.v
EbpfSpec.v
EbpfCalls.v
EbpfSockets.v
EbpfVectors.v
EbpfSample.v
Observer.v
ObserverSpec.v
ObserverLife.v
Session.v
ObserverSample.v
Agent.v
Capture.v
Conversation.v
CaptureSample.v
AgentSpec.v
Pipeline.v
Sensor.v
SensorSpec.v
AgentSample.v
SensorSample.v
Probes.v
Bpf.v
Launch.v
Serve.v
ServeSample.v
Mock.v
Testing.v
ProtocolTests.v
SpoolTests.v
OutpostTests.v
ObserverTests.v
