(* ===== verification/Prelude.v ===== *)
(** MongoDB Database Activity Monitoring: a verification library.

    * The program

    On every node eBPF programs (bpf/observer.bpf.c), which the kernel runs at the
    system calls, socket operations and library calls of the MongoDB processes,
    send records through a ring buffer.  A sensor (crates/observer) reads them,
    reassembles the MongoDB wire protocol out of captured I/O
    (crates/mongo-protocol) and turns it into events of a fixed schema
    (crates/schema).  Batches of events go to Outpost
    (crates/outpost), which authenticates, validates and enriches them, stores
    each one in a durable spool (crates/spool), and delivers the spool to an
    HTTP receiver or to S3.  crates/mock-endpoint is the local receiver.

    * The files

    - Prelude.v: outcomes of Rust code ([res]: a value, a declared error, or a
      fault, which is a panic or exhausted fuel of the model), machine integers,
      slices and little-endian bytes, and the tactics ([safe_call]) and hints
      that carry the absence of faults through a function.  Methods.v: methods
      over a state and a machine, and a logic of them ([mwp], [within]).  Text.v:
      UTF-8 and the string functions of the Rust standard library.  Float64.v, Json.v:
      binary64 values and JSON values.

    - crates/mongo-protocol/src/lib.rs.  Bson.v: primitive readers, value
      skipping, delete statements.  BsonJson.v: conversion of BSON to JSON.
      Summary.v: what is kept of a complete or truncated command or reply.
      Wire.v: OP_MSG, OP_QUERY, OP_REPLY, OP_COMPRESSED, whole frames and frame
      prefixes.  Stream.v: [StreamDecoder].  Encode.v: the frame builders of the
      test module and an abstract syntax of BSON with its bytes and its JSON
      image, the reference of BsonRef.v (values and documents), SummaryRef.v
      (summaries), WireRef.v (frames), PrefixRef.v (truncated documents) and
      Exposure.v (which facts of a command may leave the sensor).  Protocol.v
      closes the group, with its concrete inputs.

    - crates/schema/src/lib.rs.  Schema.v: the data types and [validate].

    - crates/spool/src/lib.rs.  Spool.v: [DurableSpool] as programs of file
      system calls, and the file system they run on: directory changes become
      durable in order, at the latest when a directory is synced; the content of
      a file is durable once the file is synced; any call may fail and a run may
      stop between any two calls.  SpoolSpec.v: a logic of such runs ([cwp]) and
      what [enqueue] and the recovery guarantee.  SpoolLife.v: histories of
      calls, errors, restarts and crashes.  Two things the code does can cost an
      item: a restart publishes a whole temporary file that was never synced, and
      [enqueue] returns the id of an item that is there but still waits for a sync
      of its directory.  Histories name the items this happened to ([doubtful]);
      none is left out ([life_open_any], [life_accept_any]), and what is said of
      the items, here and in all that is built on the spool, is said of the others.

    - crates/outpost.  Enrich.v: identity mappings, the Kubernetes cache,
      [enrich_batch].  Destination.v: the configuration and the S3 key.
      Outpost.v: [accept_batch], [health], [deliver_pending] and a turn of the
      exporter, as programs over the calls of Spool.v and requests to the
      receiver.  Launch.v: src/main.rs, from the command line to the validated
      configuration.  Serve.v: the running Outpost: its start, routes, clients and
      metrics, and its tasks as steps in any order (ServeSample.v: concrete runs).

    - Delivery from a spool, which the sensor and Outpost share.  Trace.v: runs
      with the requests they make and the answers ([exec_trace], [twp]).
      Accounted.v: receipts, and what accounts for them.  Interleave.v: tasks
      that other tasks interrupt between the methods of the spool
      ([interleaved]), and when one [honours] the receipts.  Blocked.v: passes
      that cannot
      get past an item.  OutpostSpec.v: intake and the histories of
      Outpost.  Delivery.v: how its passes end.

    - bpf/observer.bpf.c, with the record they share with the sensor in Kernel.v.
      Ebpf.v: the maps, the records and every program, as methods over the maps
      and the helpers of the kernel; [fire] runs the program of a probe, [run] a
      sequence of firings by any threads.  EbpfSpec.v: layouts, the invariant
      [sound] of the maps and the records.  EbpfCalls.v: what a firing leaves
      alone ([same_entry]), and the course of one call.  EbpfSockets.v: what is
      kept by socket ([tabled]).  EbpfVectors.v: calls with several buffers.
      EbpfSample.v: a machine and a server.

    - crates/observer/src/lib.rs, the event processor.  Dns.v: DNS messages.
      Proc.v: the parsers of /proc and what they are read from, behind the class
      [Host], which is the machine: links, files, clocks.  Observer.v: [EventProcessor] and its handlers, as methods
      over its state and the machine.  ObserverSpec.v: the invariant [sound] of
      the processor and the events it emits ([good_event]).
      ObserverLife.v: histories of kernel events.  Session.v: connections, and the
      course of one request.  ObserverSample.v: concrete inputs.

    - crates/observer/src/main.rs, the agent.  Agent.v: command line, selection,
      ring buffer callback, batcher, exporter, health and metrics pages.
      AgentSpec.v: what it guarantees.  Probes.v: the libraries and uprobes.
      Bpf.v: the eBPF worker, a state machine that refines the agent of Sensor.v.
      Pipeline.v: the sensor and Outpost together.  Sensor.v: the running agent, as
      steps of its tasks ([step]), which share bounded channels, a disk and
      counters, and are stopped one after the other.  SensorSpec.v: the invariants
      of its runs.  AgentSample.v, SensorSample.v: concrete runs.

    - The kernel and the sensor together.  Capture.v: what the callback and the
      processor make of any record of the programs.  Conversation.v: from two
      calls of a server to one activity.  CaptureSample.v: a server that is asked
      and answers, from its memory to the event.

    - crates/mock-endpoint/src/main.rs.  Mock.v: the start, [ingest] as atomic
      steps of interleaved requests, [list_batches], [health].

    - The unit tests of the crates.  Testing.v: tests as programs that end or
      panic.  ProtocolTests.v, SpoolTests.v (with those of crates/schema),
      OutpostTests.v, ObserverTests.v: the tests of the repository, which the
      definitions of this library pass.

    A state of the code is a record (EventProcessor, ConnectionState,
    StreamDecoder, RuntimeMetrics, Metrics, AppState, Batcher, MockState); a
    method is a function to a new state; a function that may fail returns [res];
    code that touches disk or network is a [prog], a tree of calls, which [exec]
    runs with any faults, answers and cut-offs and [run] runs without.  A pass of
    an exporter is a [task]: the mutex of the spool runs each method alone, and
    between two methods others may run; [alone] is a task nobody interrupts.

    * The theorems

    Decoding.  The wire decoder returns a value or a declared error on every
    input ([decoder_total]); on well-formed input it computes the reference
    meaning of the bytes ([op_msg_decodes], [op_query_decodes],
    [op_reply_decodes], [bson_document_to_json_encode],
    [compressed_frame_equivalent]); on truncated input, what the captured part
    means ([truncated_op_msg]).  [push] does not depend on how a connection is cut
    into chunks ([stream_reassembly]) and [push_bounded_prefix] bounds the buffer
    ([bounded_retention]).  What a decoded message exposes is limited whatever the
    bytes ([decoded_exposure], [truncated_command]).

    Capturing.  Whatever fires, a record of the programs names a process that was
    marked, holds no more of its data than the limits allow, and is read back as it
    was written ([records_confined]); every measurement becomes exactly one event
    ([measurements_reported]).  A call on a known socket is captured with the bytes
    it moved, under the key of the socket, however threads interleave, if the
    tables have room; or it is not, because the ring buffer is full, which is
    counted, or its memory cannot be read
    ([call_captured], [tls_call_captured]; [vector_captured] for several buffers);
    a closed socket is forgotten ([socket_forgotten]) and sampled at its rate
    ([rtt_rate]).  Two captured calls that carry a request and its response are
    reported as one activity, while the tables have room ([conversation_reported]).

    Observing.  Whatever the kernel reports, the processor returns, bounds its
    tables of waiting requests and queries and the buffers of its streams, though
    not their number ([processor_bounded]), emits events that are valid if the
    configured names are ([emitted_batch_valid]) and
    name no principal in clear ([principals_hashed]).  While the tables have room,
    connections do not disturb each other ([connection_isolation]) and a request is
    reported once, with its own facts, principal and outcome ([request_answered]).  DNS decoding is exact
    ([decode_dns_exact]).  Uprobes follow the processes ([scan_exact]).

    Storing.  The spool loses no accepted item and shows no partial one, the
    doubtful ones apart ([at_least_once]); on a disk at rest an enqueue is atomic
    ([enqueue_atomic], [crash_recovery]); it respects its capacity
    ([enqueue_capacity]), and lists exactly its items ([pending_exact]).

    Delivering.  The batcher accounts for every event ([batcher_accounts]) and
    the processor passes on what is selected ([selection_exact]); Outpost starts only when
    configured ([launch_exact]), admits its sensors ([sensor_batches_admitted]),
    accepts what passes its checks and fits its spool ([intake_exact]), changes only
    what enrichment should ([enrich_batch_exact]), loses no accepted batch
    ([no_batch_lost]) and drains its spool ([pass_drains]); and a batch the sensor
    spooled is on one of the two disks until the receiver answered for it
    ([end_to_end]); the doubtful items are excepted in both.  In the running agent, whatever the interleaving of its tasks,
    each record and each event is accounted for ([agent_accounts]), from the kernel
    to the receiver ([captured_event_accounted]); a shutdown loses nothing that was
    accepted ([shutdown_drains]) and can always be completed
    ([shutdown_completes]).  The eBPF worker behaves as the agent assumes
    ([worker_simulated]), reports its start once ([startup_reported]) and stops
    when told ([worker_stops]).  The running Outpost stays within the histories of
    OutpostSpec.v, and keeps what it accepted ([served_batch_kept]).  The mock accepts each batch once ([mock_accepts_once]).

    Shortcomings.  I/O errors after which the spool breaks a promise
    ([retry_not_durable], [recovered_not_durable], [failed_write_blocks]); batches
    that stop all later deliveries, of Outpost ([undeliverable_blocks]) and of the
    sensor ([unreadable_blocks], with [deep_query]: a request of 996 bytes whose
    batch cannot be read back); fields that are missed or queries that are cut
    ([empty_value_hides_fields], [truncated_sequence_query]); continuation bytes
    read as frames and stale endpoints ([forged_continuation], [stale_endpoints]);
    an empty buffer in a vectored call behind which bytes are missed unnoticed
    ([empty_vector_hides]); a TLS connection whose chunks come under two keys
    ([tls_call_captured], [split_connection]);
    a conflict answered for a batch nobody keeps ([conflict_without_batch]); an
    Outpost whose client cannot be built, which accepts batches, says that it is
    well, and never delivers ([no_client_no_delivery]).

    * Bounds and fuel

    [usize] is 64 bits wide; slices are at most [isize_max] long; machines are
    little-endian.  Loops over a buffer take the buffer's length plus one as fuel:
    every iteration advances by at least a byte.  BSON nesting is bounded by the
    length of the document, since a nested document is strictly shorter.  The
    recursion of the code has no other limit, and the stack of the model has none at
    all: that a deeply nested document may exhaust the stack of a thread is not
    modelled.
    [decoder_total] and [processor_bounded] show that the fuel is never exhausted.
    A DNS name is read with fuel 145: the loop turns at most 17 times for pointers
    and 127 times for labels.  Histories and interleavings are
    inductive and have no bound.

    * What is not modelled

    Third-party code is a parameter with documented behaviour as hypotheses: the
    decompressors (snap, flate2, zstd; [Decompressors]), SHA-256 ([Sha256]: a
    function to 32 bytes), gzip, URL parsing, serde's JSON, the texts of HTTP
    headers, calendars.  The machine ([Host]) and the iteration order of a hash
    map are parameters too, and so is what libbpf, the kernel, the Kubernetes API
    and the metrics registry answer.  HTTP servers and clients, logging and the
    binding of sockets are input and output around the functions modelled here; so
    are the build script that compiles the programs, the Helm charts, the scripts
    and the demo.
    A firing of an eBPF program is one step: programs that run at the same time on
    two processors are taken one after the other, and a pointer into a map is not
    used after another program changed the entry.  The answers of the helpers are
    parameters ([Machine]: the clock, memory of the ring buffer, memory of the
    process, stack traces), and so are the fields of a socket and the current task.
    The reader of the ring buffer does not take records out of [ring], which is all
    that was submitted; that the buffer is full is an answer of [ringbuf_reserve].
    Of the tests, those of the output of serde and gzip, of the documented examples,
    of the upload to a live server and of the size of a C structure are left out.
    The handling of a request by [accept_batch] is one step of the histories: it
    calls one method of the spool that changes the disk; likewise a turn of the
    agent's batcher is one step, since only the batcher enqueues and what it does
    before and after that call touches nothing the other tasks use.  The counters
    are atomics that tasks share; [agent_accounts] speaks of them, the theorems
    about histories do not. *)
From Stdlib Require Import ZArith Lia ZifyBool.
From Stdlib Require Import Strings.Byte.
From stdpp Require Import base list strings numbers.

#[global] Open Scope Z_scope.

(** * Outcomes of Rust code

    A Rust function that returns [Result<A, E>] may also panic (an index out of
    range, an arithmetic overflow in a checked build).  [Fault] is the value of
    such a run; [OutOfFuel] marks a loop of the model that was given too few
    iterations.  The theorems of the development show that neither occurs. *)
Inductive fault : Set := Panic | OutOfFuel.

Inductive res (E A : Type) : Type :=
| Ok (a : A)
| Err (e : E)
| Fault (f : fault).
Arguments Ok {E A} a.
Arguments Err {E A} e.
Arguments Fault {E A} f.

Declare Scope dam_scope.
Delimit Scope dam_scope with dam.

#[export] Instance res_ret {E} : MRet (res E) := fun A a => Ok a.
#[export] Instance res_bind {E} : MBind (res E) := fun A B k m =>
  match m with
  | Ok a => k a
  | Err e => Err e
  | Fault f => Fault f
  end.
#[export] Instance res_fmap {E} : FMap (res E) := fun A B g m =>
  match m with
  | Ok a => Ok (g a)
  | Err e => Err e
  | Fault f => Fault f
  end.

Notation "'let!' x := m 'in' k" := (mbind (fun x => k) m)
  (at level 10, x pattern, m at level 100, k at level 200) : dam_scope.
#[global] Open Scope dam_scope.

(** * State passing: a method that reads and updates a state, or reads the
    machine it runs on, maps the state to its result and the state after it. *)
Definition State (S A : Type) : Type := S -> A * S.
#[export] Instance state_ret {S} : MRet (State S) := fun A a s => (a, s).
#[export] Instance state_bind {S} : MBind (State S) := fun A B k m s => let '(a, s) := m s in k a s.
#[export] Instance state_fmap {S} : FMap (State S) := fun A B f m s => let '(a, s) := m s in (f a, s).

(** [Result::ok]: the error is dropped, a panic is not caught. *)
Definition ok {E F A} (r : res E A) : res F (option A) :=
  match r with
  | Ok a => Ok (Some a)
  | Err _ => Ok None
  | Fault f => Fault f
  end.

(** [Result::map_err]. *)
Definition map_err {E F A} (g : E -> F) (r : res E A) : res F A :=
  match r with
  | Ok a => Ok a
  | Err e => Err (g e)
  | Fault f => Fault f
  end.

(** [Result::is_ok], [Result::is_err] *)
Definition is_ok {E A} (r : res E A) : bool := match r with Ok _ => true | _ => false end.
Definition is_err {E A} (r : res E A) : bool := match r with Err _ => true | _ => false end.

(** [Option::is_some], [Option::ok_or]. *)
Definition is_some {A} (o : option A) : bool := match o with Some _ => true | None => false end.
Definition ok_or {E A} (e : E) (o : option A) : res E A :=
  match o with
  | Some a => Ok a
  | None => Err e
  end.

(** [Option::or]. *)
Definition opt_or {A} (o o' : option A) : option A :=
  match o with
  | Some a => Some a
  | None => o'
  end.

(** * Weakest preconditions: [safe Q r] says that [r] is not a fault, and that
    its value, if it has one, satisfies [Q]. *)
Definition safe {E A} (Q : A -> Prop) (r : res E A) : Prop :=
  match r with
  | Ok a => Q a
  | Err _ => True
  | Fault _ => False
  end.

(** The run ends in a value or in a declared error. *)
Definition returns {E A} (r : res E A) : Prop :=
  (exists a, r = Ok a) \/ (exists e, r = Err e).

Section safe.
Context {E : Type}.

Lemma safe_mono {A} (Q Q' : A -> Prop) (r : res E A) :
  safe Q r -> (forall a, Q a -> Q' a) -> safe Q' r.
Proof. destruct r; simpl; auto. Qed.

Lemma safe_bind {A B} (m : res E A) (k : A -> res E B) (Q : B -> Prop) :
  safe (fun a => safe Q (k a)) m -> safe Q (mbind k m).
Proof. destruct m; simpl; auto. Qed.

Lemma safe_bind_with {A B} (P : A -> Prop) (m : res E A) (k : A -> res E B) (Q : B -> Prop) :
  safe P m -> (forall a, P a -> safe Q (k a)) -> safe Q (mbind k m).
Proof. intros Hm Hk. apply safe_bind. eauto using safe_mono. Qed.

Lemma safe_ok {F A} (P : A -> Prop) (m : res F A) :
  safe P m -> safe (E := E) (from_option P True) (ok m).
Proof. by destruct m. Qed.

Lemma safe_map_err {F A} (P : A -> Prop) (g : F -> E) (m : res F A) :
  safe P m -> safe P (map_err g m).
Proof. by destruct m. Qed.

Lemma safe_ok_or {A} (P : A -> Prop) (e : E) (o : option A) :
  (forall a, o = Some a -> P a) -> safe P (ok_or e o).
Proof. destruct o; simpl; auto. Qed.

Lemma safe_conj {A} (P Q : A -> Prop) (r : res E A) :
  safe P r -> safe Q r -> safe (fun a => P a /\ Q a) r.
Proof. destruct r; simpl; auto. Qed.

Lemma safe_Ok_inv {A} (Q : A -> Prop) (r : res E A) a :
  safe Q r -> r = Ok a -> Q a.
Proof. by intros H ->. Qed.

Lemma safe_returns {A} (Q : A -> Prop) (r : res E A) : safe Q r -> returns r.
Proof. destruct r; simpl; [left; eauto | right; eauto | done]. Qed.
End safe.

Lemma bind_Ok_inv {E A B} (m : res E A) (k : A -> res E B) b :
  mbind k m = Ok b -> exists a, m = Ok a /\ k a = Ok b.
Proof. destruct m; naive_solver. Qed.

Lemma ok_Ok {E F A} (m : res E A) (o : option A) :
  ok (F := F) m = Ok o -> (exists a, m = Ok a /\ o = Some a) \/ (exists e, m = Err e /\ o = None).
Proof. destruct m; naive_solver. Qed.

(** * Partial correctness: [ensures Q r] says that the value of [r], if it has
    one, satisfies [Q]; it claims nothing of errors and faults. *)
Definition ensures {E A} (Q : A -> Prop) (r : res E A) : Prop := forall a, r = Ok a -> Q a.

Section ensures.
Context {E : Type}.

Lemma ensures_Ok {A} (Q : A -> Prop) (a : A) : Q a -> ensures (E := E) Q (Ok a).
Proof. by intros H ? [= <-]. Qed.
Lemma ensures_Err {A} (Q : A -> Prop) (e : E) : ensures (A := A) Q (Err e).
Proof. by intros ?. Qed.
Lemma ensures_Fault {A} (Q : A -> Prop) f : ensures (E := E) (A := A) Q (Fault f).
Proof. by intros ?. Qed.
Lemma ensures_bind {A B} (P : A -> Prop) (m : res E A) (k : A -> res E B) (Q : B -> Prop) :
  ensures P m -> (forall a, P a -> ensures Q (k a)) -> ensures Q (mbind k m).
Proof. intros Hm Hk b (a & Ha & Hb)%bind_Ok_inv. eapply Hk; eauto. Qed.
Lemma ensures_call {A B} (m : res E A) (k : A -> res E B) (Q : B -> Prop) :
  (forall a, ensures Q (k a)) -> ensures Q (mbind k m).
Proof. intros Hk b (a & Ha & Hb)%bind_Ok_inv. eapply Hk; eauto. Qed.
Lemma ensures_ok {F A} (P : A -> Prop) (m : res F A) :
  ensures P m -> ensures (E := E) (from_option P True) (ok m).
Proof. destruct m; intros H o; simpl; intros [= <-]; simpl; auto. Qed.
Lemma ensures_mono {A} (Q Q' : A -> Prop) (r : res E A) :
  ensures Q r -> (forall a, Q a -> Q' a) -> ensures Q' r.
Proof. intros Hr HQ a Ha. auto. Qed.
End ensures.

(** Symbolic execution of an [ensures] goal; a call that matters is discharged
    with a lemma of [ensuresdb], any other one is abstracted. *)
Create HintDb ensuresdb.
Ltac ensures_intro :=
  let v := fresh "v" in intros v;
  repeat match type of v with
         | prod _ _ => let v1 := fresh "v" in destruct v as [v1 v]
         end; cbn [fst snd].
Ltac ensures_step :=
  lazymatch goal with
  | |- ensures _ (Ok _) => apply ensures_Ok
  | |- ensures _ (mret _) => apply ensures_Ok
  | |- ensures _ (Err _) => apply ensures_Err
  | |- ensures _ (Fault _) => apply ensures_Fault
  | |- ensures _ (if ?b then _ else _) => destruct b eqn:?
  | |- ensures _ (mbind _ _) =>
      first [eapply ensures_bind; [solve [eauto 4 with ensuresdb nocore]|ensures_intro;
               let Hv := fresh "Hv" in intros Hv]
            |apply ensures_call; ensures_intro]
  | |- ensures _ (match ?x with _ => _ end) => destruct x eqn:?; cbn [from_option] in *
  end.

Create HintDb safedb.
#[export] Hint Extern 5 (safe _ (Err _)) => exact I : safedb.

(** One step of symbolic execution of a [safe] goal. *)
Ltac safe_step :=
  lazymatch goal with
  | |- safe _ (mbind _ _) => apply safe_bind
  | |- safe _ (Err _) => exact I
  | |- safe _ (Ok _) => simpl
  | |- safe _ (mret _) => simpl
  | |- safe _ (if ?b then _ else _) => destruct b eqn:?
  | |- safe _ (match ?x with _ => _ end) =>
      destruct x eqn:?; cbn [from_option fst snd] in *
  end.
#[export] Hint Extern 1 (_ <= _) => lia : safedb.
#[export] Hint Extern 1 (_ <= _ < _) => lia : safedb.
#[export] Hint Extern 1 (_ <= _ <= _) => lia : safedb.
#[export] Hint Extern 1 (_ < _) => lia : safedb.

(** Discharges the call at the head of a [safe] goal with a lemma of the hint
    database, then introduces what the lemma says of the returned value. *)
Ltac safe_intro :=
  let v := fresh "v" in
  let H := fresh "Hv" in
  intros v H;
  repeat match type of v with
         | prod _ _ => let v1 := fresh "v" in destruct v as [v1 v]
         end;
  cbn [fst snd] in H;
  repeat match type of H with
         | _ /\ _ => let H1 := fresh "Hv" in destruct H as [H1 H]
         end;
  subst.
Ltac safe_call := eapply safe_mono; [solve [eauto 6 with safedb nocore] | safe_intro].

(** * Machine integers

    [usize] and [u64] values are integers in [0, 2^64); [isize::MAX] bounds the
    length of every Rust slice. *)
Abbreviation usize_max := (18446744073709551615) (only parsing).
Abbreviation isize_max := (9223372036854775807) (only parsing).
Abbreviation u32_max := (4294967295) (only parsing).
Abbreviation u64_max := (18446744073709551615) (only parsing).
Abbreviation i32_min := (-2147483648) (only parsing).
Abbreviation i32_max := (2147483647) (only parsing).
Abbreviation i64_min := (-9223372036854775808) (only parsing).
Abbreviation i64_max := (9223372036854775807) (only parsing).

(** [a + b] and [a - b] on [usize]: a checked build panics on overflow. *)
Definition uadd {E} (a b : Z) : res E Z :=
  if a + b <=? usize_max then Ok (a + b) else Fault Panic.
Definition usub {E} (a b : Z) : res E Z :=
  if b <=? a then Ok (a - b) else Fault Panic.
Definition checked_add (a b : Z) : option Z :=
  if a + b <=? usize_max then Some (a + b) else None.
Definition saturating_add (m a b : Z) : Z := Z.min m (a + b).
Definition saturating_sub (a b : Z) : Z := Z.max 0 (a - b).
(** [i as usize] for a signed [i]: sign extension modulo 2^64. *)
Definition as_usize (i : Z) : Z := i mod 18446744073709551616.
(** [u32::try_from(n).unwrap_or(u32::MAX)] for a [usize] [n]. *)
Definition u32_saturating (n : Z) : Z := if n <=? u32_max then n else u32_max.

(** * Bytes and slices *)
Definition bytes : Set := list byte.
Definition u8 (b : byte) : Z := Z.of_N (Byte.to_N b).
Definition u8_of (z : Z) : byte :=
  match Byte.of_N (Z.to_N (z mod 256)) with
  | Some b => b
  | None => x00
  end.

#[export] Instance byte_eq_dec : EqDecision byte := Byte.byte_eq_dec.

Definition len {A} (l : list A) : Z := Z.of_nat (length l).

Section slices.
Context {A : Type}.

(** [l.get(i)] *)
Definition get (l : list A) (i : Z) : option A :=
  if (0 <=? i) && (i <? len l) then l !! Z.to_nat i else None.
(** [l.get(a..b)] *)
Definition get_range (l : list A) (a b : Z) : option (list A) :=
  if (0 <=? a) && (a <=? b) && (b <=? len l)
  then Some (take (Z.to_nat (b - a)) (drop (Z.to_nat a) l)) else None.
(** [l.get(a..)] *)
Definition get_from (l : list A) (a : Z) : option (list A) := get_range l a (len l).
(** [l[i]], which panics out of range *)
Definition index {E} (l : list A) (i : Z) : res E A :=
  match get l i with
  | Some x => Ok x
  | None => Fault Panic
  end.
(** [l[a..b]], which panics out of range *)
Definition slice {E} (l : list A) (a b : Z) : res E (list A) :=
  match get_range l a b with
  | Some x => Ok x
  | None => Fault Panic
  end.
(** [l.last()] *)
Definition last_elem (l : list A) : option A := list.last l.
(** [iter().position(p)] *)
Fixpoint position (p : A -> bool) (l : list A) : option Z :=
  match l with
  | [] => None
  | x :: l => if p x then Some 0 else Z.succ <$> position p l
  end.

Lemma len_nonneg (l : list A) : 0 <= len l.
Proof. unfold len; lia. Qed.

Lemma len_app (l k : list A) : len (l ++ k) = len l + len k.
Proof. unfold len; rewrite length_app; lia. Qed.

Lemma len_cons (x : A) (l : list A) : len (x :: l) = 1 + len l.
Proof. unfold len; simpl; lia. Qed.

Lemma get_range_Some l a b s :
  get_range l a b = Some s ->
  0 <= a <= b /\ b <= len l /\ len s = b - a /\ s = take (Z.to_nat (b - a)) (drop (Z.to_nat a) l).
Proof.
  unfold get_range. case_match eqn:Hb; [|done]. intros [= <-].
  apply andb_prop in Hb as [[H1 H2]%andb_prop H3]. unfold len in *.
  rewrite length_take, length_drop. repeat split; lia.
Qed.

Lemma get_range_in l a b :
  0 <= a <= b -> b <= len l ->
  get_range l a b = Some (take (Z.to_nat (b - a)) (drop (Z.to_nat a) l)).
Proof.
  intros. unfold get_range. by replace (_ && _ && _) with true by lia.
Qed.

Lemma get_range_None l a b :
  get_range l a b = None -> ~ (0 <= a <= b /\ b <= len l).
Proof. intros H [? ?]. rewrite get_range_in in H; done. Qed.

Lemma get_Some l i x : get l i = Some x -> 0 <= i < len l /\ l !! Z.to_nat i = Some x.
Proof. unfold get. case_match eqn:Hb; [|done]. split; [lia|done]. Qed.

Lemma get_in l i : 0 <= i < len l -> exists x, get l i = Some x.
Proof.
  intros Hi. unfold get. replace (_ && _) with true by lia.
  apply lookup_lt_is_Some_2. unfold len in Hi. lia.
Qed.

Lemma position_Some p l i :
  position p l = Some i ->
  0 <= i < len l /\ exists x, l !! Z.to_nat i = Some x /\ p x = true.
Proof.
  revert i. induction l as [|x l IH]; intros i; [done|]. simpl.
  destruct (p x) eqn:Hp.
  - intros [= <-]. rewrite len_cons. pose proof (len_nonneg l). split; [lia|]. by exists x.
  - intros (j & Hj & ->)%fmap_Some. destruct (IH _ Hj) as (Hb & y & Hl & Hy).
    rewrite len_cons. split; [lia|]. exists y. split; [|done].
    by rewrite Z2Nat.inj_succ by lia.
Qed.
End slices.

Section slice_safety.
Context {E : Type}.

Lemma safe_uadd a b : a + b <= usize_max -> safe (E := E) (fun c => c = a + b) (uadd a b).
Proof. intros. unfold uadd. destruct (_ <=? _) eqn:?; simpl; lia. Qed.
Lemma safe_usub a b : b <= a -> safe (E := E) (fun c => c = a - b) (usub a b).
Proof. intros. unfold usub. destruct (_ <=? _) eqn:?; simpl; lia. Qed.
Lemma safe_index {A} (l : list A) i :
  0 <= i < len l -> safe (E := E) (fun x => get l i = Some x) (index l i).
Proof. intros Hi. unfold index. destruct (get_in l i Hi) as [x Hx]. by rewrite Hx. Qed.
Lemma safe_slice {A} (l : list A) a b :
  0 <= a <= b -> b <= len l ->
  safe (E := E) (fun s => get_range l a b = Some s /\ len s = b - a) (slice l a b).
Proof.
  intros H1 H2. unfold slice. destruct (get_range l a b) eqn:Hg; simpl.
  - split; [done|]. by apply get_range_Some in Hg as (?&?&?&?).
  - apply get_range_None in Hg. lia.
Qed.
Lemma safe_get_range {A} (e : E) (l : list A) a b :
  safe (fun s => 0 <= a <= b /\ b <= len l /\ len s = b - a) (ok_or e (get_range l a b)).
Proof. apply safe_ok_or. intros s Hs. apply get_range_Some in Hs. lia. Qed.
Lemma safe_checked_add (e : E) a b :
  safe (fun c => c = a + b /\ a + b <= usize_max) (ok_or e (checked_add a b)).
Proof. apply safe_ok_or. unfold checked_add. intros c. case_match; [intros [= <-]; lia|done]. Qed.
End slice_safety.
#[export] Hint Resolve safe_uadd safe_usub safe_index safe_slice safe_get_range
  safe_checked_add : safedb.

(** * Little-endian integers *)
Fixpoint le_val (bs : bytes) : Z :=
  match bs with
  | [] => 0
  | b :: bs => u8 b + 256 * le_val bs
  end.
Fixpoint le_bytes (n : nat) (v : Z) : bytes :=
  match n with
  | O => []
  | S n => u8_of v :: le_bytes n (v / 256)
  end.
(** Two's complement reading of an unsigned value of [w] bits. *)
Definition signed (w v : Z) : Z := if v <? 2 ^ (w - 1) then v else v - 2 ^ w.
Definition i32_from_le_bytes (bs : bytes) : Z := signed 32 (le_val bs).
Definition u32_from_le_bytes (bs : bytes) : Z := le_val bs.
Definition i64_from_le_bytes (bs : bytes) : Z := signed 64 (le_val bs).
Definition u64_from_le_bytes (bs : bytes) : Z := le_val bs.

Lemma u8_range b : 0 <= u8 b < 256.
Proof. unfold u8. pose proof (Byte.to_N_bounded b). lia. Qed.

Lemma u8_u8_of z : u8 (u8_of z) = z mod 256.
Proof.
  unfold u8, u8_of. pose proof (Z.mod_pos_bound z 256 eq_refl) as Hm.
  destruct (Byte.of_N (Z.to_N (z mod 256))) as [b|] eqn:Hb.
  - apply Byte.to_of_N in Hb. rewrite Hb. lia.
  - apply Byte.of_N_None_iff in Hb. lia.
Qed.

Lemma u8_inj b c : u8 b = u8 c -> b = c.
Proof.
  unfold u8. intros H%N2Z.inj. apply (f_equal Byte.of_N) in H.
  rewrite !Byte.of_to_N in H. by injection H.
Qed.

Lemma u8_of_u8 b : u8_of (u8 b) = b.
Proof. apply u8_inj. rewrite u8_u8_of. apply Z.mod_small, u8_range. Qed.

Lemma le_val_range bs : 0 <= le_val bs < 2 ^ (8 * len bs).
Proof.
  induction bs as [|b bs IH]; simpl; [done|]. rewrite len_cons.
  pose proof (u8_range b). pose proof (len_nonneg bs).
  replace (8 * (1 + len bs)) with (8 + 8 * len bs) by lia.
  rewrite Z.pow_add_r by lia. lia.
Qed.

Lemma length_le_bytes n v : length (le_bytes n v) = n.
Proof. revert v; induction n; simpl; auto. Qed.

Lemma len_le_bytes n v : len (le_bytes n v) = Z.of_nat n.
Proof. unfold len. by rewrite length_le_bytes. Qed.

Lemma le_val_le_bytes n v : le_val (le_bytes n v) = v mod 2 ^ (8 * Z.of_nat n).
Proof.
  revert v. induction n as [|n IH]; intros v; simpl le_bytes; simpl le_val.
  - by rewrite Z.mod_1_r.
  - rewrite u8_u8_of, IH.
    replace (8 * Z.of_nat (S n)) with (8 + 8 * Z.of_nat n) by lia.
    rewrite Z.pow_add_r by lia. change (2 ^ 8) with 256.
    rewrite Z.rem_mul_r by lia. lia.
Qed.

Lemma signed_mod w v : 0 < w -> - 2 ^ (w - 1) <= v < 2 ^ (w - 1) -> signed w (v mod 2 ^ w) = v.
Proof.
  intros Hw Hv. assert (2 ^ w = 2 * 2 ^ (w - 1)) as Hp.
  { replace w with (Z.succ (w - 1)) at 1 by lia. apply Z.pow_succ_r. lia. }
  unfold signed. destruct (decide (0 <= v)).
  - rewrite Z.mod_small by lia. case_match; lia.
  - replace (v mod 2 ^ w) with (v + 2 ^ w).
    + case_match; lia.
    + apply Z.mod_unique with (-1); lia.
Qed.

Lemma signed_range w v : 0 < w -> 0 <= v < 2 ^ w -> - 2 ^ (w - 1) <= signed w v < 2 ^ (w - 1).
Proof.
  intros Hw Hv. assert (2 ^ w = 2 * 2 ^ (w - 1)) as Hp.
  { replace w with (Z.succ (w - 1)) at 1 by lia. apply Z.pow_succ_r. lia. }
  unfold signed. case_match; lia.
Qed.

Lemma i32_le_bytes v : i32_min <= v <= i32_max -> i32_from_le_bytes (le_bytes 4 v) = v.
Proof.
  intros. unfold i32_from_le_bytes. rewrite le_val_le_bytes.
  apply signed_mod; lia.
Qed.
Lemma i64_le_bytes v : i64_min <= v <= i64_max -> i64_from_le_bytes (le_bytes 8 v) = v.
Proof.
  intros. unfold i64_from_le_bytes. rewrite le_val_le_bytes.
  apply signed_mod; lia.
Qed.

Lemma i32_from_range bs : len bs = 4 -> i32_min <= i32_from_le_bytes bs <= i32_max.
Proof.
  intros Hl. pose proof (le_val_range bs) as H. rewrite Hl in H.
  pose proof (signed_range 32 (le_val bs) eq_refl H). unfold i32_from_le_bytes. lia.
Qed.

Lemma as_usize_id i : 0 <= i <= usize_max -> as_usize i = i.
Proof. intros. apply Z.mod_small. lia. Qed.

Lemma as_usize_neg i : i32_min <= i < 0 -> as_usize i = i + 18446744073709551616.
Proof. intros. symmetry. apply Z.mod_unique with (-1); lia. Qed.

(** Runs a [safe] goal to its end, or until a call has no lemma. *)
Ltac safe_run := repeat first [safe_step | rewrite as_usize_id by lia | safe_call].
