(* ===== verification/Methods.v ===== *)
(** Methods over a state and the machine: they read and update the state, call the
    machine, and are specified by what they return and leave, whatever the machine
    answers.  The event processor and the eBPF programs are written with them. *)
From Stdlib Require Import ZArith.
From stdpp Require Import base list.
From S2P Require Import Prelude.

Section methods.
Context {S World : Type}.
Abbreviation Method := (State (S * World)).

Definition this : Method S := fun '(s, w) => (s, (s, w)).
Definition update (f : S -> S) : Method unit := fun '(s, w) => (tt, (f s, w)).
(** A call of the machine *)
Definition host {A} (m : State World A) : Method A := fun '(s, w) => let '(a, w) := m w in (a, (s, w)).

(** * Weakest preconditions of methods *)
Definition mwp {A} (m : Method A) (s : S) (Q : A -> S -> Prop) : Prop :=
  forall w, Q (fst (m (s, w))) (fst (snd (m (s, w)))).

Lemma mwp_ret {A} (a : A) s (Q : A -> S -> Prop) : Q a s -> mwp (mret a) s Q.
Proof. by intros H w. Qed.
Lemma mwp_bind {A B} (m : Method A) (k : A -> Method B) s Q :
  mwp m s (fun a s => mwp (k a) s Q) -> mwp (m ≫= k) s Q.
Proof.
  intros H w. specialize (H w). unfold mbind, state_bind.
  destruct (m (s, w)) as [a [s' w']]. apply (H w').
Qed.
Lemma mwp_this s (Q : S -> S -> Prop) : Q s s -> mwp this s Q.
Proof. by intros H w. Qed.
Lemma mwp_update f s (Q : unit -> S -> Prop) : Q tt (f s) -> mwp (update f) s Q.
Proof. by intros H w. Qed.
Lemma mwp_host {A} (m : State World A) s (Q : A -> S -> Prop) :
  (forall a, Q a s) -> mwp (host m) s Q.
Proof. intros H w. unfold host. destruct (m w) as [a w']. apply H. Qed.
Lemma mwp_mono {A} (m : Method A) s (Q Q' : A -> S -> Prop) :
  mwp m s Q -> (forall a s', Q a s' -> Q' a s') -> mwp m s Q'.
Proof. intros H HQ w. apply HQ, H. Qed.
Lemma mwp_and {A} (m : Method A) s (Q Q' : A -> S -> Prop) :
  mwp m s Q -> mwp m s Q' -> mwp m s (fun a s' => Q a s' /\ Q' a s').
Proof. intros H H' w. by split. Qed.

(** * Methods that stay within a relation, whatever they are started in *)
Definition within (R : S -> S -> Prop) {A} (m : Method A) : Prop := forall s, mwp m s (fun _ s' => R s s').

(** A property of the state that is kept *)
Definition stable (P : S -> Prop) (s s' : S) : Prop := P s -> P s'.
#[export] Instance stable_refl P : Reflexive (stable P).
Proof. by intros s Hs. Qed.
#[export] Instance stable_trans P : Transitive (stable P).
Proof. intros s s' s'' H H' Hs. by apply H', H. Qed.

Lemma within_mono (R R' : S -> S -> Prop) {A} (m : Method A) :
  (forall s s', R s s' -> R' s s') -> within R m -> within R' m.
Proof. intros HR Hm s. eapply mwp_mono; [apply Hm|]. intros a s'. apply HR. Qed.

Lemma within_stable P {A} (m : Method A) : (forall s, P s -> mwp m s (fun _ s' => P s')) -> within (stable P) m.
Proof. intros Hm s w Hs. by apply Hm. Qed.

Section within.
Context (R : S -> S -> Prop) `{!Reflexive R} `{!Transitive R}.

Lemma within_ret {A} (a : A) : within R (mret a).
Proof. intros s. by apply mwp_ret. Qed.
Lemma within_bind {A B} (m : Method A) (k : A -> Method B) :
  within R m -> (forall a, within R (k a)) -> within R (m ≫= k).
Proof.
  intros Hm Hk s. apply mwp_bind. eapply mwp_mono; [apply Hm|]. intros a s1 H1.
  eapply mwp_mono; [apply Hk|]. intros b s2 H2. transitivity s1; [exact H1|exact H2].
Qed.
Lemma within_fmap {A B} (f : A -> B) (m : Method A) : within R m -> within R (f <$> m).
Proof. intros Hm s w. specialize (Hm s w). revert Hm. unfold fmap, state_fmap. by destruct (m (s, w)) as [a [s' w']]. Qed.
Lemma within_this : within R this.
Proof. intros s. by apply mwp_this. Qed.
Lemma within_update f : (forall s, R s (f s)) -> within R (update f).
Proof. intros Hf s. apply mwp_update, Hf. Qed.
Lemma within_host {A} (m : State World A) : within R (host m).
Proof. intros s. by apply mwp_host. Qed.
End within.
End methods.

(** Symbolic execution of a method; a call with a specification of its own is
    left to the caller. *)
Ltac mwp_step :=
  lazymatch goal with
  | |- mwp (mbind _ _) _ _ => apply mwp_bind
  | |- mwp (mret _) _ _ => apply mwp_ret
  | |- mwp this _ _ => apply mwp_this
  | |- mwp (update _) _ _ => apply mwp_update
  | |- mwp (host _) _ _ => apply mwp_host; intros ?
  | |- mwp (if ?b then _ else _) _ _ => destruct b eqn:?
  | |- mwp (match ?x with _ => _ end) _ _ => destruct x eqn:?
  end.
Ltac within_step :=
  lazymatch goal with
  | |- within _ (mbind _ _) => refine (within_bind _ _ _ _ _); [|intros ?]
  | |- within _ (_ <$> _) => refine (within_fmap _ _ _ _)
  | |- within _ (mret _) => exact (within_ret _ _)
  | |- within _ this => exact (within_this _)
  | |- within _ (update _) => apply within_update; intros ?
  | |- within _ (host _) => exact (within_host _ _)
  | |- within _ (if ?b then _ else _) => destruct b
  | |- within _ (let '(_, _) := ?x in _) => destruct x
  | |- within _ (match ?x with _ => _ end) => destruct x
  end.
