(* ===== verification/Text.v ===== *)
(** Rust strings: a [str] is the [string] of its UTF-8 bytes.  This file gives
    the functions of the Rust standard library the program applies to text
    (UTF-8 validation, splitting, trimming, replacing, ASCII case) and the
    lemmas about them that the components share. *)
From Stdlib Require Import ZArith Lia ZifyBool.
From Stdlib Require Import Strings.Byte Strings.Ascii Strings.String.
From stdpp Require Import base list strings numbers pretty.
From S2P Require Import Prelude.

Definition bytes_of (s : string) : bytes := list_byte_of_string s.
Definition string_of (bs : bytes) : string := string_of_list_byte bs.
(** [str::len] counts bytes. *)
Definition slen (s : string) : Z := Z.of_nat (String.length s).

(** * UTF-8

    The well-formed sequences of the Unicode standard (table 3-7), which are
    the ones [std::str::from_utf8] accepts: no overlong form, no surrogate, at
    most U+10FFFF. *)
Definition cont (b : byte) : bool := (0x80 <=? u8 b) && (u8 b <=? 0xBF).
Definition low6 (b : byte) : Z := Z.land (u8 b) 0x3F.

Definition ok2 (a b : byte) : bool := (0xC2 <=? u8 a) && (u8 a <=? 0xDF) && cont b.
Definition ok3 (a b c : byte) : bool :=
  (0xE0 <=? u8 a) && (u8 a <=? 0xEF) && cont b && cont c &&
  (if u8 a =? 0xE0 then 0xA0 <=? u8 b else true) &&
  (if u8 a =? 0xED then u8 b <=? 0x9F else true).
Definition ok4 (a b c d : byte) : bool :=
  (0xF0 <=? u8 a) && (u8 a <=? 0xF4) && cont b && cont c && cont d &&
  (if u8 a =? 0xF0 then 0x90 <=? u8 b else true) &&
  (if u8 a =? 0xF4 then u8 b <=? 0x8F else true).

(** The code points of a well-formed sequence, [None] for any other. *)
Fixpoint utf8_decode (bs : bytes) : option (list Z) :=
  match bs with
  | [] => Some []
  | a :: r1 =>
      if u8 a <? 0x80 then cons (u8 a) <$> utf8_decode r1
      else match r1 with
      | [] => None
      | b :: r2 =>
          if ok2 a b then cons (Z.land (u8 a) 0x1F * 64 + low6 b) <$> utf8_decode r2
          else match r2 with
          | [] => None
          | c :: r3 =>
              if ok3 a b c
              then cons (Z.land (u8 a) 0x0F * 4096 + low6 b * 64 + low6 c) <$> utf8_decode r3
              else match r3 with
              | [] => None
              | d :: r4 =>
                  if ok4 a b c d
                  then cons (Z.land (u8 a) 0x07 * 262144 + low6 b * 4096 + low6 c * 64 + low6 d)
                       <$> utf8_decode r4
                  else None
              end
          end
      end
  end.

Definition utf8_encode_char (c : Z) : bytes :=
  if c <? 0x80 then [u8_of c]
  else if c <? 0x800 then [u8_of (0xC0 + c / 64); u8_of (0x80 + c mod 64)]
  else if c <? 0x10000 then
    [u8_of (0xE0 + c / 4096); u8_of (0x80 + c / 64 mod 64); u8_of (0x80 + c mod 64)]
  else
    [u8_of (0xF0 + c / 262144); u8_of (0x80 + c / 4096 mod 64);
     u8_of (0x80 + c / 64 mod 64); u8_of (0x80 + c mod 64)].

(** [str::from_utf8], as the string of its bytes. *)
Definition from_utf8 (bs : bytes) : option string :=
  match utf8_decode bs with
  | Some _ => Some (string_of bs)
  | None => None
  end.
(** [String::from_utf8_lossy]: U+FFFD for each maximal prefix of a well-formed
    sequence that does not go on, and for each byte that starts none. *)
Definition REPLACEMENT : bytes := [xef; xbf; xbd].
Definition second_ok (a b : byte) : bool :=
  cont b && (if u8 a =? 0xE0 then 0xA0 <=? u8 b else true) && (if u8 a =? 0xED then u8 b <=? 0x9F else true) &&
  (if u8 a =? 0xF0 then 0x90 <=? u8 b else true) && (if u8 a =? 0xF4 then u8 b <=? 0x8F else true).
Fixpoint lossy (bs : bytes) : bytes :=
  match bs with
  | [] => []
  | a :: r1 =>
      if u8 a <? 0x80 then a :: lossy r1
      else if (u8 a <? 0xC2) || (0xF4 <? u8 a) then REPLACEMENT ++ lossy r1
      else match r1 with
      | [] => REPLACEMENT
      | b :: r2 =>
          if negb (second_ok a b) then REPLACEMENT ++ lossy r1
          else if u8 a <? 0xE0 then a :: b :: lossy r2
          else match r2 with
          | [] => REPLACEMENT
          | c :: r3 =>
              if negb (cont c) then REPLACEMENT ++ lossy r2
              else if u8 a <? 0xF0 then a :: b :: c :: lossy r3
              else match r3 with
              | [] => REPLACEMENT
              | d :: r4 =>
                  if negb (cont d) then REPLACEMENT ++ lossy r3 else a :: b :: c :: d :: lossy r4
              end
          end
      end
  end.
Definition from_utf8_lossy (bs : bytes) : string := string_of (lossy bs).
(** The bytes are those of a Rust [str]. *)
Definition utf8 (s : string) : bool :=
  match utf8_decode (bytes_of s) with Some _ => true | None => false end.
(** [str::chars], as code points. *)
Definition chars (s : string) : list Z := default [] (utf8_decode (bytes_of s)).
Definition of_chars (cs : list Z) : string := string_of (concat (utf8_encode_char <$> cs)).

(** [char::is_control] (general category Cc) and [char::is_whitespace]
    (property White_Space). *)
Definition is_control (c : Z) : bool := (c <=? 0x1F) || ((0x7F <=? c) && (c <=? 0x9F)).
Definition is_whitespace (c : Z) : bool :=
  ((0x09 <=? c) && (c <=? 0x0D)) || (c =? 0x20) || (c =? 0x85) || (c =? 0xA0) ||
  (c =? 0x1680) || ((0x2000 <=? c) && (c <=? 0x200A)) || (c =? 0x2028) || (c =? 0x2029) ||
  (c =? 0x202F) || (c =? 0x205F) || (c =? 0x3000).

Fixpoint drop_while {A} (p : A -> bool) (l : list A) : list A :=
  match l with
  | [] => []
  | x :: l' => if p x then drop_while p l' else l
  end.
Definition trim_both {A} (p : A -> bool) (l : list A) : list A :=
  rev (drop_while p (rev (drop_while p l))).
(** [str::trim] *)
Definition trim (s : string) : string := of_chars (trim_both is_whitespace (chars s)).

(** * ASCII *)
Definition ascii_lower (a : ascii) : ascii :=
  let n := N_of_ascii a in
  if ((65 <=? n) && (n <=? 90))%N then ascii_of_N (n + 32) else a.
Fixpoint to_ascii_lowercase (s : string) : string :=
  match s with
  | EmptyString => EmptyString
  | String a s => String (ascii_lower a) (to_ascii_lowercase s)
  end.
Definition eq_ignore_ascii_case (s t : string) : bool :=
  String.eqb (to_ascii_lowercase s) (to_ascii_lowercase t).
Definition is_ascii_digit (b : byte) : bool := (48 <=? u8 b) && (u8 b <=? 57).
Definition is_ascii_alphabetic (b : byte) : bool :=
  ((65 <=? u8 b) && (u8 b <=? 90)) || ((97 <=? u8 b) && (u8 b <=? 122)).
Definition is_ascii_alphanumeric (b : byte) : bool := is_ascii_digit b || is_ascii_alphabetic b.
Definition is_ascii_hexdigit (b : byte) : bool :=
  is_ascii_digit b || ((65 <=? u8 b) && (u8 b <=? 70)) || ((97 <=? u8 b) && (u8 b <=? 102)).

(** * Numbers *)

(** [char::to_digit(radix)] *)
Definition to_digit (radix : Z) (b : byte) : option Z :=
  let v := if is_ascii_digit b then u8 b - 48
           else if (97 <=? u8 b) && (u8 b <=? 122) then u8 b - 87
           else if (65 <=? u8 b) && (u8 b <=? 90) then u8 b - 55 else 36 in
  if v <? radix then Some v else None.
Fixpoint digits_value (radix acc : Z) (bs : bytes) : option Z :=
  match bs with
  | [] => Some acc
  | b :: bs =>
      match to_digit radix b with
      | Some d => digits_value radix (acc * radix + d) bs
      | None => None
      end
  end.
(** [from_str_radix(s, radix).ok()] of an unsigned type with the maximum [max]:
    one leading plus sign, at least one digit, no overflow. *)
Definition from_str_radix (max radix : Z) (s : string) : option Z :=
  let digits := match bytes_of s with
                | x2b :: digits => digits
                | digits => digits
                end in
  match digits with
  | [] => None
  | _ =>
      match digits_value radix 0 digits with
      | Some v => if v <=? max then Some v else None
      | None => None
      end
  end.

(** [{:x}], and [{:0>n x}] padded with zeros to [n] digits *)
Fixpoint hex_of (n : nat) (v : Z) : bytes :=
  match n with
  | O => []
  | S n => hex_of n (v / 16) ++ [u8_of (if v mod 16 <? 10 then 48 + v mod 16 else 87 + v mod 16)]
  end.
Definition fmt_x_padded (n : nat) (v : Z) : string := string_of (hex_of n v).
Definition fmt_x (v : Z) : string :=
  string_of (match drop_while (fun b => u8 b =? 48) (hex_of 16 v) with
             | [] => [x30]
             | digits => digits
             end).

(** * Searching and splitting *)
Definition starts_with (p s : string) : bool := String.prefix p s.
(** [str::contains] *)
Fixpoint contains (needle s : string) : bool :=
  starts_with needle s || match s with String _ s => contains needle s | EmptyString => false end.
Definition strip_prefix (p s : string) : option string :=
  if String.prefix p s
  then Some (String.substring (String.length p) (String.length s - String.length p) s)
  else None.
(** [split_once(c)] for an ASCII character *)
Fixpoint split_once (c : ascii) (s : string) : option (string * string) :=
  match s with
  | EmptyString => None
  | String a s' =>
      if Ascii.eqb a c then Some (EmptyString, s')
      else match split_once c s' with
           | Some (l, r) => Some (String a l, r)
           | None => None
           end
  end.
(** [split(c)] for an ASCII character *)
Fixpoint split (c : ascii) (s : string) : list string :=
  match s with
  | EmptyString => [EmptyString]
  | String a s' =>
      if Ascii.eqb a c then EmptyString :: split c s'
      else match split c s' with
           | f :: fs => String a f :: fs
           | [] => [String a EmptyString]
           end
  end.
(** [splitn(n, c)]: at most [n] pieces, the last one unsplit. *)
Fixpoint splitn (n : nat) (c : ascii) (s : string) : list string :=
  match n with
  | O => []
  | S O => [s]
  | S n =>
      match split_once c s with
      | Some (l, r) => l :: splitn n c r
      | None => [s]
      end
  end.
(** [replace(p, r)]: every non-overlapping occurrence from the left.  [skip]
    counts the bytes of a match that are still to be dropped. *)
Fixpoint replace_from (p r : string) (skip : nat) (s : string) : string :=
  match s with
  | EmptyString => EmptyString
  | String a s' =>
      match skip with
      | S k => replace_from p r k s'
      | O =>
          if String.prefix p s
          then String.append r (replace_from p r (String.length p - 1) s')
          else String a (replace_from p r O s')
      end
  end.
Definition replace (p r s : string) : string := replace_from p r O s.
(** [iter().find_map(f)] *)
(** [strip_suffix], [trim_end_matches] for a non-empty pattern, [trim_end] *)
Definition strip_suffix (p s : string) : option string :=
  let n := (String.length s - String.length p)%nat in
  if (String.length p <=? String.length s)%nat && String.eqb (String.substring n (String.length p) s) p
  then Some (String.substring 0 n s) else None.
Fixpoint trim_end_loop (fuel : nat) (p s : string) : string :=
  match fuel with
  | O => s
  | S fuel =>
      match strip_suffix p s with
      | Some s => trim_end_loop fuel p s
      | None => s
      end
  end.
Definition trim_end_matches (p s : string) : string := trim_end_loop (String.length s) p s.
Definition trim_end (s : string) : string := of_chars (rev (drop_while is_whitespace (rev (chars s)))).

(** [str::lines]: a carriage return goes with the line feed after it; nothing
    follows the last line feed. *)
Fixpoint lines_of (pieces : list string) : list string :=
  match pieces with
  | [] => []
  | [last] => if String.eqb last EmptyString then [] else [last]
  | piece :: pieces => default piece (strip_suffix (string_of [x0d]) piece) :: lines_of pieces
  end.
Definition lines (s : string) : list string := lines_of (split "010"%char s).

(** [split_whitespace] *)
Fixpoint words (word : list Z) (cs : list Z) : list (list Z) :=
  let close := match word with [] => [] | _ => [rev word] end in
  match cs with
  | [] => close
  | c :: cs => if is_whitespace c then close ++ words [] cs else words (c :: word) cs
  end.
Definition split_whitespace (s : string) : list string := of_chars <$> words [] (chars s).

(** [Path::join], on texts *)
Definition join_path (directory name : string) : string :=
  if starts_with "/" name || String.eqb directory "" then name
  else match strip_suffix "/" directory with
       | Some _ => (directory ++ name)%string
       | None => (directory ++ "/" ++ name)%string
       end.

Fixpoint find_map {A B} (f : A -> option B) (l : list A) : option B :=
  match l with
  | [] => None
  | x :: l => match f x with Some y => Some y | None => find_map f l end
  end.
(** [matches!(s, "a" | "b" | ...)] *)
Definition one_of (s : string) (l : list string) : bool := existsb (String.eqb s) l.

(** * Numbers as text *)
Definition hex_digit (n : Z) : byte := u8_of (if n <? 10 then 48 + n else 87 + n).
(** [format!("{b:02x}")] *)
Definition fmt_02x (b : byte) : string :=
  string_of [hex_digit (Z.shiftr (u8 b) 4); hex_digit (Z.land (u8 b) 15)].
(** [to_string] of an integer: decimal digits after an optional minus sign. *)
Definition int_to_string (z : Z) : string := pretty z.

(** * Lemmas *)
Lemma bytes_of_string_of bs : bytes_of (string_of bs) = bs.
Proof. apply list_byte_of_string_of_list_byte. Qed.
Lemma string_of_bytes_of s : string_of (bytes_of s) = s.
Proof. apply string_of_list_byte_of_string. Qed.

Lemma bytes_of_inj s t : bytes_of s = bytes_of t -> s = t.
Proof. intros H. by rewrite <- (string_of_bytes_of s), H, string_of_bytes_of. Qed.

Lemma bytes_of_cons a s : bytes_of (String a s) = byte_of_ascii a :: bytes_of s.
Proof. done. Qed.

Lemma bytes_of_app s t : bytes_of (String.append s t) = bytes_of s ++ bytes_of t.
Proof. induction s as [|a s IH]; [done|]. exact (f_equal (cons (byte_of_ascii a)) IH). Qed.

Lemma length_bytes_of s : length (bytes_of s) = String.length s.
Proof. induction s as [|a s IH]; [done|]. rewrite bytes_of_cons. simpl. by rewrite IH. Qed.

Lemma len_bytes_of s : len (bytes_of s) = slen s.
Proof. unfold len, slen. by rewrite length_bytes_of. Qed.

Lemma slen_string_of bs : slen (string_of bs) = len bs.
Proof. by rewrite <- len_bytes_of, bytes_of_string_of. Qed.

Lemma slen_append s t : slen (String.append s t) = slen s + slen t.
Proof. rewrite <- !len_bytes_of, bytes_of_app. apply len_app. Qed.

Lemma slen_nonneg s : 0 <= slen s.
Proof. unfold slen; lia. Qed.

Lemma from_utf8_Some bs s : from_utf8 bs = Some s -> s = string_of bs /\ is_Some (utf8_decode bs).
Proof. unfold from_utf8. destruct (utf8_decode bs); [intros [= <-]; eauto | done]. Qed.

Lemma utf8_decode_ascii bs : forallb (fun b => u8 b <? 0x80) bs = true -> utf8_decode bs = Some (u8 <$> bs).
Proof.
  induction bs as [|b bs IH]; [done|]. simpl. intros [Hb Hbs]%andb_prop. by rewrite Hb, IH.
Qed.

Lemma lossy_ascii bs : forallb (fun b => u8 b <? 128) bs = true -> from_utf8_lossy bs = string_of bs.
Proof.
  intros H. unfold from_utf8_lossy. f_equal. induction bs as [|a bs IH]; [done|].
  simpl in *. apply andb_prop in H as [-> H]. by rewrite IH.
Qed.

Lemma one_of_In s l : one_of s l = true <-> In s l.
Proof.
  unfold one_of. rewrite existsb_exists. split.
  - by intros (x & Hx & ->%String.eqb_eq).
  - intros H. exists s. by rewrite String.eqb_refl.
Qed.

Lemma ascii_lower_idem a : ascii_lower (ascii_lower a) = ascii_lower a.
Proof. by destruct a as [[] [] [] [] [] [] [] []]. Qed.

Lemma to_ascii_lowercase_idem s : to_ascii_lowercase (to_ascii_lowercase s) = to_ascii_lowercase s.
Proof. induction s as [|a s IH]; simpl; [done|]. by rewrite ascii_lower_idem, IH. Qed.

Example utf8_ascii : from_utf8 [x66; x6f; x6f] = Some "foo"%string.
Proof. reflexivity. Qed.
Example utf8_overlong : from_utf8 [xc0; x80] = None.
Proof. reflexivity. Qed.
Example utf8_surrogate : from_utf8 [xed; xa0; x80] = None.
Proof. reflexivity. Qed.
Example utf8_four : utf8_decode [xf0; x9f; x98; x80] = Some [0x1F600].
Proof. reflexivity. Qed.
Example utf8_four_encode : utf8_encode_char 0x1F600 = [xf0; x9f; x98; x80].
Proof. vm_compute. reflexivity. Qed.
Example lossy_example :
  from_utf8_lossy [x61; xe2; x82; x62; xff; xf0; x9f; x98; x80] =
  string_of ([x61] ++ REPLACEMENT ++ [x62] ++ REPLACEMENT ++ [xf0; x9f; x98; x80]).
Proof. reflexivity. Qed.
Example radix_example : from_str_radix 65535 16 "6989" = Some 27017 /\ from_str_radix 65535 16 "+1F" = Some 31 /\
  from_str_radix 65535 16 "10000" = None /\ from_str_radix 65535 16 "-1" = None /\ from_str_radix 65535 16 "+" = None.
Proof. vm_compute. done. Qed.
Example hex_example : fmt_x 0 = "0"%string /\ fmt_x 48879 = "beef"%string /\ fmt_x_padded 8 48879 = "0000beef"%string.
Proof. vm_compute. done. Qed.
Example lines_example :
  lines (string_of [x61; x0d; x0a; x0a; x62; x0d]) = ["a"%string; EmptyString; string_of [x62; x0d]] /\
  lines (string_of [x61; x0a]) = ["a"%string].
Proof. vm_compute. done. Qed.
Example words_example : split_whitespace "  Uid:	999   1000 "%string = ["Uid:"; "999"; "1000"]%string.
Proof. vm_compute. done. Qed.
Example trim_end_example : trim_end_matches " (deleted)" "/usr/bin/mongod (deleted) (deleted)" = "/usr/bin/mongod"%string.
Proof. vm_compute. done. Qed.
Example trim_example : trim "  a b	 "%string = "a b"%string.
Proof. vm_compute. reflexivity. Qed.
Example replace_example : replace "=3D" "=" "a=3D3Db=2C"%string = "a=3Db=2C"%string.
Proof. reflexivity. Qed.
Example split_example : split ","%char "n,,a=b"%string = ["n"; ""; "a=b"]%string.
Proof. reflexivity. Qed.
