(* ===== verification/Float64.v ===== *)
(** IEEE binary64 values as the program uses them: decoding from eight bytes,
    comparison with integers and truncating casts.  A value is the standard
    library's [spec_float], computed exactly. *)
From Stdlib Require Import ZArith Lia Floats.SpecFloat.
From stdpp Require Import base list.
From S2P Require Import Prelude.

Definition f64 : Set := spec_float.

(** [f64::from_bits] *)
Definition f64_from_bits (b : Z) : f64 :=
  let s := Z.testbit b 63 in
  let e := Z.land (Z.shiftr b 52) 0x7FF in
  let m := Z.land b (2 ^ 52 - 1) in
  if e =? 0 then (if m =? 0 then S754_zero s else S754_finite s (Z.to_pos m) (-1074))
  else if e =? 0x7FF then (if m =? 0 then S754_infinity s else S754_nan)
  else S754_finite s (Z.to_pos (m + 2 ^ 52)) (e - 1075).
Definition f64_from_le_bytes (bs : bytes) : f64 := f64_from_bits (u64_from_le_bytes bs).

(** [n as f64] for an integer, rounded to nearest even *)
Definition f64_of_Z (n : Z) : f64 := binary_normalize 53 1024 n 0 false.

Definition f64_le (x y : f64) : bool := SFleb x y.
Definition f64_is_zero (x : f64) : bool := SFeqb x (S754_zero false).
Definition f64_is_finite (x : f64) : bool :=
  match x with
  | S754_zero _ | S754_finite _ _ _ => true
  | _ => false
  end.

(** The integer part of a finite magnitude [m * 2^e]. *)
Definition trunc_magnitude (m : positive) (e : Z) : Z :=
  if 0 <=? e then Z.shiftl (Z.pos m) e else Z.shiftr (Z.pos m) (- e).
(** [x.fract() == 0.0]; false for an infinity or a NaN, whose [fract] is NaN *)
Definition f64_fract_is_zero (x : f64) : bool :=
  match x with
  | S754_zero _ => true
  | S754_finite _ m e => (0 <=? e) || (Z.land (Z.pos m) (2 ^ (- e) - 1) =? 0)
  | _ => false
  end.
(** [x as iN] and [x as uN]: truncation toward zero, saturating, NaN to 0 *)
Definition f64_as_int (lo hi : Z) (x : f64) : Z :=
  match x with
  | S754_nan => 0
  | S754_zero _ => 0
  | S754_infinity true => lo
  | S754_infinity false => hi
  | S754_finite s m e =>
      let t := trunc_magnitude m e in
      Z.max lo (Z.min hi (if s then - t else t))
  end.
Definition f64_as_i32 : f64 -> Z := f64_as_int i32_min i32_max.
Definition f64_as_u64 : f64 -> Z := f64_as_int 0 u64_max.

Lemma f64_as_int_range lo hi x : lo <= 0 <= hi -> lo <= f64_as_int lo hi x <= hi.
Proof. intros. destruct x as [|[]| |]; simpl; lia. Qed.

(** 1.0, 35.0, -2.5 and 2^64 by their bit patterns *)
Example f64_one : f64_as_i32 (f64_from_bits 0x3FF0000000000000) = 1.
Proof. reflexivity. Qed.
Example f64_35 : f64_as_u64 (f64_from_bits 0x4041800000000000) = 35.
Proof. reflexivity. Qed.
Example f64_minus_2_5 : f64_as_i32 (f64_from_bits 0xC004000000000000) = -2.
Proof. reflexivity. Qed.
Example f64_minus_2_5_fract : f64_fract_is_zero (f64_from_bits 0xC004000000000000) = false.
Proof. reflexivity. Qed.
Example f64_u64_max : f64_of_Z u64_max = f64_from_bits 0x43F0000000000000.
Proof. vm_compute. reflexivity. Qed.
Example f64_i32_min : f64_of_Z i32_min = f64_from_bits 0xC1E0000000000000.
Proof. vm_compute. reflexivity. Qed.
