(* ===== verification/Json.v ===== *)
(** JSON values as [serde_json] holds them: a [Number] is a [u64], a negative
    [i64] or a finite [f64]; a [Map] keeps its keys sorted (a [BTreeMap]), here
    an association list in increasing key order. *)
From Stdlib Require Import ZArith Lia Strings.String.
From stdpp Require Import base list strings.
From S2P Require Import Prelude Float64.

Inductive JsonNumber : Set :=
| PosInt (n : Z)
| NegInt (n : Z)
| Float (x : f64).

#[warnings="-register-all"]
Inductive JsonValue : Set :=
| JNull
| JBool (b : bool)
| JNumber (n : JsonNumber)
| JString (s : string)
| JArray (l : list JsonValue)
| JObject (m : list (string * JsonValue)).

(** [Number::from] of an integer *)
Definition json_int (z : Z) : JsonValue := JNumber (if 0 <=? z then PosInt z else NegInt z).
(** [Number::from_f64]: only finite values are numbers *)
Definition number_from_f64 (x : f64) : option JsonNumber :=
  if f64_is_finite x then Some (Float x) else None.

(** [Map::insert] (a value already present under the key is replaced) *)
Fixpoint map_insert {A} (k : string) (v : A) (m : list (string * A)) : list (string * A) :=
  match m with
  | [] => [(k, v)]
  | (k', v') :: m' =>
      match String.compare k k' with
      | Lt => (k, v) :: m
      | Eq => (k, v) :: m'
      | Gt => (k', v') :: map_insert k v m'
      end
  end.
(** [Map::get] *)
Fixpoint map_get {A} (k : string) (m : list (string * A)) : option A :=
  match m with
  | [] => None
  | (k', v) :: m => if String.eqb k k' then Some v else map_get k m
  end.
(** The [json!] macro on a one- and a two-field object *)
Definition json1 (k : string) (v : JsonValue) : JsonValue := JObject [(k, v)].
Definition json2 (k : string) (v : JsonValue) (k' : string) (v' : JsonValue) : JsonValue :=
  JObject (map_insert k' v' (map_insert k v [])).

Lemma map_get_insert {A} k v k' (m : list (string * A)) :
  map_get k' (map_insert k v m) = if String.eqb k' k then Some v else map_get k' m.
Proof.
  induction m as [|[j w] m IH]; simpl; [done|].
  destruct (String.compare k j) eqn:Hc; simpl.
  - apply String.compare_eq_iff in Hc as ->. by destruct (String.eqb k' j).
  - done.
  - rewrite IH. destruct (String.eqb_spec k' j) as [->|], (String.eqb_spec j k) as [->|]; try done.
    pose proof (String.compare_antisym k k) as Ha. by rewrite Hc in Ha.
Qed.

(** * Well-formed values: the keys of every object are strictly increasing, so
    no key occurs twice. *)
Definition key_above {A} (k : string) (m : list (string * A)) : bool :=
  match m with
  | [] => true
  | (k', _) :: _ => String.ltb k k'
  end.
Fixpoint sorted_keys {A} (m : list (string * A)) : bool :=
  match m with
  | [] => true
  | (k, _) :: m => key_above k m && sorted_keys m
  end.

Fixpoint json_sorted (v : JsonValue) : bool :=
  match v with
  | JArray l => forallb json_sorted l
  | JObject m => sorted_keys m && forallb (fun kv => json_sorted (snd kv)) m
  | _ => true
  end.

Lemma key_above_insert {A} k k' (v : A) m :
  String.ltb k k' = true -> key_above k m = true -> key_above k (map_insert k' v m) = true.
Proof.
  intros Hlt. destruct m as [|[j w] m]; [done|]. simpl. by destruct (String.compare k' j).
Qed.

Lemma map_insert_sorted {A} k (v : A) m : sorted_keys m = true -> sorted_keys (map_insert k v m) = true.
Proof.
  induction m as [|[j w] m IH]; [done|]. simpl. intros [Ha Hm]%andb_prop.
  destruct (String.compare k j) eqn:Hc; simpl.
  - apply String.compare_eq_iff in Hc as ->. by rewrite Ha, Hm.
  - unfold String.ltb. by rewrite Hc, Ha, Hm.
  - rewrite key_above_insert; [by apply IH| |done]. unfold String.ltb.
    by rewrite String.compare_antisym, Hc.
Qed.

Lemma map_insert_values {A} (p : A -> bool) k v m :
  p v = true -> forallb (fun kv => p (snd kv)) m = true ->
  forallb (fun kv => p (snd kv)) (map_insert k v m) = true.
Proof.
  intros Hv. induction m as [|[j w] m IH]; simpl; [by rewrite Hv|]. intros [Hw Hm]%andb_prop.
  destruct (String.compare k j); simpl; rewrite ?Hv, ?Hw, ?Hm; simpl; auto.
Qed.

Lemma json_sorted_insert k v m :
  json_sorted v = true -> json_sorted (JObject m) = true -> json_sorted (JObject (map_insert k v m)) = true.
Proof.
  simpl. intros Hv [Hs Hm]%andb_prop. by rewrite map_insert_sorted, map_insert_values.
Qed.

Lemma json1_sorted k v : json_sorted v = true -> json_sorted (json1 k v) = true.
Proof. intros Hv. simpl. by rewrite Hv. Qed.
Lemma json2_sorted k v k' v' :
  json_sorted v = true -> json_sorted v' = true -> json_sorted (json2 k v k' v') = true.
Proof. intros Hv Hv'. apply json_sorted_insert; [done|]. by apply json1_sorted. Qed.
