(* ===== verification/Bson.v ===== *)
(** BSON primitives of crates/mongo-protocol/src/lib.rs: reading integers,
    strings and binaries out of a byte buffer, skipping a value of a given
    type, and the delete-statement summaries built on them.  Offsets are
    [usize] values; every index and slice expression of the source that can
    panic is an explicit [index], [slice], [uadd] or [usub] here. *)
From Stdlib Require Import ZArith Lia ZifyBool Strings.Byte Strings.Ascii Strings.String.
From stdpp Require Import base list strings.
From S2P Require Import Prelude Text Float64.

Inductive DecodeError : Set :=
| InvalidFrameLength (n : Z)
| FrameTooLarge
| BufferTooLarge
| Truncated
| UnsupportedOpcode (n : Z)
| UnsupportedSection (n : Z)
| InvalidBson
| InvalidCompressed
| UnsupportedCompressor (n : Z)
| Decompression (msg : string).

Abbreviation R := (res DecodeError).

Definition any_of (t : Z) (l : list Z) : bool := existsb (Z.eqb t) l.

(** * Integers *)
Definition read_le {A} (n : Z) (conv : bytes -> A) (bytes : bytes) (offset : Z) : R A :=
  let! stop := uadd offset n in
  let! raw := ok_or Truncated (get_range bytes offset stop) in
  Ok (conv raw).
Definition read_i32 : bytes -> Z -> R Z := read_le 4 i32_from_le_bytes.
Definition read_u32 : bytes -> Z -> R Z := read_le 4 u32_from_le_bytes.
Definition read_i64 : bytes -> Z -> R Z := read_le 8 i64_from_le_bytes.
Definition read_u64 : bytes -> Z -> R Z := read_le 8 u64_from_le_bytes.

(** * Strings *)
Definition is_nul (b : byte) : bool := u8 b =? 0.

Definition read_cstring (bytes : bytes) (offset : Z) : R (string * Z) :=
  let! rest := ok_or InvalidBson (get_from bytes offset) in
  let! relative_end := ok_or InvalidBson (position is_nul rest) in
  let! stop := uadd offset relative_end in
  let! raw := slice bytes offset stop in
  let! value := ok_or InvalidBson (from_utf8 raw) in
  let! next := uadd stop 1 in
  Ok (value, next).

Definition read_bson_string (bytes : bytes) (offset : Z) : R string :=
  let! length := read_i32 bytes offset in
  if length <? 1 then Err InvalidBson else
  let! start := uadd offset 4 in
  let! stop := ok_or InvalidBson (checked_add start (as_usize length)) in
  if len bytes <? stop then Err InvalidBson else
  let! last := usub stop 1 in
  let! terminator := index bytes last in
  if negb (u8 terminator =? 0) then Err InvalidBson else
  let! raw := slice bytes start last in
  ok_or InvalidBson (from_utf8 raw).

Definition read_bson_binary (bytes : bytes) (offset : Z) : R Prelude.bytes :=
  let! length := read_i32 bytes offset in
  if length <? 0 then Err InvalidBson else
  let! start := ok_or InvalidBson (checked_add offset 5) in
  let! stop := ok_or InvalidBson (checked_add start (as_usize length)) in
  ok_or InvalidBson (get_range bytes start stop).

Definition encode_hex (bytes : bytes) : string :=
  string_of (concat ((fun b => [hex_digit (Z.shiftr (u8 b) 4); hex_digit (Z.land (u8 b) 0x0f)]) <$> bytes)).

(** * Skipping a value *)
(** [.filter(|end| *end <= bytes.len())] *)
Definition within {A} (l : list A) (stop : option Z) : option Z :=
  match stop with
  | Some e => if e <=? len l then Some e else None
  | None => None
  end.

Definition fixed_length (element_type : Z) : option Z :=
  if any_of element_type [0x01; 0x09; 0x11; 0x12] then Some 8
  else if element_type =? 0x07 then Some 12
  else if element_type =? 0x08 then Some 1
  else if any_of element_type [0x0A; 0x06; 0x7f; 0xff] then Some 0
  else if element_type =? 0x10 then Some 4
  else if element_type =? 0x13 then Some 16
  else None.

Definition skip_value (bytes : bytes) (offset element_type : Z) : R Z :=
  match fixed_length element_type with
  | Some length => ok_or InvalidBson (within bytes (checked_add offset length))
  | None =>
      if any_of element_type [0x02; 0x0d; 0x0e] then
        let! length := read_i32 bytes offset in
        if length <? 1 then Err InvalidBson else
        let! n := uadd 4 (as_usize length) in
        ok_or InvalidBson (within bytes (checked_add offset n))
      else if any_of element_type [0x03; 0x04; 0x0f] then
        let! length := read_i32 bytes offset in
        if length <? 5 then Err InvalidBson else
        ok_or InvalidBson (within bytes (checked_add offset (as_usize length)))
      else if element_type =? 0x05 then
        let! length := read_i32 bytes offset in
        if length <? 0 then Err InvalidBson else
        let! n := uadd 5 (as_usize length) in
        ok_or InvalidBson (within bytes (checked_add offset n))
      else if element_type =? 0x0b then
        let! (_, after_pattern) := read_cstring bytes offset in
        let! (_, after_options) := read_cstring bytes after_pattern in
        Ok after_options
      else if element_type =? 0x0c then
        let! length := read_i32 bytes offset in
        if length <? 1 then Err InvalidBson else
        let! n := uadd 4 (as_usize length) in
        let! n := uadd n 12 in
        ok_or InvalidBson (within bytes (checked_add offset n))
      else Err InvalidBson
  end.

(** * Lenient scalars.  An [Option] that may panic is a [res unit]. *)
Definition get8 (bytes : bytes) (offset : Z) : res unit Prelude.bytes :=
  let! stop := uadd offset 8 in
  ok_or tt (get_range bytes offset stop).

Definition no_error {E A} (r : res E A) : res unit A := map_err (fun _ => tt) r.

Definition read_boolish (bytes : bytes) (offset element_type : Z) : res unit bool :=
  if element_type =? 0x01 then
    let! raw := get8 bytes offset in
    Ok (negb (f64_is_zero (f64_from_le_bytes raw)))
  else if element_type =? 0x08 then
    let! b := ok_or tt (get bytes offset) in
    Ok (negb (u8 b =? 0))
  else if element_type =? 0x10 then
    let! v := no_error (read_i32 bytes offset) in
    Ok (negb (v =? 0))
  else if element_type =? 0x12 then
    let! raw := get8 bytes offset in
    Ok (negb (i64_from_le_bytes raw =? 0))
  else Err tt.

(** [i32::try_from] and [u64::try_from] of a signed value *)
Definition i32_try_from (v : Z) : res unit Z :=
  if (i32_min <=? v) && (v <=? i32_max) then Ok v else Err tt.
Definition u64_try_from (v : Z) : res unit Z := if 0 <=? v then Ok v else Err tt.

Definition read_i32ish (bytes : bytes) (offset element_type : Z) : res unit Z :=
  if element_type =? 0x10 then no_error (read_i32 bytes offset)
  else if element_type =? 0x12 then
    let! raw := get8 bytes offset in
    i32_try_from (i64_from_le_bytes raw)
  else if element_type =? 0x01 then
    let! raw := get8 bytes offset in
    let value := f64_from_le_bytes raw in
    if f64_le (f64_of_Z i32_min) value && f64_le value (f64_of_Z i32_max)
    then Ok (f64_as_i32 value) else Err tt
  else Err tt.

Definition read_u64ish (bytes : bytes) (offset element_type : Z) : res unit Z :=
  if element_type =? 0x10 then
    let! v := no_error (read_i32 bytes offset) in
    u64_try_from v
  else if element_type =? 0x12 then
    let! raw := get8 bytes offset in
    u64_try_from (i64_from_le_bytes raw)
  else if element_type =? 0x01 then
    let! raw := get8 bytes offset in
    let value := f64_from_le_bytes raw in
    if f64_is_finite value && f64_le (f64_of_Z 0) value && f64_fract_is_zero value
       && f64_le value (f64_of_Z u64_max)
    then Ok (f64_as_u64 value) else Err tt
  else Err tt.

(** * Delete statements *)
Inductive DeleteScope : Set := Single | Multi | Mixed.

(** The frame of every document reader: a length prefix that is the length of
    the buffer, and a final NUL. *)
Definition check_container (document : bytes) : R unit :=
  if len document <? 5 then Err InvalidBson else
  let! declared := read_i32 document 0 in
  if negb (as_usize declared =? len document) then Err InvalidBson else
  match last_elem document with
  | Some b => if u8 b =? 0 then Ok tt else Err InvalidBson
  | None => Err InvalidBson
  end.

Fixpoint limit_loop (fuel : nat) (statement : bytes) (offset : Z) : R (option Z) :=
  match fuel with
  | O => Fault OutOfFuel
  | S fuel =>
      let! last := usub (len statement) 1 in
      if offset <? last then
        let! element_type := index statement offset in
        let! offset := uadd offset 1 in
        let! (key, after_key) := read_cstring statement offset in
        let value_start := after_key in
        let! offset := skip_value statement after_key (u8 element_type) in
        if String.eqb key "limit" then ok (read_i32ish statement value_start (u8 element_type))
        else limit_loop fuel statement offset
      else Ok None
  end.

Definition delete_statement_limit (statement : bytes) : R (option Z) :=
  let! _ := check_container statement in
  limit_loop (length statement) statement 4.

Record DeleteCount : Set := {
  statements : Z;
  has_single : bool;
  has_multi : bool
}.

Definition count_limit (limit : option Z) (c : DeleteCount) : DeleteCount :=
  match limit with
  | Some 0 => {| statements := statements c; has_single := has_single c; has_multi := true |}
  | Some 1 => {| statements := statements c; has_single := true; has_multi := has_multi c |}
  | _ => c
  end.
Definition count_statement (c : DeleteCount) : DeleteCount :=
  {| statements := saturating_add u32_max (statements c) 1;
     has_single := has_single c; has_multi := has_multi c |}.
Definition no_statements : DeleteCount :=
  {| statements := 0; has_single := false; has_multi := false |}.

Definition scope_of (c : DeleteCount) : option DeleteScope :=
  match has_single c, has_multi c with
  | true, true => Some Mixed
  | true, false => Some Single
  | false, true => Some Multi
  | false, false => None
  end.

Fixpoint delete_statements_loop (fuel : nat) (array : bytes) (offset : Z) (c : DeleteCount)
  : R DeleteCount :=
  match fuel with
  | O => Fault OutOfFuel
  | S fuel =>
      let! last := usub (len array) 1 in
      if offset <? last then
        let! element_type := index array offset in
        let! offset := uadd offset 1 in
        let! (_, after_key) := read_cstring array offset in
        let value_start := after_key in
        let! offset := skip_value array after_key (u8 element_type) in
        if negb (u8 element_type =? 0x03) then delete_statements_loop fuel array offset c else
        let c := count_statement c in
        let! statement := ok_or InvalidBson (get_range array value_start offset) in
        let! limit := delete_statement_limit statement in
        delete_statements_loop fuel array offset (count_limit limit c)
      else Ok c
  end.

Definition summarize_delete_statements (array : bytes) : R (option DeleteScope * Z) :=
  let! _ := check_container array in
  let! c := delete_statements_loop (length array) array 4 no_statements in
  Ok (scope_of c, statements c).

Fixpoint delete_sequence_loop (fuel : nat) (documents : bytes) (offset : Z) (c : DeleteCount)
  : R DeleteCount :=
  match fuel with
  | O => Fault OutOfFuel
  | S fuel =>
      if offset <? len documents then
        let! length := read_i32 documents offset in
        if length <? 5 then Err InvalidBson else
        let! stop := ok_or InvalidBson (within documents (checked_add offset (as_usize length))) in
        let c := count_statement c in
        let! statement := slice documents offset stop in
        let! limit := delete_statement_limit statement in
        delete_sequence_loop fuel documents stop (count_limit limit c)
      else Ok c
  end.

Definition summarize_delete_document_sequence (documents : bytes) : R (option DeleteScope * Z) :=
  let! c := delete_sequence_loop (S (length documents)) documents 0 no_statements in
  Ok (scope_of c, statements c).

(** * SCRAM *)
Definition parse_scram_principal (payload : bytes) : option string :=
  match from_utf8 payload with
  | None => None
  | Some payload =>
      match find_map (fun field =>
              match strip_prefix "n=" field with
              | Some value => if String.eqb value "" then None else Some value
              | None => None
              end) (split ","%char payload) with
      | None => None
      | Some encoded =>
          if 768 <? slen encoded then None else
          let decoded := replace "=3D" "=" (replace "=2C" "," encoded) in
          if negb (String.eqb decoded "") && (slen decoded <=? 256)
             && negb (existsb is_control (chars decoded))
          then Some decoded else None
      end
  end.

(** * Safety of the primitives

    Each lemma says that the operation cannot panic on a buffer of legal size
    at an offset inside it, and bounds the offset it returns. *)
Section safety.
Context (bs : bytes) (Hlen : len bs <= isize_max).

Lemma safe_read_le {A} n (conv : bytes -> A) offset :
  0 <= offset -> 0 <= n -> offset + n <= usize_max ->
  safe (fun v => offset + n <= len bs /\
                 exists raw, get_range bs offset (offset + n) = Some raw /\ len raw = n /\ v = conv raw)
       (read_le n conv bs offset).
Proof.
  intros H0 Hn Ho. unfold read_le. unfold uadd. replace (_ <=? _) with true by lia. simpl.
  destruct (get_range bs offset (offset + n)) as [raw|] eqn:Hr; simpl; [|done].
  apply get_range_Some in Hr as (?&?&?&?). split; [lia|]. exists raw. split; [|split; [lia|done]]. done.
Qed.

Lemma safe_read_i32 offset :
  0 <= offset <= len bs + 8 ->
  safe (fun v => i32_min <= v <= i32_max /\ offset + 4 <= len bs) (read_i32 bs offset).
Proof.
  intros Ho. eapply safe_mono; [apply safe_read_le; lia|].
  intros v (Hl & raw & Hr & Hraw & ->). split; [by apply i32_from_range | lia].
Qed.

Lemma safe_read_u64 offset :
  0 <= offset <= len bs + 8 -> safe (fun v => offset + 8 <= len bs) (read_u64 bs offset).
Proof. intros Ho. eapply safe_mono; [apply safe_read_le; lia|]. simpl; intros; lia. Qed.

Lemma safe_read_i64 offset :
  0 <= offset <= len bs + 8 -> safe (fun v => offset + 8 <= len bs) (read_i64 bs offset).
Proof. intros Ho. eapply safe_mono; [apply safe_read_le; lia|]. simpl; intros; lia. Qed.

Lemma safe_read_u32 offset :
  0 <= offset <= len bs + 8 -> safe (fun v => offset + 4 <= len bs) (read_u32 bs offset).
Proof. intros Ho. eapply safe_mono; [apply safe_read_le; lia|]. simpl; intros; lia. Qed.

Lemma safe_get8 offset :
  0 <= offset <= len bs -> safe (fun raw => len raw = 8) (get8 bs offset).
Proof.
  intros. unfold get8. apply safe_bind. eapply safe_mono; [apply safe_uadd; lia|]. intros ? ->.
  apply safe_ok_or. intros raw Hr. apply get_range_Some in Hr. lia.
Qed.

Lemma safe_read_cstring offset :
  0 <= offset <= len bs ->
  safe (fun r => offset < snd r <= len bs) (read_cstring bs offset).
Proof.
  intros Ho. unfold read_cstring. unfold get_from.
  rewrite get_range_in by lia. simpl ok_or. cbn [mbind res_bind].
  set (rest := take _ _). assert (len rest = len bs - offset) as Hrest.
  { unfold rest, len. rewrite length_take, length_drop. unfold len in *. lia. }
  destruct (position is_nul rest) as [rel|] eqn:Hp; simpl; [|done].
  apply position_Some in Hp as [Hp _].
  apply safe_bind. eapply safe_mono; [apply safe_uadd; lia|]. intros ? ->.
  apply safe_bind. eapply safe_mono; [apply safe_slice; lia|]. intros raw _.
  apply safe_bind. apply safe_ok_or. intros value _.
  apply safe_bind. eapply safe_mono; [apply safe_uadd; lia|]. intros ? ->. simpl. lia.
Qed.

Lemma safe_within offset n :
  0 <= offset -> 0 <= n ->
  safe (fun stop => offset <= stop <= len bs /\ stop = offset + n)
       (ok_or InvalidBson (within bs (checked_add offset n))).
Proof.
  intros. apply safe_ok_or. unfold within, checked_add. intros stop.
  destruct (_ <=? usize_max) eqn:?; [|done]. destruct (_ <=? len bs) eqn:?; [|done].
  intros [= <-]. lia.
Qed.

Lemma fixed_length_nonneg t n : fixed_length t = Some n -> 0 <= n.
Proof. unfold fixed_length. repeat case_match; intros [= <-]; lia. Qed.

End safety.
#[export] Hint Resolve safe_read_i32 safe_read_u32 safe_read_i64 safe_read_u64 safe_get8
  safe_read_cstring safe_within : safedb.
#[export] Hint Extern 20 (safe _ (ok_or _ _)) => apply (safe_ok_or (fun _ => True)); done : safedb.
#[export] Hint Extern 1 (safe _ (no_error _)) => apply safe_map_err : safedb.

Section safety2.
Context (bs : bytes) (Hlen : len bs <= isize_max).

Lemma safe_read_bson_string offset :
  0 <= offset <= len bs ->
  safe (fun _ => exists n, read_i32 bs offset = Ok n /\ 1 <= n <= i32_max /\ offset + 4 + n <= len bs)
    (read_bson_string bs offset).
Proof.
  intros Ho. unfold read_bson_string.
  pose proof (safe_read_i32 bs Hlen offset ltac:(lia)) as Hr.
  destruct (read_i32 bs offset) as [n| |] eqn:Hn; [|done..]. simpl in Hr.
  cbn [mbind res_bind]. safe_step; [done|].
  rewrite as_usize_id by lia. safe_run; try done; exists n; split; try done; lia.
Qed.

Lemma safe_read_bson_binary offset :
  0 <= offset <= len bs -> safe (fun _ => True) (read_bson_binary bs offset).
Proof. intros Ho. unfold read_bson_binary. by safe_run. Qed.

Lemma safe_skip_value offset t :
  0 <= offset <= len bs ->
  safe (fun next => offset <= next <= len bs) (skip_value bs offset t).
Proof.
  intros Ho. unfold skip_value. destruct (fixed_length t) as [n|] eqn:Hf.
  { apply fixed_length_nonneg in Hf. safe_call. lia. }
  safe_run; lia.
Qed.

Lemma safe_i32_try_from v : safe (fun _ => True) (i32_try_from v).
Proof. unfold i32_try_from. by safe_step. Qed.
Lemma safe_u64_try_from v : safe (fun _ => True) (u64_try_from v).
Proof. unfold u64_try_from. by safe_step. Qed.
Hint Resolve safe_i32_try_from safe_u64_try_from : safedb.

Lemma safe_read_boolish offset t :
  0 <= offset <= len bs -> safe (fun _ => True) (read_boolish bs offset t).
Proof. intros. unfold read_boolish. by safe_run. Qed.
Lemma safe_read_i32ish offset t :
  0 <= offset <= len bs -> safe (fun _ => True) (read_i32ish bs offset t).
Proof. intros. unfold read_i32ish. by safe_run. Qed.
Lemma safe_read_u64ish offset t :
  0 <= offset <= len bs -> safe (fun _ => True) (read_u64ish bs offset t).
Proof. intros. unfold read_u64ish. by safe_run. Qed.

Lemma safe_check_container : safe (fun _ => 5 <= len bs) (check_container bs).
Proof. unfold check_container. pose proof (len_nonneg bs). safe_run; lia. Qed.
End safety2.
#[export] Hint Resolve safe_read_bson_string safe_read_bson_binary safe_skip_value
  safe_read_boolish safe_read_i32ish safe_read_u64ish safe_check_container : safedb.
#[export] Hint Extern 1 (safe _ (ok _)) => apply safe_ok : safedb.

Lemma safe_true {E A} (Q : A -> Prop) (r : res E A) :
  safe (fun _ => True) r -> (forall a, Q a) -> safe Q r.
Proof. eauto using safe_mono. Qed.

Lemma fuel_of_len {A} (l : list A) : len l < Z.of_nat (S (length l)).
Proof. unfold len; lia. Qed.

Section delete_safety.
Lemma safe_limit_loop bs offset fuel :
  1 <= len bs <= isize_max -> 0 <= offset <= len bs -> len bs - offset < Z.of_nat fuel ->
  safe (fun _ => True) (limit_loop fuel bs offset).
Proof.
  intros Hlen. revert offset. induction fuel as [|fuel IH]; intros offset Ho Hf; [lia|].
  cbn [limit_loop]. by safe_run.
Qed.

Lemma safe_delete_statement_limit bs :
  len bs <= isize_max -> safe (fun _ => True) (delete_statement_limit bs).
Proof.
  intros. unfold delete_statement_limit. safe_step. safe_call.
  apply safe_limit_loop; unfold len in *; lia.
Qed.
Hint Resolve safe_delete_statement_limit : safedb.

Lemma safe_delete_statements_loop bs offset fuel c :
  1 <= len bs <= isize_max -> 0 <= offset <= len bs -> len bs - offset < Z.of_nat fuel ->
  safe (fun _ => True) (delete_statements_loop fuel bs offset c).
Proof.
  intros Hlen. revert offset c. induction fuel as [|fuel IH]; intros offset c Ho Hf; [lia|].
  cbn [delete_statements_loop]. by safe_run.
Qed.

Lemma safe_summarize_delete_statements bs :
  len bs <= isize_max -> safe (fun _ => True) (summarize_delete_statements bs).
Proof.
  intros. unfold summarize_delete_statements. safe_step. safe_call. safe_step.
  eapply safe_mono; [apply safe_delete_statements_loop; unfold len in *; lia|]. done.
Qed.

Lemma safe_delete_sequence_loop bs offset fuel c :
  len bs <= isize_max -> 0 <= offset <= len bs -> len bs - offset < Z.of_nat fuel ->
  safe (fun _ => True) (delete_sequence_loop fuel bs offset c).
Proof.
  intros Hlen. revert offset c. induction fuel as [|fuel IH]; intros offset c Ho Hf; [lia|].
  cbn [delete_sequence_loop]. 
  by safe_run.
Qed.

Lemma safe_summarize_delete_document_sequence bs :
  len bs <= isize_max -> safe (fun _ => True) (summarize_delete_document_sequence bs).
Proof.
  intros. unfold summarize_delete_document_sequence. safe_step.
  eapply safe_mono; [apply safe_delete_sequence_loop; unfold len in *; lia|]. done.
Qed.
End delete_safety.
#[export] Hint Resolve safe_delete_statement_limit safe_summarize_delete_statements
  safe_summarize_delete_document_sequence : safedb.
