(* ===== verification/BsonJson.v ===== *)
(** Conversion of BSON documents, arrays and values to JSON, as in
    [bson_container_to_json], [bson_value_to_json] and
    [bson_document_sequence_to_json] of crates/mongo-protocol/src/lib.rs.  The
    recursion of the source through nested documents is bounded here by a depth
    that starts above the length of the buffer; every nested document is
    strictly shorter, so it is never exhausted. *)
From Stdlib Require Import ZArith Lia ZifyBool Strings.Byte Strings.String.
From stdpp Require Import base list strings.
From S2P Require Import Prelude Text Float64 Json Bson.

Local Open Scope string_scope.
Local Open Scope Z_scope.

(** [f64::to_string] of the values that are not JSON numbers *)
Definition nonfinite_to_string (x : f64) : string :=
  match x with
  | SpecFloat.S754_infinity true => "-inf"
  | SpecFloat.S754_infinity false => "inf"
  | _ => "NaN"
  end.

(** The [0x0c] arm: the string is read again as a length, to find the end of it. *)
Definition bson_db_pointer (bytes : bytes) (offset stop : Z) : R JsonValue :=
  let! namespace := read_bson_string bytes offset in
  let! length := read_i32 bytes offset in
  let! object_id_start := uadd offset 4 in
  let! object_id_start := uadd object_id_start (as_usize length) in
  let! id := ok_or InvalidBson (get_range bytes object_id_start stop) in
  Ok (json1 "$dbPointer" (json2 "$ref" (JString namespace) "$id" (JString (encode_hex id)))).

Section value.
(** [bson_document_to_json] and [bson_array_to_json] on a nested buffer *)
Variable container : bytes -> bool -> R JsonValue.

Definition bson_value (bytes : bytes) (offset stop element_type : Z) : R JsonValue :=
  if element_type =? 0x01 then
    let! raw := ok_or InvalidBson (get_range bytes offset stop) in
    let value := f64_from_le_bytes raw in
    Ok (match number_from_f64 value with
        | Some n => JNumber n
        | None => json1 "$numberDouble" (JString (nonfinite_to_string value))
        end)
  else if element_type =? 0x02 then
    let! s := read_bson_string bytes offset in Ok (JString s)
  else if element_type =? 0x03 then
    let! nested := ok_or InvalidBson (get_range bytes offset stop) in container nested false
  else if element_type =? 0x04 then
    let! nested := ok_or InvalidBson (get_range bytes offset stop) in container nested true
  else if element_type =? 0x05 then
    let! at_subtype := uadd offset 4 in
    let! subtype := ok_or InvalidBson (get bytes at_subtype) in
    let! data := read_bson_binary bytes offset in
    Ok (json1 "$binary" (json2 "hex" (JString (encode_hex data))
                               "subType" (JString (fmt_02x subtype))))
  else if element_type =? 0x06 then Ok (json1 "$undefined" (JBool true))
  else if element_type =? 0x07 then
    let! raw := ok_or InvalidBson (get_range bytes offset stop) in
    Ok (json1 "$oid" (JString (encode_hex raw)))
  else if element_type =? 0x08 then
    let! b := ok_or InvalidBson (get bytes offset) in Ok (JBool (negb (u8 b =? 0)))
  else if element_type =? 0x09 then
    let! v := read_i64 bytes offset in
    Ok (json1 "$date" (json1 "$numberLong" (JString (int_to_string v))))
  else if element_type =? 0x0a then Ok JNull
  else if element_type =? 0x0b then
    let! (pattern, after_pattern) := read_cstring bytes offset in
    let! (options, _) := read_cstring bytes after_pattern in
    Ok (json1 "$regularExpression" (json2 "pattern" (JString pattern)
                                          "options" (JString options)))
  else if element_type =? 0x0c then
    bson_db_pointer bytes offset stop
  else if element_type =? 0x0d then
    let! s := read_bson_string bytes offset in Ok (json1 "$code" (JString s))
  else if element_type =? 0x0e then
    let! s := read_bson_string bytes offset in Ok (json1 "$symbol" (JString s))
  else if element_type =? 0x10 then
    let! v := read_i32 bytes offset in Ok (json_int v)
  else if element_type =? 0x11 then
    let! v := read_u64 bytes offset in
    Ok (json1 "$timestamp" (json2 "t" (json_int (Z.shiftr v 32))
                                  "i" (json_int (Z.land v 0xffffffff))))
  else if element_type =? 0x12 then
    let! v := read_i64 bytes offset in Ok (json_int v)
  else if element_type =? 0x13 then
    let! raw := ok_or InvalidBson (get_range bytes offset stop) in
    Ok (json1 "$numberDecimalBytes" (JString (encode_hex raw)))
  else if element_type =? 0x7f then Ok (json1 "$maxKey" (json_int 1))
  else if element_type =? 0xff then Ok (json1 "$minKey" (json_int 1))
  else Err InvalidBson.

Definition bson_value_to_json (bytes : bytes) (offset element_type : Z) : R (JsonValue * Z) :=
  let! stop := skip_value bytes offset element_type in
  let! value := bson_value bytes offset stop element_type in
  Ok (value, stop).

Fixpoint container_loop (fuel : nat) (document : bytes) (array : bool) (offset : Z)
    (object : list (string * JsonValue)) (values : list JsonValue) : R JsonValue :=
  match fuel with
  | O => Fault OutOfFuel
  | S fuel =>
      let! last := usub (len document) 1 in
      if offset <? last then
        let! element_type := index document offset in
        let! offset := uadd offset 1 in
        let! (key, after_key) := read_cstring document offset in
        let! (value, next) := bson_value_to_json document after_key (u8 element_type) in
        let! last := usub (len document) 1 in
        if last <? next then Err InvalidBson else
        if array then container_loop fuel document array next object (values ++ [value])
        else container_loop fuel document array next (map_insert key value object) values
      else Ok (if array then JArray values else JObject object)
  end.
End value.

Fixpoint bson_container_at (depth : nat) (document : bytes) (array : bool) : R JsonValue :=
  match depth with
  | O => Fault OutOfFuel
  | S depth =>
      let! _ := check_container document in
      container_loop (bson_container_at depth) (length document) document array 4 [] []
  end.

Definition bson_container_to_json (document : bytes) (array : bool) : R JsonValue :=
  bson_container_at (S (length document)) document array.
Definition bson_document_to_json (document : bytes) : R JsonValue :=
  bson_container_to_json document false.

Fixpoint document_sequence_loop (fuel : nat) (documents : bytes) (offset : Z)
    (result : list JsonValue) : R (list JsonValue) :=
  match fuel with
  | O => Fault OutOfFuel
  | S fuel =>
      if offset <? len documents then
        let! length := read_i32 documents offset in
        if length <? 5 then Err InvalidBson else
        let! stop := ok_or InvalidBson (within documents (checked_add offset (as_usize length))) in
        let! document := slice documents offset stop in
        let! value := bson_document_to_json document in
        document_sequence_loop fuel documents stop (result ++ [value])
      else Ok result
  end.

Definition bson_document_sequence_to_json (documents : bytes) : R (list JsonValue) :=
  document_sequence_loop (S (length documents)) documents 0 [].

(** * No conversion panics or exhausts its depth *)
Lemma safe_bson_db_pointer bs offset stop :
  len bs <= isize_max -> 0 <= offset <= len bs ->
  safe (fun _ => True) (bson_db_pointer bs offset stop).
Proof.
  intros Hlen Ho. unfold bson_db_pointer. safe_step. safe_call.
  match goal with H : exists n, _ |- _ => destruct H as (n & Hn & ? & ?) end.
  rewrite Hn. cbn [mbind res_bind]. rewrite as_usize_id by lia. by safe_run.
Qed.
#[local] Hint Resolve safe_bson_db_pointer : safedb.

Section safety.
Variable container : bytes -> bool -> R JsonValue.

Lemma safe_bson_value bs offset stop t :
  len bs <= isize_max -> 0 <= offset <= len bs -> offset <= stop <= len bs ->
  (forall nested array, len nested <= len bs - offset ->
     safe (fun _ => True) (container nested array)) ->
  safe (fun _ => True) (bson_value container bs offset stop t).
Proof.
  intros Hlen Ho Hs Hc. unfold bson_value.
  by safe_run.
Qed.

Lemma safe_bson_value_to_json bs offset t :
  len bs <= isize_max -> 0 <= offset <= len bs ->
  (forall nested array, len nested <= len bs - offset ->
     safe (fun _ => True) (container nested array)) ->
  safe (fun r => offset <= snd r <= len bs) (bson_value_to_json container bs offset t).
Proof.
  intros Hlen Ho Hc. unfold bson_value_to_json. safe_step. safe_call. safe_step.
  eapply safe_mono; [by apply safe_bson_value|]. done.
Qed.

Lemma safe_container_loop bs array fuel offset object values :
  1 <= len bs <= isize_max -> 4 <= offset <= len bs -> len bs - offset < Z.of_nat fuel ->
  (forall nested array, len nested <= len bs - 4 ->
     safe (fun _ => True) (container nested array)) ->
  safe (fun _ => True) (container_loop container fuel bs array offset object values).
Proof.
  intros Hlen Ho Hf Hc. revert offset object values Ho Hf.
  induction fuel as [|fuel IH]; intros offset object values Ho Hf; [lia|].
  cbn [container_loop]. safe_step. safe_call. safe_step; [|done].
  safe_step. safe_call. safe_step. safe_call. safe_step. safe_call. safe_step.
  eapply safe_mono.
  { apply safe_bson_value_to_json; [lia..|]. intros nested b Hn. apply Hc. lia. }
  safe_intro. by safe_run.
Qed.
End safety.

Lemma safe_bson_container_at depth bs array :
  len bs <= isize_max -> len bs < Z.of_nat depth ->
  safe (fun _ => True) (bson_container_at depth bs array).
Proof.
  revert bs array. induction depth as [|depth IH]; intros bs array Hlen Hd.
  { pose proof (len_nonneg bs). lia. }
  cbn [bson_container_at]. safe_step. safe_call.
  apply safe_container_loop; [lia|lia|unfold len in *; lia|].
  intros nested b Hn. apply IH; lia.
Qed.

Lemma safe_bson_document_to_json bs :
  len bs <= isize_max -> safe (fun _ => True) (bson_document_to_json bs).
Proof. intros. apply safe_bson_container_at; [done | apply fuel_of_len]. Qed.
#[export] Hint Resolve safe_bson_document_to_json : safedb.

Lemma safe_document_sequence_loop bs offset fuel result :
  len bs <= isize_max -> 0 <= offset <= len bs -> len bs - offset < Z.of_nat fuel ->
  safe (fun _ => True) (document_sequence_loop fuel bs offset result).
Proof.
  intros Hlen. revert offset result. induction fuel as [|fuel IH]; intros offset result Ho Hf; [lia|].
  cbn [document_sequence_loop].
  by safe_run.
Qed.

Lemma safe_bson_document_sequence_to_json bs :
  len bs <= isize_max -> safe (fun _ => True) (bson_document_sequence_to_json bs).
Proof.
  intros. apply safe_document_sequence_loop; [done| |apply fuel_of_len || unfold len; lia].
  pose proof (len_nonneg bs); lia.
Qed.
#[export] Hint Resolve safe_bson_document_sequence_to_json : safedb.
