(* ===== verification/Summary.v ===== *)
(** Summaries of BSON command and reply documents: [summarize_bson_inner],
    [summarize_bson_prefix] and [command_from_summary] of
    crates/mongo-protocol/src/lib.rs.  These decide which facts of a MongoDB
    command (and whether its content) leave the sensor. *)
From Stdlib Require Import ZArith Lia ZifyBool Strings.Byte Strings.String.
From stdpp Require Import base list strings.
From S2P Require Import Prelude Text Float64 Json Bson BsonJson.

Local Open Scope string_scope.
Local Open Scope Z_scope.

Record MongoCommand : Set := {
  name : string;
  database : option string;
  collection : option string;
  auth_mechanism : option string;
  principal : option string;
  speculative_auth : bool;
  delete_scope : option DeleteScope;
  delete_statements : option Z;
  query : option JsonValue
}.

(** The fields of the source's [BsonSummary], prefixed with [s_]. *)
Record BsonSummary : Set := {
  s_first_key : option string;
  s_first_string : option string;
  s_database : option string;
  s_collection : option string;
  s_ok : option bool;
  s_code : option Z;
  s_code_name : option string;
  s_auth_mechanism : option string;
  s_principal : option string;
  s_speculative_auth : bool;
  s_delete_scope : option DeleteScope;
  s_delete_statements : option Z;
  s_affected_count : option Z;
  s_auth_done : option bool;
  s_query : option JsonValue
}.

(** [BsonSummary::default()] *)
Definition empty_summary : BsonSummary :=
  Build_BsonSummary None None None None None None None None None false None None None None None.

Definition set_first_key (k : string) (s : BsonSummary) : BsonSummary :=
  let '(Build_BsonSummary _ fs db co ok cd cn am pr sp ds dn ac ad q) := s in
  Build_BsonSummary (Some k) fs db co ok cd cn am pr sp ds dn ac ad q.
Definition set_first_string (v : option string) (s : BsonSummary) : BsonSummary :=
  let '(Build_BsonSummary fk _ db co ok cd cn am pr sp ds dn ac ad q) := s in
  Build_BsonSummary fk v db co ok cd cn am pr sp ds dn ac ad q.
Definition set_database (v : option string) (s : BsonSummary) : BsonSummary :=
  let '(Build_BsonSummary fk fs _ co ok cd cn am pr sp ds dn ac ad q) := s in
  Build_BsonSummary fk fs v co ok cd cn am pr sp ds dn ac ad q.
Definition set_collection (v : option string) (s : BsonSummary) : BsonSummary :=
  let '(Build_BsonSummary fk fs db _ ok cd cn am pr sp ds dn ac ad q) := s in
  Build_BsonSummary fk fs db v ok cd cn am pr sp ds dn ac ad q.
Definition set_ok (v : option bool) (s : BsonSummary) : BsonSummary :=
  let '(Build_BsonSummary fk fs db co _ cd cn am pr sp ds dn ac ad q) := s in
  Build_BsonSummary fk fs db co v cd cn am pr sp ds dn ac ad q.
Definition set_code (v : option Z) (s : BsonSummary) : BsonSummary :=
  let '(Build_BsonSummary fk fs db co ok _ cn am pr sp ds dn ac ad q) := s in
  Build_BsonSummary fk fs db co ok v cn am pr sp ds dn ac ad q.
Definition set_code_name (v : option string) (s : BsonSummary) : BsonSummary :=
  let '(Build_BsonSummary fk fs db co ok cd _ am pr sp ds dn ac ad q) := s in
  Build_BsonSummary fk fs db co ok cd v am pr sp ds dn ac ad q.
Definition set_auth_mechanism (v : option string) (s : BsonSummary) : BsonSummary :=
  let '(Build_BsonSummary fk fs db co ok cd cn _ pr sp ds dn ac ad q) := s in
  Build_BsonSummary fk fs db co ok cd cn v pr sp ds dn ac ad q.
Definition set_principal (v : option string) (s : BsonSummary) : BsonSummary :=
  let '(Build_BsonSummary fk fs db co ok cd cn am _ sp ds dn ac ad q) := s in
  Build_BsonSummary fk fs db co ok cd cn am v sp ds dn ac ad q.
Definition set_speculative_auth (v : bool) (s : BsonSummary) : BsonSummary :=
  let '(Build_BsonSummary fk fs db co ok cd cn am pr _ ds dn ac ad q) := s in
  Build_BsonSummary fk fs db co ok cd cn am pr v ds dn ac ad q.
Definition set_deletes (scope : option DeleteScope) (n : Z) (s : BsonSummary) : BsonSummary :=
  let '(Build_BsonSummary fk fs db co ok cd cn am pr sp _ _ ac ad q) := s in
  Build_BsonSummary fk fs db co ok cd cn am pr sp scope (Some n) ac ad q.
Definition set_affected_count (v : option Z) (s : BsonSummary) : BsonSummary :=
  let '(Build_BsonSummary fk fs db co ok cd cn am pr sp ds dn _ ad q) := s in
  Build_BsonSummary fk fs db co ok cd cn am pr sp ds dn v ad q.
Definition set_auth_done (v : option bool) (s : BsonSummary) : BsonSummary :=
  let '(Build_BsonSummary fk fs db co ok cd cn am pr sp ds dn ac _ q) := s in
  Build_BsonSummary fk fs db co ok cd cn am pr sp ds dn ac v q.
Definition set_query (v : option JsonValue) (s : BsonSummary) : BsonSummary :=
  let '(Build_BsonSummary fk fs db co ok cd cn am pr sp ds dn ac ad _) := s in
  Build_BsonSummary fk fs db co ok cd cn am pr sp ds dn ac ad v.

(** * Which commands expose what *)
Definition command_captures_query (command : string) : bool :=
  one_of command ["find"; "aggregate"; "insert"; "update"; "delete"].

Definition command_has_collection_argument (command : string) : bool :=
  one_of command
    ["aggregate"; "clonecollectionascapped"; "collmod"; "compact"; "converttocapped"; "count";
     "create"; "createindexes"; "delete"; "distinct"; "drop"; "dropindexes"; "emptycapped";
     "find"; "findandmodify"; "geosearch"; "getmore"; "insert"; "killcursors"; "listindexes";
     "mapreduce"; "parallelcollectionscan"; "renamecollection"; "update"; "validate"].

Definition command_has_principal_argument (command : string) : bool :=
  one_of command
    ["createuser"; "dropuser"; "grantrolestouser"; "revokerolesfromuser"; "updateuser";
     "usersinfo"].

Definition command_from_summary (s : BsonSummary) : option MongoCommand :=
  match s_first_key s with
  | None => None
  | Some name =>
      let normalized := to_ascii_lowercase name in
      Some {|
        name := name;
        database := s_database s;
        collection :=
          if command_has_collection_argument normalized
          then opt_or (s_first_string s) (s_collection s) else None;
        auth_mechanism := s_auth_mechanism s;
        principal :=
          opt_or (s_principal s)
            (if command_has_principal_argument normalized then s_first_string s else None);
        speculative_auth := s_speculative_auth s;
        delete_scope := if String.eqb normalized "delete" then s_delete_scope s else None;
        delete_statements := if String.eqb normalized "delete" then s_delete_statements s else None;
        query := s_query s
      |}
  end.

(** * One element of the document *)

(** The arms of the [match key] that both loops share: everything but
    [speculativeAuthenticate] and [deletes]. *)
Definition scalar_field (document : bytes) (key : string) (value_start element_type : Z)
    (s : BsonSummary) : R BsonSummary :=
  if String.eqb key "$db" && (element_type =? 0x02) then
    let! v := ok (read_bson_string document value_start) in Ok (set_database v s)
  else if String.eqb key "collection" && (element_type =? 0x02) then
    let! v := ok (read_bson_string document value_start) in Ok (set_collection v s)
  else if String.eqb key "ok" then
    let! v := ok (read_boolish document value_start element_type) in Ok (set_ok v s)
  else if String.eqb key "code" then
    let! v := ok (read_i32ish document value_start element_type) in Ok (set_code v s)
  else if String.eqb key "n" then
    let! v := ok (read_u64ish document value_start element_type) in Ok (set_affected_count v s)
  else if String.eqb key "done" then
    let! v := ok (read_boolish document value_start element_type) in Ok (set_auth_done v s)
  else if String.eqb key "codeName" && (element_type =? 0x02) then
    let! v := ok (read_bson_string document value_start) in Ok (set_code_name v s)
  else if String.eqb key "mechanism" && (element_type =? 0x02) then
    let! v := ok (read_bson_string document value_start) in Ok (set_auth_mechanism v s)
  else if String.eqb key "user" && (element_type =? 0x02) then
    let! v := ok (read_bson_string document value_start) in Ok (set_principal v s)
  else if String.eqb key "payload" && (element_type =? 0x05) then
    let! data := ok (read_bson_binary document value_start) in
    let parsed := match data with Some data => parse_scram_principal data | None => None end in
    Ok (set_principal (opt_or parsed (s_principal s)) s)
  else Ok s.

(** The first element names the command. *)
Definition first_element (document : bytes) (ordinal : Z) (key : string)
    (value_start element_type : Z) (s : BsonSummary) : R BsonSummary :=
  if ordinal =? 0 then
    let s := set_first_key key s in
    if element_type =? 0x02 then
      let! v := ok (read_bson_string document value_start) in Ok (set_first_string v s)
    else Ok s
  else Ok s.

(** What a nested speculative authentication adds to the summary. *)
Definition merge_speculative (nested s : BsonSummary) : BsonSummary :=
  let s := set_speculative_auth
             (match s_first_key nested with
              | Some name => eq_ignore_ascii_case name "saslStart"
              | None => false
              end) s in
  let s := set_auth_mechanism (opt_or (s_auth_mechanism nested) (s_auth_mechanism s)) s in
  let s := set_principal (opt_or (s_principal nested) (s_principal s)) s in
  set_auth_done (opt_or (s_auth_done nested) (s_auth_done s)) s.

Definition captures_query (s : BsonSummary) : bool :=
  match s_first_key s with
  | Some command => command_captures_query (to_ascii_lowercase command)
  | None => false
  end.

(** * Complete documents *)
Section inner.
(** [summarize_bson_inner(value, false)] *)
Variable nested_summary : bytes -> R BsonSummary.

Definition element_field (document : bytes) (allow_speculative_auth : bool) (key : string)
    (value_start offset element_type : Z) (s : BsonSummary) : R BsonSummary :=
  if String.eqb key "speculativeAuthenticate" && (allow_speculative_auth && (element_type =? 0x03))
  then
    match get_range document value_start offset with
    | Some value =>
        let! nested := ok (nested_summary value) in
        Ok (match nested with Some nested => merge_speculative nested s | None => s end)
    | None => Ok s
    end
  else if String.eqb key "deletes" && (element_type =? 0x04) then
    let! value := ok_or InvalidBson (get_range document value_start offset) in
    let! deletes := ok (summarize_delete_statements value) in
    Ok (match deletes with Some (scope, n) => set_deletes scope n s | None => s end)
  else scalar_field document key value_start element_type s.

Fixpoint summary_loop (fuel : nat) (document : bytes) (allow_speculative_auth : bool)
    (offset ordinal : Z) (s : BsonSummary) : R BsonSummary :=
  match fuel with
  | O => Fault OutOfFuel
  | S fuel =>
      let! last := usub (len document) 1 in
      if offset <? last then
        let! element_type := index document offset in
        let element_type := u8 element_type in
        let! offset := uadd offset 1 in
        let! (key, after_key) := read_cstring document offset in
        let value_start := after_key in
        let! offset := skip_value document after_key element_type in
        let! last := usub (len document) 1 in
        if last <? offset then Err InvalidBson else
        let! s := first_element document ordinal key value_start element_type s in
        let! s := element_field document allow_speculative_auth key value_start offset element_type s in
        let! ordinal := uadd ordinal 1 in
        summary_loop fuel document allow_speculative_auth offset ordinal s
      else Ok s
  end.

Definition summarize_bson_body (document : bytes) (allow_speculative_auth : bool) : R BsonSummary :=
  let! _ := check_container document in
  let! s := summary_loop (length document) document allow_speculative_auth 4 0 empty_summary in
  if captures_query s then
    let! query := ok (bson_document_to_json document) in
    Ok (set_query query s)
  else Ok s.
End inner.

(** The source calls itself with [allow_speculative_auth] cleared, so the
    recursion is one level deep. *)
Fixpoint summarize_bson_at (depth : nat) (document : bytes) (allow_speculative_auth : bool)
  : R BsonSummary :=
  match depth with
  | O => Fault OutOfFuel
  | S depth =>
      summarize_bson_body (fun value => summarize_bson_at depth value false)
        document allow_speculative_auth
  end.
Definition summarize_bson_inner (document : bytes) (allow_speculative_auth : bool) : R BsonSummary :=
  summarize_bson_at 2 document allow_speculative_auth.
Definition summarize_bson (document : bytes) : R BsonSummary := summarize_bson_inner document true.

(** * Truncated documents *)
Definition prefix_field (document : bytes) (key : string) (value_start element_type : Z)
    (next : option Z) (s : BsonSummary) : R BsonSummary :=
  if String.eqb key "speculativeAuthenticate" && (element_type =? 0x03) then
    match next with
    | Some next =>
        match get_range document value_start next with
        | Some value =>
            let! nested := ok (summarize_bson_inner value false) in
            Ok (match nested with Some nested => merge_speculative nested s | None => s end)
        | None => Ok s
        end
    | None => Ok s
    end
  else if String.eqb key "deletes" && (element_type =? 0x04) then
    match next with
    | Some next =>
        match get_range document value_start next with
        | Some value =>
            let! deletes := ok (summarize_delete_statements value) in
            Ok (match deletes with Some (scope, n) => set_deletes scope n s | None => s end)
        | None => Ok s
        end
    | None => Ok s
    end
  else scalar_field document key value_start element_type s.

Fixpoint prefix_loop (fuel : nat) (document : bytes) (available_end offset ordinal : Z)
    (s : BsonSummary) : R BsonSummary :=
  match fuel with
  | O => Fault OutOfFuel
  | S fuel =>
      if offset <? available_end then
        match get document offset with
        | None => Ok s
        | Some element_type =>
            let element_type := u8 element_type in
            let! offset := uadd offset 1 in
            let! cstring := ok (read_cstring document offset) in
            match cstring with
            | None => Ok s
            | Some (key, after_key) =>
                let offset := after_key in
                let value_start := after_key in
                let! next := ok (skip_value document offset element_type) in
                let! s := first_element document ordinal key value_start element_type s in
                let! s := prefix_field document key value_start element_type next s in
                let! ordinal := uadd ordinal 1 in
                match next with
                | Some next =>
                    if (offset <? next) && (next <=? available_end)
                    then prefix_loop fuel document available_end next ordinal s
                    else Ok s
                | None => Ok s
                end
            end
        end
      else Ok s
  end.

Definition summarize_bson_prefix (document : bytes) : R BsonSummary :=
  if len document <? 5 then Err Truncated else
  let! declared := read_i32 document 0 in
  if declared <? 5 then Err InvalidBson else
  let declared := as_usize declared in
  if declared <=? len document then
    let! whole := slice document 0 declared in summarize_bson_inner whole true
  else
    let available_end := Z.min (len document) (saturating_sub declared 1) in
    let! s := prefix_loop (length document) document available_end 4 0 empty_summary in
    match s_first_key s with
    | None => Err Truncated
    | Some _ => Ok s
    end.

(** * No summary panics or exhausts its fuel *)
Section safety.
Context (bs : bytes) (Hlen : len bs <= isize_max).

Lemma safe_scalar_field key value_start t s :
  0 <= value_start <= len bs -> safe (fun _ => True) (scalar_field bs key value_start t s).
Proof. intros. unfold scalar_field. repeat (case_match; [by safe_run|]). done. Qed.

Lemma safe_first_element ordinal key value_start t s :
  0 <= value_start <= len bs -> safe (fun _ => True) (first_element bs ordinal key value_start t s).
Proof. intros. unfold first_element. by safe_run. Qed.
Hint Resolve safe_scalar_field safe_first_element : safedb.

Section inner.
Variable nested_summary : bytes -> R BsonSummary.

Lemma safe_element_field allow key value_start stop t s :
  0 <= value_start <= len bs ->
  (allow = true -> forall v, len v <= isize_max -> safe (fun _ => True) (nested_summary v)) ->
  safe (fun _ => True) (element_field nested_summary bs allow key value_start stop t s).
Proof.
  intros Hv Hn. unfold element_field. safe_step.
  - destruct (get_range bs value_start stop) as [value|] eqn:Hr; [|done].
    apply get_range_Some in Hr. destruct allow; [|lia]. specialize (Hn eq_refl).
    by safe_run.
  - by safe_run.
Qed.

Lemma safe_summary_loop allow fuel offset ordinal s :
  1 <= len bs -> 0 <= ordinal <= offset -> offset <= len bs -> len bs - offset < Z.of_nat fuel ->
  (allow = true -> forall v, len v <= isize_max -> safe (fun _ => True) (nested_summary v)) ->
  safe (fun _ => True) (summary_loop nested_summary fuel bs allow offset ordinal s).
Proof.
  intros H1 Ho Hs Hf Hn. revert offset ordinal s Ho Hs Hf.
  induction fuel as [|fuel IH]; intros offset ordinal s Ho Hs Hf; [lia|].
  cbn [summary_loop]. cbv zeta. pose proof safe_element_field.
  by safe_run.
Qed.

Lemma safe_summarize_bson_body allow :
  (allow = true -> forall v, len v <= isize_max -> safe (fun _ => True) (nested_summary v)) ->
  safe (fun _ => True) (summarize_bson_body nested_summary bs allow).
Proof.
  intros Hn. unfold summarize_bson_body. safe_step. safe_call. safe_step.
  eapply safe_mono; [apply safe_summary_loop; [lia|lia|lia|unfold len in *; lia|done]|].
  safe_intro. by safe_run.
Qed.
End inner.
End safety.

Lemma safe_summarize_bson_inner bs allow :
  len bs <= isize_max -> safe (fun _ => True) (summarize_bson_inner bs allow).
Proof.
  intros Hlen. apply safe_summarize_bson_body; [done|]. intros _ v Hv.
  by apply safe_summarize_bson_body.
Qed.
#[export] Hint Resolve safe_scalar_field safe_first_element safe_summarize_bson_inner : safedb.

Section prefix_safety.
Context (bs : bytes) (Hlen : len bs <= isize_max).

Lemma safe_prefix_field key value_start t next s :
  0 <= value_start <= len bs -> safe (fun _ => True) (prefix_field bs key value_start t next s).
Proof.
  intros Hv. unfold prefix_field.
  repeat match goal with
         | |- safe _ (match get_range ?l ?a ?b with _ => _ end) =>
             destruct (get_range l a b) eqn:Hr; [apply get_range_Some in Hr|done]
         | _ => first [safe_step | safe_call]
         end; done.
Qed.
Hint Resolve safe_prefix_field : safedb.

Lemma safe_prefix_loop fuel available_end offset ordinal s :
  available_end <= len bs -> 0 <= ordinal <= offset -> offset <= len bs -> len bs - offset < Z.of_nat fuel ->
  safe (fun _ => True) (prefix_loop fuel bs available_end offset ordinal s).
Proof.
  intros Ha. revert offset ordinal s. induction fuel as [|fuel IH]; intros offset ordinal s Ho Hs Hf; [lia|].
  cbn [prefix_loop]. cbv zeta. by safe_run.
Qed.

Lemma safe_summarize_bson_prefix : safe (fun _ => True) (summarize_bson_prefix bs).
Proof.
  unfold summarize_bson_prefix. safe_step; [done|]. safe_step. safe_call. safe_step; [done|].
  cbv zeta. rewrite as_usize_id by lia. safe_step; [by safe_run|]. safe_step.
  eapply safe_mono; [apply safe_prefix_loop; unfold len in *; lia|].
  safe_intro. by safe_run.
Qed.
End prefix_safety.
#[export] Hint Resolve safe_summarize_bson_prefix : safedb.
