(* ===== verification/Wire.v ===== *)
(** MongoDB wire messages: [decode_frame], [decode_frame_prefix] and the
    decoders of OP_MSG, OP_QUERY, OP_REPLY and OP_COMPRESSED of
    crates/mongo-protocol/src/lib.rs.  The decompressors (the snap, flate2 and
    zstd crates) are an interface, [Decompressors]. *)
From Stdlib Require Import ZArith Lia ZifyBool Strings.Byte Strings.Ascii Strings.String.
From stdpp Require Import base list strings.
From S2P Require Import Prelude Text Json Bson BsonJson Summary.

Local Open Scope string_scope.
Local Open Scope Z_scope.

Definition OP_REPLY : Z := 1.
Definition OP_QUERY : Z := 2004.
Definition OP_COMPRESSED : Z := 2012.
Definition OP_MSG : Z := 2013.
Definition DEFAULT_MAX_MESSAGE_BYTES : Z := 48 * 1024 * 1024.

Record ResponseStatus : Set := {
  status_ok : option bool;
  code : option Z;
  code_name : option string;
  affected_count : option Z;
  auth_done : option bool
}.

Record DecodedMessage : Set := {
  request_id : Z;
  response_to : Z;
  wire_bytes : Z;
  flags : Z;
  more_to_come : bool;
  compressed : bool;
  command : option MongoCommand;
  status : option ResponseStatus
}.

(** The third-party decompressors.  A stream decoder read through
    [take(limit).read_to_end] yields at most [limit] bytes or an error. *)
Class Decompressors : Type := {
  snappy_decompress_len : bytes -> string + Z;
  snappy_decompress : bytes -> string + bytes;
  zlib_read : bytes -> Z -> string + bytes;
  zstd_open : bytes -> option string;
  zstd_read : bytes -> Z -> string + bytes
}.

Definition decompression {A} (r : string + A) : R A :=
  match r with
  | inl message => Err (Decompression message)
  | inr a => Ok a
  end.

(** * OP_MSG *)
Definition status_from_summary (s : BsonSummary) : ResponseStatus :=
  {| status_ok := s_ok s; code := s_code s; code_name := s_code_name s;
     affected_count := s_affected_count s; auth_done := s_auth_done s |}.

(** The message both OP_MSG decoders build: a request carries a command, a
    response a status. *)
Definition op_msg_message (request_id response_to wire_bytes flags : Z) (compressed : bool)
    (summary : BsonSummary) : DecodedMessage :=
  {| request_id := request_id;
     response_to := response_to;
     wire_bytes := u32_saturating wire_bytes;
     flags := flags;
     more_to_come := negb (Z.land flags 2 =? 0);
     compressed := compressed;
     command := if response_to =? 0 then command_from_summary summary else None;
     status := if negb (response_to =? 0) then Some (status_from_summary summary) else None |}.

Definition decode_op_msg_prefix (request_id response_to declared : Z) (payload : bytes)
  : R DecodedMessage :=
  if len payload <? 6 then Err Truncated else
  let! flags := read_u32 payload 0 in
  let! kind := index payload 4 in
  if negb (u8 kind =? 0) then Err (UnsupportedSection (u8 kind)) else
  let! document := slice payload 5 (len payload) in
  let! summary := summarize_bson_prefix document in
  Ok (op_msg_message request_id response_to declared flags false summary).

Record MsgSections : Set := {
  summary : option BsonSummary;
  delete_sequence : option (option DeleteScope * Z);
  document_sequences : list (string * list JsonValue)
}.
Definition no_sections : MsgSections :=
  {| summary := None; delete_sequence := None; document_sequences := [] |}.

(** Section kind 0: a document; only the first one is summarized. *)
Definition body_section (payload : bytes) (offset stop : Z) (sections : MsgSections)
  : R (Z * MsgSections) :=
  let! document_length := read_i32 payload offset in
  if document_length <? 5 then Err InvalidBson else
  let! document_end := ok_or InvalidBson (checked_add offset (as_usize document_length)) in
  if stop <? document_end then Err InvalidBson else
  let! summary :=
    match summary sections with
    | Some s => Ok (Some s)
    | None =>
        let! document := slice payload offset document_end in
        let! s := summarize_bson document in Ok (Some s)
    end in
  Ok (document_end,
      {| summary := summary; delete_sequence := delete_sequence sections;
         document_sequences := document_sequences sections |}).

(** Section kind 1: an identifier and a sequence of documents. *)
Definition sequence_section (payload : bytes) (offset stop : Z) (sections : MsgSections)
  : R (Z * MsgSections) :=
  let! section_size := read_i32 payload offset in
  if section_size <? 5 then Err InvalidBson else
  let! section_end := ok_or InvalidBson (checked_add offset (as_usize section_size)) in
  if stop <? section_end then Err InvalidBson else
  let! at_identifier := uadd offset 4 in
  let! (identifier, documents_start) := read_cstring payload at_identifier in
  if section_end <? documents_start then Err InvalidBson else
  let! delete_sequence :=
    if String.eqb identifier "deletes" then
      let! documents := ok_or InvalidBson (get_range payload documents_start section_end) in
      let! deletes := summarize_delete_document_sequence documents in
      Ok (Some deletes)
    else Ok (delete_sequence sections) in
  let! documents := ok_or InvalidBson (get_range payload documents_start section_end) in
  let! parsed := ok (bson_document_sequence_to_json documents) in
  let document_sequences :=
    match parsed with
    | Some documents => (document_sequences sections ++ [(identifier, documents)])%list
    | None => document_sequences sections
    end in
  Ok (section_end,
      {| summary := summary sections; delete_sequence := delete_sequence;
         document_sequences := document_sequences |}).

Fixpoint sections_loop (fuel : nat) (payload : bytes) (stop offset : Z) (sections : MsgSections)
  : R MsgSections :=
  match fuel with
  | O => Fault OutOfFuel
  | S fuel =>
      if offset <? stop then
        let! kind := index payload offset in
        let! offset := uadd offset 1 in
        if u8 kind =? 0 then
          let! (offset, sections) := body_section payload offset stop sections in
          sections_loop fuel payload stop offset sections
        else if u8 kind =? 1 then
          let! (offset, sections) := sequence_section payload offset stop sections in
          sections_loop fuel payload stop offset sections
        else Err (UnsupportedSection (u8 kind))
      else Ok sections
  end.

(** The document sequences become fields of the captured query. *)
Definition add_sequences (sequences : list (string * list JsonValue)) (s : BsonSummary) : BsonSummary :=
  if captures_query s then
    match s_query s with
    | Some (JObject query) =>
        set_query (Some (JObject (fold_left (fun query '(identifier, documents) =>
                                     map_insert identifier (JArray documents) query)
                                  sequences query))) s
    | _ => s
    end
  else s.

Definition add_delete_sequence (deletes : option (option DeleteScope * Z)) (s : BsonSummary)
  : BsonSummary :=
  match deletes with
  | Some (scope, statements) => set_deletes scope statements s
  | None => s
  end.

Definition decode_op_msg (request_id response_to wire_bytes : Z) (payload : bytes)
    (compressed : bool) : R DecodedMessage :=
  if len payload <? 5 then Err Truncated else
  let! flags := read_u32 payload 0 in
  let checksum_bytes := if negb (Z.land flags 1 =? 0) then 4 else 0 in
  if len payload <? 4 + checksum_bytes then Err Truncated else
  let! stop := usub (len payload) checksum_bytes in
  let! sections := sections_loop (S (length payload)) payload stop 4 no_sections in
  let! s := ok_or InvalidBson (summary sections) in
  let s := add_delete_sequence (delete_sequence sections) s in
  let s := add_sequences (document_sequences sections) s in
  Ok (op_msg_message request_id response_to wire_bytes flags compressed s).

(** * OP_QUERY *)
Definition split_legacy_namespace (namespace : string) : option string * option string * bool :=
  match split_once "."%char namespace with
  | None => (None, None, false)
  | Some (database, collection) =>
      if String.eqb collection "$cmd" || starts_with "$cmd." collection
      then (Some database, None, true)
      else (Some database, Some collection, false)
  end.

Definition with_database (database : option string) (c : MongoCommand) : MongoCommand :=
  {| name := name c;
     Summary.database := match Summary.database c with Some d => Some d | None => database end;
     collection := collection c; auth_mechanism := auth_mechanism c; principal := principal c;
     speculative_auth := speculative_auth c; delete_scope := delete_scope c;
     delete_statements := delete_statements c; query := query c |}.

Definition decoded_op_query (request_id response_to wire_bytes flags : Z) (namespace : string)
    (s : BsonSummary) (compressed : bool) : DecodedMessage :=
  let '(database, namespace_collection, is_command) := split_legacy_namespace namespace in
  let command :=
    if negb (response_to =? 0) then None
    else if is_command then with_database database <$> command_from_summary s
    else Some {| name := "find"; Summary.database := database; collection := namespace_collection;
                 auth_mechanism := None; principal := None; speculative_auth := false;
                 delete_scope := None; delete_statements := None; query := s_query s |} in
  {| request_id := request_id; response_to := response_to;
     wire_bytes := u32_saturating wire_bytes; flags := flags; more_to_come := false;
     compressed := compressed; command := command; status := None |}.

Definition decode_op_query (request_id response_to wire_bytes : Z) (payload : bytes)
    (compressed : bool) : R DecodedMessage :=
  if len payload <? 13 then Err Truncated else
  let! flags := read_u32 payload 0 in
  let! (namespace, after_namespace) := read_cstring payload 4 in
  let! document_offset := ok_or InvalidBson (checked_add after_namespace 8) in
  let! document_length := read_i32 payload document_offset in
  if document_length <? 5 then Err InvalidBson else
  let! document_end := ok_or InvalidBson (checked_add document_offset (as_usize document_length)) in
  if len payload <? document_end then Err InvalidBson else
  let! document := slice payload document_offset document_end in
  let! s := summarize_bson document in
  Ok (decoded_op_query request_id response_to wire_bytes flags namespace s compressed).

Definition decode_op_query_prefix (request_id response_to wire_bytes : Z) (payload : bytes)
  : R DecodedMessage :=
  if len payload <? 13 then Err Truncated else
  let! flags := read_u32 payload 0 in
  let! (namespace, after_namespace) := read_cstring payload 4 in
  let! document_offset := ok_or InvalidBson (checked_add after_namespace 8) in
  let! document := ok_or Truncated (get_from payload document_offset) in
  let! s := summarize_bson_prefix document in
  Ok (decoded_op_query request_id response_to wire_bytes flags namespace s false).

(** * OP_REPLY *)
Definition decoded_op_reply (request_id response_to wire_bytes flags : Z)
    (s : option BsonSummary) (compressed : bool) : DecodedMessage :=
  let failed := negb (Z.land flags 0x03 =? 0) in
  {| request_id := request_id; response_to := response_to;
     wire_bytes := u32_saturating wire_bytes; flags := flags; more_to_come := false;
     compressed := compressed; command := None;
     status := Some {|
       status_ok := opt_or (s ≫= s_ok) (Some (negb failed));
       code := s ≫= s_code; code_name := s ≫= s_code_name;
       affected_count := s ≫= s_affected_count; auth_done := s ≫= s_auth_done |} |}.

Definition decode_op_reply (request_id response_to wire_bytes : Z) (payload : bytes)
    (compressed : bool) : R DecodedMessage :=
  if len payload <? 20 then Err Truncated else
  let! flags := read_u32 payload 0 in
  let! returned := read_i32 payload 16 in
  let! s :=
    if (0 <? returned) && (20 <? len payload) then
      let! document_length := read_i32 payload 20 in
      if document_length <? 5 then Err InvalidBson else
      let! document_end := ok_or InvalidBson (checked_add 20 (as_usize document_length)) in
      if len payload <? document_end then Err InvalidBson else
      let! document := slice payload 20 document_end in
      let! s := summarize_bson document in
      Ok (Some s)
    else Ok None in
  Ok (decoded_op_reply request_id response_to wire_bytes flags s compressed).

Definition decode_op_reply_prefix (request_id response_to wire_bytes : Z) (payload : bytes)
  : R DecodedMessage :=
  if len payload <? 20 then Err Truncated else
  let! flags := read_u32 payload 0 in
  let! returned := read_i32 payload 16 in
  let! s :=
    if (0 <? returned) && (20 <? len payload) then
      let! document := slice payload 20 (len payload) in
      let! s := summarize_bson_prefix document in
      Ok (Some s)
    else Ok None in
  Ok (decoded_op_reply request_id response_to wire_bytes flags s false).

(** * Frames *)
Section frames.
Context `{Decompressors}.

Definition decode_opcode (opcode request_id response_to wire_bytes : Z) (payload : bytes)
    (compressed : bool) : R DecodedMessage :=
  if opcode =? OP_MSG then decode_op_msg request_id response_to wire_bytes payload compressed
  else if opcode =? OP_QUERY then decode_op_query request_id response_to wire_bytes payload compressed
  else if opcode =? OP_REPLY then decode_op_reply request_id response_to wire_bytes payload compressed
  else Err (UnsupportedOpcode opcode).

Definition decompress (compressor uncompressed_size : Z) (compressed : bytes) : R bytes :=
  if compressor =? 0 then Ok compressed
  else if compressor =? 1 then
    let! decoded_size := decompression (snappy_decompress_len compressed) in
    if negb (decoded_size =? as_usize uncompressed_size) then Err InvalidCompressed else
    decompression (snappy_decompress compressed)
  else if compressor =? 2 then decompression (zlib_read compressed (uncompressed_size + 1))
  else if compressor =? 3 then
    match zstd_open compressed with
    | Some message => Err (Decompression message)
    | None => decompression (zstd_read compressed (uncompressed_size + 1))
    end
  else Err (UnsupportedCompressor compressor).

Definition decode_compressed (request_id response_to wire_bytes : Z) (payload : bytes)
    (max_message_bytes : Z) : R DecodedMessage :=
  if len payload <? 9 then Err InvalidCompressed else
  let! original_opcode := read_i32 payload 0 in
  let! uncompressed_size := read_i32 payload 4 in
  if (uncompressed_size <? 0) || (saturating_sub max_message_bytes 16 <? as_usize uncompressed_size)
  then Err FrameTooLarge else
  let! compressor := index payload 8 in
  let! compressed := slice payload 9 (len payload) in
  let! uncompressed := decompress (u8 compressor) uncompressed_size compressed in
  if negb (len uncompressed =? as_usize uncompressed_size) then Err InvalidCompressed else
  decode_opcode original_opcode request_id response_to wire_bytes uncompressed true.

Definition decode_frame (frame : bytes) (max_message_bytes : Z) : R DecodedMessage :=
  if len frame <? 16 then Err Truncated else
  let! declared := read_i32 frame 0 in
  if (declared <? 16) || negb (as_usize declared =? len frame)
  then Err (InvalidFrameLength declared) else
  if max_message_bytes <? len frame then Err FrameTooLarge else
  let! request_id := read_i32 frame 4 in
  let! response_to := read_i32 frame 8 in
  let! opcode := read_i32 frame 12 in
  let! payload := slice frame 16 (len frame) in
  if opcode =? OP_COMPRESSED
  then decode_compressed request_id response_to (len frame) payload max_message_bytes
  else decode_opcode opcode request_id response_to (len frame) payload false.

Definition decode_frame_prefix (prefix : bytes) (max_message_bytes : Z) : R DecodedMessage :=
  if len prefix <? 16 then Err Truncated else
  let! declared := read_i32 prefix 0 in
  if declared <? 16 then Err (InvalidFrameLength declared) else
  let declared := as_usize declared in
  if max_message_bytes <? declared then Err FrameTooLarge else
  if declared <=? len prefix then
    let! frame := slice prefix 0 declared in decode_frame frame max_message_bytes
  else
  let! request_id := read_i32 prefix 4 in
  let! response_to := read_i32 prefix 8 in
  let! opcode := read_i32 prefix 12 in
  if opcode =? OP_COMPRESSED then Err Truncated else
  let! payload := slice prefix 16 (len prefix) in
  if opcode =? OP_MSG then decode_op_msg_prefix request_id response_to declared payload
  else if opcode =? OP_QUERY then decode_op_query_prefix request_id response_to declared payload
  else if opcode =? OP_REPLY then decode_op_reply_prefix request_id response_to declared payload
  else Err (UnsupportedOpcode opcode).
End frames.

(** * No frame makes the decoder panic *)
Section payload_safety.
Context (payload : bytes) (Hlen : len payload <= isize_max).

Lemma safe_body_section offset stop sections :
  0 <= offset <= len payload -> stop <= len payload ->
  safe (fun r => offset < fst r <= len payload) (body_section payload offset stop sections).
Proof.
  intros Ho Hs. unfold body_section. safe_step. safe_call. safe_step; [done|].
  rewrite as_usize_id by lia. unfold summarize_bson.
  safe_run; lia.
Qed.

Lemma safe_sequence_section offset stop sections :
  0 <= offset <= len payload -> stop <= len payload ->
  safe (fun r => offset < fst r <= len payload) (sequence_section payload offset stop sections).
Proof.
  intros Ho Hs. unfold sequence_section. safe_step. safe_call. safe_step; [done|].
  rewrite as_usize_id by lia.
  safe_run; lia.
Qed.
Hint Resolve safe_body_section safe_sequence_section : safedb.

Lemma safe_sections_loop fuel stop offset sections :
  stop <= len payload -> 0 <= offset <= len payload -> len payload - offset < Z.of_nat fuel ->
  safe (fun _ => True) (sections_loop fuel payload stop offset sections).
Proof.
  intros Hs. revert offset sections. induction fuel as [|fuel IH]; intros offset sections Ho Hf; [lia|].
  cbn [sections_loop]. by safe_run.
Qed.

Lemma safe_decode_op_msg rid rto wb c : safe (fun _ => True) (decode_op_msg rid rto wb payload c).
Proof.
  unfold decode_op_msg. safe_step; [done|]. safe_step. safe_call. cbv zeta.
  safe_step; [done|]. safe_step. safe_call. safe_step.
  eapply safe_mono.
  { apply safe_sections_loop; [destruct (negb _); lia|lia|unfold len in *; lia]. }
  safe_intro. by safe_run.
Qed.

Lemma safe_decode_op_query rid rto wb c : safe (fun _ => True) (decode_op_query rid rto wb payload c).
Proof.
  unfold decode_op_query, summarize_bson.
  by safe_run.
Qed.

Lemma safe_decode_op_reply rid rto wb c : safe (fun _ => True) (decode_op_reply rid rto wb payload c).
Proof.
  unfold decode_op_reply, summarize_bson. safe_step; [done|]. safe_step. safe_call. safe_step. safe_call.
  safe_step. eapply (safe_mono (fun _ => True)); [|done].
  safe_step; [|done]. safe_step. safe_call. safe_step; [done|].
  rewrite as_usize_id by lia. by safe_run.
Qed.

Lemma safe_decode_op_msg_prefix rid rto declared :
  safe (fun _ => True) (decode_op_msg_prefix rid rto declared payload).
Proof. unfold decode_op_msg_prefix. by safe_run. Qed.

Lemma safe_decode_op_query_prefix rid rto wb :
  safe (fun _ => True) (decode_op_query_prefix rid rto wb payload).
Proof.
  unfold decode_op_query_prefix, get_from.
  safe_step; [done|]. safe_step. safe_call. safe_step. safe_call. by safe_run.
Qed.

Lemma safe_decode_op_reply_prefix rid rto wb :
  safe (fun _ => True) (decode_op_reply_prefix rid rto wb payload).
Proof.
  unfold decode_op_reply_prefix. safe_step; [done|]. safe_step. safe_call. safe_step. safe_call.
  safe_step. eapply (safe_mono (fun _ => True)); [|done]. by safe_run.
Qed.
End payload_safety.
#[export] Hint Resolve safe_decode_op_msg safe_decode_op_query safe_decode_op_reply
  safe_decode_op_msg_prefix safe_decode_op_query_prefix safe_decode_op_reply_prefix : safedb.

Section frame_safety.
Context `{Decompressors}.

Lemma safe_decode_opcode opcode rid rto wb payload c :
  len payload <= isize_max ->
  safe (fun _ => True) (decode_opcode opcode rid rto wb payload c).
Proof. intros. unfold decode_opcode. by safe_run. Qed.
Hint Resolve safe_decode_opcode : safedb.

Lemma safe_decompress c n bs : safe (fun _ => True) (decompress c n bs).
Proof.
  unfold decompress, decompression.
  repeat first [safe_step | apply safe_bind]; try done.
Qed.

Lemma safe_decode_compressed rid rto wb payload limit :
  len payload <= isize_max ->
  safe (fun _ => True) (decode_compressed rid rto wb payload limit).
Proof.
  intros Hlen. unfold decode_compressed. safe_step; [done|]. safe_step. safe_call. safe_step. safe_call.
  safe_step; [done|]. safe_step. safe_call. safe_step. safe_call. safe_step.
  eapply safe_mono; [apply safe_decompress|]. safe_intro.
  rewrite as_usize_id by lia. by safe_run.
Qed.
Hint Resolve safe_decode_compressed : safedb.

Lemma safe_decode_frame frame limit :
  len frame <= isize_max -> safe (fun _ => True) (decode_frame frame limit).
Proof. intros Hlen. unfold decode_frame. by safe_run. Qed.
Hint Resolve safe_decode_frame : safedb.

Lemma safe_decode_frame_prefix prefix limit :
  len prefix <= isize_max -> safe (fun _ => True) (decode_frame_prefix prefix limit).
Proof.
  intros Hlen. unfold decode_frame_prefix. safe_step; [done|]. safe_step. safe_call.
  safe_step; [done|]. rewrite as_usize_id by lia. cbv zeta. by safe_run.
Qed.
End frame_safety.
#[export] Hint Resolve safe_decode_frame safe_decode_frame_prefix : safedb.
