(* ===== verification/Stream.v ===== *)
(** The stream decoder of crates/mongo-protocol/src/lib.rs: reassembly of
    MongoDB frames from the chunks one connection delivers, with bounded
    buffering.  A method of [StreamDecoder] maps the decoder to the decoder
    after the call and the result; the buffer is updated on error paths too, as
    in the source. *)
From Stdlib Require Import ZArith Lia ZifyBool Strings.Byte.
From stdpp Require Import base list strings.
From S2P Require Import Prelude Bson Wire.

Record DecoderConfig : Set := {
  max_message_bytes : Z;
  max_buffer_bytes : Z
}.
(** [DecoderConfig::default()] *)
Definition default_config : DecoderConfig :=
  {| max_message_bytes := DEFAULT_MAX_MESSAGE_BYTES;
     max_buffer_bytes := DEFAULT_MAX_MESSAGE_BYTES * 2 |}.

Record StreamDecoder : Set := {
  config : DecoderConfig;
  buffer : bytes
}.

Definition new (config : DecoderConfig) : StreamDecoder := {| config := config; buffer := [] |}.
Definition buffered_bytes (d : StreamDecoder) : Z := len (buffer d).
Definition with_buffer (b : bytes) (d : StreamDecoder) : StreamDecoder :=
  {| config := config d; buffer := b |}.
Definition clear (d : StreamDecoder) : StreamDecoder := with_buffer [] d.

Section stream.
Context `{Decompressors}.

(** The body of [push]: frames are taken off the front of the buffer while
    it holds a whole one. *)
Fixpoint push_loop (fuel : nat) (d : StreamDecoder) (decoded : list DecodedMessage)
  : StreamDecoder * R (list DecodedMessage) :=
  match fuel with
  | O => (d, Fault OutOfFuel)
  | S fuel =>
      if len (buffer d) <? 4 then (d, Ok decoded) else
      match slice (E := DecodeError) (buffer d) 0 4 with
      | Ok raw =>
          let length := i32_from_le_bytes raw in
          if length <? 16 then (clear d, Err (InvalidFrameLength length)) else
          let length := as_usize length in
          if max_message_bytes (config d) <? length then (clear d, Err FrameTooLarge) else
          if len (buffer d) <? length then (d, Ok decoded) else
          match slice (E := DecodeError) (buffer d) 0 length,
                slice (E := DecodeError) (buffer d) length (len (buffer d)) with
          | Ok frame, Ok rest =>
              let d := with_buffer rest d in
              match decode_frame frame (max_message_bytes (config d)) with
              | Ok message => push_loop fuel d (decoded ++ [message])
              | Err e => (d, Err e)
              | Fault f => (d, Fault f)
              end
          | _, _ => (d, Fault Panic)
          end
      | _ => (d, Fault Panic)
      end
  end.

Definition push (d : StreamDecoder) (bytes : bytes) : StreamDecoder * R (list DecodedMessage) :=
  if max_buffer_bytes (config d) <? saturating_add usize_max (len (buffer d)) (len bytes)
  then (clear d, Err BufferTooLarge)
  else
    let d := with_buffer (buffer d ++ bytes) d in
    push_loop (S (length (buffer d))) d [].

Definition next_frame_length (d : StreamDecoder) (bytes : bytes) : R (option Z) :=
  let buffered := Z.min (len (buffer d)) 4 in
  let! head := slice (buffer d) 0 buffered in
  let! needed := usub 4 buffered in
  if len bytes <? needed then Ok None else
  let! tail := slice bytes 0 needed in
  let length := i32_from_le_bytes (head ++ tail) in
  if length <? 16 then Err (InvalidFrameLength length) else
  let length := as_usize length in
  if max_message_bytes (config d) <? length then Err FrameTooLarge else
  Ok (Some length).

Definition push_truncated (d : StreamDecoder) (bytes : bytes) : StreamDecoder * R DecodedMessage :=
  if max_buffer_bytes (config d) <? saturating_add usize_max (len (buffer d)) (len bytes)
  then (clear d, Err BufferTooLarge)
  else (clear d, decode_frame_prefix (buffer d ++ bytes) (max_message_bytes (config d))).

Definition push_bounded_prefix (d : StreamDecoder) (bytes : bytes) (prefix_limit : Z)
  : StreamDecoder * R (list DecodedMessage) :=
  if (prefix_limit <? 16) || (max_buffer_bytes (config d) <? prefix_limit)
  then (clear d, Err BufferTooLarge)
  else
    match next_frame_length d bytes with
    | Err e => (d, Err e)
    | Fault f => (d, Fault f)
    | Ok None => push d bytes
    | Ok (Some frame_length) =>
        if (frame_length <=? prefix_limit)
           || (saturating_add usize_max (len (buffer d)) (len bytes) <? prefix_limit)
        then push d bytes
        else
          let needed := saturating_sub prefix_limit (len (buffer d)) in
          match slice (E := DecodeError) bytes 0 (Z.min needed (len bytes)) with
          | Ok head =>
              let '(d, message) := push_truncated d head in
              (d, (fun m => [m]) <$> message)
          | _ => (d, Fault Panic)
          end
    end.

(** A connection delivers its bytes in chunks; decoding stops at the first
    error, after which the caller discards the stream. *)
Fixpoint push_all (d : StreamDecoder) (chunks : list bytes)
  : StreamDecoder * R (list DecodedMessage) :=
  match chunks with
  | [] => (d, Ok [])
  | chunk :: chunks =>
      match push d chunk with
      | (d, Ok messages) =>
          let '(d, rest) := push_all d chunks in (d, (fun ms => messages ++ ms) <$> rest)
      | (d, Err e) => (d, Err e)
      | (d, Fault f) => (d, Fault f)
      end
  end.
End stream.

(** * The head of the buffer

    [classify] reads the first frame header the way the loop of [push] does. *)
Inductive front : Set :=
| Wait
| Bad (e : DecodeError)
| Frame (frame rest : bytes).

Definition classify (limit : Z) (b : bytes) : front :=
  if len b <? 4 then Wait else
  let n := i32_from_le_bytes (take 4 b) in
  if n <? 16 then Bad (InvalidFrameLength n) else
  if limit <? n then Bad FrameTooLarge else
  if len b <? n then Wait else Frame (take (Z.to_nat n) b) (drop (Z.to_nat n) b).

(** The decoder keeps, between calls, only the beginning of one frame. *)
Definition incomplete (d : StreamDecoder) : Prop :=
  classify (max_message_bytes (config d)) (buffer d) = Wait.

Definition prepend {A} (ms : list A) (r : StreamDecoder * R (list A)) : StreamDecoder * R (list A) :=
  let '(d, r) := r in (d, (fun ms' => ms ++ ms') <$> r).

Lemma prepend_nil {A} (r : StreamDecoder * R (list A)) : prepend [] r = r.
Proof. by destruct r as [d []]. Qed.
Lemma prepend_app {A} (l k : list A) r : prepend l (prepend k r) = prepend (l ++ k) r.
Proof. destruct r as [d []]; simpl; [by rewrite app_assoc|done|done]. Qed.

Lemma take_4_range (b : bytes) : 4 <= len b -> i32_min <= i32_from_le_bytes (take 4 b) <= i32_max.
Proof. intros H. apply i32_from_range. unfold len in *. rewrite length_take. lia. Qed.

Lemma classify_Frame limit b f r :
  classify limit b = Frame f r -> b = f ++ r /\ 16 <= len f <= limit.
Proof.
  unfold classify. cbv zeta. repeat case_match; try done. intros [= <- <-].
  pose proof (take_4_range b ltac:(lia)).
  split; [by rewrite take_drop|]. unfold len in *. rewrite length_take. lia.
Qed.

Lemma classify_app limit b c :
  classify limit b <> Wait ->
  classify limit (b ++ c) = match classify limit b with Frame f r => Frame f (r ++ c) | h => h end.
Proof.
  unfold classify. cbv zeta. rewrite len_app. pose proof (len_nonneg c).
  destruct (len b <? 4) eqn:H4; [done|]. replace (len b + len c <? 4) with false by lia.
  rewrite take_app_le by (unfold len in *; lia).
  pose proof (take_4_range b ltac:(lia)).
  set (n := i32_from_le_bytes (take 4 b)) in *.
  destruct (n <? 16) eqn:H16; [done|]. destruct (limit <? n); [done|].
  destruct (len b <? n) eqn:Hb; [done|]. intros _.
  replace (len b + len c <? n) with false by lia.
  by rewrite take_app_le, drop_app_le by (unfold len in *; lia).
Qed.

Lemma classify_whole limit f rest :
  16 <= len f <= i32_max -> len f <= limit -> i32_from_le_bytes (take 4 f) = len f ->
  classify limit (f ++ rest) = Frame f rest.
Proof.
  intros H16 Hl Hd. unfold classify. cbv zeta. rewrite len_app. pose proof (len_nonneg rest).
  rewrite take_app_le by (unfold len in *; lia). rewrite Hd.
  replace (_ <? 4) with false by lia. replace (_ <? 16) with false by lia.
  replace (limit <? _) with false by lia. replace (_ <? len f) with false by lia.
  replace (Z.to_nat (len f)) with (length f) by (unfold len; lia).
  by rewrite take_app_length, drop_app_length.
Qed.

Section drain.
Context `{Decompressors}.

Lemma push_loop_S n d acc :
  push_loop (S n) d acc =
  match classify (max_message_bytes (config d)) (buffer d) with
  | Wait => (d, Ok acc)
  | Bad e => (clear d, Err e)
  | Frame f rest =>
      match decode_frame f (max_message_bytes (config d)) with
      | Ok m => push_loop n (with_buffer rest d) (acc ++ [m])
      | Err e => (with_buffer rest d, Err e)
      | Fault e => (with_buffer rest d, Fault e)
      end
  end.
Proof.
  cbn [push_loop]. unfold classify, slice. cbv zeta. destruct (len (buffer d) <? 4) eqn:H4; [done|].
  rewrite (get_range_in _ 0 4) by lia. rewrite Z.sub_0_r, drop_0. change (Z.to_nat 4) with 4%nat.
  pose proof (take_4_range (buffer d) ltac:(lia)) as Hr.
  set (n0 := i32_from_le_bytes (take 4 (buffer d))) in *.
  destruct (n0 <? 16) eqn:H16; [done|]. rewrite as_usize_id by lia.
  destruct (_ <? n0) eqn:Hm; [done|]. destruct (len (buffer d) <? n0) eqn:Hw; [done|].
  rewrite !get_range_in by (pose proof (len_nonneg (buffer d)); lia).
  rewrite Z.sub_0_r, drop_0.
  rewrite (take_ge (drop _ _)) by (rewrite length_drop; unfold len; lia). done.
Qed.

(** What [push] does to a buffer that holds [buffer d], with enough fuel. *)
Definition drain (d : StreamDecoder) : StreamDecoder * R (list DecodedMessage) :=
  push_loop (S (length (buffer d))) d [].

Lemma push_loop_drain n d acc :
  (length (buffer d) < n)%nat -> push_loop n d acc = prepend acc (drain d).
Proof.
  revert d acc. induction n as [n IH] using lt_wf_ind. intros d acc Hn.
  destruct n as [|n]; [lia|]. unfold drain. rewrite !push_loop_S.
  destruct (classify _ _) as [|e|f rest] eqn:Hc; simpl.
  - by rewrite app_nil_r.
  - done.
  - apply classify_Frame in Hc as [Hb Hf]. unfold len in Hf.
    apply (f_equal length) in Hb. rewrite length_app in Hb.
    destruct (decode_frame _ _) as [m|e|e]; [|done|done].
    rewrite (IH n), (IH (length (buffer d)) ltac:(lia)) by (simpl; lia).
    by rewrite prepend_app.
Qed.

Lemma drain_eq d :
  drain d =
  match classify (max_message_bytes (config d)) (buffer d) with
  | Wait => (d, Ok [])
  | Bad e => (clear d, Err e)
  | Frame f rest =>
      match decode_frame f (max_message_bytes (config d)) with
      | Ok m => prepend [m] (drain (with_buffer rest d))
      | Err e => (with_buffer rest d, Err e)
      | Fault e => (with_buffer rest d, Fault e)
      end
  end.
Proof.
  unfold drain at 1. rewrite push_loop_S.
  destruct (classify _ _) as [|e|f rest] eqn:Hc; [done|done|].
  apply classify_Frame in Hc as [Hb Hf]. unfold len in Hf.
  apply (f_equal length) in Hb. rewrite length_app in Hb.
  destruct (decode_frame _ _) as [m|e|e]; [|done|done].
  by rewrite push_loop_drain by (simpl; lia).
Qed.

(** Induction along the frames that are taken off the buffer. *)
Lemma drain_ind (P : StreamDecoder -> Prop) :
  (forall d,
     (forall f rest, classify (max_message_bytes (config d)) (buffer d) = Frame f rest ->
        P (with_buffer rest d)) -> P d) ->
  forall d, P d.
Proof.
  intros Hstep d. remember (length (buffer d)) as n eqn:Hn. revert d Hn.
  induction n as [n IH] using lt_wf_ind. intros d ->. apply Hstep. intros f rest Hc.
  apply classify_Frame in Hc as [Hb Hf]. apply (f_equal length) in Hb.
  rewrite length_app in Hb. unfold len in Hf.
  apply (IH (length rest)); [lia|done].
Qed.

(** Bytes that arrive later do not change what the earlier ones decode to. *)
Lemma drain_app d b d1 r1 :
  drain d = (d1, r1) ->
  match r1 with
  | Ok ms => drain (with_buffer (buffer d ++ b) d) = prepend ms (drain (with_buffer (buffer d1 ++ b) d1))
  | Err e => snd (drain (with_buffer (buffer d ++ b) d)) = Err e
  | Fault f => snd (drain (with_buffer (buffer d ++ b) d)) = Fault f
  end /\ config d1 = config d.
Proof.
  revert d1 r1. pattern d. revert d. apply drain_ind. intros d IH d1 r1. rewrite drain_eq.
  destruct (classify _ _) as [|e|f rest] eqn:Hc.
  - intros [= <- <-]. by rewrite prepend_nil.
  - intros [= <- <-]. rewrite drain_eq; simpl. rewrite classify_app by (by rewrite Hc). by rewrite Hc.
  - specialize (IH f rest eq_refl). 
    rewrite (drain_eq (with_buffer (buffer d ++ b) d)). cbn [buffer config with_buffer].
    rewrite classify_app by (by rewrite Hc). rewrite Hc.
    destruct (decode_frame _ _) as [m|e|e]; [|by intros [= <- <-]..].
    destruct (drain (with_buffer rest d)) as [d2 r2]. specialize (IH _ _ eq_refl) as [IH Hcfg].
    cbn [prepend]. intros [= <- <-]. cbn [buffer config with_buffer] in IH, Hcfg. split; [|done].
    change (with_buffer (rest ++ b) (with_buffer (buffer d ++ b) d)) with (with_buffer (rest ++ b) d).
    change (with_buffer (rest ++ b) (with_buffer rest d)) with (with_buffer (rest ++ b) d) in IH.
    destruct r2 as [ms|e|e]; simpl.
    + by rewrite IH, prepend_app.
    + by destruct (drain (with_buffer (rest ++ b) d)) as [? []]; simplify_eq/=.
    + by destruct (drain (with_buffer (rest ++ b) d)) as [? []]; simplify_eq/=.
Qed.

(** On success only the beginning of one frame is left. *)
Lemma drain_incomplete d d1 ms : drain d = (d1, Ok ms) -> incomplete d1.
Proof.
  revert d1 ms. pattern d. revert d. apply drain_ind. intros d IH d1 ms. rewrite drain_eq.
  destruct (classify _ _) as [|e|f rest] eqn:Hc; [by intros [= <- <-]|done|].
  specialize (IH f rest eq_refl). destruct (decode_frame _ _); [|done|done].
  destruct (drain (with_buffer rest d)) as [d2 []]; intros [= <- <-]; eauto.
Qed.

Lemma drain_shrinks d : len (buffer (fst (drain d))) <= len (buffer d) /\
  config (fst (drain d)) = config d.
Proof.
  pattern d. revert d. apply drain_ind. intros d IH. rewrite drain_eq.
  destruct (classify _ _) as [|e|f rest] eqn:Hc; [done|pose proof (len_nonneg (buffer d)); done|].
  specialize (IH f rest eq_refl). apply classify_Frame in Hc as [-> Hf]. rewrite len_app.
  destruct (decode_frame _ _); [|simpl; split; [lia|done]..].
  destruct (drain (with_buffer rest d)) as [d2 r2]; simpl in *. split; [lia|]. tauto.
Qed.

Lemma drain_returns d : len (buffer d) <= isize_max -> safe (fun _ => True) (snd (drain d)).
Proof.
  pattern d. revert d. apply drain_ind. intros d IH Hlen. rewrite drain_eq.
  destruct (classify _ _) as [|e|f rest] eqn:Hc; [done|done|].
  specialize (IH f rest eq_refl). apply classify_Frame in Hc as [Hb Hf]. rewrite Hb, len_app in Hlen.
  pose proof (len_nonneg rest).
  pose proof (safe_decode_frame f (max_message_bytes (config d)) ltac:(lia)).
  destruct (decode_frame _ _); [|done|done].
  destruct (drain (with_buffer rest d)) as [d2 []]; [done|done|]. simpl in *. apply IH. lia.
Qed.
End drain.

(** * Frames that decode *)
Lemma read_i32_at_0 b : 4 <= len b <= isize_max -> read_i32 b 0 = Ok (i32_from_le_bytes (take 4 b)).
Proof.
  intros H. unfold read_i32, read_le, uadd. cbn [mbind res_bind].
  replace (0 + 4 <=? usize_max) with true by lia. cbn [mbind res_bind].
  rewrite get_range_in by lia. done.
Qed.

Section streams.
Context `{Decompressors}.

Lemma decode_frame_Ok f limit m :
  len f <= isize_max -> decode_frame f limit = Ok m ->
  16 <= len f <= limit /\ len f <= i32_max /\ i32_from_le_bytes (take 4 f) = len f.
Proof.
  intros Hi. unfold decode_frame. destruct (len f <? 16) eqn:H16; [done|].
  rewrite read_i32_at_0 by lia. cbn [mbind res_bind].
  pose proof (take_4_range f ltac:(lia)) as Hr.
  destruct (_ || _) eqn:Hd; [done|].
  destruct (limit <? len f) eqn:Hl; [done|]. intros _.
  apply orb_false_elim in Hd as [Hd1 Hd2]. rewrite as_usize_id in Hd2 by lia. lia.
Qed.

Lemma classify_decoded d f rest m :
  len f <= isize_max -> decode_frame f (max_message_bytes (config d)) = Ok m ->
  classify (max_message_bytes (config d)) (f ++ rest) = Frame f rest.
Proof. intros Hi Hm. apply decode_frame_Ok in Hm as (?&?&?); [|done]. apply classify_whole; lia. Qed.

Lemma drain_frames d frames messages tail :
  Forall (fun f => len f <= isize_max) frames ->
  Forall2 (fun f m => decode_frame f (max_message_bytes (config d)) = Ok m) frames messages ->
  classify (max_message_bytes (config d)) tail = Wait ->
  drain (with_buffer (concat frames ++ tail) d) = (with_buffer tail d, Ok messages).
Proof.
  intros Hi Hd Ht. induction Hd as [|f m frames messages Hm Hd IH]; simpl.
  - rewrite drain_eq; simpl. by rewrite Ht.
  - apply Forall_cons in Hi as [Hf Hi]. rewrite drain_eq; simpl.
    rewrite <- app_assoc, (classify_decoded d f _ m), Hm by done.
    change (with_buffer _ (with_buffer _ d)) with (with_buffer (concat frames ++ tail) d).
    by rewrite IH.
Qed.

Lemma push_drain d bs :
  len (buffer d) + len bs <= max_buffer_bytes (config d) ->
  max_buffer_bytes (config d) <= usize_max ->
  push d bs = drain (with_buffer (buffer d ++ bs) d).
Proof. intros H1 H2. unfold push, saturating_add. by replace (_ <? _) with false by lia. Qed.

Lemma incomplete_short d :
  incomplete d -> len (buffer d) < Z.max 4 (max_message_bytes (config d)).
Proof.
  unfold incomplete, classify. cbv zeta.
  repeat case_match; try done; lia.
Qed.

Lemma push_all_drain d chunks d' ms :
  16 <= max_message_bytes (config d) -> max_buffer_bytes (config d) <= usize_max ->
  Forall (fun c => len c <= max_buffer_bytes (config d) - max_message_bytes (config d)) chunks ->
  incomplete d ->
  drain (with_buffer (buffer d ++ concat chunks) d) = (d', Ok ms) ->
  push_all d chunks = (d', Ok ms).
Proof.
  revert d ms. induction chunks as [|c chunks IH]; intros d ms Hm Hb Hc Hd.
  - simpl. rewrite app_nil_r, drain_eq; simpl. rewrite Hd. destruct d; by intros [= <- <-].
  - apply Forall_cons in Hc as [Hc Hcs]. cbn [concat push_all]. rewrite app_assoc.
    pose proof (incomplete_short d Hd) as Hs.
    rewrite push_drain by lia.
    destruct (drain (with_buffer (buffer d ++ c) d)) as [d1 r1] eqn:Hr.
    pose proof Hr as Ha. apply (drain_app _ (concat chunks)) in Ha as [Ha Hcfg].
    cbn [buffer with_buffer config] in Ha, Hcfg.
    intros Hall. change (with_buffer ?x (with_buffer ?y d)) with (with_buffer x d) in Ha.
    destruct r1 as [ms1|e|e]; [|by rewrite Hall in Ha..].
    rewrite Hall in Ha. destruct (drain (with_buffer (buffer d1 ++ concat chunks) d1)) as [d2 r2] eqn:H2.
    destruct r2 as [ms2| |]; simplify_eq/=.
    apply drain_incomplete in Hr.
    by rewrite (IH d1 ms2) by (rewrite ?Hcfg; done).
Qed.

(** C1: Reassembly.  However a connection's bytes are cut into chunks, the
    decoder returns exactly the messages of the frames they consist of, in
    order, and keeps exactly the unfinished frame at the end; no chunk is
    refused as long as it fits the buffer beside one unfinished message. *)
Theorem stream_reassembly config chunks frames messages tail :
  16 <= max_message_bytes config -> max_buffer_bytes config <= usize_max ->
  Forall (fun c => len c <= max_buffer_bytes config - max_message_bytes config) chunks ->
  Forall (fun f => len f <= isize_max) frames ->
  Forall2 (fun f m => decode_frame f (max_message_bytes config) = Ok m) frames messages ->
  classify (max_message_bytes config) tail = Wait ->
  concat chunks = concat frames ++ tail ->
  push_all (new config) chunks = ({| config := config; buffer := tail |}, Ok messages).
Proof.
  intros Hm Hb Hc Hi Hf Ht Heq. apply push_all_drain; [done..|].
  simpl. rewrite Heq. by apply (drain_frames (new config)).
Qed.

(** * Bounded retention *)
Lemma next_frame_length_eq d bs :
  len (buffer d) <= isize_max -> len bs <= isize_max ->
  next_frame_length d bs =
  if len (buffer d) + len bs <? 4 then Ok None else
  let n := i32_from_le_bytes (take 4 (buffer d ++ bs)) in
  if n <? 16 then Err (InvalidFrameLength n) else
  if max_message_bytes (config d) <? n then Err FrameTooLarge else Ok (Some n).
Proof.
  intros Hd Hbs. unfold next_frame_length. cbv zeta.
  pose proof (len_nonneg (buffer d)). pose proof (len_nonneg bs).
  unfold slice. rewrite (get_range_in (buffer d)) by lia. cbn [mbind res_bind].
  unfold usub. replace (_ <=? 4) with true by lia. cbn [mbind res_bind].
  replace (len bs <? 4 - Z.min (len (buffer d)) 4) with (len (buffer d) + len bs <? 4) by lia.
  destruct (_ <? 4) eqn:H4; [done|].
  rewrite get_range_in by lia. cbn [mbind res_bind].
  rewrite !Z.sub_0_r, !drop_0.
  replace (take 4 (buffer d ++ bs)) with
    (take (Z.to_nat (Z.min (len (buffer d)) 4)) (buffer d) ++
     take (Z.to_nat (4 - Z.min (len (buffer d)) 4)) bs).
  - pose proof (i32_from_range (take (Z.to_nat (Z.min (len (buffer d)) 4)) (buffer d) ++
     take (Z.to_nat (4 - Z.min (len (buffer d)) 4)) bs)) as Hr.
    assert (len (take (Z.to_nat (Z.min (len (buffer d)) 4)) (buffer d) ++
     take (Z.to_nat (4 - Z.min (len (buffer d)) 4)) bs) = 4) as Hl.
    { rewrite len_app. unfold len in *. rewrite !length_take. lia. }
    specialize (Hr Hl). destruct (_ <? 16) eqn:?; [done|]. by rewrite as_usize_id by lia.
  - rewrite take_app. f_equal; [|f_equal; unfold len in *; lia].
    destruct (decide (4 <= len (buffer d))); unfold len in *.
    + f_equal; lia.
    + rewrite !take_ge by lia. done.
Qed.

(** The bytes left over once a first frame has been taken are fewer than the
    chunk that completed it. *)
Lemma drain_rest_short d bs n :
  incomplete d -> n = i32_from_le_bytes (take 4 (buffer d ++ bs)) ->
  16 <= n -> n <= len (buffer d) + len bs -> n <= max_message_bytes (config d) ->
  len (buffer (fst (drain (with_buffer (buffer d ++ bs) d)))) < Z.max 1 (len bs).
Proof.
  intros Hi Hn H16 Hle Hmax. rewrite drain_eq; cbn [buffer config with_buffer].
  assert (len (buffer d) < n) as Hb.
  { unfold incomplete, classify in Hi. cbv zeta in Hi.
    destruct (len (buffer d) <? 4) eqn:?; [lia|].
    rewrite take_app_le in Hn by (unfold len in *; lia). rewrite <- Hn in Hi.
    repeat case_match; try done. lia. }
  destruct (classify _ _) as [|e|f rest] eqn:Hc; unfold classify in Hc; cbv zeta in Hc;
    rewrite len_app, <- Hn in Hc; pose proof (len_nonneg bs);
    replace (_ <? 4) with false in Hc by lia; replace (n <? 16) with false in Hc by lia;
    replace (_ <? n) with false in Hc by lia; replace (_ <? n) with false in Hc by lia; [done..|].
  injection Hc as <- <-.
  assert (len (drop (Z.to_nat n) (buffer d ++ bs)) < len bs) as Hdrop.
  { unfold len in *. rewrite length_drop, length_app. lia. }
  destruct (decode_frame _ _) as [m| |]; [|simpl; lia..].
  pose proof (drain_shrinks (with_buffer (drop (Z.to_nat n) (buffer d ++ bs)) d)) as [Hsh _].
  unfold prepend. destruct (drain _) as [d2 r2]. simpl in *. lia.
Qed.
End streams.

Section retention.
Context `{Decompressors} (cfg : DecoderConfig) (limit : Z).
Context (Hlimit : 16 <= limit) (Hbuffer : 2 * limit <= max_buffer_bytes cfg <= isize_max).

(** What holds of a decoder between two calls. *)
Definition bounded (d : StreamDecoder) : Prop :=
  config d = cfg /\ incomplete d /\ len (buffer d) < limit.

Lemma drain_step d bs :
  bounded d -> len bs <= limit ->
  len (buffer (fst (drain (with_buffer (buffer d ++ bs) d)))) < limit ->
  let '(d', r) := push d bs in
  len (buffer d') < limit /\ returns r /\ (forall ms, r = Ok ms -> bounded d').
Proof.
  intros (Hcfg & Hi & Hb) Hbs Hd. pose proof (len_nonneg (buffer d)).
  rewrite push_drain by (rewrite Hcfg; lia).
  pose proof (drain_returns (with_buffer (buffer d ++ bs) d)) as Hret.
  cbn [buffer with_buffer] in Hret. rewrite len_app in Hret. specialize (Hret ltac:(lia)).
  pose proof (drain_shrinks (with_buffer (buffer d ++ bs) d)) as [_ Hc].
  destruct (drain _) as [d' r] eqn:Hr. cbn [fst snd config with_buffer] in *.
  split; [done|]. split; [by eapply safe_returns|]. intros ms ->.
  split; [by rewrite Hc|]. split; [by eapply drain_incomplete|done].
Qed.

Lemma push_bounded_prefix_step d bs :
  bounded d -> len bs <= limit ->
  let '(d', r) := push_bounded_prefix d bs limit in
  len (buffer d') < limit /\ returns r /\ (forall ms, r = Ok ms -> bounded d').
Proof.
  intros Hd Hbs. pose proof Hd as (Hcfg & Hi & Hb).
  pose proof (len_nonneg (buffer d)). pose proof (len_nonneg bs).
  unfold push_bounded_prefix. rewrite Hcfg. replace (_ || _) with false by lia.
  rewrite next_frame_length_eq by lia. cbv zeta.
  destruct (_ + _ <? 4) eqn:H4.
  { apply drain_step; [done..|].
    pose proof (drain_shrinks (with_buffer (buffer d ++ bs) d)) as [Hs _]. simpl in Hs.
    rewrite len_app in Hs. lia. }
  set (n := i32_from_le_bytes (take 4 (buffer d ++ bs))).
  destruct (n <? 16) eqn:H16; [split; [done|]; split; [right; eauto|done]|].
  rewrite Hcfg. destruct (_ <? n) eqn:Hm; [split; [done|]; split; [right; eauto|done]|].
  unfold saturating_add. replace (Z.min _ _) with (len (buffer d) + len bs) by lia.
  destruct (_ || _) eqn:Hn.
  - apply drain_step; [done..|].
    destruct (decide (n <= len (buffer d) + len bs)).
    + pose proof (drain_rest_short d bs n Hi eq_refl ltac:(lia) ltac:(lia)) as Hs.
      rewrite Hcfg in Hs. specialize (Hs ltac:(lia)). lia.
    + pose proof (drain_shrinks (with_buffer (buffer d ++ bs) d)) as [Hs _]. simpl in Hs.
      rewrite len_app in Hs. lia.
  - unfold saturating_sub, slice. rewrite get_range_in by lia.
    unfold push_truncated. destruct (max_buffer_bytes (config d) <? _) eqn:Ho.
    + simpl. split; [unfold len; simpl; lia|]. split; [right; eauto|done].
    + cbn [clear with_buffer buffer]. set (pre := buffer d ++ _).
      pose proof (safe_decode_frame_prefix pre (max_message_bytes (config d))) as Hs.
      assert (len pre <= isize_max) as Hp.
      { unfold pre. rewrite len_app. unfold len in *. rewrite length_take, length_drop. lia. }
      specialize (Hs Hp). split; [unfold len; simpl; lia|].
      destruct (decode_frame_prefix _ _); [|split; [right; simpl; eauto|done]|done].
      split; [left; simpl; eauto|]. intros ms _. split; [done|].
      split; [|unfold len; simpl; lia]. unfold incomplete, classify. simpl. done.
Qed.

(** The decoders the sensor can hold: it feeds captured chunks of at most
    [limit] bytes and drops a stream that returned an error. *)
Inductive reachable : StreamDecoder -> Prop :=
| reachable_new : reachable (new cfg)
| reachable_push d bs d' ms :
    reachable d -> len bs <= limit -> push_bounded_prefix d bs limit = (d', Ok ms) ->
    reachable d'.

Lemma reachable_bounded d : reachable d -> bounded d.
Proof.
  induction 1 as [|d bs d' ms Hr IH Hbs Hp].
  - split; [done|]. split; [done|]. unfold len; simpl. lia.
  - pose proof (push_bounded_prefix_step d bs IH Hbs) as Hs. rewrite Hp in Hs.
    destruct Hs as (_ & _ & Hs). eauto.
Qed.

(** C20: Bounded retention.  Whatever a connection sends, a decoder fed through
    [push_bounded_prefix] in chunks of at most [limit] bytes holds fewer than
    [limit] bytes, and each call returns a list of messages or an error. *)
Theorem bounded_retention d bs :
  reachable d -> len bs <= limit ->
  len (buffer d) < limit /\
  len (buffer (fst (push_bounded_prefix d bs limit))) < limit /\
  returns (snd (push_bounded_prefix d bs limit)).
Proof.
  intros Hr Hbs. pose proof (reachable_bounded d Hr) as Hd.
  pose proof (push_bounded_prefix_step d bs Hd Hbs) as Hs.
  destruct (push_bounded_prefix d bs limit) as [d' r]. simpl. destruct Hd as (_&_&?). tauto.
Qed.
End retention.
