(* ===== verification/Encode.v ===== *)
(** Reference encoding of BSON documents and MongoDB frames.  The builders are
    those of the test module of crates/mongo-protocol/src/lib.rs; on top of
    them, [bson] is the abstract syntax of a BSON value (bsonspec.org), with its
    bytes, its JSON image and the condition under which the bytes are BSON.
    BsonRef.v proves the decoder correct against it. *)
From Stdlib Require Import ZArith Lia ZifyBool Strings.Byte Strings.Ascii Strings.String.
From stdpp Require Import base list strings.
From S2P Require Import Prelude Text Float64 Json Bson BsonJson Wire.

Local Open Scope string_scope.
Local Open Scope list_scope.
Local Open Scope Z_scope.

(** * The builders of the tests *)
Definition i32_to_le_bytes (v : Z) : bytes := le_bytes 4 v.
Definition cstring (s : string) : bytes := bytes_of s ++ [x00].

Definition embedded_element (element_type : byte) (key : string) (value : bytes) : bytes :=
  [element_type] ++ cstring key ++ value.
Definition string_element (key value : string) : bytes :=
  [x02] ++ cstring key ++ i32_to_le_bytes (slen value + 1) ++ cstring value.
Definition double_element (key : string) (bits : Z) : bytes :=
  [x01] ++ cstring key ++ le_bytes 8 bits.
Definition int_element (key : string) (value : Z) : bytes :=
  [x10] ++ cstring key ++ i32_to_le_bytes value.
Definition bool_element (key : string) (value : bool) : bytes :=
  [x08] ++ cstring key ++ [u8_of (Z.b2z value)].
Definition binary_element (key : string) (value : bytes) : bytes :=
  [x05] ++ cstring key ++ i32_to_le_bytes (len value) ++ [x00] ++ value.

(** [document]: the elements between their length and a NUL *)
Definition document (elements : list bytes) : bytes :=
  let body := concat elements ++ [x00] in
  i32_to_le_bytes (4 + len body) ++ body.

Definition frame (opcode request_id response_to : Z) (payload : bytes) : bytes :=
  i32_to_le_bytes (16 + len payload) ++ i32_to_le_bytes request_id ++
  i32_to_le_bytes response_to ++ i32_to_le_bytes opcode ++ payload.

Definition op_msg (request_id response_to flags : Z) (bson : bytes) : bytes :=
  frame OP_MSG request_id response_to (le_bytes 4 flags ++ [x00] ++ bson).

Definition op_msg_with_document_sequence (request_id : Z) (body : bytes) (identifier : string)
    (documents : list bytes) : bytes :=
  let section_size := 4 + slen identifier + 1 + len (concat documents) in
  frame OP_MSG request_id 0
    (le_bytes 4 0 ++ [x00] ++ body ++ [x01] ++ i32_to_le_bytes section_size ++
     cstring identifier ++ concat documents).

Definition op_query (request_id : Z) (namespace : string) (bson : bytes) : bytes :=
  frame OP_QUERY request_id 0
    (le_bytes 4 0 ++ cstring namespace ++ i32_to_le_bytes 0 ++ i32_to_le_bytes (-1) ++ bson).

Definition op_reply (request_id response_to flags : Z) (bson : bytes) : bytes :=
  frame OP_REPLY request_id response_to
    (le_bytes 4 flags ++ le_bytes 8 0 ++ i32_to_le_bytes 0 ++ i32_to_le_bytes 1 ++ bson).

(** * Abstract BSON *)
#[warnings="-register-all"]
Inductive bson : Set :=
| BDouble (bits : Z)
| BString (s : string)
| BDocument (l : list (string * bson))
| BArray (l : list (string * bson))
| BBinary (subtype : byte) (data : bytes)
| BUndefined
| BObjectId (raw : bytes)
| BBool (b : bool)
| BDate (v : Z)
| BNull
| BRegex (pattern options : string)
| BDbPointer (namespace : string) (id : bytes)
| BCode (s : string)
| BSymbol (s : string)
| BInt32 (v : Z)
| BTimestamp (v : Z)
| BInt64 (v : Z)
| BDecimal (raw : bytes)
| BMaxKey
| BMinKey.

Section bson_ind.
Variable P : bson -> Prop.
Hypothesis Hdoc : forall l, Forall (fun kv => P (snd kv)) l -> P (BDocument l).
Hypothesis Harr : forall l, Forall (fun kv => P (snd kv)) l -> P (BArray l).
Hypothesis Hleaf : forall v,
  match v with BDocument _ | BArray _ => True | _ => P v end.

Fixpoint bson_ind' (v : bson) : P v :=
  let fix elements (l : list (string * bson)) : Forall (fun kv => P (snd kv)) l :=
    match l with
    | [] => Forall_nil_2 _
    | kv :: l => Forall_cons_2 _ _ _ (bson_ind' (snd kv)) (elements l)
    end in
  match v as v return match v with BDocument _ | BArray _ => True | _ => P v end -> P v with
  | BDocument l => fun _ => Hdoc l (elements l)
  | BArray l => fun _ => Harr l (elements l)
  | _ => fun H => H
  end (Hleaf v).
End bson_ind.

Definition tag (v : bson) : byte :=
  match v with
  | BDouble _ => x01 | BString _ => x02 | BDocument _ => x03 | BArray _ => x04
  | BBinary _ _ => x05 | BUndefined => x06 | BObjectId _ => x07 | BBool _ => x08
  | BDate _ => x09 | BNull => x0a | BRegex _ _ => x0b | BDbPointer _ _ => x0c
  | BCode _ => x0d | BSymbol _ => x0e | BInt32 _ => x10 | BTimestamp _ => x11
  | BInt64 _ => x12 | BDecimal _ => x13 | BMaxKey => x7f | BMinKey => xff
  end.

Definition string_bytes (s : string) : bytes := i32_to_le_bytes (slen s + 1) ++ cstring s.

Fixpoint value_bytes (v : bson) : bytes :=
  let elements l := (fun kv => embedded_element (tag (snd kv)) (fst kv) (value_bytes (snd kv))) <$> l in
  match v with
  | BDouble bits => le_bytes 8 bits
  | BString s | BCode s | BSymbol s => string_bytes s
  | BDocument l | BArray l => document (elements l)
  | BBinary subtype data => i32_to_le_bytes (len data) ++ [subtype] ++ data
  | BUndefined | BNull | BMaxKey | BMinKey => []
  | BObjectId raw => raw
  | BBool b => [u8_of (Z.b2z b)]
  | BDate v | BInt64 v | BTimestamp v => le_bytes 8 v
  | BRegex pattern options => cstring pattern ++ cstring options
  | BDbPointer namespace id => string_bytes namespace ++ id
  | BInt32 v => i32_to_le_bytes v
  | BDecimal raw => raw
  end.
Definition element_bytes (kv : string * bson) : bytes :=
  embedded_element (tag (snd kv)) (fst kv) (value_bytes (snd kv)).
Definition encode (l : list (string * bson)) : bytes := document (element_bytes <$> l).

(** A BSON key or C string is UTF-8 with no NUL inside. *)
Definition no_nul (s : string) : bool := forallb (fun b => negb (is_nul b)) (bytes_of s).
Definition is_cstring (s : string) : bool := utf8 s && no_nul s.

Fixpoint wf (v : bson) : bool :=
  let elements l := forallb (fun kv => is_cstring (fst kv) && wf (snd kv)) l in
  match v with
  | BDouble bits => (0 <=? bits) && (bits <=? u64_max)
  | BString s | BCode s | BSymbol s => utf8 s
  | BDocument l | BArray l => elements l
  | BObjectId raw => len raw =? 12
  | BDate v | BInt64 v => (i64_min <=? v) && (v <=? i64_max)
  | BRegex pattern options => is_cstring pattern && is_cstring options
  | BDbPointer namespace id => utf8 namespace && (len id =? 12)
  | BInt32 v => (i32_min <=? v) && (v <=? i32_max)
  | BTimestamp v => (0 <=? v) && (v <=? u64_max)
  | BDecimal raw => len raw =? 16
  | _ => true
  end.
Definition wf_document (l : list (string * bson)) : bool :=
  forallb (fun kv => is_cstring (fst kv) && wf (snd kv)) l && (len (encode l) <=? i32_max).

(** The JSON image: relaxed for numbers, the extended forms of the source
    otherwise. *)
Fixpoint json_of (v : bson) : JsonValue :=
  match v with
  | BDouble bits =>
      match number_from_f64 (f64_from_bits bits) with
      | Some n => JNumber n
      | None => json1 "$numberDouble" (JString (nonfinite_to_string (f64_from_bits bits)))
      end
  | BString s => JString s
  | BDocument l => JObject (fold_left (fun m kv => map_insert (fst kv) (json_of (snd kv)) m) l [])
  | BArray l => JArray ((fun kv => json_of (snd kv)) <$> l)
  | BBinary subtype data =>
      json1 "$binary" (json2 "hex" (JString (encode_hex data)) "subType" (JString (fmt_02x subtype)))
  | BUndefined => json1 "$undefined" (JBool true)
  | BObjectId raw => json1 "$oid" (JString (encode_hex raw))
  | BBool b => JBool b
  | BDate v => json1 "$date" (json1 "$numberLong" (JString (int_to_string v)))
  | BNull => JNull
  | BRegex pattern options =>
      json1 "$regularExpression" (json2 "pattern" (JString pattern) "options" (JString options))
  | BDbPointer namespace id =>
      json1 "$dbPointer" (json2 "$ref" (JString namespace) "$id" (JString (encode_hex id)))
  | BCode s => json1 "$code" (JString s)
  | BSymbol s => json1 "$symbol" (JString s)
  | BInt32 v | BInt64 v => json_int v
  | BTimestamp v =>
      json1 "$timestamp" (json2 "t" (json_int (v / 2 ^ 32)) "i" (json_int (v mod 2 ^ 32)))
  | BDecimal raw => json1 "$numberDecimalBytes" (JString (encode_hex raw))
  | BMaxKey => json1 "$maxKey" (json_int 1)
  | BMinKey => json1 "$minKey" (json_int 1)
  end.
Definition json_of_document (l : list (string * bson)) : JsonValue := json_of (BDocument l).

(** A store-only codec, an instance of the decompressor interface. *)
Definition stored : Decompressors := {|
  snappy_decompress_len := fun c => inr (len c);
  snappy_decompress := inr;
  zlib_read := fun c limit => inr (take (Z.to_nat limit) c);
  zstd_open := fun _ => None;
  zstd_read := fun c limit => inr (take (Z.to_nat limit) c)
|}.

Example find_orders_frame :
  let bson := document [string_element "find" "orders"; string_element "$db" "sales"] in
  encode [("find", BString "orders"); ("$db", BString "sales")] = bson /\
  command <$> match @decode_frame stored (op_msg 41 0 0 bson) DEFAULT_MAX_MESSAGE_BYTES with
              | Ok m => Some m | _ => None end
  = Some (Some {|
      Summary.name := "find"; Summary.database := Some "sales";
      Summary.collection := Some "orders"; Summary.auth_mechanism := None;
      Summary.principal := None; Summary.speculative_auth := false;
      Summary.delete_scope := None; Summary.delete_statements := None;
      Summary.query := Some (JObject [("$db", JString "sales"); ("find", JString "orders")]) |}).
Proof. vm_compute. done. Qed.
