(* ===== verification/BsonRef.v ===== *)
(** The BSON decoder against its reference: on the encoding of an abstract
    document, the conversion to JSON yields the document's JSON image and the
    summary yields the fold of its elements' meanings, whatever bytes surround
    the document in the buffer. *)
From Stdlib Require Import ZArith Lia ZifyBool Strings.Byte Strings.Ascii Strings.String.
From stdpp Require Import base list strings.
From S2P Require Import Prelude Text Float64 Json Bson BsonJson Summary Wire Encode.

Local Open Scope string_scope.
Local Open Scope list_scope.
Local Open Scope Z_scope.

(** * Reading in the middle of a buffer *)
Lemma len_nil {A} : len (@nil A) = 0.
Proof. done. Qed.
Lemma len_cstring s : len (cstring s) = slen s + 1.
Proof. unfold cstring. by rewrite len_app, len_bytes_of. Qed.
Lemma len_i32 v : len (i32_to_le_bytes v) = 4.
Proof. apply len_le_bytes. Qed.
Lemma len_le8 v : len (le_bytes 8 v) = 8.
Proof. apply len_le_bytes. Qed.

Lemma get_range_at {A} (l pre mid post : list A) a b :
  l = pre ++ mid ++ post -> a = len pre -> b = len pre + len mid -> get_range l a b = Some mid.
Proof.
  intros -> -> ->. pose proof (len_nonneg pre). pose proof (len_nonneg mid). pose proof (len_nonneg post).
  rewrite get_range_in by (rewrite ?len_app; lia).
  f_equal. replace (Z.to_nat (len pre)) with (length pre) by (unfold len; lia).
  rewrite drop_app_length. replace (Z.to_nat _) with (length mid) by (unfold len; lia).
  apply take_app_length.
Qed.

Lemma get_at {A} (l pre post : list A) x i :
  l = pre ++ x :: post -> i = len pre -> get l i = Some x.
Proof.
  intros -> ->. unfold get. pose proof (len_nonneg pre). pose proof (len_nonneg post).
  replace (_ && _) with true by (rewrite len_app, len_cons; lia).
  replace (Z.to_nat (len pre)) with (length pre) by (unfold len; lia).
  by rewrite lookup_app_r, Nat.sub_diag by lia.
Qed.

Lemma index_at {E A} (l pre post : list A) x i :
  l = pre ++ x :: post -> i = len pre -> index (E := E) l i = Ok x.
Proof. intros. unfold index. by erewrite get_at. Qed.

Lemma slice_at {E A} (l pre mid post : list A) a b :
  l = pre ++ mid ++ post -> a = len pre -> b = len pre + len mid -> slice (E := E) l a b = Ok mid.
Proof. intros. unfold slice. by erewrite get_range_at. Qed.

Lemma uadd_ok {E} a b : a + b <= usize_max -> uadd (E := E) a b = Ok (a + b).
Proof. intros. unfold uadd. by replace (_ <=? _) with true by lia. Qed.
Lemma usub_ok {E} a b : b <= a -> usub (E := E) a b = Ok (a - b).
Proof. intros. unfold usub. by replace (_ <=? _) with true by lia. Qed.
Lemma checked_add_ok a b : a + b <= usize_max -> checked_add a b = Some (a + b).
Proof. intros. unfold checked_add. by replace (_ <=? _) with true by lia. Qed.
Lemma within_ok {A} (l : list A) e : e <= len l -> within l (Some e) = Some e.
Proof. intros. unfold within. by replace (_ <=? _) with true by lia. Qed.

Section at_offset.
Context (bs pre : bytes) (Hlen : len bs <= isize_max).

Lemma read_le_at {A} n (conv : bytes -> A) raw post :
  bs = pre ++ raw ++ post -> len raw = n -> read_le n conv bs (len pre) = Ok (conv raw).
Proof.
  intros Hb Hn. unfold read_le. rewrite Hb, !len_app in Hlen.
  pose proof (len_nonneg post). pose proof (len_nonneg pre).
  rewrite uadd_ok by lia. cbn [mbind res_bind].
  by rewrite (get_range_at bs pre raw post) by (rewrite ?Hn; done).
Qed.

Lemma read_i32_at v post :
  bs = pre ++ i32_to_le_bytes v ++ post -> i32_min <= v <= i32_max -> read_i32 bs (len pre) = Ok v.
Proof.
  intros Hb Hv. unfold read_i32. rewrite (read_le_at _ _ _ _ Hb (len_i32 v)).
  unfold i32_to_le_bytes. by rewrite i32_le_bytes.
Qed.

Lemma read_i64_at v post :
  bs = pre ++ le_bytes 8 v ++ post -> i64_min <= v <= i64_max -> read_i64 bs (len pre) = Ok v.
Proof.
  intros Hb Hv. unfold read_i64. rewrite (read_le_at _ _ _ _ Hb (len_le8 v)). by rewrite i64_le_bytes.
Qed.

Lemma le8_u64 v : 0 <= v <= u64_max -> u64_from_le_bytes (le_bytes 8 v) = v.
Proof. intros. unfold u64_from_le_bytes. rewrite le_val_le_bytes. apply Z.mod_small. lia. Qed.

Lemma read_u64_at v post :
  bs = pre ++ le_bytes 8 v ++ post -> 0 <= v <= u64_max -> read_u64 bs (len pre) = Ok v.
Proof.
  intros Hb Hv. unfold read_u64. rewrite (read_le_at _ _ _ _ Hb (len_le8 v)). by rewrite le8_u64.
Qed.

Lemma from_utf8_ok s : utf8 s = true -> from_utf8 (bytes_of s) = Some s.
Proof.
  unfold utf8, from_utf8. destruct (utf8_decode (bytes_of s)); [|done]. by rewrite string_of_bytes_of.
Qed.

Lemma position_nul (l post : bytes) :
  forallb (fun b => negb (is_nul b)) l = true -> position is_nul (l ++ x00 :: post) = Some (len l).
Proof.
  induction l as [|b l IH]; [done|]. simpl. intros [Hb Hl]%andb_prop.
  destruct (is_nul b); [done|]. rewrite IH by done. simpl. f_equal. rewrite len_cons. lia.
Qed.

Lemma read_cstring_at s post :
  bs = pre ++ cstring s ++ post -> is_cstring s = true ->
  read_cstring bs (len pre) = Ok (s, len pre + len (cstring s)).
Proof.
  intros Hb [Hu Hn]%andb_prop. unfold read_cstring, get_from.
  pose proof Hlen as Hl. rewrite Hb, !len_app, len_cstring in Hl.
  pose proof (len_nonneg post). pose proof (len_nonneg pre). pose proof (slen_nonneg s).
  rewrite (get_range_at bs pre (cstring s ++ post) []) by
    (rewrite ?app_nil_r, ?Hb, ?len_app; done || lia).
  cbn [ok_or mbind res_bind]. unfold cstring at 1. rewrite <- app_assoc. cbn [app].
  rewrite position_nul by done. cbn [ok_or mbind res_bind].
  rewrite len_bytes_of, uadd_ok by lia. cbn [mbind res_bind].
  rewrite (slice_at bs pre (bytes_of s) ([x00] ++ post)) by
    (rewrite ?Hb, ?len_bytes_of; unfold cstring; rewrite <- ?app_assoc; done).
  cbn [mbind res_bind]. rewrite from_utf8_ok by done. cbn [ok_or mbind res_bind].
  rewrite uadd_ok by lia. cbn [mbind res_bind]. rewrite len_cstring. do 2 f_equal. lia.
Qed.

Lemma read_bson_string_at s post :
  bs = pre ++ string_bytes s ++ post -> utf8 s = true -> slen s < i32_max ->
  read_bson_string bs (len pre) = Ok s.
Proof.
  intros Hb Hu Hs. unfold read_bson_string. unfold string_bytes in Hb. rewrite <- app_assoc in Hb.
  pose proof Hlen as Hl. rewrite Hb, !len_app, len_cstring, len_i32 in Hl.
  pose proof (len_nonneg post). pose proof (len_nonneg pre). pose proof (slen_nonneg s).
  rewrite (read_i32_at _ _ Hb) by lia. cbn [mbind res_bind].
  replace (_ <? 1) with false by lia. rewrite uadd_ok by lia. cbn [mbind res_bind].
  rewrite as_usize_id, checked_add_ok by lia. cbn [ok_or mbind res_bind].
  assert (len bs = len pre + (4 + (slen s + 1 + len post))) as Hbs.
  { rewrite Hb, !len_app, len_cstring, len_i32. lia. }
  rewrite Hbs. replace (_ <? _) with false by lia.
  rewrite usub_ok by lia. cbn [mbind res_bind]. unfold cstring in Hb.
  rewrite (index_at bs (pre ++ i32_to_le_bytes (slen s + 1) ++ bytes_of s) post x00)
    by (rewrite ?Hb, ?len_app, ?len_i32, ?len_bytes_of, <- ?app_assoc; done || lia).
  cbn [mbind res_bind]. change (negb (u8 x00 =? 0)) with false. cbv iota.
  rewrite (slice_at bs (pre ++ i32_to_le_bytes (slen s + 1)) (bytes_of s) ([x00] ++ post))
    by (rewrite ?Hb, ?len_app, ?len_i32, ?len_bytes_of, <- ?app_assoc; done || lia).
  cbn [mbind res_bind]. by rewrite from_utf8_ok.
Qed.

Lemma read_bson_binary_at subtype data post :
  bs = pre ++ (i32_to_le_bytes (len data) ++ [subtype] ++ data) ++ post -> len data <= i32_max ->
  read_bson_binary bs (len pre) = Ok data.
Proof.
  intros Hb Hd. unfold read_bson_binary. rewrite <- !app_assoc in Hb.
  pose proof Hlen as Hl. rewrite Hb, !len_app, len_i32, len_cons, len_nil in Hl.
  pose proof (len_nonneg post). pose proof (len_nonneg pre). pose proof (len_nonneg data).
  rewrite (read_i32_at _ _ Hb) by lia. cbn [mbind res_bind].
  replace (_ <? 0) with false by lia.
  rewrite as_usize_id, checked_add_ok by lia. cbn [ok_or mbind res_bind].
  rewrite checked_add_ok by lia. cbn [ok_or mbind res_bind].
  rewrite (get_range_at bs (pre ++ i32_to_le_bytes (len data) ++ [subtype]) data post)
    by (rewrite ?Hb, ?len_app, ?len_i32, ?len_cons, ?len_nil, <- ?app_assoc; done || lia).
  done.
Qed.

Lemma get8_at raw post : bs = pre ++ raw ++ post -> len raw = 8 -> get8 bs (len pre) = Ok raw.
Proof.
  intros Hb Hr. unfold get8. pose proof Hlen as Hl. rewrite Hb, !len_app in Hl.
  pose proof (len_nonneg post). pose proof (len_nonneg pre).
  rewrite uadd_ok by lia. cbn [mbind res_bind]. by rewrite (get_range_at bs pre raw post) by (rewrite ?Hr; done).
Qed.

Lemma within_at v post :
  bs = pre ++ v ++ post -> forall n, n = len v ->
  ok_or InvalidBson (within bs (checked_add (len pre) n)) = Ok (len pre + len v).
Proof.
  intros Hb n ->. pose proof Hlen as Hl. rewrite Hb, !len_app in Hl. pose proof (len_nonneg post).
  rewrite checked_add_ok, within_ok; [done| |lia]. rewrite Hb, !len_app. lia.
Qed.
End at_offset.

(** * Values *)
Lemma len_document els : len (document els) = len (concat els) + 5.
Proof. unfold document. rewrite len_app, len_i32, len_app, len_cons, len_nil. lia. Qed.

Lemma document_eq els :
  document els = i32_to_le_bytes (len (document els)) ++ concat els ++ [x00].
Proof. rewrite len_document. unfold document. rewrite len_app, len_cons, len_nil. do 2 f_equal. lia. Qed.

Lemma len_string_bytes s : len (string_bytes s) = slen s + 5.
Proof. unfold string_bytes. rewrite len_app, len_i32, len_cstring. lia. Qed.

Ltac wf_split :=
  repeat match goal with
         | H : _ && _ = true |- _ => apply andb_prop in H as [? ?]
         end.

Section values.
Context (bs pre post : bytes) (Hlen : len bs <= isize_max).

Lemma skip_fixed_at t raw :
  bs = pre ++ raw ++ post -> fixed_length t = Some (len raw) ->
  skip_value bs (len pre) t = Ok (len pre + len raw).
Proof. intros Hb Hf. unfold skip_value. rewrite Hf. by eapply within_at. Qed.

Lemma skip_string_at t s :
  any_of t [0x02; 0x0d; 0x0e] = true -> fixed_length t = None ->
  bs = pre ++ string_bytes s ++ post -> slen s < i32_max ->
  skip_value bs (len pre) t = Ok (len pre + len (string_bytes s)).
Proof.
  intros Ht Hf Hb Hs. unfold skip_value. rewrite Hf, Ht. pose proof (slen_nonneg s).
  assert (bs = pre ++ i32_to_le_bytes (slen s + 1) ++ cstring s ++ post) as Hb'
    by (rewrite Hb; unfold string_bytes; by rewrite <- app_assoc).
  rewrite (read_i32_at bs pre Hlen _ _ Hb') by lia. cbn [mbind res_bind].
  replace (_ <? 1) with false by lia. rewrite as_usize_id, uadd_ok by lia. cbn [mbind res_bind].
  eapply within_at; [done..|]. rewrite len_string_bytes. lia.
Qed.

Lemma skip_document_at t els :
  any_of t [0x02; 0x0d; 0x0e] = false -> any_of t [0x03; 0x04; 0x0f] = true ->
  fixed_length t = None ->
  bs = pre ++ document els ++ post -> len (document els) <= i32_max ->
  skip_value bs (len pre) t = Ok (len pre + len (document els)).
Proof.
  intros Ht1 Ht2 Hf Hb Hs. unfold skip_value. rewrite Hf, Ht1, Ht2.
  pose proof (len_document els). pose proof (len_nonneg (concat els)).
  assert (bs = pre ++ i32_to_le_bytes (len (document els)) ++ (concat els ++ [x00]) ++ post) as Hb'
    by (rewrite Hb, document_eq at 1; by rewrite <- !app_assoc).
  rewrite (read_i32_at bs pre Hlen _ _ Hb') by lia. cbn [mbind res_bind].
  replace (_ <? 5) with false by lia. rewrite as_usize_id by lia.
  by eapply within_at.
Qed.

Lemma skip_binary_at subtype data :
  bs = pre ++ (i32_to_le_bytes (len data) ++ [subtype] ++ data) ++ post -> len data + 5 <= i32_max ->
  skip_value bs (len pre) 5 = Ok (len pre + len (i32_to_le_bytes (len data) ++ [subtype] ++ data)).
Proof.
  intros Hb Hd. unfold skip_value. cbn [fixed_length]. pose proof (len_nonneg data).
  change (fixed_length 5) with (@None Z).
  change (any_of 5 [2; 13; 14]) with false. change (any_of 5 [3; 4; 15]) with false.
  change (5 =? 5) with true. cbv iota.
  pose proof Hb as Hb'. rewrite <- !app_assoc in Hb'.
  rewrite (read_i32_at bs pre Hlen _ _ Hb') by lia. cbn [mbind res_bind].
  replace (_ <? 0) with false by lia. rewrite as_usize_id, uadd_ok by lia. cbn [mbind res_bind].
  eapply within_at; [done..|]. rewrite len_app, len_i32. cbn [app]. rewrite len_cons. lia.
Qed.

Lemma skip_regex_at p o :
  bs = pre ++ (cstring p ++ cstring o) ++ post -> is_cstring p = true -> is_cstring o = true ->
  skip_value bs (len pre) 11 = Ok (len pre + len (cstring p ++ cstring o)).
Proof.
  intros Hb Hp Ho. unfold skip_value.
  change (fixed_length 11) with (@None Z).
  change (any_of 11 [2; 13; 14]) with false. change (any_of 11 [3; 4; 15]) with false.
  change (11 =? 5) with false. change (11 =? 11) with true. cbv iota.
  rewrite <- app_assoc in Hb.
  rewrite (read_cstring_at bs pre Hlen _ _ Hb Hp). cbn [mbind res_bind].
  rewrite <- len_app. rewrite app_assoc in Hb.
  rewrite (read_cstring_at bs _ Hlen _ _ Hb Ho). cbn [mbind res_bind].
  rewrite !len_app. f_equal; lia.
Qed.

Lemma skip_db_pointer_at n id :
  bs = pre ++ (string_bytes n ++ id) ++ post -> slen n < i32_max -> len id = 12 ->
  skip_value bs (len pre) 12 = Ok (len pre + len (string_bytes n ++ id)).
Proof.
  intros Hb Hn Hid. unfold skip_value. pose proof (slen_nonneg n).
  change (fixed_length 12) with (@None Z).
  change (any_of 12 [2; 13; 14]) with false. change (any_of 12 [3; 4; 15]) with false.
  change (12 =? 5) with false. change (12 =? 11) with false. change (12 =? 12) with true. cbv iota.
  pose proof Hb as Hb'. unfold string_bytes in Hb'. rewrite <- !app_assoc in Hb'.
  rewrite (read_i32_at bs pre Hlen _ _ Hb') by lia. cbn [mbind res_bind].
  replace (_ <? 1) with false by lia. rewrite as_usize_id, uadd_ok by lia. cbn [mbind res_bind].
  rewrite uadd_ok by lia. cbn [mbind res_bind].
  eapply within_at; [done..|]. rewrite len_app, len_string_bytes. lia.
Qed.

Lemma skip_value_at v :
  bs = pre ++ value_bytes v ++ post -> wf v = true -> len (value_bytes v) <= i32_max ->
  skip_value bs (len pre) (u8 (tag v)) = Ok (len pre + len (value_bytes v)).
Proof.
  intros Hb Hw Hv.
  destruct v; cbn [wf tag value_bytes] in *; wf_split;
    rewrite ?len_string_bytes, ?len_app, ?len_i32, ?len_string_bytes in Hv.
  all: lazymatch goal with
       | |- skip_value _ _ (u8 ?t) = _ =>
           lazymatch t with
           | x02 => apply skip_string_at; [done|done|done|lia]
           | x0d => apply skip_string_at; [done|done|done|lia]
           | x0e => apply skip_string_at; [done|done|done|lia]
           | x03 => by apply skip_document_at
           | x04 => by apply skip_document_at
           | x05 => apply skip_binary_at; [done|]; change (len [subtype]) with 1 in Hv; lia
           | x0b => by apply skip_regex_at
           | x0c => pose proof (len_nonneg id); apply skip_db_pointer_at; [done|lia|lia]
           | x07 => apply skip_fixed_at; [done|]; replace (len raw) with 12 by lia; reflexivity
           | x13 => apply skip_fixed_at; [done|]; replace (len raw) with 16 by lia; reflexivity
           | _ => apply skip_fixed_at; [done|]; rewrite ?len_le8, ?len_i32; reflexivity
           end
       end.
Qed.

Lemma bson_db_pointer_at n id :
  bs = pre ++ (string_bytes n ++ id) ++ post -> utf8 n = true -> slen n < i32_max ->
  bson_db_pointer bs (len pre) (len pre + len (string_bytes n ++ id)) = Ok (json_of (BDbPointer n id)).
Proof.
  intros Hb Hu Hn. unfold bson_db_pointer. pose proof (slen_nonneg n). pose proof (len_nonneg id).
  assert (len pre + slen n + 5 <= isize_max) as Hp.
  { pose proof Hlen as Hl. rewrite Hb, !len_app, len_string_bytes in Hl. pose proof (len_nonneg post). lia. }
  rewrite <- app_assoc in Hb.
  rewrite (read_bson_string_at bs pre Hlen _ _ Hb) by done. cbn [mbind res_bind].
  assert (bs = pre ++ i32_to_le_bytes (slen n + 1) ++ cstring n ++ id ++ post) as Hb'
    by (rewrite Hb; unfold string_bytes; by rewrite <- !app_assoc).
  rewrite (read_i32_at bs pre Hlen _ _ Hb') by lia. cbn [mbind res_bind].
  rewrite uadd_ok by lia. cbn [mbind res_bind]. rewrite as_usize_id by lia.
  rewrite uadd_ok by lia. cbn [mbind res_bind].
  rewrite (get_range_at bs (pre ++ string_bytes n) id post)
    by (rewrite ?Hb, ?len_app, ?len_string_bytes, <- ?app_assoc; done || lia).
  done.
Qed.

Lemma bson_value_at container v :
  bs = pre ++ value_bytes v ++ post -> wf v = true -> len (value_bytes v) <= i32_max ->
  (forall l, v = BDocument l -> container (encode l) false = Ok (json_of v)) ->
  (forall l, v = BArray l -> container (encode l) true = Ok (json_of v)) ->
  bson_value container bs (len pre) (len pre + len (value_bytes v)) (u8 (tag v)) = Ok (json_of v).
Proof.
  intros Hb Hw Hv Hdoc Harr. pose proof (get_range_at bs pre _ post _ _ Hb eq_refl eq_refl) as Hraw.
  destruct v; cbn [wf] in Hw; wf_split;
    unfold bson_value; cbn [tag];
    match goal with |- context [u8 ?t] => let n := eval vm_compute in (u8 t) in change (u8 t) with n end;
    cbn [Z.eqb Pos.eqb]; rewrite ?Hraw; cbn [ok_or mbind res_bind]; cbn [value_bytes] in *;
    rewrite ?len_app, ?len_string_bytes in Hv;
    try (by eauto); try (by erewrite read_bson_string_at by (done || lia));
    try (erewrite read_i64_at by (done || lia)); try (erewrite read_u64_at by (done || lia));
    try (erewrite read_i32_at by (done || lia)); try done.
  - unfold f64_from_le_bytes. rewrite le8_u64 by lia. by cbn [json_of].
  - pose proof (len_nonneg data). change (len [subtype]) with 1 in Hv. rewrite len_i32 in Hv.
    assert (len pre + 5 <= isize_max).
    { pose proof Hlen as Hl. rewrite Hb, !len_app, len_i32 in Hl. change (len [subtype]) with 1 in Hl.
      pose proof (len_nonneg post). lia. }
    rewrite uadd_ok by lia. cbn [mbind res_bind].
    rewrite (get_at bs (pre ++ i32_to_le_bytes (len data)) (data ++ post) subtype)
      by (rewrite ?Hb, ?len_app, ?len_i32, <- ?app_assoc; done).
    cbn [ok_or mbind res_bind]. by erewrite read_bson_binary_at by (done || lia).
  - erewrite get_at by done. cbn [ok_or mbind res_bind json_of]. rewrite u8_u8_of. by destruct b.
  - rewrite <- app_assoc in Hb. rewrite (read_cstring_at bs pre Hlen _ _ Hb) by done.
    cbn [mbind res_bind]. rewrite <- len_app. rewrite app_assoc in Hb.
    by rewrite (read_cstring_at bs _ Hlen _ _ Hb) by done.
  - pose proof (len_nonneg id).
    apply bson_db_pointer_at; [done|done|lia].
  - cbn [json_of mbind res_bind]. rewrite Z.shiftr_div_pow2 by lia.
    by change 4294967295 with (Z.ones 32); rewrite Z.land_ones by lia.
Qed.
End values.

(** * Documents *)
Definition element_wf (kv : string * bson) : bool := is_cstring (fst kv) && wf (snd kv).

Lemma len_element kv : len (element_bytes kv) = slen (fst kv) + 2 + len (value_bytes (snd kv)).
Proof.
  unfold element_bytes, embedded_element. rewrite !len_app, len_cstring.
  change (len [_]) with 1. lia.
Qed.

Lemma check_container_document els :
  len (document els) <= i32_max -> check_container (document els) = Ok tt.
Proof.
  intros Hl. unfold check_container. pose proof (len_document els). pose proof (len_nonneg (concat els)).
  replace (_ <? 5) with false by lia. change 0 with (len (@nil byte)).
  rewrite (read_i32_at (document els) [] ltac:(lia) (len (document els)) (concat els ++ [x00]))
    by (apply document_eq || lia).
  cbn [mbind res_bind]. rewrite as_usize_id, Z.eqb_refl by lia. cbn [negb]. cbv iota.
  unfold last_elem. rewrite document_eq, app_assoc, last_snoc. done.
Qed.

Lemma last_position bs pre : bs = pre ++ [x00] -> len bs - 1 = len pre.
Proof. intros ->. rewrite len_app. change (len [x00]) with 1. lia. Qed.

Section elements.
Context (bs : bytes) (Hlen : len bs <= i32_max).

(** The part of both document loops that reads one element. *)
Lemma element_at pre kv rest :
  bs = pre ++ element_bytes kv ++ rest -> element_wf kv = true ->
  index (E := DecodeError) bs (len pre) = Ok (tag (snd kv)) /\
  read_cstring bs (len pre + 1) = Ok (fst kv, len pre + 2 + slen (fst kv)) /\
  exists pre',
    bs = pre' ++ value_bytes (snd kv) ++ rest /\ len pre' = len pre + 2 + slen (fst kv) /\
    len (pre ++ element_bytes kv) = len pre' + len (value_bytes (snd kv)) /\
    len (value_bytes (snd kv)) <= i32_max.
Proof.
  intros Hb [Hk Hv]%andb_prop. unfold element_bytes, embedded_element in Hb.
  rewrite <- !app_assoc in Hb. cbn [app] in Hb.
  pose proof Hlen as Hl. rewrite Hb, len_app, len_cons, !len_app, len_cstring in Hl.
  pose proof (len_nonneg pre). pose proof (slen_nonneg (fst kv)). pose proof (len_nonneg rest).
  pose proof (len_nonneg (value_bytes (snd kv))).
  split; [by eapply index_at|].
  assert (bs = (pre ++ [tag (snd kv)]) ++ cstring (fst kv) ++ value_bytes (snd kv) ++ rest) as Hc
    by (by rewrite Hb, <- app_assoc).
  pose proof (read_cstring_at bs _ ltac:(lia) _ _ Hc Hk) as Hr.
  rewrite len_app, len_cstring in Hr. change (len [_]) with 1 in Hr.
  split; [rewrite Hr; do 2 f_equal; lia|].
  exists ((pre ++ [tag (snd kv)]) ++ cstring (fst kv)).
  rewrite !len_app, len_element, len_cstring. change (len [_]) with 1.
  split; [by rewrite Hc, <- !app_assoc|]. lia.
Qed.

(** The reads every document loop starts an iteration with. *)
Lemma element_read pre kv rest :
  bs = pre ++ element_bytes kv ++ rest ++ [x00] -> element_wf kv = true ->
  len pre < len bs - 1 /\
  index (E := DecodeError) bs (len pre) = Ok (tag (snd kv)) /\
  exists pre',
    read_cstring bs (len pre + 1) = Ok (fst kv, len pre') /\
    skip_value bs (len pre') (u8 (tag (snd kv))) = Ok (len (pre ++ element_bytes kv)) /\
    len (pre ++ element_bytes kv) = len pre' + len (value_bytes (snd kv)) /\
    bs = pre' ++ value_bytes (snd kv) ++ rest ++ [x00] /\
    len (value_bytes (snd kv)) <= i32_max /\
    len pre + 2 <= len (pre ++ element_bytes kv) <= len bs - 1.
Proof.
  intros Hb Hw. destruct (element_at pre kv _ Hb Hw) as (Hi & Hk & pre' & Hb' & Hp' & Hnext & Hvl).
  pose proof (len_nonneg pre). pose proof (slen_nonneg (fst kv)).
  pose proof (len_nonneg (value_bytes (snd kv))). pose proof (len_nonneg rest).
  assert (len bs = len pre' + len (value_bytes (snd kv)) + len rest + 1) as Hbs.
  { rewrite Hb' at 1. rewrite !len_app. change (len [x00]) with 1. lia. }
  split; [lia|]. split; [done|]. exists pre'. rewrite <- Hp' in Hk. split; [done|].
  apply andb_prop in Hw as [_ Hw].
  rewrite (skip_value_at bs pre' _ ltac:(lia) _ Hb' Hw Hvl).
  split; [by rewrite Hnext|]. repeat split; done || lia.
Qed.

Lemma container_loop_at container array l pre fuel object values :
  bs = pre ++ concat (element_bytes <$> l) ++ [x00] ->
  len bs - len pre < Z.of_nat fuel ->
  Forall (fun kv => element_wf kv = true /\
    (forall m, snd kv = BDocument m -> container (encode m) false = Ok (json_of (snd kv))) /\
    (forall m, snd kv = BArray m -> container (encode m) true = Ok (json_of (snd kv)))) l ->
  container_loop container fuel bs array (len pre) object values =
  Ok (if array then JArray (values ++ ((fun kv => json_of (snd kv)) <$> l))
      else JObject (fold_left (fun m kv => map_insert (fst kv) (json_of (snd kv)) m) l object)).
Proof.
  revert l pre object values. induction fuel as [|fuel IH]; intros l pre object values Hb Hf Hl.
  { rewrite Hb, len_app in Hf. pose proof (len_nonneg (concat (element_bytes <$> l) ++ [x00])). lia. }
  pose proof (len_nonneg pre). pose proof (len_nonneg bs). cbn [container_loop].
  assert (1 <= len bs) as H1.
  { rewrite Hb, !len_app. change (len [x00]) with 1.
    pose proof (len_nonneg (concat (element_bytes <$> l))). lia. }
  rewrite usub_ok by lia. cbn [mbind res_bind].
  destruct l as [|kv l].
  { cbn [fmap list_fmap concat app] in Hb. rewrite (last_position bs pre Hb), Z.ltb_irrefl.
    by rewrite app_nil_r. }
  apply Forall_cons in Hl as [(Hw & Hd & Ha) Hl].
  cbn [fmap list_fmap concat] in Hb. rewrite <- app_assoc in Hb.
  destruct (element_read pre kv _ Hb Hw) as (Hlt & Hi & pre' & Hk & Hs & Hnext & Hb' & Hvl & Hle).
  replace (len pre <? _) with true by lia. rewrite Hi. cbn [mbind res_bind].
  rewrite uadd_ok by lia. cbn [mbind res_bind]. rewrite Hk. cbn [mbind res_bind].
  apply andb_prop in Hw as [_ Hw]. unfold bson_value_to_json. rewrite Hs, Hnext. cbn [mbind res_bind].
  rewrite (bson_value_at bs pre' _ ltac:(lia) container _ Hb' Hw Hvl Hd Ha).
  cbn [mbind res_bind].
  replace (_ <? _) with false by lia. rewrite <- Hnext.
  destruct array; rewrite (IH l); try done; try (by rewrite Hb, <- app_assoc); try lia.
  by rewrite <- app_assoc.
Qed.
End elements.

Lemma len_in_document kv l :
  In kv l -> len (value_bytes (snd kv)) + 7 <= len (encode l).
Proof.
  intros Hin. unfold encode. rewrite len_document.
  assert (len (element_bytes kv) <= len (concat (element_bytes <$> l))) as H.
  { induction l as [|kv' l IH]; [done|]. rewrite fmap_cons. cbn [concat]. rewrite len_app.
    pose proof (len_nonneg (concat (element_bytes <$> l))). pose proof (len_nonneg (element_bytes kv')).
    destruct Hin as [->|Hin]; [lia|]. specialize (IH Hin). lia. }
  rewrite len_element in H. pose proof (slen_nonneg (fst kv)). lia.
Qed.

Lemma container_at_document (array : bool) depth l :
  Forall (fun kv => element_wf kv = true /\
    (forall m, snd kv = BDocument m -> bson_container_at depth (encode m) false = Ok (json_of (snd kv))) /\
    (forall m, snd kv = BArray m -> bson_container_at depth (encode m) true = Ok (json_of (snd kv)))) l ->
  len (encode l) <= i32_max ->
  bson_container_at (S depth) (encode l) array = Ok (json_of (if array then BArray l else BDocument l)).
Proof.
  intros Hl Hlen. cbn [bson_container_at].
  change (check_container (encode l)) with (check_container (document (element_bytes <$> l))).
  rewrite check_container_document by done. cbn [mbind res_bind].
  assert (container_loop (bson_container_at depth) (length (encode l)) (encode l) array
            (len (i32_to_le_bytes (len (encode l)))) [] [] =
          Ok (json_of (if array then BArray l else BDocument l))) as H; [|done].
  rewrite (container_loop_at _ Hlen _ array l);
    [by destruct array|apply document_eq|rewrite len_i32; unfold len; lia|done].
Qed.

Lemma bson_container_at_encode v : forall depth,
  wf v = true -> len (value_bytes v) < Z.of_nat depth -> len (value_bytes v) <= i32_max ->
  (forall l, v = BDocument l -> bson_container_at depth (encode l) false = Ok (json_of v)) /\
  (forall l, v = BArray l -> bson_container_at depth (encode l) true = Ok (json_of v)).
Proof.
  assert (forall l depth,
    Forall (fun kv => forall depth,
      wf (snd kv) = true -> len (value_bytes (snd kv)) < Z.of_nat depth ->
      len (value_bytes (snd kv)) <= i32_max ->
      (forall l, snd kv = BDocument l -> bson_container_at depth (encode l) false = Ok (json_of (snd kv))) /\
      (forall l, snd kv = BArray l -> bson_container_at depth (encode l) true = Ok (json_of (snd kv)))) l ->
    forallb element_wf l = true -> len (encode l) < Z.of_nat (S depth) -> len (encode l) <= i32_max ->
    forall array, bson_container_at (S depth) (encode l) array =
      Ok (json_of (if array then BArray l else BDocument l))) as Hcon.
  { intros l depth IH Hw Hd Hl array. apply container_at_document; [|done].
    rewrite Forall_forall in IH |- *. intros kv Hin. specialize (IH kv Hin depth).
    apply list_elem_of_In in Hin. pose proof (len_in_document kv l Hin).
    assert (element_wf kv = true) as Hkv by (eapply forallb_forall; eauto).
    split; [done|]. apply andb_prop in Hkv as [_ Hkv]. apply IH; [done|lia|lia]. }
  pattern v. revert v. apply bson_ind'.
  - intros l IH [|depth] Hw Hd Hl; [pose proof (len_nonneg (value_bytes (BDocument l))); lia|].
    split; [|done]. intros ? [= <-]. by apply (Hcon l depth IH Hw Hd Hl false).
  - intros l IH [|depth] Hw Hd Hl; [pose proof (len_nonneg (value_bytes (BArray l))); lia|].
    split; [done|]. intros ? [= <-]. by apply (Hcon l depth IH Hw Hd Hl true).
  - by intros [].
Qed.

(** C26: JSON conversion.  The captured query of a complete BSON document is its
    JSON image: on the encoding of any well-formed document, of any nesting,
    [bson_document_to_json] returns exactly [json_of_document] of it. *)
Theorem bson_document_to_json_encode l :
  wf_document l = true -> bson_document_to_json (encode l) = Ok (json_of_document l).
Proof.
  intros [Hw Hl%Z.leb_le]%andb_prop. unfold bson_document_to_json, bson_container_to_json.
  change (value_bytes (BDocument l)) with (encode l).
  by apply (bson_container_at_encode (BDocument l)); [|apply fuel_of_len| |].
Qed.
