(* ===== verification/SummaryRef.v ===== *)
(** Summaries against their specification.  [summary_of] says, on the abstract
    syntax of a document, which facts of a command or reply the sensor keeps;
    the summary the decoder computes from the bytes is proved equal to it. *)
From Stdlib Require Import ZArith Lia ZifyBool Strings.Byte Strings.Ascii Strings.String.
From stdpp Require Import base list strings.
From S2P Require Import Prelude Text Float64 Json Bson BsonJson Summary Wire Encode BsonRef.

Local Open Scope string_scope.
Local Open Scope list_scope.
Local Open Scope Z_scope.

(** * The specification *)
Definition boolish (v : bson) : option bool :=
  match v with
  | BDouble bits => Some (negb (f64_is_zero (f64_from_bits bits)))
  | BBool b => Some b
  | BInt32 n | BInt64 n => Some (negb (n =? 0))
  | _ => None
  end.

Definition i32ish (v : bson) : option Z :=
  match v with
  | BInt32 n => Some n
  | BInt64 n => if (i32_min <=? n) && (n <=? i32_max) then Some n else None
  | BDouble bits =>
      let x := f64_from_bits bits in
      if f64_le (f64_of_Z i32_min) x && f64_le x (f64_of_Z i32_max) then Some (f64_as_i32 x) else None
  | _ => None
  end.

Definition u64ish (v : bson) : option Z :=
  match v with
  | BInt32 n | BInt64 n => if 0 <=? n then Some n else None
  | BDouble bits =>
      let x := f64_from_bits bits in
      if f64_is_finite x && f64_le (f64_of_Z 0) x && f64_fract_is_zero x && f64_le x (f64_of_Z u64_max)
      then Some (f64_as_u64 x) else None
  | _ => None
  end.

(** The [limit] of a delete statement: the first element of that name. *)
Fixpoint statement_limit (l : list (string * bson)) : option Z :=
  match l with
  | [] => None
  | (key, v) :: l => if String.eqb key "limit" then i32ish v else statement_limit l
  end.
Definition count_document (c : DeleteCount) (v : bson) : DeleteCount :=
  match v with
  | BDocument l => count_limit (statement_limit l) (count_statement c)
  | _ => c
  end.
Definition count_documents (vs : list bson) : DeleteCount := fold_left count_document vs no_statements.

(** The fields a command or a reply contributes, by their names. *)
Definition scalar_spec (key : string) (v : bson) (s : BsonSummary) : BsonSummary :=
  if String.eqb key "ok" then set_ok (boolish v) s
  else if String.eqb key "code" then set_code (i32ish v) s
  else if String.eqb key "n" then set_affected_count (u64ish v) s
  else if String.eqb key "done" then set_auth_done (boolish v) s
  else match v with
  | BString t =>
      if String.eqb key "$db" then set_database (Some t) s
      else if String.eqb key "collection" then set_collection (Some t) s
      else if String.eqb key "codeName" then set_code_name (Some t) s
      else if String.eqb key "mechanism" then set_auth_mechanism (Some t) s
      else if String.eqb key "user" then set_principal (Some t) s
      else s
  | BBinary _ data =>
      if String.eqb key "payload" then set_principal (opt_or (parse_scram_principal data) (s_principal s)) s
      else s
  | _ => s
  end.

Section spec.
Variable nested : list (string * bson) -> BsonSummary.

Definition element_spec (allow : bool) (s : BsonSummary) (kv : string * bson) : BsonSummary :=
  match kv with
  | (key, BDocument l) =>
      if String.eqb key "speculativeAuthenticate" && allow then merge_speculative (nested l) s
      else scalar_spec key (BDocument l) s
  | (key, BArray l) =>
      if String.eqb key "deletes"
      then let c := count_documents (snd <$> l) in set_deletes (scope_of c) (statements c) s
      else scalar_spec key (BArray l) s
  | (key, v) => scalar_spec key v s
  end.

Definition first_spec (l : list (string * bson)) : BsonSummary :=
  match l with
  | [] => empty_summary
  | (key, BString t) :: _ => set_first_string (Some t) (set_first_key key empty_summary)
  | (key, _) :: _ => set_first_key key empty_summary
  end.

Definition body_spec (allow : bool) (l : list (string * bson)) : BsonSummary :=
  let s := fold_left (element_spec allow) l (first_spec l) in
  if captures_query s then set_query (Some (json_of_document l)) s else s.
End spec.

(** Speculative authentication is read one level deep. *)
Definition summary_of (l : list (string * bson)) : BsonSummary :=
  body_spec (body_spec (fun _ => empty_summary) false) true l.

(** * Scalars *)
Lemma u8_tag v :
  u8 (tag v) = match v with
  | BDouble _ => 1 | BString _ => 2 | BDocument _ => 3 | BArray _ => 4
  | BBinary _ _ => 5 | BUndefined => 6 | BObjectId _ => 7 | BBool _ => 8
  | BDate _ => 9 | BNull => 10 | BRegex _ _ => 11 | BDbPointer _ _ => 12
  | BCode _ => 13 | BSymbol _ => 14 | BInt32 _ => 16 | BTimestamp _ => 17
  | BInt64 _ => 18 | BDecimal _ => 19 | BMaxKey => 127 | BMinKey => 255
  end.
Proof. by destruct v. Qed.

Section scalars.
Context (bs pre post : bytes) (v : bson) (Hlen : len bs <= isize_max).
Context (Hb : bs = pre ++ value_bytes v ++ post) (Hw : wf v = true) (Hv : len (value_bytes v) <= i32_max).

Lemma f64_at bits post' :
  bs = pre ++ le_bytes 8 bits ++ post' -> 0 <= bits <= u64_max ->
  f64_from_le_bytes (le_bytes 8 bits) = f64_from_bits bits.
Proof. intros _ Hr. unfold f64_from_le_bytes. by rewrite le8_u64. Qed.

Ltac tagged :=
  rewrite u8_tag; destruct v; cbn [wf value_bytes] in *; wf_split; cbn [Z.eqb Pos.eqb];
  try done;
  try (erewrite get8_at by (done || by rewrite len_le8); cbn [mbind res_bind]);
  try (erewrite read_i32_at by (done || lia); cbn [no_error map_err mbind res_bind]);
  try done.

Lemma read_boolish_at :
  read_boolish bs (len pre) (u8 (tag v)) = match boolish v with Some b => Ok b | None => Err tt end.
Proof.
  unfold read_boolish. tagged.
  - cbn [boolish]. by erewrite f64_at by (done || lia).
  - erewrite get_at by done. cbn [ok_or mbind res_bind boolish]. rewrite u8_u8_of. by destruct b.
  - by rewrite i64_le_bytes by lia.
Qed.

Lemma read_i32ish_at :
  read_i32ish bs (len pre) (u8 (tag v)) = match i32ish v with Some b => Ok b | None => Err tt end.
Proof.
  unfold read_i32ish. tagged.
  - cbn [i32ish]. cbv zeta. erewrite f64_at by (done || lia). by destruct (_ && _).
  - rewrite i64_le_bytes by lia. unfold i32_try_from. cbn [i32ish]. by destruct (_ && _).
Qed.

Lemma read_u64ish_at :
  read_u64ish bs (len pre) (u8 (tag v)) = match u64ish v with Some b => Ok b | None => Err tt end.
Proof.
  unfold read_u64ish. tagged; cbn [u64ish].
  - cbv zeta. erewrite f64_at by (done || lia). by destruct (_ && _).
  - unfold u64_try_from. by destruct (0 <=? _).
  - rewrite i64_le_bytes by lia. unfold u64_try_from. by destruct (0 <=? _).
Qed.

Lemma ok_read {E F A} (o : option A) (r : res E A) (e : E) :
  r = match o with Some a => Ok a | None => Err e end -> ok (F := F) r = Ok o.
Proof. intros ->. by destruct o. Qed.

Lemma string_at t : v = BString t -> read_bson_string bs (len pre) = Ok t.
Proof.
  intros Hs. rewrite Hs in Hb, Hw, Hv. cbn [value_bytes wf] in *. rewrite len_string_bytes in Hv.
  eapply read_bson_string_at; [done..|lia].
Qed.

Lemma binary_at sub data : v = BBinary sub data -> read_bson_binary bs (len pre) = Ok data.
Proof.
  intros Hs. rewrite Hs in Hb, Hv. cbn [value_bytes] in *.
  rewrite !len_app, len_i32 in Hv. pose proof (len_nonneg [sub]).
  eapply read_bson_binary_at; [done..|lia].
Qed.

Lemma scalar_field_at key s :
  scalar_field bs key (len pre) (u8 (tag v)) s = Ok (scalar_spec key v s).
Proof.
  pose proof (ok_read (F := DecodeError) _ _ _ read_boolish_at) as Hbool.
  pose proof (ok_read (F := DecodeError) _ _ _ read_i32ish_at) as Hint.
  pose proof (ok_read (F := DecodeError) _ _ _ read_u64ish_at) as Hlong.
  unfold scalar_field, scalar_spec. rewrite Hbool, Hint, Hlong, u8_tag. clear Hbool Hint Hlong.
  pose proof string_at as Hstr. pose proof binary_at as Hbin.
  repeat match goal with
         | |- context [String.eqb key ?k] =>
             destruct (String.eqb_spec key k) as [->|_]; [cbn [String.eqb Ascii.eqb Bool.eqb]|]
         end.
  all: cbn [andb mbind res_bind]; try done.
  all: destruct v; cbn [Z.eqb Pos.eqb andb mbind res_bind]; try done.
  all: try (by rewrite (Hstr _ eq_refl)).
  by rewrite (Hbin _ _ eq_refl).
Qed.

Lemma first_element_at ordinal key l s :
  ordinal = 0 -> s = empty_summary ->
  first_element bs ordinal key (len pre) (u8 (tag v)) s = Ok (first_spec ((key, v) :: l)).
Proof.
  intros -> ->. unfold first_element. cbn [Z.eqb]. cbv zeta. pose proof string_at as Hstr.
  rewrite u8_tag. destruct v; cbn [Z.eqb Pos.eqb]; try done.
  by rewrite (Hstr _ eq_refl).
Qed.
End scalars.

(** * Loops over the elements of a document *)
Lemma concat_cons_bytes kv l (post : bytes) :
  concat (element_bytes <$> kv :: l) ++ post = element_bytes kv ++ concat (element_bytes <$> l) ++ post.
Proof. rewrite fmap_cons. cbn [concat]. by rewrite app_assoc. Qed.

(** A loop that is at the end of the document. *)
Lemma loop_end bs (pre : bytes) :
  bs = pre ++ concat (element_bytes <$> []) ++ [x00] -> len bs - 1 = len pre.
Proof. cbn [fmap list_fmap concat app]. apply last_position. Qed.

Lemma loop_nonempty bs (pre : bytes) l :
  bs = pre ++ concat (element_bytes <$> l) ++ [x00] -> 1 <= len bs.
Proof.
  intros ->. rewrite !len_app. change (len [x00]) with 1. pose proof (len_nonneg pre).
  pose proof (len_nonneg (concat (element_bytes <$> l))). lia.
Qed.

Ltac next_element bs pre kv Hb Hw :=
  rewrite concat_cons_bytes in Hb;
  let Hlt := fresh "Hlt" in let Hi := fresh "Hi" in let Hk := fresh "Hk" in
  let Hs := fresh "Hs" in
  destruct (element_read bs ltac:(assumption) pre kv _ Hb Hw)
    as (Hlt & Hi & pre' & Hk & Hs & Hnext & Hb' & Hvl & Hle);
  replace (len pre <? _) with true by lia; rewrite Hi; cbn [mbind res_bind];
  rewrite (uadd_ok (len pre) 1) by (pose proof (len_nonneg pre); lia); cbn [mbind res_bind];
  rewrite Hk; cbn [mbind res_bind]; cbv zeta; rewrite Hs; cbn [mbind res_bind].

Section loops.
Context (bs : bytes) (Hlen : len bs <= i32_max).

Lemma limit_loop_at l pre fuel :
  bs = pre ++ concat (element_bytes <$> l) ++ [x00] -> forallb element_wf l = true ->
  len bs - len pre < Z.of_nat fuel ->
  limit_loop fuel bs (len pre) = Ok (statement_limit l).
Proof.
  revert l pre. induction fuel as [|fuel IH]; intros l pre Hb Hl Hf; pose proof (loop_nonempty _ _ _ Hb);
    pose proof (len_nonneg pre).
  { destruct l as [|kv l]; [apply loop_end in Hb; lia|].
    apply andb_prop in Hl as [Hw _]. rewrite concat_cons_bytes in Hb.
    destruct (element_read bs Hlen pre kv _ Hb Hw) as (? & _). lia. }
  cbn [limit_loop]. rewrite usub_ok by lia. cbn [mbind res_bind].
  destruct l as [|[key v] l]; [by rewrite (loop_end _ _ Hb), Z.ltb_irrefl|].
  apply andb_prop in Hl as [Hw Hl]. next_element bs pre (key, v) Hb Hw.
  cbn [statement_limit fst snd] in *. destruct (String.eqb key "limit").
  - apply andb_prop in Hw as [_ Hw].
    by apply (ok_read _ _ _ (read_i32ish_at bs pre' _ v ltac:(lia) Hb' Hw Hvl)).
  - apply IH; [by rewrite Hb, <- app_assoc|done|lia].
Qed.

Lemma delete_statements_loop_at l pre fuel c :
  (forall m, len (encode m) < len bs -> forallb element_wf m = true ->
     delete_statement_limit (encode m) = Ok (statement_limit m)) ->
  bs = pre ++ concat (element_bytes <$> l) ++ [x00] -> forallb element_wf l = true ->
  len bs - len pre < Z.of_nat fuel ->
  delete_statements_loop fuel bs (len pre) c = Ok (fold_left count_document (snd <$> l) c).
Proof.
  intros Hlim. revert l pre c.
  induction fuel as [|fuel IH]; intros l pre c Hb Hl Hf; pose proof (loop_nonempty _ _ _ Hb);
    pose proof (len_nonneg pre).
  { destruct l as [|kv l]; [apply loop_end in Hb; lia|].
    apply andb_prop in Hl as [Hw _]. rewrite concat_cons_bytes in Hb.
    destruct (element_read bs Hlen pre kv _ Hb Hw) as (? & _). lia. }
  cbn [delete_statements_loop]. rewrite usub_ok by lia. cbn [mbind res_bind].
  destruct l as [|[key v] l]; [by rewrite (loop_end _ _ Hb), Z.ltb_irrefl|].
  apply andb_prop in Hl as [Hw Hl]. next_element bs pre (key, v) Hb Hw. cbn [fst snd] in *.
  assert (bs = (pre ++ element_bytes (key, v)) ++ concat (element_bytes <$> l) ++ [x00]) as Hn
    by (by rewrite Hb, <- app_assoc).
  apply andb_prop in Hw as [_ Hw]. rewrite u8_tag. cbn [fmap list_fmap fold_left snd].
  rewrite Hnext. rewrite (get_range_at bs pre' _ _ _ _ Hb' eq_refl eq_refl). rewrite <- Hnext.
  cbn [ok_or mbind res_bind].
  destruct v; cbn [Z.eqb Pos.eqb negb count_document]; try (apply IH; [done|done|lia]).
  match goal with |- context [value_bytes (BDocument ?m)] =>
    change (value_bytes (BDocument m)) with (encode m) in *;
    pose proof (len_nonneg pre'); rewrite (Hlim m) by (done || lia)
  end.
  cbn [mbind res_bind]. apply IH; [done|done|lia].
Qed.
End loops.

Lemma delete_statement_limit_encode l :
  len (encode l) <= i32_max -> forallb element_wf l = true ->
  delete_statement_limit (encode l) = Ok (statement_limit l).
Proof.
  intros Hl Hw. unfold delete_statement_limit.
  change (check_container (encode l)) with (check_container (document (element_bytes <$> l))).
  rewrite check_container_document by done. cbn [mbind res_bind].
  change 4 with (len (i32_to_le_bytes (len (encode l)))).
  apply limit_loop_at; [done|apply document_eq|done|]. rewrite len_i32. unfold len; lia.
Qed.

Lemma summarize_delete_statements_encode l :
  len (encode l) <= i32_max -> forallb element_wf l = true ->
  summarize_delete_statements (encode l) =
  Ok (scope_of (count_documents (snd <$> l)), statements (count_documents (snd <$> l))).
Proof.
  intros Hl Hw. unfold summarize_delete_statements.
  change (check_container (encode l)) with (check_container (document (element_bytes <$> l))).
  rewrite check_container_document by done. cbn [mbind res_bind].
  change 4 with (len (i32_to_le_bytes (len (encode l)))).
  rewrite (delete_statements_loop_at _ Hl l); [done| |apply document_eq|done|].
  - intros m Hm. apply delete_statement_limit_encode. lia.
  - rewrite len_i32. unfold len; lia.
Qed.

(** * The summary of a document *)
Section inner.
Context (nested : bytes -> R BsonSummary) (nested_spec : list (string * bson) -> BsonSummary).
Context (allow : bool).
Context (Hnested : allow = true -> forall m, len (encode m) <= i32_max ->
  forallb element_wf m = true -> nested (encode m) = Ok (nested_spec m)).

Lemma element_field_at bs pre post key v s stop :
  len bs <= i32_max -> bs = pre ++ value_bytes v ++ post -> wf v = true ->
  stop = len pre + len (value_bytes v) ->
  element_field nested bs allow key (len pre) stop (u8 (tag v)) s =
  Ok (element_spec nested_spec allow s (key, v)).
Proof.
  intros Hlen Hb Hw Hstop. pose proof (get_range_at bs pre _ post _ _ Hb eq_refl Hstop) as Hr.
  assert (len (value_bytes v) <= i32_max) as Hv.
  { rewrite Hb, !len_app in Hlen. pose proof (len_nonneg pre). pose proof (len_nonneg post). lia. }
  pose proof (scalar_field_at bs pre post v ltac:(lia) Hb Hw Hv key s) as Hs.
  unfold element_field. rewrite Hs, Hr, u8_tag. clear Hs.
  destruct v; cbn [Z.eqb Pos.eqb]; rewrite ?andb_false_r; try done.
  - rewrite andb_true_r. cbn [element_spec]. destruct (_ && allow) eqn:Ha; [|done].
    apply andb_prop in Ha as [_ ->]. change (value_bytes (BDocument l)) with (encode l) in *.
    rewrite Hnested by done. done.
  - rewrite andb_true_r. cbn [element_spec]. destruct (String.eqb key "deletes") eqn:Hk; [|done].
    cbn [ok_or mbind res_bind]. change (value_bytes (BArray l)) with (encode l) in *.
    rewrite summarize_delete_statements_encode by done. done.
Qed.

Lemma summary_loop_at bs l pre fuel ordinal s :
  len bs <= i32_max -> 0 <= ordinal <= len pre -> (ordinal = 0 -> s = empty_summary) ->
  bs = pre ++ concat (element_bytes <$> l) ++ [x00] -> forallb element_wf l = true ->
  len bs - len pre < Z.of_nat fuel ->
  summary_loop nested fuel bs allow (len pre) ordinal s =
  Ok (fold_left (element_spec nested_spec allow) l (if ordinal =? 0 then first_spec l else s)).
Proof.
  intros Hlen. revert l pre ordinal s.
  induction fuel as [|fuel IH]; intros l pre ordinal s Ho Hs Hb Hl Hf;
    pose proof (loop_nonempty _ _ _ Hb); pose proof (len_nonneg pre).
  { destruct l as [|kv l]; [apply loop_end in Hb; lia|].
    apply andb_prop in Hl as [Hw _]. rewrite concat_cons_bytes in Hb.
    destruct (element_read bs Hlen pre kv _ Hb Hw) as (? & _). lia. }
  cbn [summary_loop]. rewrite usub_ok by lia. cbn [mbind res_bind].
  destruct l as [|[key v] l].
  { rewrite (loop_end _ _ Hb), Z.ltb_irrefl. cbn [fold_left first_spec].
    destruct (ordinal =? 0) eqn:Hz; [|done]. by rewrite Hs by lia. }
  apply andb_prop in Hl as [Hw Hl]. next_element bs pre (key, v) Hb Hw. cbn [fst snd] in *.
  apply andb_prop in Hw as [_ Hw]. replace (_ <? _) with false by lia.
  assert (first_element bs ordinal key (len pre') (u8 (tag v)) s =
          Ok (if ordinal =? 0 then first_spec ((key, v) :: l) else s)) as ->.
  { destruct (ordinal =? 0) eqn:Hz.
    - apply (first_element_at bs pre' _ v ltac:(lia) Hb' Hw Hvl); [lia|]. apply Hs. lia.
    - unfold first_element. by rewrite Hz. }
  cbn [mbind res_bind]. rewrite (element_field_at bs pre' _ key v _ _ Hlen Hb' Hw Hnext).
  cbn [mbind res_bind]. rewrite uadd_ok by lia. cbn [mbind res_bind].
  rewrite (IH l (pre ++ element_bytes (key, v))); [|lia|lia|by rewrite Hb, <- app_assoc|done|lia].
  by replace (ordinal + 1 =? 0) with false by lia.
Qed.

Lemma summarize_bson_body_encode l :
  len (encode l) <= i32_max -> forallb element_wf l = true ->
  summarize_bson_body nested (encode l) allow = Ok (body_spec nested_spec allow l).
Proof.
  intros Hl Hw. unfold summarize_bson_body.
  change (check_container (encode l)) with (check_container (document (element_bytes <$> l))).
  rewrite check_container_document by done. cbn [mbind res_bind].
  change (summary_loop nested (length (encode l)) (encode l) allow 4)
    with (summary_loop nested (length (encode l)) (encode l) allow (len (i32_to_le_bytes (len (encode l))))).
  rewrite (summary_loop_at _ l); [|done|by rewrite len_i32|done|apply document_eq|done|].
  - cbn [Z.eqb mbind res_bind]. unfold body_spec. cbv zeta. destruct (captures_query _); [|done].
    unfold bson_document_to_json, bson_container_to_json.
    destruct (bson_container_at_encode (BDocument l) (S (length (encode l)))) as [Hd _]; [done| |done|].
    { change (value_bytes (BDocument l)) with (encode l). apply fuel_of_len. }
    by rewrite Hd.
  - rewrite len_i32. unfold len; lia.
Qed.
End inner.

Lemma summarize_bson_encode l :
  wf_document l = true -> summarize_bson (encode l) = Ok (summary_of l).
Proof.
  intros [Hw Hl%Z.leb_le]%andb_prop. unfold summarize_bson, summarize_bson_inner.
  cbn [summarize_bson_at]. apply summarize_bson_body_encode; [|done..].
  intros _ m Hm Hwm. by apply summarize_bson_body_encode.
Qed.
