(* ===== verification/WireRef.v ===== *)
(** The frame decoder against the layout of the wire protocol: OP_MSG with any
    sequence of sections, OP_QUERY, OP_REPLY, and OP_COMPRESSED frames against
    the frames they compress. *)
From Stdlib Require Import ZArith Lia ZifyBool Strings.Byte Strings.Ascii Strings.String.
From stdpp Require Import base list strings.
From S2P Require Import Prelude Text Float64 Json Bson.
From S2P Require Import BsonJson Summary Wire Encode BsonRef SummaryRef.

Local Open Scope string_scope.
Local Open Scope list_scope.
Local Open Scope Z_scope.

(** * Layout *)
Inductive msg_section : Set :=
| Body (l : list (string * bson))
| Sequence (identifier : string) (documents : list (list (string * bson))).

Definition section_bytes (s : msg_section) : bytes :=
  match s with
  | Body l => [x00] ++ encode l
  | Sequence identifier documents =>
      [x01] ++ i32_to_le_bytes (4 + slen identifier + 1 + len (concat (encode <$> documents))) ++
      cstring identifier ++ concat (encode <$> documents)
  end.

Definition wf_section (s : msg_section) : bool :=
  match s with
  | Body l => wf_document l
  | Sequence identifier documents =>
      is_cstring identifier && forallb wf_document documents
  end.

Definition msg_payload (flags : Z) (sections : list msg_section) (checksum : bytes) : bytes :=
  le_bytes 4 flags ++ concat (section_bytes <$> sections) ++ checksum.

(** * Specification of a message *)
Definition sequence_deletes (documents : list (list (string * bson))) : option DeleteScope * Z :=
  let c := count_documents (BDocument <$> documents) in (scope_of c, statements c).

Definition section_spec (acc : MsgSections) (s : msg_section) : MsgSections :=
  match s with
  | Body l =>
      {| summary := match summary acc with Some s => Some s | None => Some (summary_of l) end;
         delete_sequence := delete_sequence acc; document_sequences := document_sequences acc |}
  | Sequence identifier documents =>
      {| summary := summary acc;
         delete_sequence :=
           if String.eqb identifier "deletes" then Some (sequence_deletes documents)
           else delete_sequence acc;
         document_sequences :=
           document_sequences acc ++ [(identifier, json_of_document <$> documents)] |}
  end.

Definition msg_spec (request_id response_to wire_bytes flags : Z) (compressed : bool)
    (sections : list msg_section) : R DecodedMessage :=
  let acc := fold_left section_spec sections no_sections in
  match summary acc with
  | None => Err InvalidBson
  | Some s =>
      Ok (op_msg_message request_id response_to wire_bytes flags compressed
            (add_sequences (document_sequences acc) (add_delete_sequence (delete_sequence acc) s)))
  end.

(** * Document sequences *)
Lemma len_encode_5 l : 5 <= len (encode l).
Proof.
  unfold encode. rewrite len_document. pose proof (len_nonneg (concat (element_bytes <$> l))). lia.
Qed.

Lemma encode_eq l (post : bytes) :
  encode l ++ post = i32_to_le_bytes (len (encode l)) ++ (concat (element_bytes <$> l) ++ [x00]) ++ post.
Proof. unfold encode. rewrite document_eq at 1. by rewrite <- !app_assoc. Qed.

(** Both loops over a document sequence read the next document alike. *)
Lemma sequence_read bs (pre : bytes) d (rest : bytes) :
  len bs <= i32_max -> bs = pre ++ encode d ++ rest ->
  read_i32 bs (len pre) = Ok (len (encode d)) /\
  ok_or InvalidBson (within bs (checked_add (len pre) (as_usize (len (encode d))))) =
    Ok (len (pre ++ encode d)) /\
  slice (E := DecodeError) bs (len pre) (len (pre ++ encode d)) = Ok (encode d) /\
  len pre + 5 <= len (pre ++ encode d) <= len bs.
Proof.
  intros Hlen Hb. pose proof (len_encode_5 d). pose proof (len_nonneg pre). pose proof (len_nonneg rest).
  assert (len bs = len pre + len (encode d) + len rest) as Hl by (rewrite Hb, !len_app; lia).
  rewrite len_app.
  assert (bs = pre ++ i32_to_le_bytes (len (encode d)) ++ (concat (element_bytes <$> d) ++ [x00]) ++ rest) as Hb'
    by (by rewrite Hb, <- encode_eq).
  split; [by apply (read_i32_at bs pre ltac:(lia) _ _ Hb'); lia|].
  split; [rewrite as_usize_id by lia; by apply (within_at bs pre ltac:(lia) _ _ Hb)|].
  split; [by apply (slice_at bs pre (encode d) rest)|lia].
Qed.

Section sequences.
Context (bs : bytes) (Hlen : len bs <= i32_max).

Lemma sequence_end pre : bs = pre ++ concat (encode <$> []) -> len bs = len pre.
Proof. intros ->. cbn [fmap list_fmap concat]. by rewrite app_nil_r. Qed.

Lemma document_sequence_loop_at docs pre fuel result :
  bs = pre ++ concat (encode <$> docs) -> forallb wf_document docs = true ->
  len bs - len pre < Z.of_nat fuel ->
  document_sequence_loop fuel bs (len pre) result = Ok (result ++ (json_of_document <$> docs)).
Proof.
  revert docs pre result. induction fuel as [|fuel IH]; intros docs pre result Hb Hw Hf.
  { rewrite Hb, len_app in Hf. pose proof (len_nonneg (concat (encode <$> docs))). lia. }
  cbn [document_sequence_loop]. destruct docs as [|d docs].
  { rewrite (sequence_end _ Hb), Z.ltb_irrefl. by rewrite app_nil_r. }
  rewrite fmap_cons in Hb. cbn [concat] in Hb. apply andb_prop in Hw as [Hd Hw].
  destruct (sequence_read bs pre d _ Hlen Hb) as (Hr & Hn & Hs & Hle).
  pose proof (len_encode_5 d). replace (_ <? len bs) with true by lia.
  rewrite Hr. cbn [mbind res_bind]. replace (_ <? 5) with false by lia.
  rewrite Hn. cbn [mbind res_bind]. rewrite Hs. cbn [mbind res_bind].
  unfold bson_document_to_json, bson_container_to_json. apply andb_prop in Hd as [Hd Hdl%Z.leb_le].
  destruct (bson_container_at_encode (BDocument d) (S (length (encode d)))) as [Hj _]; [done| |done|].
  { change (value_bytes (BDocument d)) with (encode d). apply fuel_of_len. }
  rewrite Hj by done. cbn [mbind res_bind].
  rewrite (IH docs); [|by rewrite Hb, <- app_assoc|done|lia].
  by rewrite <- app_assoc.
Qed.

Lemma delete_sequence_loop_at docs pre fuel c :
  bs = pre ++ concat (encode <$> docs) -> forallb wf_document docs = true ->
  len bs - len pre < Z.of_nat fuel ->
  delete_sequence_loop fuel bs (len pre) c = Ok (fold_left count_document (BDocument <$> docs) c).
Proof.
  revert docs pre c. induction fuel as [|fuel IH]; intros docs pre c Hb Hw Hf.
  { rewrite Hb, len_app in Hf. pose proof (len_nonneg (concat (encode <$> docs))). lia. }
  cbn [delete_sequence_loop]. destruct docs as [|d docs].
  { by rewrite (sequence_end _ Hb), Z.ltb_irrefl. }
  rewrite fmap_cons in Hb. cbn [concat] in Hb. apply andb_prop in Hw as [Hd Hw].
  destruct (sequence_read bs pre d _ Hlen Hb) as (Hr & Hn & Hs & Hle).
  pose proof (len_encode_5 d). replace (_ <? len bs) with true by lia.
  rewrite Hr. cbn [mbind res_bind]. replace (_ <? 5) with false by lia.
  rewrite Hn. cbn [mbind res_bind]. cbv zeta. rewrite Hs. cbn [mbind res_bind].
  apply andb_prop in Hd as [Hd Hdl%Z.leb_le].
  rewrite delete_statement_limit_encode by done. cbn [mbind res_bind].
  by rewrite (IH docs); [|by rewrite Hb, <- app_assoc|done|lia].
Qed.
End sequences.

Lemma document_sequence_encode docs :
  len (concat (encode <$> docs)) <= i32_max -> forallb wf_document docs = true ->
  bson_document_sequence_to_json (concat (encode <$> docs)) = Ok (json_of_document <$> docs) /\
  summarize_delete_document_sequence (concat (encode <$> docs)) = Ok (sequence_deletes docs).
Proof.
  intros Hl Hw. set (bs := concat (encode <$> docs)) in *. split.
  - unfold bson_document_sequence_to_json. change 0 with (len (@nil byte)).
    by rewrite (document_sequence_loop_at bs Hl docs); [..|unfold len; simpl; lia].
  - unfold summarize_delete_document_sequence. change 0 with (len (@nil byte)).
    by rewrite (delete_sequence_loop_at bs Hl docs); [..|unfold len; simpl; lia].
Qed.

(** * OP_MSG *)
Section sections.
Context (payload : bytes) (stop : Z) (Hlen : len payload <= i32_max).

Lemma body_section_at pre l post acc :
  payload = pre ++ encode l ++ post -> len (pre ++ encode l) <= stop -> wf_document l = true ->
  body_section payload (len pre) stop acc = Ok (len (pre ++ encode l), section_spec acc (Body l)).
Proof.
  intros Hb Hs Hw. destruct (sequence_read payload pre l post Hlen Hb) as (Hr & _ & Hsl & Hle).
  unfold body_section. rewrite Hr. cbn [mbind res_bind].
  pose proof (len_encode_5 l). replace (_ <? 5) with false by lia.
  rewrite len_app in *. pose proof (len_nonneg pre).
  rewrite as_usize_id, checked_add_ok by lia. cbn [ok_or mbind res_bind].
  replace (stop <? _) with false by lia.
  cbn [section_spec]. destruct (summary acc); [done|].
  rewrite Hsl. cbn [mbind res_bind]. by rewrite summarize_bson_encode.
Qed.

Lemma sequence_section_at pre id docs post acc :
  payload = pre ++ (i32_to_le_bytes (4 + slen id + 1 + len (concat (encode <$> docs))) ++
    cstring id ++ concat (encode <$> docs)) ++ post ->
  len pre + 4 + slen id + 1 + len (concat (encode <$> docs)) <= stop ->
  is_cstring id = true -> forallb wf_document docs = true ->
  sequence_section payload (len pre) stop acc =
  Ok (len pre + (4 + slen id + 1 + len (concat (encode <$> docs))), section_spec acc (Sequence id docs)).
Proof.
  set (bs := concat (encode <$> docs)). intros Hb Hs Hid Hw.
  pose proof (len_nonneg pre). pose proof (slen_nonneg id). pose proof (len_nonneg bs).
  pose proof (len_nonneg post).
  rewrite <- !app_assoc in Hb. pose proof Hlen as Hl. rewrite Hb, !len_app, len_i32, len_cstring in Hl.
  destruct (document_sequence_encode docs) as [Hj Hd]; [fold bs; lia|done|]. fold bs in Hj, Hd.
  unfold sequence_section. rewrite (read_i32_at payload pre ltac:(lia) _ _ Hb) by lia.
  cbn [mbind res_bind]. replace (_ <? 5) with false by lia.
  rewrite as_usize_id, checked_add_ok by lia. cbn [ok_or mbind res_bind].
  replace (stop <? _) with false by lia. rewrite uadd_ok by lia. cbn [mbind res_bind].
  rewrite app_assoc in Hb.
  pose proof (read_cstring_at payload _ ltac:(lia) _ _ Hb Hid) as Hc.
  rewrite len_app, len_i32 in Hc. rewrite Hc. cbn [mbind res_bind].
  rewrite len_cstring. replace (_ <? _) with false by lia.
  rewrite app_assoc in Hb.
  rewrite (get_range_at payload _ bs post _ _ Hb) by (rewrite !len_app, len_i32, len_cstring; lia).
  cbn [ok_or mbind res_bind]. cbn [section_spec].
  destruct (String.eqb id "deletes"); [rewrite Hd|]; cbn [mbind res_bind];
    rewrite Hj; cbn [ok mbind res_bind]; done.
Qed.

Lemma sections_loop_at sections pre post fuel acc :
  payload = pre ++ concat (section_bytes <$> sections) ++ post ->
  stop = len pre + len (concat (section_bytes <$> sections)) ->
  forallb wf_section sections = true -> len payload - len pre < Z.of_nat fuel ->
  sections_loop fuel payload stop (len pre) acc = Ok (fold_left section_spec sections acc).
Proof.
  revert sections pre acc. induction fuel as [|fuel IH]; intros sections pre acc Hb Hs Hw Hf.
  { rewrite Hb, len_app in Hf. pose proof (len_nonneg (concat (section_bytes <$> sections) ++ post)). lia. }
  cbn [sections_loop]. destruct sections as [|s sections].
  { cbn [fmap list_fmap concat] in Hs. rewrite Hs, len_nil, Z.add_0_r, Z.ltb_irrefl. done. }
  rewrite fmap_cons in Hb, Hs. cbn [concat] in Hb, Hs. rewrite <- app_assoc in Hb.
  rewrite len_app in Hs. pose proof (len_nonneg pre). pose proof (len_nonneg post).
  pose proof (len_nonneg (concat (section_bytes <$> sections))).
  pose proof Hlen as Hl. rewrite Hb, !len_app in Hl.
  apply andb_prop in Hw as [Hws Hw]. cbn [forallb fold_left].
  destruct s as [l|id docs]; cbn [section_bytes wf_section] in *.
  - rewrite len_app in Hs, Hl. change (len [x00]) with 1 in *. pose proof (len_encode_5 l).
    replace (_ <? stop) with true by lia. rewrite <- app_assoc in Hb. cbn [app] in Hb.
    rewrite (index_at payload pre _ x00 _ Hb eq_refl). cbn [mbind res_bind].
    rewrite uadd_ok by lia. cbn [mbind res_bind]. change (u8 x00 =? 0) with true. cbv iota.
    assert (payload = (pre ++ [x00]) ++ encode l ++ concat (section_bytes <$> sections) ++ post) as Hb'
      by (by rewrite Hb, <- app_assoc).
    pose proof (body_section_at _ l _ acc Hb') as Hbs. rewrite !len_app in Hbs.
    change (len [x00]) with 1 in Hbs. rewrite Hbs by (done || lia). cbn [mbind res_bind].
    specialize (IH sections ((pre ++ [x00]) ++ encode l) (section_spec acc (Body l))).
    rewrite !len_app in IH. change (len [x00]) with 1 in IH.
    rewrite IH; [done|by rewrite Hb', <- !app_assoc|lia|done|lia].
  - apply andb_prop in Hws as [Hid Hdocs]. set (bs := concat (encode <$> docs)) in *.
    rewrite !len_app, len_i32, len_cstring in Hs, Hl. change (len [x01]) with 1 in *.
    pose proof (slen_nonneg id). pose proof (len_nonneg bs).
    replace (_ <? stop) with true by lia.
    pose proof Hb as Hb'. rewrite <- app_assoc in Hb. cbn [app] in Hb.
    rewrite (index_at payload pre _ x01 _ Hb eq_refl). cbn [mbind res_bind].
    rewrite uadd_ok by lia. cbn [mbind res_bind]. change (u8 x01 =? 0) with false.
    change (u8 x01 =? 1) with true. cbv iota.
    rewrite <- app_assoc, app_assoc in Hb'.
    pose proof (sequence_section_at _ id docs _ acc Hb') as Hss. fold bs in Hss.
    rewrite !len_app in Hss. change (len [x01]) with 1 in Hss.
    rewrite Hss by (done || lia). cbn [mbind res_bind].
    set (whole := i32_to_le_bytes (4 + slen id + 1 + len bs) ++ cstring id ++ bs) in *.
    assert (len whole = 4 + slen id + 1 + len bs) as Hwh
      by (unfold whole; rewrite !len_app, len_i32, len_cstring; lia).
    specialize (IH sections ((pre ++ [x01]) ++ whole) (section_spec acc (Sequence id docs))).
    rewrite !len_app, Hwh in IH. change (len [x01]) with 1 in IH.
    rewrite IH; [done|by rewrite Hb', <- !app_assoc|lia|done|lia].
Qed.
End sections.

Lemma read_u32_at bs pre v post :
  len bs <= isize_max -> bs = pre ++ le_bytes 4 v ++ post -> 0 <= v <= u32_max ->
  read_u32 bs (len pre) = Ok v.
Proof.
  intros Hl Hb Hv. unfold read_u32. rewrite (read_le_at bs pre Hl 4 _ _ _ Hb) by apply len_le_bytes.
  unfold u32_from_le_bytes. rewrite le_val_le_bytes. f_equal. apply Z.mod_small. lia.
Qed.

Definition checksum_fits (flags : Z) (checksum : bytes) : bool :=
  len checksum =? (if negb (Z.land flags 1 =? 0) then 4 else 0).

Lemma len_section_5 s : 5 <= len (section_bytes s).
Proof.
  destruct s; cbn [section_bytes]; rewrite !len_app; change (len [_]) with 1.
  - pose proof (len_encode_5 l). lia.
  - rewrite len_i32. pose proof (len_nonneg (cstring identifier)).
    pose proof (len_nonneg (concat (encode <$> documents))). lia.
Qed.

Lemma decode_op_msg_encode rid rto wb flags sections checksum c :
  sections <> [] -> forallb wf_section sections = true -> 0 <= flags <= u32_max ->
  checksum_fits flags checksum = true -> len (msg_payload flags sections checksum) <= i32_max ->
  decode_op_msg rid rto wb (msg_payload flags sections checksum) c = msg_spec rid rto wb flags c sections.
Proof.
  intros Hne Hw Hf Hc%Z.eqb_eq Hl. set (payload := msg_payload _ _ _) in *.
  assert (payload = le_bytes 4 flags ++ concat (section_bytes <$> sections) ++ checksum) as Hb by done.
  assert (len payload = 4 + len (concat (section_bytes <$> sections)) + len checksum) as Hlp
    by (rewrite Hb, !len_app, len_le_bytes; lia).
  assert (5 <= len (concat (section_bytes <$> sections))) as H5.
  { destruct sections as [|s sections]; [done|]. rewrite fmap_cons. cbn [concat]. rewrite len_app.
    pose proof (len_section_5 s). pose proof (len_nonneg (concat (section_bytes <$> sections))). lia. }
  pose proof (len_nonneg checksum). unfold decode_op_msg. replace (_ <? 5) with false by lia.
  pose proof (read_u32_at payload [] flags _ ltac:(lia) Hb Hf) as Hr. rewrite len_nil in Hr.
  rewrite Hr. cbn [mbind res_bind]. cbv zeta. rewrite <- Hc. replace (_ <? _) with false by lia.
  rewrite usub_ok by lia. cbn [mbind res_bind].
  pose proof (sections_loop_at payload (len payload - len checksum) Hl sections (le_bytes 4 flags)
    checksum (S (length payload)) no_sections Hb) as Hs.
  rewrite len_le_bytes in Hs. change (Z.of_nat 4) with 4 in Hs.
  rewrite Hs; [|lia|done|unfold len in *; lia]. cbn [mbind res_bind]. unfold msg_spec. cbv zeta.
  by destruct (summary _).
Qed.

(** * OP_QUERY and OP_REPLY *)
Definition query_payload (flags : Z) (namespace : string) (skip return_count : Z)
    (l : list (string * bson)) (rest : bytes) : bytes :=
  le_bytes 4 flags ++ cstring namespace ++ (i32_to_le_bytes skip ++ i32_to_le_bytes return_count) ++
  encode l ++ rest.

Lemma decode_op_query_encode rid rto wb flags namespace skip n l rest c :
  0 <= flags <= u32_max -> is_cstring namespace = true -> wf_document l = true ->
  len (query_payload flags namespace skip n l rest) <= i32_max ->
  decode_op_query rid rto wb (query_payload flags namespace skip n l rest) c =
  Ok (decoded_op_query rid rto wb flags namespace (summary_of l) c).
Proof.
  intros Hf Hn Hw Hl. set (payload := query_payload _ _ _ _ _ _) in *.
  set (counts := i32_to_le_bytes skip ++ i32_to_le_bytes n).
  assert (len counts = 8) as Hcounts by (unfold counts; by rewrite len_app, !len_i32).
  assert (payload = le_bytes 4 flags ++ cstring namespace ++ counts ++ encode l ++ rest) as Hb by done.
  pose proof Hl as Hl'. rewrite Hb, !len_app, len_le_bytes, len_cstring, Hcounts in Hl'.
  pose proof (len_encode_5 l). pose proof (len_nonneg rest). pose proof (slen_nonneg namespace).
  unfold decode_op_query. assert ((len payload <? 13) = false) as ->.
  { rewrite Hb, !len_app, len_le_bytes, len_cstring, Hcounts. lia. }
  pose proof (read_u32_at payload [] flags _ ltac:(lia) Hb Hf) as Hr. rewrite len_nil in Hr.
  rewrite Hr. cbn [mbind res_bind].
  pose proof (read_cstring_at payload _ ltac:(lia) _ _ Hb Hn) as Hc.
  rewrite len_le_bytes, len_cstring in Hc. change (Z.of_nat 4) with 4 in Hc. rewrite Hc.
  cbn [mbind res_bind]. rewrite checked_add_ok by lia. cbn [ok_or mbind res_bind].
  assert (payload = (le_bytes 4 flags ++ cstring namespace ++ counts) ++ encode l ++ rest) as Hd
    by (by rewrite Hb, <- !app_assoc).
  destruct (sequence_read payload _ l rest ltac:(lia) Hd) as (Hr' & _ & Hs & Hle).
  rewrite (len_app _ (encode l)) in Hs, Hle.
  rewrite !len_app, len_le_bytes, len_cstring, Hcounts in Hr', Hs, Hle.
  replace (4 + (slen namespace + 1) + 8) with (Z.of_nat 4 + (slen namespace + 1 + 8)) by lia.
  rewrite Hr'. cbn [mbind res_bind]. replace (_ <? 5) with false by lia.
  rewrite as_usize_id, checked_add_ok by lia. cbn [ok_or mbind res_bind].
  replace (len payload <? _) with false by lia. rewrite Hs. cbn [mbind res_bind].
  by rewrite summarize_bson_encode.
Qed.

Definition reply_payload (flags cursor start returned : Z) (l : list (string * bson)) (rest : bytes)
  : bytes :=
  le_bytes 4 flags ++ le_bytes 8 cursor ++ i32_to_le_bytes start ++ i32_to_le_bytes returned ++
  encode l ++ rest.

Lemma decode_op_reply_encode rid rto wb flags cursor start returned l rest c :
  0 <= flags <= u32_max -> 0 < returned <= i32_max -> wf_document l = true ->
  len (reply_payload flags cursor start returned l rest) <= i32_max ->
  decode_op_reply rid rto wb (reply_payload flags cursor start returned l rest) c =
  Ok (decoded_op_reply rid rto wb flags (Some (summary_of l)) c).
Proof.
  intros Hf Hn Hw Hl. set (payload := reply_payload _ _ _ _ _ _) in *.
  set (head := le_bytes 4 flags ++ le_bytes 8 cursor ++ i32_to_le_bytes start).
  assert (len head = 16) as Hhead by (unfold head; by rewrite !len_app, !len_le_bytes, len_i32).
  assert (payload = head ++ i32_to_le_bytes returned ++ encode l ++ rest) as Hb
    by (unfold payload, reply_payload, head; by rewrite <- !app_assoc).
  assert (payload = (head ++ i32_to_le_bytes returned) ++ encode l ++ rest) as Hd
    by (by rewrite Hb, <- app_assoc).
  destruct (sequence_read payload _ l rest ltac:(lia) Hd) as (Hr' & _ & Hs & Hle).
  rewrite (len_app _ (encode l)) in Hs, Hle.
  rewrite !len_app, Hhead, len_i32 in Hr', Hs, Hle. change (16 + 4) with 20 in *.
  pose proof (len_encode_5 l). unfold decode_op_reply. replace (_ <? 20) with false by lia.
  assert (payload = [] ++ le_bytes 4 flags ++ le_bytes 8 cursor ++ i32_to_le_bytes start ++
     i32_to_le_bytes returned ++ encode l ++ rest) as Hb0 by done.
  pose proof (read_u32_at payload [] flags _ ltac:(lia) Hb0 Hf) as Hr. rewrite len_nil in Hr.
  rewrite Hr. cbn [mbind res_bind].
  rewrite <- Hhead. rewrite (read_i32_at payload head ltac:(lia) _ _ Hb) by lia. cbn [mbind res_bind].
  replace (0 <? returned) with true by lia. replace (20 <? len payload) with true by lia. cbn [andb].
  rewrite Hr'. cbn [mbind res_bind]. replace (_ <? 5) with false by lia.
  rewrite as_usize_id, checked_add_ok by lia. cbn [ok_or mbind res_bind].
  replace (len payload <? _) with false by lia. rewrite Hs. cbn [mbind res_bind].
  by rewrite summarize_bson_encode.
Qed.

(** * Frames *)
Definition is_i32 (v : Z) : bool := (i32_min <=? v) && (v <=? i32_max).
Definition fits (payload : bytes) (limit : Z) : bool :=
  (16 + len payload <=? limit) && (16 + len payload <=? i32_max).

Lemma len_frame opcode rid rto payload : len (frame opcode rid rto payload) = 16 + len payload.
Proof. unfold frame. rewrite !len_app, !len_i32. lia. Qed.

Section frames.
Context `{Decompressors} (limit : Z) (rid rto : Z).
Context (Hrid : is_i32 rid = true) (Hrto : is_i32 rto = true).

Lemma decode_frame_frame opcode payload :
  is_i32 opcode = true -> fits payload limit = true ->
  decode_frame (frame opcode rid rto payload) limit =
  if opcode =? OP_COMPRESSED then decode_compressed rid rto (16 + len payload) payload limit
  else decode_opcode opcode rid rto (16 + len payload) payload false.
Proof.
  intros Hop [Hfl%Z.leb_le Hfi%Z.leb_le]%andb_prop. unfold is_i32 in *.
  pose proof (len_frame opcode rid rto payload) as Hl. pose proof (len_nonneg payload).
  set (fr := frame opcode rid rto payload) in *.
  set (ltb := i32_to_le_bytes (16 + len payload)).
  assert (fr = [] ++ ltb ++ i32_to_le_bytes rid ++ i32_to_le_bytes rto ++ i32_to_le_bytes opcode ++ payload)
    as E0 by done.
  assert (fr = ltb ++ i32_to_le_bytes rid ++ i32_to_le_bytes rto ++ i32_to_le_bytes opcode ++ payload)
    as E4 by done.
  assert (fr = (ltb ++ i32_to_le_bytes rid) ++ i32_to_le_bytes rto ++ i32_to_le_bytes opcode ++ payload)
    as E8 by (by rewrite E4, <- !app_assoc).
  assert (fr = (ltb ++ i32_to_le_bytes rid ++ i32_to_le_bytes rto) ++ i32_to_le_bytes opcode ++ payload)
    as E12 by (by rewrite E4, <- !app_assoc).
  assert (fr = (ltb ++ i32_to_le_bytes rid ++ i32_to_le_bytes rto ++ i32_to_le_bytes opcode) ++ payload ++ [])
    as E16 by (by rewrite E4, app_nil_r, <- !app_assoc).
  assert (len fr <= isize_max) as Hi by lia.
  pose proof (read_i32_at fr _ Hi _ _ E0 ltac:(lia)) as R0.
  pose proof (read_i32_at fr _ Hi _ _ E4 ltac:(lia)) as R4.
  pose proof (read_i32_at fr _ Hi _ _ E8 ltac:(lia)) as R8.
  pose proof (read_i32_at fr _ Hi _ _ E12 ltac:(lia)) as R12.
  pose proof (slice_at (E := DecodeError) fr _ payload [] _ (len fr) E16 eq_refl) as R16.
  unfold ltb in R16. rewrite !len_app, !len_i32 in R16. specialize (R16 ltac:(lia)).
  rewrite len_nil in R0. unfold ltb in R4, R8, R12.
  rewrite !len_app, !len_i32 in R8. rewrite !len_app, !len_i32 in R12.
  rewrite len_i32 in R4. change (4 + (4 + (4 + 4))) with 16 in R16.
  change (4 + (4 + 4)) with 12 in R12. change (4 + 4) with 8 in R8.
  unfold decode_frame. replace (len fr <? 16) with false by lia.
  rewrite R0. cbn [mbind res_bind]. rewrite as_usize_id by lia.
  replace (_ || _) with false by lia. replace (limit <? _) with false by lia.
  rewrite R4. cbn [mbind res_bind]. rewrite R8. cbn [mbind res_bind]. rewrite R12. cbn [mbind res_bind].
  rewrite R16. cbn [mbind res_bind]. by rewrite Hl.
Qed.
End frames.

(** * Compression *)
Definition compressed_payload (original size : Z) (compressor : byte) (data : bytes) : bytes :=
  i32_to_le_bytes original ++ i32_to_le_bytes size ++ [compressor] ++ data.

(** The only differences a compressed frame makes. *)
Definition recompressed (wire : Z) (m : DecodedMessage) : DecodedMessage :=
  {| request_id := request_id m; response_to := response_to m; wire_bytes := u32_saturating wire;
     flags := flags m; more_to_come := more_to_come m; compressed := true;
     command := command m; status := status m |}.

Lemma fmap_bind_res {E A B C} (m : res E A) (k : A -> res E B) (g : B -> C) :
  g <$> mbind k m = mbind (fun a => g <$> k a) m.
Proof. by destruct m. Qed.

Lemma bind_ext_res {E A B} (m : res E A) (k k' : A -> res E B) :
  (forall a, k a = k' a) -> mbind k m = mbind k' m.
Proof. intros Hk. by destruct m; simpl. Qed.

Ltac recompress_tac :=
  repeat match goal with
         | |- (if ?b then _ else _) = _ => destruct b; [done|]
         | |- mbind _ _ = _ => rewrite fmap_bind_res; apply bind_ext_res; intros ?
         | |- (match ?p with pair _ _ => _ end) = _ => destruct p
         end; cbv zeta; try done.

Lemma decode_opcode_recompressed opcode rid rto wb wb' payload :
  decode_opcode opcode rid rto wb' payload true =
  recompressed wb' <$> decode_opcode opcode rid rto wb payload false.
Proof.
  unfold decode_opcode. repeat case_match; [..|done].
  - unfold decode_op_msg. by recompress_tac.
  - unfold decode_op_query. recompress_tac. cbn [fmap res_fmap]. f_equal. unfold decoded_op_query.
    by destruct (split_legacy_namespace _) as [[??]?].
  - unfold decode_op_reply. by recompress_tac.
Qed.

Section compression.
Context `{Decompressors}.

Lemma decode_compressed_read rid rto wb original size compressor data limit :
  is_i32 original = true -> is_i32 size = true ->
  len (compressed_payload original size compressor data) <= i32_max ->
  decode_compressed rid rto wb (compressed_payload original size compressor data) limit =
  if (size <? 0) || (saturating_sub limit 16 <? as_usize size) then Err FrameTooLarge else
  let! uncompressed := decompress (u8 compressor) size data in
  if negb (len uncompressed =? as_usize size) then Err InvalidCompressed else
  decode_opcode original rid rto wb uncompressed true.
Proof.
  intros Ho Hs Hl. unfold is_i32 in *. set (payload := compressed_payload _ _ _ _) in *.
  assert (payload = [] ++ i32_to_le_bytes original ++ i32_to_le_bytes size ++ [compressor] ++ data) as E0
    by done.
  assert (payload = i32_to_le_bytes original ++ i32_to_le_bytes size ++ [compressor] ++ data) as E4 by done.
  assert (payload = (i32_to_le_bytes original ++ i32_to_le_bytes size) ++ compressor :: data) as E8
    by (by rewrite E4, <- !app_assoc).
  assert (payload = (i32_to_le_bytes original ++ i32_to_le_bytes size ++ [compressor]) ++ data ++ []) as E9
    by (by rewrite E4, app_nil_r, <- !app_assoc).
  assert (len payload = 9 + len data) as Hlp.
  { rewrite E4, !len_app, !len_i32. change (len [compressor]) with 1. lia. }
  pose proof (len_nonneg data). unfold decode_compressed. replace (len payload <? 9) with false by lia.
  pose proof (read_i32_at payload _ ltac:(lia) _ _ E0 ltac:(lia)) as R0.
  pose proof (read_i32_at payload _ ltac:(lia) _ _ E4 ltac:(lia)) as R4.
  rewrite len_nil in R0. rewrite len_i32 in R4. rewrite R0. cbn [mbind res_bind].
  rewrite R4. cbn [mbind res_bind]. destruct (_ || _); [done|].
  rewrite (index_at payload _ data compressor 8 E8) by (by rewrite len_app, !len_i32).
  cbn [mbind res_bind].
  rewrite (slice_at payload _ data [] 9 _ E9); [done|by rewrite !len_app, !len_i32|].
  rewrite Hlp, !len_app, !len_i32. change (len [compressor]) with 1. lia.
Qed.
End compression.

(** * The frame decoder is correct *)
Section correctness.
Context `{Decompressors}.

(** C25: OP_MSG.  For every sequence of sections in any order (bodies, document
    sequences, an optional checksum), of well-formed documents of any nesting,
    [decode_frame] returns exactly the message the protocol gives it: the
    command or status summarized from the first body, the delete scope of the
    last [deletes] sequence, and every sequence as a field of the captured
    query; a message with no body is [InvalidBson]. *)
Theorem op_msg_decodes limit rid rto flags sections checksum :
  is_i32 rid = true -> is_i32 rto = true -> 0 <= flags <= u32_max ->
  sections <> [] -> forallb wf_section sections = true -> checksum_fits flags checksum = true ->
  fits (msg_payload flags sections checksum) limit = true ->
  decode_frame (frame OP_MSG rid rto (msg_payload flags sections checksum)) limit =
  msg_spec rid rto (16 + len (msg_payload flags sections checksum)) flags false sections.
Proof.
  intros Hrid Hrto Hf Hne Hw Hc Hfit. rewrite decode_frame_frame by done.
  apply andb_prop in Hfit as [_ Hfit%Z.leb_le].
  by apply decode_op_msg_encode; [..|lia].
Qed.

(** OP_QUERY.  A legacy query frame decodes to the command its namespace
    and document stand for: [db.$cmd] runs the document as a command of [db],
    any other namespace is a [find] on that collection. *)
Theorem op_query_decodes limit rid rto flags namespace skip n l rest :
  is_i32 rid = true -> is_i32 rto = true -> 0 <= flags <= u32_max ->
  is_cstring namespace = true -> wf_document l = true ->
  fits (query_payload flags namespace skip n l rest) limit = true ->
  decode_frame (frame OP_QUERY rid rto (query_payload flags namespace skip n l rest)) limit =
  Ok (decoded_op_query rid rto (16 + len (query_payload flags namespace skip n l rest)) flags
        namespace (summary_of l) false).
Proof.
  intros Hrid Hrto Hf Hn Hw Hfit. rewrite decode_frame_frame by done.
  apply andb_prop in Hfit as [_ Hfit%Z.leb_le].
  by apply decode_op_query_encode; [..|lia].
Qed.

(** OP_REPLY.  A legacy reply decodes to the status its first document
    reports, or, when the document says nothing, to the failure bits of the
    response flags. *)
Theorem op_reply_decodes limit rid rto flags cursor start returned l rest :
  is_i32 rid = true -> is_i32 rto = true -> 0 <= flags <= u32_max ->
  0 < returned <= i32_max -> wf_document l = true ->
  fits (reply_payload flags cursor start returned l rest) limit = true ->
  decode_frame (frame OP_REPLY rid rto (reply_payload flags cursor start returned l rest)) limit =
  Ok (decoded_op_reply rid rto (16 + len (reply_payload flags cursor start returned l rest)) flags
        (Some (summary_of l)) false).
Proof.
  intros Hrid Hrto Hf Hn Hw Hfit. rewrite decode_frame_frame by done.
  apply andb_prop in Hfit as [_ Hfit%Z.leb_le].
  by apply decode_op_reply_encode; [..|lia].
Qed.

(** C36: Compression is transparent.  Whatever the decompressor, when it yields
    the original payload the OP_COMPRESSED frame decodes to what the original
    frame decodes to, errors included; only the wire size and the
    [compressed] flag differ. *)
Theorem compressed_frame_equivalent limit rid rto original compressor data payload :
  is_i32 rid = true -> is_i32 rto = true -> is_i32 original = true -> original <> OP_COMPRESSED ->
  fits payload limit = true ->
  fits (compressed_payload original (len payload) compressor data) limit = true ->
  decompress (u8 compressor) (len payload) data = Ok payload ->
  decode_frame (frame OP_COMPRESSED rid rto
    (compressed_payload original (len payload) compressor data)) limit =
  recompressed (16 + len (compressed_payload original (len payload) compressor data)) <$>
    decode_frame (frame original rid rto payload) limit.
Proof.
  intros Hrid Hrto Ho Hne Hfit Hcfit Hdec. rewrite !decode_frame_frame by done.
  replace (original =? OP_COMPRESSED) with false by (unfold OP_COMPRESSED in *; lia).
  apply andb_prop in Hfit as [Hfl%Z.leb_le Hfi%Z.leb_le].
  apply andb_prop in Hcfit as [_ Hci%Z.leb_le]. pose proof (len_nonneg payload).
  rewrite decode_compressed_read; [|done|unfold is_i32; lia|lia].
  rewrite Hdec. rewrite as_usize_id by lia. unfold saturating_sub.
  replace (_ || _) with false by lia. cbn [mbind res_bind]. rewrite !Z.eqb_refl.
  apply decode_opcode_recompressed.
Qed.

(** Compression bombs.  A message that decodes from an OP_COMPRESSED frame
    was decompressed to exactly the size the frame declares, and that size
    with a header is within the message limit. *)
Theorem compressed_bounded limit rid rto wb original size compressor data m :
  is_i32 original = true -> is_i32 size = true -> 16 <= limit ->
  len (compressed_payload original size compressor data) <= i32_max ->
  decode_compressed rid rto wb (compressed_payload original size compressor data) limit = Ok m ->
  exists payload,
    decompress (u8 compressor) size data = Ok payload /\
    len payload = size /\ 16 + len payload <= limit /\ compressed m = true.
Proof.
  intros Ho Hs H16 Hl. rewrite decode_compressed_read by done. unfold is_i32 in *.
  destruct (_ || _) eqn:Hb; [done|]. intros (payload & Hd & Hm)%bind_Ok_inv.
  rewrite as_usize_id in * by lia. unfold saturating_sub in Hb.
  destruct (negb _) eqn:Hn; [done|]. exists payload.
  rewrite (decode_opcode_recompressed _ _ _ wb) in Hm.
  destruct (decode_opcode _ _ _ _ _ _); [|done..]. injection Hm as <-.
  repeat split; [done|lia|lia].
Qed.
End correctness.
