(* ===== verification/Exposure.v ===== *)
(** What may leave the sensor.  Whatever bytes arrive, a decoded message names a
    collection, a query document or a delete scope only for the commands the
    source lists for them, a request carries no status and a response no
    command, and a truncated document never yields a query. *)
From Stdlib Require Import ZArith Lia ZifyBool Strings.Byte Strings.Ascii Strings.String.
From stdpp Require Import base list strings.
From S2P Require Import Prelude Text Float64 Json Bson BsonJson Summary Wire.

Local Open Scope string_scope.
Local Open Scope list_scope.
Local Open Scope Z_scope.

(** * Queries enter a summary only with a capturing command *)
Definition no_query (s : BsonSummary) : Prop := s_query s = None.
Definition guarded (s : BsonSummary) : Prop := is_Some (s_query s) -> captures_query s = true.

Lemma no_query_guarded s : no_query s -> guarded s.
Proof. unfold no_query, guarded. intros -> [? ?]. done. Qed.

Section setters.
Context (s : BsonSummary).
Lemma query_merge nested : s_query (merge_speculative nested s) = s_query s.
Proof. by destruct s, nested. Qed.
Lemma query_set_deletes scope n : s_query (set_deletes scope n s) = s_query s.
Proof. by destruct s. Qed.
Lemma captures_set_deletes scope n : captures_query (set_deletes scope n s) = captures_query s.
Proof. by destruct s. Qed.
Lemma captures_set_query q : captures_query (set_query q s) = captures_query s.
Proof. by destruct s. Qed.
End setters.

Ltac no_query_tac :=
  repeat ensures_step; unfold no_query in *; repeat case_match; subst;
  rewrite ?query_merge, ?query_set_deletes; try done;
  match goal with s : BsonSummary |- _ => by destruct s end.

Lemma ensures_scalar_field document key value_start t s :
  no_query s -> ensures no_query (scalar_field document key value_start t s).
Proof. intros Hs. unfold scalar_field. no_query_tac. Qed.

Lemma ensures_first_element document ordinal key value_start t s :
  no_query s -> ensures no_query (first_element document ordinal key value_start t s).
Proof. intros Hs. unfold first_element. cbv zeta. no_query_tac. Qed.
#[local] Hint Resolve ensures_scalar_field ensures_first_element : ensuresdb.

Lemma ensures_element_field nested document allow key value_start stop t s :
  no_query s -> ensures no_query (element_field nested document allow key value_start stop t s).
Proof.
  intros Hs. unfold element_field. destruct (_ && _); [|destruct (_ && _)]; [no_query_tac..|].
  by apply ensures_scalar_field.
Qed.

Lemma ensures_prefix_field document key value_start t next s :
  no_query s -> ensures no_query (prefix_field document key value_start t next s).
Proof.
  intros Hs. unfold prefix_field. destruct (_ && _); [|destruct (_ && _)]; [no_query_tac..|].
  by apply ensures_scalar_field.
Qed.
#[local] Hint Resolve ensures_element_field ensures_prefix_field : ensuresdb.

Lemma ensures_summary_loop nested fuel document allow offset ordinal s :
  no_query s -> ensures no_query (summary_loop nested fuel document allow offset ordinal s).
Proof.
  revert offset ordinal s. induction fuel as [|fuel IH]; intros offset ordinal s Hs; cbn [summary_loop].
  - apply ensures_Fault.
  - repeat (cbv zeta; ensures_step); auto.
Qed.

Lemma ensures_prefix_loop fuel document available_end offset ordinal s :
  no_query s -> ensures no_query (prefix_loop fuel document available_end offset ordinal s).
Proof.
  revert offset ordinal s. induction fuel as [|fuel IH]; intros offset ordinal s Hs; cbn [prefix_loop].
  - apply ensures_Fault.
  - repeat (cbv zeta; ensures_step); auto.
Qed.
#[local] Hint Resolve ensures_summary_loop ensures_prefix_loop : ensuresdb.

Lemma no_query_empty : no_query empty_summary.
Proof. done. Qed.
#[local] Hint Resolve no_query_empty : ensuresdb.

Lemma ensures_summarize_bson_inner document allow :
  ensures guarded (summarize_bson_inner document allow).
Proof.
  unfold summarize_bson_inner. cbn [summarize_bson_at]. unfold summarize_bson_body.
  ensures_step. ensures_step. ensures_step.
  - ensures_step. ensures_step. unfold guarded. rewrite captures_set_query. done.
  - ensures_step. by apply no_query_guarded.
Qed.

(** A document that is cut short never yields a query. *)
Lemma ensures_summarize_bson_prefix document :
  ensures (fun s => guarded s /\
             (forall declared, read_i32 document 0 = Ok declared ->
                len document < as_usize declared -> no_query s))
    (summarize_bson_prefix document).
Proof.
  unfold summarize_bson_prefix. ensures_step; [ensures_step|].
  destruct (read_i32 document 0) as [declared| |] eqn:Hd; cbn [mbind res_bind];
    [|by apply ensures_Err|by apply ensures_Fault].
  ensures_step; [ensures_step|]. cbv zeta. ensures_step.
  - ensures_step. eapply ensures_mono; [apply ensures_summarize_bson_inner|].
    intros s Hs. split; [done|]. intros ? [= <-]. lia.
  - ensures_step. ensures_step; ensures_step. split; [by apply no_query_guarded|done].
Qed.
#[local] Hint Resolve ensures_summarize_bson_inner ensures_summarize_bson_prefix : ensuresdb.

(** * Commands *)
(** What a command may expose, by its name. *)
Record exposes_only_listed (c : MongoCommand) : Prop := {
  collection_listed :
    is_Some (collection c) -> command_has_collection_argument (to_ascii_lowercase (name c)) = true;
  query_listed : is_Some (query c) -> command_captures_query (to_ascii_lowercase (name c)) = true;
  deletes_listed :
    is_Some (delete_scope c) \/ is_Some (delete_statements c) -> to_ascii_lowercase (name c) = "delete"
}.

Lemma is_Some_None {A} : ~ is_Some (@None A).
Proof. by intros [? ?]. Qed.

Lemma command_exposes s c : guarded s -> command_from_summary s = Some c -> exposes_only_listed c.
Proof.
  intros Hg. unfold command_from_summary, guarded, captures_query in *.
  destruct (s_first_key s) as [name|]; [|done]. intros [= <-]. split; simpl.
  - destruct (command_has_collection_argument _); [done|]. intros H. by apply is_Some_None in H.
  - exact Hg.
  - destruct (String.eqb_spec (to_ascii_lowercase name) "delete"); [done|].
    intros [H|H]; by apply is_Some_None in H.
Qed.

Lemma guarded_add_deletes d s : guarded s -> guarded (add_delete_sequence d s).
Proof.
  destruct d as [[scope n]|]; [|done]. unfold guarded. simpl.
  by rewrite query_set_deletes, captures_set_deletes.
Qed.
Lemma guarded_add_sequences q s : guarded s -> guarded (add_sequences q s).
Proof.
  unfold add_sequences. intros Hs. destruct (captures_query s) eqn:Hc; [|done].
  destruct (s_query s) as [[]|]; try done. unfold guarded. by rewrite captures_set_query.
Qed.
#[local] Hint Resolve guarded_add_deletes guarded_add_sequences : ensuresdb.

(** * Messages *)
Record sound_message (m : DecodedMessage) : Prop := {
  command_exposure : forall c, command m = Some c -> exposes_only_listed c;
  request_or_response : command m = None \/ status m = None;
  command_of_request : is_Some (command m) -> response_to m = 0
}.

Lemma op_msg_message_sound rid rto wb fl c s : guarded s -> sound_message (op_msg_message rid rto wb fl c s).
Proof.
  intros Hs. unfold op_msg_message. split; cbn [command status response_to].
  - intros cmd. destruct (rto =? 0); [|done]. by apply command_exposes.
  - destruct (rto =? 0); auto.
  - destruct (rto =? 0) eqn:Hr; [lia|]. intros H. by apply is_Some_None in H.
Qed.

Definition guarded_sections (acc : MsgSections) : Prop := from_option guarded True (summary acc).

Lemma ensures_body_section payload offset stop acc :
  guarded_sections acc ->
  ensures (fun r => guarded_sections (snd r)) (body_section payload offset stop acc).
Proof.
  intros Hacc. unfold body_section. ensures_step. ensures_step; [ensures_step|].
  ensures_step. ensures_step; [ensures_step|].
  apply (ensures_bind (from_option guarded True)); [|intros s Hs; by apply ensures_Ok].
  unfold guarded_sections in Hacc. destruct (summary acc); [by apply ensures_Ok|].
  ensures_step. unfold summarize_bson. by repeat ensures_step.
Qed.

Lemma ensures_sequence_section payload offset stop acc :
  guarded_sections acc ->
  ensures (fun r => guarded_sections (snd r)) (sequence_section payload offset stop acc).
Proof. intros Hacc. unfold sequence_section. by repeat ensures_step. Qed.
#[local] Hint Resolve ensures_body_section ensures_sequence_section : ensuresdb.

Lemma ensures_sections_loop fuel payload stop offset acc :
  guarded_sections acc -> ensures guarded_sections (sections_loop fuel payload stop offset acc).
Proof.
  revert offset acc. induction fuel as [|fuel IH]; intros offset acc Hacc; cbn [sections_loop].
  - apply ensures_Fault.
  - repeat ensures_step; auto.
Qed.

Lemma no_sections_guarded : guarded_sections no_sections.
Proof. done. Qed.
#[local] Hint Resolve ensures_sections_loop no_sections_guarded : ensuresdb.

Lemma ensures_decode_op_msg rid rto wb payload c :
  ensures sound_message (decode_op_msg rid rto wb payload c).
Proof.
  unfold decode_op_msg. ensures_step; [ensures_step|]. ensures_step. cbv zeta.
  ensures_step; [ensures_step|]. ensures_step. ensures_step.
  unfold guarded_sections in *. destruct (summary _); [|by apply ensures_Err].
  apply ensures_Ok, op_msg_message_sound. simpl in *. eauto with ensuresdb nocore.
Qed.

Lemma decoded_op_query_sound rid rto wb fl namespace s c :
  guarded s -> (rto = 0 -> True) -> sound_message (decoded_op_query rid rto wb fl namespace s c).
Proof.
  intros Hs _. unfold decoded_op_query.
  destruct (split_legacy_namespace namespace) as [[db coll] is_command].
  split; cbn [command status response_to]; [|by right|].
  - intros cmd. destruct (negb _); [done|]. destruct is_command.
    + destruct (command_from_summary s) as [cmd'|] eqn:Hc; [|done]. intros [= <-].
      destruct (command_exposes s cmd' Hs Hc). by split.
    + intros [= <-]. split; cbn [name collection query delete_scope delete_statements]; [done|done|].
      intros [H|H]; by apply is_Some_None in H.
  - destruct (rto =? 0) eqn:Hr; [lia|]. simpl. intros H. by apply is_Some_None in H.
Qed.

Lemma decoded_op_reply_sound rid rto wb fl s c : sound_message (decoded_op_reply rid rto wb fl s c).
Proof. split; cbn; [done|by left|]. intros H. by apply is_Some_None in H. Qed.

Section opcodes.
#[local] Hint Resolve decoded_op_query_sound decoded_op_reply_sound op_msg_message_sound : ensuresdb.

Lemma ensures_decode_op_query rid rto wb payload c :
  ensures sound_message (decode_op_query rid rto wb payload c).
Proof. unfold decode_op_query, summarize_bson. repeat ensures_step. by apply decoded_op_query_sound. Qed.

Lemma ensures_decode_op_reply rid rto wb payload c :
  ensures sound_message (decode_op_reply rid rto wb payload c).
Proof.
  unfold decode_op_reply. repeat ensures_step; apply decoded_op_reply_sound.
Qed.

Lemma ensures_decode_op_msg_prefix rid rto declared payload :
  ensures sound_message (decode_op_msg_prefix rid rto declared payload).
Proof.
  unfold decode_op_msg_prefix. repeat ensures_step. destruct_and!. by apply op_msg_message_sound.
Qed.

Lemma ensures_decode_op_query_prefix rid rto wb payload :
  ensures sound_message (decode_op_query_prefix rid rto wb payload).
Proof.
  unfold decode_op_query_prefix. repeat ensures_step. destruct_and!. by apply decoded_op_query_sound.
Qed.

Lemma ensures_decode_op_reply_prefix rid rto wb payload :
  ensures sound_message (decode_op_reply_prefix rid rto wb payload).
Proof. unfold decode_op_reply_prefix. repeat ensures_step; apply decoded_op_reply_sound. Qed.
End opcodes.
#[local] Hint Resolve ensures_decode_op_msg ensures_decode_op_query ensures_decode_op_reply
  ensures_decode_op_msg_prefix ensures_decode_op_query_prefix ensures_decode_op_reply_prefix : ensuresdb.

Section frames.
Context `{Decompressors}.

Lemma ensures_decode_opcode opcode rid rto wb payload c :
  ensures sound_message (decode_opcode opcode rid rto wb payload c).
Proof. unfold decode_opcode. repeat ensures_step; auto with ensuresdb nocore. Qed.

Lemma ensures_decode_frame frame limit : ensures sound_message (decode_frame frame limit).
Proof.
  unfold decode_frame, decode_compressed.
  repeat ensures_step; auto using ensures_decode_opcode.
Qed.

Lemma ensures_decode_frame_prefix frame limit : ensures sound_message (decode_frame_prefix frame limit).
Proof.
  unfold decode_frame_prefix. repeat (cbv zeta; ensures_step);
    auto using ensures_decode_frame with ensuresdb nocore.
Qed.

(** C19: Exposure.  For every byte sequence, every message the decoder returns
    from a frame or from the prefix of one exposes a collection, a query
    document or a delete scope only for the commands the source lists for
    them; it is a command or a status and never both; and only a request
    (response_to = 0) carries a command. *)
Theorem decoded_exposure frame limit m :
  decode_frame frame limit = Ok m \/ decode_frame_prefix frame limit = Ok m -> sound_message m.
Proof.
  intros [Hm|Hm]; [by eapply ensures_decode_frame | by eapply ensures_decode_frame_prefix].
Qed.
End frames.

(** * The queries are well-formed JSON *)
Definition sorted (v : JsonValue) : Prop := json_sorted v = true.

Section json.
Variable container : bytes -> bool -> R JsonValue.
Hypothesis Hcontainer : forall nested array, ensures sorted (container nested array).

Lemma ensures_bson_value bs offset stop t : ensures sorted (bson_value container bs offset stop t).
Proof.
  unfold bson_value, bson_db_pointer.
  repeat (cbv zeta; ensures_step); try apply Hcontainer; unfold sorted; try case_match;
    repeat first [apply json2_sorted | apply json1_sorted]; done.
Qed.

Lemma ensures_container_loop fuel document array offset object values :
  sorted (JObject object) -> sorted (JArray values) ->
  ensures sorted (container_loop container fuel document array offset object values).
Proof.
  revert offset object values. induction fuel as [|fuel IH]; intros offset object values Ho Hv;
    cbn [container_loop]; [apply ensures_Fault|].
  ensures_step. ensures_step; [|by destruct array; apply ensures_Ok].
  do 3 ensures_step. apply (ensures_bind (fun r => sorted (fst r))).
  - unfold bson_value_to_json. ensures_step.
    eapply ensures_bind; [apply ensures_bson_value|]. intros j Hj. by apply ensures_Ok.
  - intros [j next] Hj. cbn [fst] in Hj. ensures_step. ensures_step; [ensures_step|].
    destruct array; apply IH; try done; unfold sorted in *.
    + simpl. rewrite forallb_app. simpl in *. by rewrite Hv, Hj.
    + by apply json_sorted_insert.
Qed.
End json.

Lemma ensures_bson_container_at depth document array :
  ensures sorted (bson_container_at depth document array).
Proof.
  revert document array. induction depth as [|depth IH]; intros document array; cbn [bson_container_at].
  - apply ensures_Fault.
  - ensures_step. by apply ensures_container_loop.
Qed.

(** Query JSON.  The JSON of any BSON document is well formed at every level:
    the keys of each object are strictly increasing, so a repeated BSON key
    never yields a repeated JSON key. *)
Theorem query_json_sorted document value :
  bson_document_to_json document = Ok value -> json_sorted value = true.
Proof. apply ensures_bson_container_at. Qed.

Lemma query_json_sorted_witness :
  json_sorted (JObject [("a", JNumber (PosInt 2))]) = true.
Proof.
  apply (query_json_sorted
    [x13; x00; x00; x00; x10; x61; x00; x01; x00; x00; x00; x10; x61; x00; x02; x00; x00; x00; x00]).
  vm_compute. reflexivity.
Defined.
