(* ===== verification/PrefixRef.v ===== *)
(** Truncated documents against their specification.  The sensor captures a
    bounded prefix of a large message; [prefix_summary] says on the abstract
    syntax what the captured bytes of a document still tell, and the summary
    computed from any prefix of the encoding is proved equal to it. *)
From Stdlib Require Import ZArith Lia ZifyBool Strings.Byte Strings.Ascii Strings.String.
From stdpp Require Import base list strings.
From S2P Require Import Prelude Text Float64 Json Bson BsonJson.
From S2P Require Import Summary Wire Encode BsonRef SummaryRef WireRef Exposure.

Local Open Scope string_scope.
Local Open Scope list_scope.
Local Open Scope Z_scope.

(** * The specification *)

(** An element whose name is captured but whose value is cut: its field is
    forgotten, and the first one still names the command. *)
Definition lost_spec (key : string) (v : bson) (s : BsonSummary) : BsonSummary :=
  if String.eqb key "ok" then set_ok None s
  else if String.eqb key "code" then set_code None s
  else if String.eqb key "n" then set_affected_count None s
  else if String.eqb key "done" then set_auth_done None s
  else match v with
  | BString _ =>
      if String.eqb key "$db" then set_database None s
      else if String.eqb key "collection" then set_collection None s
      else if String.eqb key "codeName" then set_code_name None s
      else if String.eqb key "mechanism" then set_auth_mechanism None s
      else if String.eqb key "user" then set_principal None s
      else s
  | _ => s
  end.

(** [avail] bytes of the elements [l] are captured.  The loop also ends at a
    value without bytes (null, undefined, the min and max keys). *)
Fixpoint prefix_fields (l : list (string * bson)) (avail : Z) (first : bool) (s : BsonSummary)
  : BsonSummary :=
  match l with
  | [] => s
  | (key, v) :: rest =>
      if avail <? slen key + 2 then s
      else if avail <? len (element_bytes (key, v)) then
        lost_spec key v (if first then set_first_key key s else s)
      else
        let s := element_spec (body_spec (fun _ => empty_summary) false) true
                   (if first then first_spec l else s) (key, v) in
        if len (value_bytes v) =? 0 then s
        else prefix_fields rest (avail - len (element_bytes (key, v))) false s
  end.

Definition prefix_summary (l : list (string * bson)) (n : Z) : R BsonSummary :=
  if n <? 5 then Err Truncated
  else if len (encode l) <=? n then Ok (summary_of l)
  else let s := prefix_fields l (n - 4) true empty_summary in
       match s_first_key s with
       | None => Err Truncated
       | Some _ => Ok s
       end.

(** * Reads that run out of bytes *)
Lemma get_range_short {A} (l : list A) a b : len l < b -> get_range l a b = None.
Proof.
  intros Hb. unfold get_range. replace (b <=? len l) with false by lia. by rewrite andb_false_r.
Qed.
Lemma get_short {A} (l : list A) a : len l <= a -> get l a = None.
Proof. intros Hb. unfold get. replace (a <? len l) with false by lia. by rewrite andb_false_r. Qed.

Lemma is_nul_position (l : bytes) :
  forallb (fun b => negb (is_nul b)) l = true -> position is_nul l = None.
Proof.
  induction l as [|b l IH]; [done|]. simpl. intros [Hb Hl]%andb_prop.
  destruct (is_nul b); [done|]. by rewrite IH.
Qed.

Lemma forallb_take {A} (p : A -> bool) (l : list A) k : forallb p l = true -> forallb p (take k l) = true.
Proof.
  revert k. induction l as [|x l IH]; intros [|k]; [done..|]. simpl. intros [Hx Hl]%andb_prop.
  by rewrite Hx, IH.
Qed.

Section short.
Context (bs pre : bytes) (Hlen : len bs <= isize_max).

Lemma read_le_short {A} n (conv : bytes -> A) :
  0 <= n <= 16 -> len bs < len pre + n -> len pre <= len bs -> read_le n conv bs (len pre) = Err Truncated.
Proof.
  intros Hn Hs Hp. unfold read_le. rewrite uadd_ok by lia. cbn [mbind res_bind].
  by rewrite get_range_short.
Qed.

Lemma get8_short : len bs < len pre + 8 -> len pre <= len bs -> get8 bs (len pre) = Err tt.
Proof.
  intros Hs Hp. unfold get8. rewrite uadd_ok by lia. cbn [mbind res_bind]. by rewrite get_range_short.
Qed.

Lemma within_short n :
  0 <= n -> len bs < len pre + n -> ok_or InvalidBson (within bs (checked_add (len pre) n)) = Err InvalidBson.
Proof.
  intros Hn Hs. unfold checked_add, within. destruct (_ <=? usize_max); [|done].
  by replace (_ <=? len bs) with false by lia.
Qed.

(** A C string without its terminator. *)
Lemma read_cstring_short s k :
  bs = pre ++ take k (cstring s) -> is_cstring s = true -> Z.of_nat k < slen s + 1 ->
  read_cstring bs (len pre) = Err InvalidBson.
Proof.
  intros Hb [_ Hn]%andb_prop Hk. unfold read_cstring, get_from.
  pose proof (len_nonneg pre). pose proof Hlen as Hl. rewrite Hb, len_app in Hl.
  pose proof (len_nonneg (take k (cstring s))).
  rewrite (get_range_at bs pre (take k (cstring s)) []) by
    (rewrite ?app_nil_r, ?Hb, ?len_app; done || lia).
  cbn [ok_or mbind res_bind]. unfold cstring. rewrite take_app_le.
  - by rewrite is_nul_position by (by apply forallb_take).
  - pose proof (len_bytes_of s). unfold len in *. lia.
Qed.

(** What is known of a 4-byte length when the buffer may end inside it. *)
Lemma read_i32_cut v (tail : bytes) k :
  bs = pre ++ take k (i32_to_le_bytes v ++ tail) -> i32_min <= v <= i32_max ->
  read_i32 bs (len pre) = Err Truncated \/
  (4 <= Z.of_nat k /\ read_i32 bs (len pre) = Ok v).
Proof.
  intros Hb Hv. pose proof (len_i32 v) as H4. unfold len in H4.
  destruct (decide (4 <= Z.of_nat k)) as [Hk|Hk].
  - right. split; [done|]. rewrite take_app_ge in Hb by lia.
    by apply (read_i32_at bs pre Hlen v _ Hb).
  - left. assert (len bs = len pre + len (take k (i32_to_le_bytes v ++ tail))) as Hl
      by (rewrite Hb at 1; by rewrite len_app).
    unfold len in Hl |- *. rewrite length_take, length_app in Hl.
    unfold read_i32. apply read_le_short; unfold len; lia.
Qed.
End short.

(** * A value cut short *)
Definition fails {E A} (r : res E A) : Prop := exists e, r = Err e.

Lemma fails_ok {E F A} (r : res E A) : fails r -> ok (F := F) r = Ok None.
Proof. by intros [e ->]. Qed.

Lemma len_cut (bs pre w : bytes) k :
  bs = pre ++ take k w -> Z.of_nat k < len w -> len bs = len pre + Z.of_nat k.
Proof. intros -> Hk. rewrite len_app. unfold len in *. rewrite length_take. lia. Qed.

Section cut.
Context (bs pre : bytes) (k : nat) (Hlen : len bs <= i32_max).

(** The bytes of the value are [w]; fewer than [len w] of them are left. *)
Definition cut (w : bytes) : Prop := bs = pre ++ take k w /\ Z.of_nat k < len w.

Lemma skip_fixed_cut w t : cut w -> fixed_length t = Some (len w) -> fails (skip_value bs (len pre) t).
Proof.
  intros [Hb Hk] Hf. pose proof (len_cut _ _ _ _ Hb Hk). unfold skip_value. rewrite Hf.
  rewrite within_short; [eexists; done|apply len_nonneg|lia].
Qed.

(** A value that begins with its length [n]. *)
Lemma counted_cut {A} n tail (f : Z -> R A) :
  cut (i32_to_le_bytes n ++ tail) -> 0 <= n <= i32_max -> fails (f n) ->
  fails (mbind f (read_i32 bs (len pre))).
Proof.
  intros [Hb Hk] Hn Hf.
  destruct (read_i32_cut bs pre ltac:(lia) n tail k Hb ltac:(lia)) as [Hr|[_ Hr]]; rewrite Hr.
  - by eexists.
  - exact Hf.
Qed.

Lemma skip_string_cut t s :
  any_of t [0x02; 0x0d; 0x0e] = true -> fixed_length t = None ->
  slen s < i32_max -> cut (string_bytes s) -> fails (skip_value bs (len pre) t).
Proof.
  intros Ht Hf Hs Hc. pose proof (slen_nonneg s). unfold skip_value. rewrite Hf, Ht.
  eapply counted_cut; [exact Hc|lia|]. destruct Hc as [Hb Hk]. pose proof (len_cut _ _ _ _ Hb Hk).
  rewrite len_string_bytes in Hk. pose proof (len_nonneg pre).
  replace (_ <? 1) with false by lia. rewrite as_usize_id, uadd_ok by lia. cbn [mbind res_bind].
  eexists. apply within_short; lia.
Qed.

Lemma skip_document_cut t els :
  any_of t [0x02; 0x0d; 0x0e] = false -> any_of t [0x03; 0x04; 0x0f] = true ->
  fixed_length t = None -> len (document els) <= i32_max ->
  cut (document els) -> fails (skip_value bs (len pre) t).
Proof.
  intros Ht1 Ht2 Hf Hs Hc. unfold skip_value. rewrite Hf, Ht1, Ht2. rewrite document_eq in Hc.
  pose proof (len_document els). pose proof (len_nonneg (concat els)).
  eapply counted_cut; [exact Hc|lia|]. rewrite <- document_eq in Hc.
  destruct Hc as [Hb Hk]. pose proof (len_cut _ _ _ _ Hb Hk).
  replace (_ <? 5) with false by lia. rewrite as_usize_id by lia.
  eexists. apply within_short; lia.
Qed.

Lemma skip_binary_cut subtype data :
  len data + 5 <= i32_max -> cut (i32_to_le_bytes (len data) ++ [subtype] ++ data) ->
  fails (skip_value bs (len pre) 5).
Proof.
  intros Hd Hc. unfold skip_value. pose proof (len_nonneg data).
  change (fixed_length 5) with (@None Z).
  change (any_of 5 [2; 13; 14]) with false. change (any_of 5 [3; 4; 15]) with false.
  change (5 =? 5) with true. cbv iota.
  eapply counted_cut; [exact Hc|lia|]. destruct Hc as [Hb Hk]. pose proof (len_cut _ _ _ _ Hb Hk).
  rewrite !len_app, len_i32 in Hk. change (len [subtype]) with 1 in Hk.
  replace (_ <? 0) with false by lia. rewrite as_usize_id, uadd_ok by lia. cbn [mbind res_bind].
  eexists. apply within_short; lia.
Qed.

Lemma skip_db_pointer_cut n id :
  slen n < i32_max -> len id = 12 -> cut (string_bytes n ++ id) -> fails (skip_value bs (len pre) 12).
Proof.
  intros Hn Hid Hc. unfold skip_value. pose proof (slen_nonneg n).
  change (fixed_length 12) with (@None Z).
  change (any_of 12 [2; 13; 14]) with false. change (any_of 12 [3; 4; 15]) with false.
  change (12 =? 5) with false. change (12 =? 11) with false. change (12 =? 12) with true. cbv iota.
  unfold string_bytes in Hc. rewrite <- app_assoc in Hc.
  eapply counted_cut; [exact Hc|lia|]. destruct Hc as [Hb Hk]. pose proof (len_cut _ _ _ _ Hb Hk).
  rewrite !len_app, len_i32, len_cstring in Hk.
  replace (_ <? 1) with false by lia. rewrite as_usize_id, uadd_ok by lia. cbn [mbind res_bind].
  rewrite uadd_ok by lia. cbn [mbind res_bind].
  eexists. apply within_short; lia.
Qed.

Lemma skip_regex_cut p o :
  is_cstring p = true -> is_cstring o = true -> cut (cstring p ++ cstring o) ->
  fails (skip_value bs (len pre) 11).
Proof.
  intros Hp Ho [Hb Hk]. pose proof (len_cut _ _ _ _ Hb Hk) as Hc.
  unfold skip_value.
  change (fixed_length 11) with (@None Z).
  change (any_of 11 [2; 13; 14]) with false. change (any_of 11 [3; 4; 15]) with false.
  change (11 =? 5) with false. change (11 =? 11) with true. cbv iota.
  pose proof (len_cstring p) as Hcp. pose proof (len_cstring o) as Hco.
  rewrite len_app, Hcp, Hco in Hk. unfold len in Hcp, Hco.
  destruct (decide (Z.of_nat k < slen p + 1)) as [Hs|Hs].
  - rewrite take_app_le in Hb by lia.
    rewrite (read_cstring_short bs pre ltac:(lia) p k Hb Hp Hs). by eexists.
  - rewrite take_app_ge in Hb by lia.
    rewrite (read_cstring_at bs pre ltac:(lia) p _ Hb Hp). cbn [mbind res_bind].
    rewrite <- len_app. rewrite app_assoc in Hb.
    rewrite (read_cstring_short bs _ ltac:(lia) o _ Hb Ho); [by eexists|lia].
Qed.

Lemma skip_value_cut v :
  cut (value_bytes v) -> wf v = true -> len (value_bytes v) <= i32_max ->
  fails (skip_value bs (len pre) (u8 (tag v))).
Proof.
  intros Hc Hw Hv. rewrite u8_tag.
  destruct v; cbn [wf value_bytes] in *; wf_split;
    rewrite ?len_string_bytes, ?len_app, ?len_i32, ?len_string_bytes in Hv;
    try (eapply skip_fixed_cut; [exact Hc|];
         first [rewrite len_le8 | rewrite len_i32 | replace (len raw) with 12 by lia
               | replace (len raw) with 16 by lia | idtac]; reflexivity).
  - by apply (skip_string_cut _ s); [done|done|lia|exact Hc].
  - by eapply skip_document_cut; [done|done|done| |exact Hc].
  - by eapply skip_document_cut; [done|done|done| |exact Hc].
  - change (len [subtype]) with 1 in Hv. by apply (skip_binary_cut subtype data); [lia|exact Hc].
  - by apply (skip_regex_cut pattern options).
  - pose proof (len_nonneg id). by apply (skip_db_pointer_cut namespace id); [lia|lia|exact Hc].
  - by apply (skip_string_cut _ s); [done|done|lia|exact Hc].
  - by apply (skip_string_cut _ s); [done|done|lia|exact Hc].
Qed.

(** The lenient scalars of a value cut short are absent. *)
Lemma scalars_cut v :
  cut (value_bytes v) -> wf v = true ->
  fails (read_boolish bs (len pre) (u8 (tag v))) /\
  fails (read_i32ish bs (len pre) (u8 (tag v))) /\
  fails (read_u64ish bs (len pre) (u8 (tag v))).
Proof.
  intros [Hb Hk] Hw. pose proof (len_cut _ _ _ _ Hb Hk) as Hl. pose proof (len_nonneg pre).
  unfold read_boolish, read_i32ish, read_u64ish. rewrite u8_tag.
  destruct v; cbn [value_bytes] in *; cbn [Z.eqb Pos.eqb];
    try (by repeat split; eexists).
  - rewrite len_le8 in Hk. rewrite get8_short by lia. by repeat split; eexists.
  - change (len [u8_of (Z.b2z b)]) with 1 in Hk. rewrite get_short by lia. by repeat split; eexists.
  - rewrite len_i32 in Hk. unfold read_i32. rewrite read_le_short by lia. by repeat split; eexists.
  - rewrite len_le8 in Hk. rewrite get8_short by lia. by repeat split; eexists.
Qed.

Lemma read_string_cut s : cut (string_bytes s) -> slen s < i32_max -> fails (read_bson_string bs (len pre)).
Proof.
  intros Hc Hs. unfold read_bson_string. pose proof (slen_nonneg s).
  eapply counted_cut; [exact Hc|lia|]. destruct Hc as [Hb Hk]. pose proof (len_cut _ _ _ _ Hb Hk).
  rewrite len_string_bytes in Hk. pose proof (len_nonneg pre).
  replace (_ <? 1) with false by lia. rewrite uadd_ok by lia. cbn [mbind res_bind].
  rewrite as_usize_id, checked_add_ok by lia. cbn [ok_or mbind res_bind].
  replace (len bs <? _) with true by lia. by eexists.
Qed.

Lemma read_binary_cut sub data :
  cut (i32_to_le_bytes (len data) ++ [sub] ++ data) -> len data <= i32_max ->
  fails (read_bson_binary bs (len pre)).
Proof.
  intros Hc Hd. unfold read_bson_binary. pose proof (len_nonneg data).
  eapply counted_cut; [exact Hc|lia|]. destruct Hc as [Hb Hk]. pose proof (len_cut _ _ _ _ Hb Hk).
  rewrite !len_app, len_i32 in Hk. change (len [sub]) with 1 in Hk. pose proof (len_nonneg pre).
  replace (_ <? 0) with false by lia. rewrite checked_add_ok by lia. cbn [ok_or mbind res_bind].
  rewrite as_usize_id, checked_add_ok by lia. cbn [ok_or mbind res_bind].
  rewrite get_range_short by lia. by eexists.
Qed.

Lemma scalar_field_cut v key s :
  cut (value_bytes v) -> wf v = true -> len (value_bytes v) <= i32_max ->
  scalar_field bs key (len pre) (u8 (tag v)) s = Ok (lost_spec key v s).
Proof.
  intros Hc Hw Hv. destruct (scalars_cut v Hc Hw) as (Hbool & Hint & Hlong).
  unfold scalar_field, lost_spec.
  rewrite (fails_ok _ Hbool), (fails_ok _ Hint), (fails_ok _ Hlong), u8_tag. clear Hbool Hint Hlong.
  assert (forall t, v = BString t -> fails (read_bson_string bs (len pre))) as Hstr.
  { intros t ->. cbn [value_bytes] in *. rewrite len_string_bytes in Hv.
    eapply read_string_cut; [done|lia]. }
  assert (forall sub data, v = BBinary sub data -> fails (read_bson_binary bs (len pre))) as Hbin.
  { intros sub data ->. cbn [value_bytes] in *. rewrite !len_app, len_i32 in Hv.
    pose proof (len_nonneg [sub]). eapply read_binary_cut; [done|lia]. }
  repeat match goal with
         | |- context [String.eqb key ?k] =>
             destruct (String.eqb_spec key k) as [->|_]; [cbn [String.eqb Ascii.eqb Bool.eqb]|]
         end.
  all: cbn [andb mbind res_bind]; try done.
  all: destruct v; cbn [Z.eqb Pos.eqb andb mbind res_bind]; try done.
  all: try (by rewrite (fails_ok _ (Hstr _ eq_refl))).
  rewrite (fails_ok _ (Hbin _ _ eq_refl)). by destruct s.
Qed.

Lemma first_element_cut v ordinal key s :
  cut (value_bytes v) -> len (value_bytes v) <= i32_max -> (ordinal = 0 -> s = empty_summary) ->
  first_element bs ordinal key (len pre) (u8 (tag v)) s =
  Ok (if ordinal =? 0 then set_first_key key s else s).
Proof.
  intros Hc Hv Hs. unfold first_element. cbv zeta. destruct (ordinal =? 0) eqn:Ho; [|done].
  rewrite u8_tag, Hs by lia. destruct v; cbn [Z.eqb Pos.eqb]; try done.
  cbn [value_bytes] in *. rewrite len_string_bytes in Hv.
  by rewrite (fails_ok _ (read_string_cut s0 Hc ltac:(lia))).
Qed.

Lemma prefix_field_cut v key s :
  cut (value_bytes v) -> wf v = true -> len (value_bytes v) <= i32_max ->
  prefix_field bs key (len pre) (u8 (tag v)) None s = Ok (lost_spec key v s).
Proof.
  intros Hc Hw Hv. unfold prefix_field. rewrite (scalar_field_cut v key s Hc Hw Hv), u8_tag.
  destruct (String.eqb_spec key "speculativeAuthenticate") as [->|_];
    [|destruct (String.eqb_spec key "deletes") as [->|_]]; cbn [andb];
    by destruct v.
Qed.
End cut.

Lemma prefix_field_at bs pre post key v s stop :
  len bs <= i32_max -> bs = pre ++ value_bytes v ++ post -> wf v = true ->
  stop = len pre + len (value_bytes v) ->
  prefix_field bs key (len pre) (u8 (tag v)) (Some stop) s =
  Ok (element_spec (body_spec (fun _ => empty_summary) false) true s (key, v)).
Proof.
  intros Hlen Hb Hw Hstop.
  rewrite <- (element_field_at (fun value => summarize_bson_inner value false)
                (body_spec (fun _ => empty_summary) false) true) with (bs := bs) (stop := stop) (pre := pre) (post := post);
    try done.
  - unfold prefix_field, element_field.
    rewrite (get_range_at bs pre _ post _ _ Hb eq_refl Hstop). by cbn [andb ok_or mbind res_bind].
  - intros _ m Hm Hwm. unfold summarize_bson_inner. cbn [summarize_bson_at].
    by apply summarize_bson_body_encode.
Qed.

Lemma take_split {A} (l r : list A) k :
  Z.of_nat k < len l /\ take k (l ++ r) = take k l \/
  len l <= Z.of_nat k /\ take k (l ++ r) = l ++ take (k - length l) r.
Proof.
  unfold len. destruct (decide (Z.of_nat k < Z.of_nat (length l))); [left|right]; split; try lia.
  - by rewrite take_app_le by lia.
  - by rewrite take_app_ge by lia.
Qed.

(** One iteration of the loop over a buffer that ends inside the elements. *)
Section iteration.
Context (bs pre : bytes) (key : string) (v : bson) (l : list (string * bson)) (k : nat).
Context (Hlen : len bs <= i32_max).
Context (Hb : bs = pre ++ take k (concat (element_bytes <$> (key, v) :: l))).
Context (Hk : is_cstring key = true) (Hw : wf v = true).
Context (Hl : len (concat (element_bytes <$> (key, v) :: l)) <= i32_max).
Context (ordinal : Z) (s : BsonSummary) (Ho : 0 <= ordinal <= len pre).
Context (Hs : ordinal = 0 -> s = empty_summary) (fuel : nat).

Lemma iteration_split :
  concat (element_bytes <$> (key, v) :: l) =
  [tag v] ++ cstring key ++ value_bytes v ++ concat (element_bytes <$> l).
Proof.
  rewrite fmap_cons. cbn [concat]. unfold element_bytes, embedded_element. cbn [fst snd].
  by rewrite <- !app_assoc.
Qed.

Lemma iteration_lens :
  len (value_bytes v) <= i32_max /\ len (element_bytes (key, v)) = slen key + 2 + len (value_bytes v) /\
  len bs = len pre + Z.min (Z.of_nat k) (len (concat (element_bytes <$> (key, v) :: l))).
Proof using Hb Hl Hk Hw.
  split; [|split; [apply len_element|]].
  - pose proof Hl as Hl'. rewrite iteration_split, !len_app in Hl'. change (len [tag v]) with 1 in Hl'.
    pose proof (len_nonneg (cstring key)). pose proof (len_nonneg (concat (element_bytes <$> l))). lia.
  - rewrite Hb at 1. rewrite len_app. unfold len. rewrite length_take. lia.
Qed.

Lemma prefix_iteration :
  prefix_loop (S fuel) bs (len bs) (len pre) ordinal s =
  let avail := len bs - len pre in
  if avail <? slen key + 2 then Ok s
  else if avail <? len (element_bytes (key, v)) then
    Ok (lost_spec key v (if ordinal =? 0 then set_first_key key s else s))
  else
    let s' := element_spec (body_spec (fun _ => empty_summary) false) true
                (if ordinal =? 0 then first_spec ((key, v) :: l) else s) (key, v) in
    if len (value_bytes v) =? 0 then Ok s'
    else prefix_loop fuel bs (len bs) (len (pre ++ element_bytes (key, v))) (ordinal + 1) s'.
Proof.
  destruct iteration_lens as (Hvl & Hel & Hbl). pose proof (len_nonneg pre). pose proof (slen_nonneg key).
  pose proof (len_nonneg (value_bytes v)). pose proof (len_nonneg (concat (element_bytes <$> l))).
  assert (len (concat (element_bytes <$> (key, v) :: l)) =
          len (element_bytes (key, v)) + len (concat (element_bytes <$> l))) as Hcl.
  { rewrite fmap_cons. cbn [concat]. by rewrite len_app. }
  cbn [prefix_loop]. cbv zeta. destruct k as [|k'].
  { replace (len pre <? len bs) with false by lia. by replace (_ <? slen key + 2) with true by lia. }
  replace (len pre <? len bs) with true by lia.
  rewrite iteration_split in Hb. cbn [app take] in Hb.
  rewrite (get_at bs pre _ (tag v) _ Hb eq_refl). rewrite (uadd_ok (len pre) 1) by lia. cbn [mbind res_bind].
  assert (bs = (pre ++ [tag v]) ++ take k' (cstring key ++ value_bytes v ++ concat (element_bytes <$> l)))
    as Hb1 by (by rewrite Hb, <- app_assoc).
  assert (len (pre ++ [tag v]) = len pre + 1) as Hp1 by (by rewrite len_app).
  rewrite <- Hp1. pose proof (len_cstring key) as Hck.
  destruct (take_split (cstring key) (value_bytes v ++ concat (element_bytes <$> l)) k') as [[Hc Ht]|[Hc Ht]];
    rewrite Ht in Hb1.
  { rewrite (read_cstring_short bs _ ltac:(lia) key k' Hb1 Hk) by lia. cbn [ok mbind res_bind].
    by replace (_ <? slen key + 2) with true by lia. }
  rewrite (read_cstring_at bs _ ltac:(lia) key _ Hb1 Hk). cbn [ok mbind res_bind].
  rewrite <- len_app. rewrite app_assoc in Hb1. set (pre' := (pre ++ [tag v]) ++ cstring key) in *.
  assert (len pre' = len pre + (slen key + 2)) as Hp2 by (unfold pre'; rewrite len_app; lia).
  replace (_ <? slen key + 2) with false by lia.
  set (k2 := (k' - length (cstring key))%nat) in *.
  assert (Z.of_nat (S k') = slen key + 2 + Z.of_nat k2) as Hk2
    by (unfold k2; unfold len in *; lia).
  destruct (take_split (value_bytes v) (concat (element_bytes <$> l)) k2) as [[Hv Ht2]|[Hv Ht2]];
    rewrite Ht2 in Hb1.
  - assert (cut bs pre' k2 (value_bytes v)) as Hcut by done.
    rewrite (fails_ok _ (skip_value_cut bs pre' k2 Hlen v Hcut Hw Hvl)). cbn [mbind res_bind].
    rewrite (first_element_cut bs pre' k2 Hlen v ordinal key s Hcut Hvl Hs). cbn [mbind res_bind].
    rewrite (prefix_field_cut bs pre' k2 Hlen v _ _ Hcut Hw Hvl). cbn [mbind res_bind].
    rewrite uadd_ok by lia. cbn [mbind res_bind]. by replace (_ <? len (element_bytes _)) with true by lia.
  - rewrite (skip_value_at bs pre' _ ltac:(lia) v Hb1 Hw Hvl). cbn [ok mbind res_bind].
    assert (first_element bs ordinal key (len pre') (u8 (tag v)) s =
            Ok (if ordinal =? 0 then first_spec ((key, v) :: l) else s)) as ->.
    { destruct (ordinal =? 0) eqn:Hz.
      - apply (first_element_at bs pre' _ v ltac:(lia) Hb1 Hw Hvl); [lia|]. apply Hs. lia.
      - unfold first_element. by rewrite Hz. }
    cbn [mbind res_bind]. rewrite (prefix_field_at bs pre' _ key v _ _ Hlen Hb1 Hw eq_refl).
    cbn [mbind res_bind]. rewrite uadd_ok by lia. cbn [mbind res_bind].
    replace (_ <? len (element_bytes _)) with false by lia.
    replace (len pre' + len (value_bytes v)) with (len (pre ++ element_bytes (key, v)))
      by (rewrite len_app; lia).
    rewrite (len_app pre (element_bytes _)).
    destruct (len (value_bytes v) =? 0) eqn:Hz; replace (_ && _) with (negb (len (value_bytes v) =? 0)) by lia;
      by rewrite Hz.
Qed.
End iteration.

Lemma prefix_loop_at bs l pre fuel ordinal s k :
  len bs <= i32_max -> bs = pre ++ take k (concat (element_bytes <$> l)) ->
  forallb element_wf l = true -> len (concat (element_bytes <$> l)) <= i32_max ->
  0 <= ordinal <= len pre -> (ordinal = 0 -> s = empty_summary) -> len bs - len pre < Z.of_nat fuel ->
  prefix_loop fuel bs (len bs) (len pre) ordinal s =
  Ok (prefix_fields l (len bs - len pre) (ordinal =? 0) s).
Proof.
  intros Hlen. revert l pre ordinal s k.
  induction fuel as [|fuel IH]; intros l pre ordinal s k Hb Hw Hl Ho Hs Hf.
  { rewrite Hb, len_app in Hf. pose proof (len_nonneg (take k (concat (element_bytes <$> l)))). lia. }
  destruct l as [|[key v] l].
  { cbn [fmap list_fmap concat] in Hb. rewrite take_nil, app_nil_r in Hb. subst bs.
    cbn [prefix_loop]. by rewrite Z.ltb_irrefl. }
  apply andb_prop in Hw as [[Hk Hv]%andb_prop Hw]. cbn [fst snd] in *.
  rewrite (prefix_iteration bs pre key v l k) by done. cbn [prefix_fields]. cbv zeta.
  destruct (iteration_lens bs pre key v l k Hb Hk Hv Hl) as (Hvl & Hel & Hbl).
  pose proof (slen_nonneg key). pose proof (len_nonneg (value_bytes v)).
  destruct (_ <? slen key + 2); [done|]. destruct (_ <? len (element_bytes _)) eqn:Hlt; [done|].
  destruct (len (value_bytes v) =? 0); [done|].
  rewrite (IH l _ _ _ (k - length (element_bytes (key, v)))%nat).
  - replace (ordinal + 1 =? 0) with false by lia. rewrite len_app. do 2 f_equal. lia.
  - rewrite Hb at 1. rewrite fmap_cons. cbn [concat]. rewrite take_app_ge; [by rewrite app_assoc|].
    unfold len in *. lia.
  - done.
  - rewrite fmap_cons in Hl. cbn [concat] in Hl. rewrite len_app in Hl. lia.
  - rewrite len_app. lia.
  - lia.
  - rewrite len_app. lia.
Qed.

Lemma len_take_Z {A} (l : list A) n : 0 <= n <= len l -> len (take (Z.to_nat n) l) = n.
Proof. unfold len. rewrite length_take. lia. Qed.

Lemma summarize_bson_prefix_encode l n :
  wf_document l = true -> 0 <= n -> summarize_bson_prefix (take (Z.to_nat n) (encode l)) = prefix_summary l n.
Proof.
  intros Hw Hn. pose proof Hw as [Hel Hl%Z.leb_le]%andb_prop. pose proof (len_encode_5 l).
  unfold prefix_summary. destruct (n <? 5) eqn:H5.
  { unfold summarize_bson_prefix. rewrite len_take_Z by lia. by rewrite H5. }
  destruct (len (encode l) <=? n) eqn:Hfull.
  { rewrite take_ge by (unfold len in *; lia). unfold summarize_bson_prefix.
    replace (_ <? 5) with false by lia.
    destruct (sequence_read (encode l) [] l [] Hl) as (Hr & _ & Hs & _); [by rewrite app_nil_r|].
    cbn [app] in Hr, Hs. rewrite len_nil in Hr, Hs. rewrite Hr. cbn [mbind res_bind].
    replace (_ <? 5) with false by lia. rewrite as_usize_id, Z.leb_refl, Hs by lia. cbn [mbind res_bind].
    by apply summarize_bson_encode. }
  set (bs := take (Z.to_nat n) (encode l)).
  assert (len bs = n) as Hbs by (by apply len_take_Z; lia).
  assert (bs = i32_to_le_bytes (len (encode l)) ++ take (Z.to_nat n - 4) (concat (element_bytes <$> l)))
    as Hb.
  { unfold bs. unfold encode at 1. rewrite document_eq. fold (encode l).
    pose proof (len_i32 (len (encode l))) as H4. unfold len at 1 in H4.
    rewrite take_app_ge, take_app_le; [do 2 f_equal; lia| |lia].
    pose proof (len_document (element_bytes <$> l)) as Hd. fold (encode l) in Hd.
    unfold len in Hd, Hfull. lia. }
  unfold summarize_bson_prefix. replace (_ <? 5) with false by lia.
  pose proof (read_i32_at bs [] ltac:(lia) _ _ Hb ltac:(lia)) as Hr. rewrite len_nil in Hr.
  rewrite Hr. cbn [mbind res_bind]. replace (_ <? 5) with false by lia.
  rewrite as_usize_id by lia. replace (_ <=? len bs) with false by lia. unfold saturating_sub.
  replace (Z.min (len bs) _) with (len bs) by lia.
  pose proof (prefix_loop_at bs l _ (length bs) 0 empty_summary _ ltac:(lia) Hb Hel) as Hloop.
  rewrite len_i32 in Hloop. rewrite Hloop.
  - cbn [mbind res_bind Z.eqb]. rewrite Hbs. by destruct (s_first_key _).
  - pose proof (len_document (element_bytes <$> l)) as Hd. fold (encode l) in Hd. lia.
  - lia.
  - done.
  - unfold len in *. lia.
Qed.

(** The command named by a prefix is the command of the document. *)
Lemma first_key_lost key v s : s_first_key (lost_spec key v s) = s_first_key s.
Proof. unfold lost_spec. repeat case_match; by destruct s. Qed.

Lemma first_key_scalar key v s : s_first_key (scalar_spec key v s) = s_first_key s.
Proof. unfold scalar_spec. repeat case_match; by destruct s. Qed.

Lemma first_key_element nested allow s kv : s_first_key (element_spec nested allow s kv) = s_first_key s.
Proof.
  destruct kv as [key v]. unfold element_spec. destruct v; rewrite ?first_key_scalar; try done.
  - destruct (_ && _); [by destruct s|]. by rewrite first_key_scalar.
  - destruct (String.eqb _ _); [by destruct s|]. by rewrite first_key_scalar.
Qed.

Lemma first_key_prefix l avail s : s_first_key (prefix_fields l avail false s) = s_first_key s.
Proof.
  revert avail s. induction l as [|[key v] l IH]; intros avail s; [done|]. cbn [prefix_fields]. cbv zeta.
  repeat case_match; rewrite ?IH, ?first_key_lost, ?first_key_element; done.
Qed.

Lemma first_key_prefix_head l avail :
  s_first_key (prefix_fields l avail true empty_summary) = None \/
  s_first_key (prefix_fields l avail true empty_summary) = fst <$> head l.
Proof.
  destruct l as [|[key v] l]; [by left|]. cbn [prefix_fields]. cbv zeta. cbn [head fmap option_fmap option_map fst].
  destruct (_ <? _); [by left|right].
  assert (s_first_key (first_spec ((key, v) :: l)) = Some key) as Hf by (by destruct v).
  repeat case_match; rewrite ?first_key_prefix, ?first_key_lost, ?first_key_element; done.
Qed.

(** A prefix never holds a query. *)
Lemma query_lost key v s : s_query (lost_spec key v s) = s_query s.
Proof. unfold lost_spec. repeat case_match; by destruct s. Qed.

Lemma query_scalar key v s : s_query (scalar_spec key v s) = s_query s.
Proof. unfold scalar_spec. repeat case_match; by destruct s. Qed.

Lemma query_element nested allow s kv : s_query (element_spec nested allow s kv) = s_query s.
Proof.
  destruct kv as [key v]. unfold element_spec. destruct v; rewrite ?query_scalar; try done.
  - destruct (_ && _); [by destruct s|]. by rewrite query_scalar.
  - destruct (String.eqb _ _); [by destruct s|]. by rewrite query_scalar.
Qed.

Lemma query_prefix_fields l avail first s :
  s_query s = None -> s_query (prefix_fields l avail first s) = None.
Proof.
  revert avail first s. induction l as [|[key v] l IH]; intros avail first s Hs; [done|].
  cbn [prefix_fields]. cbv zeta.
  assert (s_query (if first then first_spec ((key, v) :: l) else s) = None) as Hf
    by (destruct first; [by destruct v|done]).
  repeat case_match; try apply IH; rewrite ?query_lost, ?query_element; try done; by destruct s.
Qed.

(** Bytes after a whole document do not matter. *)
Lemma summarize_bson_prefix_more l extra :
  wf_document l = true -> len (encode l ++ extra) <= i32_max ->
  summarize_bson_prefix (encode l ++ extra) = Ok (summary_of l).
Proof.
  intros Hw Hl. pose proof (len_encode_5 l). pose proof (len_nonneg extra).
  destruct (sequence_read (encode l ++ extra) [] l extra Hl eq_refl) as (Hr & _ & Hs & _).
  cbn [app] in Hr, Hs. rewrite len_nil in Hr, Hs. rewrite len_app in Hl.
  unfold summarize_bson_prefix. rewrite len_app. replace (_ <? 5) with false by lia.
  rewrite Hr. cbn [mbind res_bind]. replace (_ <? 5) with false by lia.
  rewrite as_usize_id by lia. replace (_ <=? _) with true by lia. rewrite Hs. cbn [mbind res_bind].
  by apply summarize_bson_encode.
Qed.

Lemma prefix_summary_take l n rest :
  wf_document l = true -> 0 <= n -> len (encode l ++ rest) <= i32_max ->
  summarize_bson_prefix (take (Z.to_nat n) (encode l ++ rest)) = prefix_summary l n.
Proof.
  intros Hw Hn Hl. destruct (decide (n <= len (encode l))) as [Hle|Hgt].
  - rewrite take_app_le by (unfold len in *; lia). by apply summarize_bson_prefix_encode.
  - rewrite take_app_ge by (unfold len in *; lia). pose proof (len_encode_5 l).
    rewrite summarize_bson_prefix_more; [|done|].
    + unfold prefix_summary. replace (n <? 5) with false by lia. by replace (_ <=? n) with true by lia.
    + rewrite len_app in *. unfold len in *. rewrite length_take. lia.
Qed.

Section message.
Context `{Decompressors} (limit rid rto flags : Z) (l : list (string * bson)) (sections : list msg_section).
Context (checksum : bytes).
Context (Hrid : is_i32 rid = true) (Hrto : is_i32 rto = true) (Hflags : 0 <= flags <= u32_max).
Context (Hw : wf_document l = true).

Definition whole_payload : bytes := msg_payload flags (Body l :: sections) checksum.
Definition whole_frame : bytes := frame OP_MSG rid rto whole_payload.

Context (Hfits : fits whole_payload limit = true).

Lemma whole_payload_eq :
  exists rest, whole_payload = le_bytes 4 flags ++ [x00] ++ encode l ++ rest.
Proof.
  exists (concat (section_bytes <$> sections) ++ checksum). unfold whole_payload, msg_payload.
  rewrite fmap_cons. cbn [concat section_bytes]. by rewrite <- !app_assoc.
Qed.

Lemma decode_op_msg_prefix_encode n declared :
  0 <= n < len whole_payload ->
  decode_op_msg_prefix rid rto declared (take (Z.to_nat n) whole_payload) =
  op_msg_message rid rto declared flags false <$> prefix_summary l (n - 5).
Proof.
  intros Hn. destruct whole_payload_eq as [rest Hp].
  apply andb_prop in Hfits as [_ Hi%Z.leb_le].
  assert (len (take (Z.to_nat n) whole_payload) = n) as Hlt by (apply len_take_Z; lia).
  unfold decode_op_msg_prefix. rewrite Hlt. destruct (n <? 6) eqn:H6.
  { unfold prefix_summary. by replace (n - 5 <? 5) with true by lia. }
  assert (take (Z.to_nat n) whole_payload =
          (le_bytes 4 flags ++ [x00]) ++ take (Z.to_nat (n - 5)) (encode l ++ rest)) as Htake.
  { rewrite Hp, app_assoc. rewrite take_app_ge; [do 2 f_equal|]; rewrite length_app, length_le_bytes; simpl; lia. }
  set (pl := take (Z.to_nat n) whole_payload) in *.
  rewrite <- app_assoc in Htake.
  pose proof (read_u32_at pl [] flags _ ltac:(lia) Htake Hflags) as Hr. rewrite len_nil in Hr.
  rewrite Hr. cbn [mbind res_bind].
  rewrite (index_at pl (le_bytes 4 flags) (take (Z.to_nat (n - 5)) (encode l ++ rest)) x00 4 Htake)
    by (by rewrite len_le_bytes).
  cbn [mbind res_bind]. change (negb (u8 x00 =? 0)) with false. cbv iota.
  assert (pl = (le_bytes 4 flags ++ [x00]) ++ take (Z.to_nat (n - 5)) (encode l ++ rest) ++ []) as Hd
    by (by rewrite Htake, app_nil_r, <- app_assoc).
  pose proof Hp as Hlp. apply (f_equal len) in Hlp. rewrite !len_app, len_le_bytes in Hlp.
  change (len [x00]) with 1 in Hlp.
  rewrite (slice_at pl _ _ [] 5 n Hd) by
    (rewrite ?len_app, ?len_le_bytes, ?len_take_Z; change (len [x00]) with 1; rewrite ?len_app; lia).
  cbn [mbind res_bind]. rewrite prefix_summary_take by (done || rewrite ?len_app; lia).
  by destruct (prefix_summary l (n - 5)).
Qed.

Lemma frame_prefix_fields n :
  16 <= n < len whole_frame ->
  len (take (Z.to_nat n) whole_frame) = n /\
  read_i32 (take (Z.to_nat n) whole_frame) 0 = Ok (len whole_frame) /\
  read_i32 (take (Z.to_nat n) whole_frame) 4 = Ok rid /\
  read_i32 (take (Z.to_nat n) whole_frame) 8 = Ok rto /\
  read_i32 (take (Z.to_nat n) whole_frame) 12 = Ok OP_MSG /\
  slice (E := DecodeError) (take (Z.to_nat n) whole_frame) 16 n =
    Ok (take (Z.to_nat (n - 16)) whole_payload).
Proof.
  intros Hn. apply andb_prop in Hfits as [_ Hi%Z.leb_le]. unfold is_i32 in *.
  pose proof (len_frame OP_MSG rid rto whole_payload) as Hl. fold whole_frame in Hl.
  assert (len (take (Z.to_nat n) whole_frame) = n) as Hlt by (apply len_take_Z; lia).
  set (a := i32_to_le_bytes (16 + len whole_payload)). set (b := i32_to_le_bytes rid).
  set (c := i32_to_le_bytes rto). set (d := i32_to_le_bytes OP_MSG).
  assert (len a = 4 /\ len b = 4 /\ len c = 4 /\ len d = 4) as (Ha & Hb & Hc & Hd)
    by (repeat split; apply len_i32).
  assert (take (Z.to_nat n) whole_frame = a ++ b ++ c ++ d ++ take (Z.to_nat (n - 16)) whole_payload) as Ht.
  { unfold whole_frame, frame. fold a b c d.
    rewrite (app_assoc c), (app_assoc b), (app_assoc a). 
    assert (length (a ++ b ++ c ++ d) = 16%nat) as H16
      by (rewrite !length_app; unfold len in *; lia).
    rewrite take_app_ge by lia. rewrite H16, <- !app_assoc. do 5 f_equal. lia. }
  set (f := take (Z.to_nat n) whole_frame) in *. split; [done|].
  assert (f = [] ++ a ++ (b ++ c ++ d ++ take (Z.to_nat (n - 16)) whole_payload)) as E0 by done.
  assert (f = (a ++ b) ++ c ++ (d ++ take (Z.to_nat (n - 16)) whole_payload)) as E8
    by (by rewrite Ht, <- !app_assoc).
  assert (f = (a ++ b ++ c) ++ d ++ take (Z.to_nat (n - 16)) whole_payload) as E12
    by (by rewrite Ht, <- !app_assoc).
  assert (f = (a ++ b ++ c ++ d) ++ take (Z.to_nat (n - 16)) whole_payload ++ []) as E16
    by (by rewrite Ht, app_nil_r, <- !app_assoc).
  assert (len f <= isize_max) as Hf by lia.
  pose proof (read_i32_at f _ Hf _ _ E0 ltac:(lia)) as R0.
  pose proof (read_i32_at f _ Hf _ _ Ht ltac:(lia)) as R4.
  pose proof (read_i32_at f _ Hf _ _ E8 ltac:(lia)) as R8.
  pose proof (read_i32_at f _ Hf _ _ E12 ltac:(unfold OP_MSG; lia)) as R12.
  rewrite !len_app, Ha, Hb, Hc in R12. rewrite !len_app, Ha, Hb in R8. rewrite Ha in R4.
  rewrite <- Hl in R0. repeat split; try done.
  apply (slice_at f _ _ [] 16 n E16); rewrite !len_app, Ha, Hb, Hc, Hd; [done|].
  rewrite len_take_Z by lia. lia.
Qed.

Lemma decode_prefix_encode n :
  16 <= n < len whole_frame ->
  decode_frame_prefix (take (Z.to_nat n) whole_frame) limit =
  op_msg_message rid rto (len whole_frame) flags false <$> prefix_summary l (n - 21).
Proof.
  intros Hn. destruct (frame_prefix_fields n Hn) as (Hlt & R0 & R4 & R8 & R12 & Hs).
  pose proof Hfits as [Hfl%Z.leb_le Hi%Z.leb_le]%andb_prop.
  pose proof (len_frame OP_MSG rid rto whole_payload) as Hl. fold whole_frame in Hl.
  unfold decode_frame_prefix. rewrite Hlt. replace (n <? 16) with false by lia.
  rewrite R0. cbn [mbind res_bind]. replace (_ <? 16) with false by lia.
  rewrite as_usize_id by lia. replace (limit <? _) with false by lia. replace (_ <=? n) with false by lia.
  rewrite R4. cbn [mbind res_bind]. rewrite R8. cbn [mbind res_bind]. rewrite R12. cbn [mbind res_bind].
  change (OP_MSG =? OP_COMPRESSED) with false. cbv iota. rewrite Hs. cbn [mbind res_bind].
  change (OP_MSG =? OP_MSG) with true. cbv iota.
  rewrite decode_op_msg_prefix_encode by lia. by replace (n - 16 - 5) with (n - 21) by lia.
Qed.
End message.
