(* ===== verification/Protocol.v ===== *)
(** The protocol decoder: the theorems about whole frames and streams that need
    every part of it, and the concrete inputs at which the theorems of the
    component files hold. *)
From Stdlib Require Import ZArith Lia ZifyBool Strings.Byte Strings.Ascii Strings.String.
From stdpp Require Import base list strings.
From S2P Require Import Prelude Text Float64 Json Bson BsonJson Summary.
From S2P Require Import Wire Stream Encode BsonRef SummaryRef WireRef Exposure PrefixRef.

Local Open Scope string_scope.
Local Open Scope list_scope.
Local Open Scope Z_scope.

(** * Totality *)

(** C22: Totality.  For every byte sequence a Rust slice can hold, decoding a frame
    and decoding the prefix of one return a message or one of the declared
    errors: no index is out of range, no addition overflows and every loop and
    every recursion through nested documents ends. *)
Theorem decoder_total `{Decompressors} (frame : bytes) (limit : Z) :
  len frame <= isize_max ->
  returns (decode_frame frame limit) /\ returns (decode_frame_prefix frame limit).
Proof.
  intros Hlen. split; eapply safe_returns; [by apply safe_decode_frame | by apply safe_decode_frame_prefix].
Qed.

Lemma decoder_total_witness :
  returns (@decode_frame stored [x00; xff] 64) /\ returns (@decode_frame_prefix stored [x00; xff] 64).
Proof. apply (@decoder_total stored). by vm_compute. Defined.

(** * Truncated messages *)


(** What a truncated command tells.  A command decoded from a prefix is
    named as in the whole document, and unless the whole document was captured
    it carries no query. *)
Theorem truncated_command `{Decompressors} limit rid rto flags l sections checksum n m c :
  is_i32 rid = true -> is_i32 rto = true -> 0 <= flags <= u32_max -> wf_document l = true ->
  fits (msg_payload flags (Body l :: sections) checksum) limit = true ->
  let whole := frame OP_MSG rid rto (msg_payload flags (Body l :: sections) checksum) in
  16 <= n < len whole -> n < 21 + len (encode l) ->
  decode_frame_prefix (take (Z.to_nat n) whole) limit = Ok m -> command m = Some c ->
  fst <$> head l = Some (name c) /\ query c = None.
Proof.
  intros Hrid Hrto Hf Hw Hfit whole Hn Hcut.
  change whole with (whole_frame rid rto flags l sections checksum).
  rewrite decode_prefix_encode by done.
  unfold prefix_summary. destruct (n - 21 <? 5); [done|]. replace (_ <=? n - 21) with false by lia.
  pose proof (first_key_prefix_head l (n - 21 - 4)) as Hhead.
  pose proof (query_prefix_fields l (n - 21 - 4) true empty_summary eq_refl) as Hq.
  set (s := prefix_fields _ _ _ _) in *.
  destruct (s_first_key s) as [k|] eqn:Hk; [|done]. intros [= <-]. cbn [command op_msg_message].
  destruct (rto =? 0); [|done]. unfold command_from_summary. rewrite Hk. intros [= <-].
  cbn [name query]. by destruct Hhead.
Qed.

(** Cut document sequences.  When the body of an OP_MSG is captured but the
    document sequences after it are cut, the decoder reports the command of the
    body alone, and for a capturing command its query is the body's JSON,
    without the fields the sequences would have added. *)
Theorem truncated_sequence_query `{Decompressors} limit rid flags l sections checksum n :
  is_i32 rid = true -> 0 <= flags <= u32_max -> wf_document l = true ->
  fits (msg_payload flags (Body l :: sections) checksum) limit = true ->
  let whole := frame OP_MSG rid 0 (msg_payload flags (Body l :: sections) checksum) in
  21 + len (encode l) <= n < len whole -> captures_query (summary_of l) = true ->
  exists m c, decode_frame_prefix (take (Z.to_nat n) whole) limit = Ok m /\
    command m = Some c /\ query c = Some (json_of_document l).
Proof.
  intros Hrid Hf Hw Hfit whole Hn Hc. pose proof (len_encode_5 l).
  change whole with (whole_frame rid 0 flags l sections checksum) in *.
  rewrite decode_prefix_encode by (done || lia).
  unfold prefix_summary. replace (n - 21 <? 5) with false by lia. replace (_ <=? n - 21) with true by lia.
  eexists. assert (s_query (summary_of l) = Some (json_of_document l)) as Hq.
  { revert Hc. unfold summary_of, body_spec. cbv zeta. set (s := fold_left _ _ _).
    destruct (captures_query s) eqn:Hs; [by destruct s|congruence]. }
  unfold captures_query in Hc. unfold command_from_summary.
  destruct (s_first_key (summary_of l)) as [k|] eqn:Hk; [|done].
  eexists. split; [done|]. cbn [command op_msg_message Z.eqb]. unfold command_from_summary. rewrite Hk.
  split; [done|]. done.
Qed.

(** Values without bytes.  In a truncated document the loop stops at a null,
    undefined, min-key or max-key value: a field captured after it, here [$db],
    is not reported, while the same document without the null reports it. *)
Theorem empty_value_hides_fields :
  let tail := [("$db", BString "sales"); ("filter", BString "a value that is cut")] in
  let with_null := ("find", BString "orders") :: ("hint", BNull) :: tail in
  let without := ("find", BString "orders") :: tail in
  (s_database <$> summarize_bson_prefix (take 70 (encode with_null))) = Ok None /\
  (s_database <$> summarize_bson_prefix (take 64 (encode without))) = Ok (Some "sales") /\
  (s_database <$> summarize_bson (encode with_null)) = Ok (Some "sales").
Proof. by vm_compute. Qed.

(** * Delete scope *)
Definition recognized_limits (vs : list bson) : list Z :=
  omap (fun v => match v with BDocument l => statement_limit l | _ => None end) vs.
Definition delete_documents (vs : list bson) : list bson :=
  filter (fun v => is_true (match v with BDocument _ => true | _ => false end)) vs.

(** The scope the limits of a batch of deletes stand for: limit 1 deletes one
    document, limit 0 all that match, and any other limit says nothing. *)
Definition scope_of_limits (limits : list Z) : option DeleteScope :=
  match existsb (Z.eqb 1) limits, existsb (Z.eqb 0) limits with
  | true, true => Some Mixed
  | true, false => Some Single
  | false, true => Some Multi
  | false, false => None
  end.

Lemma count_limit_spec o c :
  has_single (count_limit o c) = (has_single c || from_option (Z.eqb 1) false o) /\
  has_multi (count_limit o c) = (has_multi c || from_option (Z.eqb 0) false o) /\
  statements (count_limit o c) = statements c.
Proof.
  destruct o as [z|]; cbn [from_option]; [|by rewrite !orb_false_r].
  destruct (decide (z = 0)) as [->|]; [simpl; by rewrite orb_false_r, orb_true_r|].
  destruct (decide (z = 1)) as [->|]; [simpl; by rewrite orb_false_r, orb_true_r|].
  replace (1 =? z) with false by lia. replace (0 =? z) with false by lia.
  rewrite !orb_false_r. unfold count_limit. by repeat case_match.
Qed.

Lemma count_documents_flags vs c :
  has_single (fold_left count_document vs c) = (has_single c || existsb (Z.eqb 1) (recognized_limits vs)) /\
  has_multi (fold_left count_document vs c) = (has_multi c || existsb (Z.eqb 0) (recognized_limits vs)).
Proof.
  revert c. induction vs as [|v vs IH]; intros c; [simpl; by rewrite !orb_false_r|].
  cbn [fold_left]. destruct v; try (by apply IH).
  cbn [count_document recognized_limits omap list_omap].
  destruct (count_limit_spec (statement_limit l) (count_statement c)) as (H1 & H2 & _).
  destruct (IH (count_limit (statement_limit l) (count_statement c))) as [IH1 IH2].
  rewrite IH1, IH2, H1, H2, <- !orb_assoc. by destruct (statement_limit l).
Qed.

Lemma saturating_steps a b : 0 <= b -> Z.min u32_max (Z.min u32_max (a + 1) + b) = Z.min u32_max (a + (1 + b)).
Proof. lia. Qed.

Lemma count_documents_statements vs c :
  statements c <= u32_max ->
  statements (fold_left count_document vs c) = Z.min u32_max (statements c + len (delete_documents vs)).
Proof.
  revert c. induction vs as [|v vs IH]; intros c Hc.
  { unfold len. simpl. lia. }
  cbn [fold_left]. destruct v; try (by apply IH).
  destruct (count_limit_spec (statement_limit l) (count_statement c)) as (_ & _ & Hs).
  cbn [count_document]. rewrite IH; rewrite Hs; cbn [count_statement statements]; unfold saturating_add.
  - unfold delete_documents. rewrite filter_cons_True, len_cons by done. apply saturating_steps, len_nonneg.
  - apply Z.le_min_l.
Qed.

(** Delete scope.  The scope of a batch of delete statements is single,
    multi or mixed exactly as their [limit] fields say, whatever numeric type
    carries them, and the statement count is the number of statements,
    saturating at [u32::MAX]. *)
Theorem delete_scope_correct l :
  wf_document l = true ->
  summarize_delete_statements (encode l) =
  Ok (scope_of_limits (recognized_limits (snd <$> l)),
      Z.min u32_max (len (delete_documents (snd <$> l)))).
Proof.
  intros [Hw Hl%Z.leb_le]%andb_prop. rewrite summarize_delete_statements_encode by done.
  destruct (count_documents_flags (snd <$> l) no_statements) as [H1 H2].
  unfold scope_of, count_documents. by rewrite H1, H2, count_documents_statements.
Qed.

Definition two_deletes : list (string * bson) :=
  [("0", BDocument [("q", BDocument []); ("limit", BInt32 0)]);
   ("1", BDocument [("q", BDocument []); ("limit", BInt64 1)])].

Lemma delete_scope_correct_witness :
  summarize_delete_statements (encode two_deletes) = Ok (Some Mixed, 2).
Proof. apply (delete_scope_correct two_deletes). reflexivity. Defined.

(** * Witnesses *)
Definition find_document : list (string * bson) :=
  [("find", BString "orders"); ("filter", BDocument [("total", BDouble 4607182418800017408)]);
   ("ids", BArray [("0", BInt32 1); ("1", BNull)]); ("$db", BString "sales")].
Definition insert_document : list (string * bson) := [("insert", BString "orders"); ("$db", BString "sales")].
Definition order_sequence : msg_section := Sequence "documents" [[("total", BInt32 7)]; [("total", BInt32 8)]].

Lemma bson_document_to_json_encode_witness :
  bson_document_to_json (encode find_document) = Ok (json_of_document find_document).
Proof. apply bson_document_to_json_encode. reflexivity. Defined.

Lemma op_msg_decodes_witness :
  @decode_frame stored (frame OP_MSG 7 0 (msg_payload 1 [order_sequence; Body insert_document] [x01; x02; x03; x04]))
    DEFAULT_MAX_MESSAGE_BYTES =
  msg_spec 7 0 (16 + len (msg_payload 1 [order_sequence; Body insert_document] [x01; x02; x03; x04])) 1 false
    [order_sequence; Body insert_document].
Proof. apply (@op_msg_decodes stored); first [reflexivity | by vm_compute | done]. Defined.

Lemma op_query_decodes_witness :
  @decode_frame stored (frame OP_QUERY 7 0 (query_payload 0 "sales.$cmd" 0 (-1) find_document []))
    DEFAULT_MAX_MESSAGE_BYTES =
  Ok (decoded_op_query 7 0 (16 + len (query_payload 0 "sales.$cmd" 0 (-1) find_document [])) 0
        "sales.$cmd" (summary_of find_document) false).
Proof. apply (@op_query_decodes stored); first [reflexivity | by vm_compute | done]. Defined.

Definition ok_reply : list (string * bson) := [("ok", BDouble 4607182418800017408); ("n", BInt32 3)].

Lemma op_reply_decodes_witness :
  @decode_frame stored (frame OP_REPLY 9 7 (reply_payload 0 0 0 1 ok_reply [])) DEFAULT_MAX_MESSAGE_BYTES =
  Ok (decoded_op_reply 9 7 (16 + len (reply_payload 0 0 0 1 ok_reply [])) 0 (Some (summary_of ok_reply)) false).
Proof. apply (@op_reply_decodes stored); first [reflexivity | by vm_compute | done]. Defined.

Definition body_payload : bytes := msg_payload 0 [Body find_document] [].

Lemma compressed_frame_equivalent_witness :
  @decode_frame stored (frame OP_COMPRESSED 7 0 (compressed_payload OP_MSG (len body_payload) x02 body_payload))
    DEFAULT_MAX_MESSAGE_BYTES =
  recompressed (16 + len (compressed_payload OP_MSG (len body_payload) x02 body_payload)) <$>
    @decode_frame stored (frame OP_MSG 7 0 body_payload) DEFAULT_MAX_MESSAGE_BYTES.
Proof. apply (@compressed_frame_equivalent stored); first [reflexivity | by vm_compute | done]. Defined.

Lemma compressed_bounded_witness :
  exists m payload,
    @decompress stored (u8 x02) (len body_payload) body_payload = Ok payload /\
    len payload = len body_payload /\ 16 + len payload <= 1024 /\ compressed m = true.
Proof.
  eexists. apply (@compressed_bounded stored 1024 7 0 300 OP_MSG (len body_payload) x02 body_payload);
    [reflexivity|reflexivity|by vm_compute|by vm_compute|]. vm_compute. reflexivity.
Defined.

Lemma decoded_exposure_witness :
  exists m, sound_message m.
Proof.
  eexists. apply (@decoded_exposure stored (frame OP_MSG 7 0 body_payload) 1024). left.
  vm_compute. reflexivity.
Defined.


Lemma truncated_command_witness :
  exists c, fst <$> head find_document = Some (name c) /\ query c = None.
Proof.
  eexists. eapply (@truncated_command stored 1024 7 0 0 find_document [] [] 60);
    first [reflexivity | by vm_compute | done].
Defined.

Lemma truncated_sequence_query_witness :
  exists m c, @decode_frame_prefix stored
      (take (Z.to_nat 80) (frame OP_MSG 7 0 (msg_payload 0 [Body insert_document; order_sequence] []))) 1024 = Ok m /\
    command m = Some c /\ query c = Some (json_of_document insert_document).
Proof.
  apply (@truncated_sequence_query stored 1024 7 0 insert_document [order_sequence] [] 80);
    first [reflexivity | by vm_compute | done].
Defined.

Definition two_messages : list bytes :=
  [frame OP_MSG 7 0 body_payload; frame OP_REPLY 9 7 (reply_payload 0 0 0 1 ok_reply [])].
Definition small_config : DecoderConfig := {| max_message_bytes := 256; max_buffer_bytes := 1024 |}.

Lemma stream_reassembly_witness :
  exists messages,
    @push_all stored (new small_config)
      [take 3 (concat two_messages); drop 3 (concat two_messages) ++ [x10; x00]] =
    ({| config := small_config; buffer := [x10; x00] |}, Ok messages).
Proof.
  eexists. apply (@stream_reassembly stored small_config _ two_messages).
  - by vm_compute.
  - by vm_compute.
  - apply Forall_cons_2; [by vm_compute|]. apply Forall_cons_2; [by vm_compute|]. apply Forall_nil_2.
  - apply Forall_cons_2; [by vm_compute|]. apply Forall_cons_2; [by vm_compute|]. apply Forall_nil_2.
  - constructor; [vm_compute; reflexivity|]. constructor; [vm_compute; reflexivity|]. constructor.
  - by vm_compute.
  - by vm_compute.
Defined.

Lemma bounded_retention_witness :
  len (buffer (new small_config)) < 64 /\
  len (buffer (fst (@push_bounded_prefix stored (new small_config) (take 60 (concat two_messages)) 64))) < 64 /\
  returns (snd (@push_bounded_prefix stored (new small_config) (take 60 (concat two_messages)) 64)).
Proof.
  apply (@bounded_retention stored small_config 64); [by vm_compute|by vm_compute|constructor|by vm_compute].
Defined.
