(* ===== verification/Schema.v ===== *)
(** The event schema, crates/schema/src/lib.rs: batches, events and their
    payloads, and [DamBatch::validate], the contract every batch that enters
    the pipeline is held to.  Timestamps ([time::OffsetDateTime]) are an
    abstract type.  A field of the source carries its record's name as a
    prefix. *)
From Stdlib Require Import ZArith Lia ZifyBool Strings.Byte Strings.Ascii Strings.String.
From stdpp Require Import base list strings.
From S2P Require Import Prelude Text Float64 Json.

Local Open Scope string_scope.
Local Open Scope list_scope.
Local Open Scope Z_scope.

Definition EVENT_SCHEMA_VERSION : Z := 1.
Definition BATCH_SCHEMA_VERSION : Z := 1.

(** * Payloads *)
Record NetworkEndpoint : Set := {
  address : option string;
  port : option Z
}.

Record ConnectionMetadata : Set := {
  connection_id : string;
  fd : Z;
  local : option NetworkEndpoint;
  remote : option NetworkEndpoint;
  tcp_srtt_us : option Z;
  retransmits : option Z;
  tls : option bool
}.

Record MongodbActivity : Set := {
  activity_command : string;
  activity_database : option string;
  activity_collection : option string;
  activity_principal : option string;
  activity_principal_hashed : bool;
  activity_delete_scope : option string;
  activity_delete_statements : option Z;
  activity_affected_documents : option Z;
  activity_query : option JsonValue;
  activity_request_id : Z;
  activity_response_id : option Z;
  activity_request_bytes : Z;
  activity_response_bytes : option Z;
  activity_duration_us : option Z;
  activity_succeeded : option bool;
  activity_error_code : option Z;
  activity_error_name : option string;
  activity_expects_response : bool;
  activity_compressed : bool;
  activity_connection : ConnectionMetadata
}.

Record MongodbConnection : Set := {
  conn_state : string;
  conn_connection : ConnectionMetadata;
  conn_duration_us : option Z;
  conn_reason : option string
}.

Record MongodbAuth : Set := {
  auth_event_mechanism : string;
  auth_event_principal : option string;
  auth_event_principal_hashed : bool;
  auth_event_succeeded : option bool;
  auth_event_connection_id : string
}.

Record DnsActivity : Set := {
  dns_operation : string;
  dns_transport : string;
  dns_query_id : Z;
  dns_name : option string;
  dns_record_type : option string;
  dns_response_code : option Z;
  dns_answer_count : option Z;
  dns_duration_us : option Z;
  dns_connection : ConnectionMetadata
}.

Record HostIo : Set := {
  io_operation : string;
  io_duration_us : Z;
  io_bytes : option Z;
  io_fd : option Z;
  io_result : Z
}.

Record ProfileSample : Set := {
  profile_type : string;
  profile_period_hz : Z;
  profile_count : Z;
  profile_user_stack_id : Z;
  profile_kernel_stack_id : Z;
  profile_duration_us : option Z;
  profile_user_stack_addresses : list Z;
  profile_kernel_stack_addresses : list Z
}.

Record ProcessLifecycle : Set := {
  lifecycle_state : string;
  lifecycle_executable : option string
}.

Record SensorHealth : Set := {
  health_status : string;
  health_component : string;
  health_reason : string;
  health_dropped_events : Z;
  health_parse_errors : Z;
  health_spool_bytes : Z
}.

Inductive EventPayload : Set :=
| PMongodbActivity (a : MongodbActivity)
| PMongodbConnection (c : MongodbConnection)
| PMongodbAuth (a : MongodbAuth)
| PDnsActivity (d : DnsActivity)
| PHostIo (h : HostIo)
| PProfile (p : ProfileSample)
| PProcessLifecycle (p : ProcessLifecycle)
| PSensorHealth (s : SensorHealth).

(** * Metadata *)
Inductive CaptureSource : Set :=
| CleartextSyscall | OpenSslUprobe | UserUprobe | KernelTracepoint | PerfEvent | Sensor.

Inductive CaptureConfidence : Set := Complete | Partial | Inferred | Unknown.

Record CaptureMetadata : Set := {
  sensor_id : string;
  node_name : string;
  source : CaptureSource;
  confidence : CaptureConfidence;
  metadata_only : bool;
  truncated : bool
}.

Record KubernetesMetadata : Set := {
  cluster_name : option string;
  namespace : option string;
  pod_name : option string;
  pod_uid : option string;
  container_name : option string;
  workload_kind : option string;
  workload_name : option string;
  labels : option (list (string * string))
}.

Record ProcessMetadata : Set := {
  pid : Z;
  tgid : Z;
  uid : option Z;
  gid : option Z;
  cgroup_id : option Z;
  process_command : string;
  executable : option string
}.

Record ExternalIdentity : Set := {
  provider : string;
  principal_type : string;
  principal_arn : string;
  account_id : string;
  credential_source : string;
  credential_resource : string
}.

(** * Events and batches *)
Section batches.
Context {OffsetDateTime : Type}.

Record DamEvent : Type := {
  event_version : Z;
  event_id : string;
  observed_at : OffsetDateTime;
  monotonic_timestamp_ns : Z;
  event_customer_id : string;
  event_tenant_id : string;
  event_source_id : string;
  event_regional_cell_id : string;
  capture : CaptureMetadata;
  kubernetes : option KubernetesMetadata;
  process : option ProcessMetadata;
  identity : option ExternalIdentity;
  payload : EventPayload
}.

Record DamBatch : Type := {
  batch_version : Z;
  batch_id : string;
  customer_id : string;
  tenant_id : string;
  source_id : string;
  regional_cell_id : string;
  created_at : OffsetDateTime;
  events : list DamEvent
}.

(** [s.trim().is_empty()] *)
Definition blank (s : string) : bool := String.eqb (trim s) "".

Definition event_identity_blank (e : DamEvent) : bool :=
  blank (event_id e) || blank (sensor_id (capture e)) || blank (node_name (capture e)).

Definition foreign_event (b : DamBatch) (e : DamEvent) : bool :=
  negb (String.eqb (event_customer_id e) (customer_id b)) ||
  negb (String.eqb (event_tenant_id e) (tenant_id b)) ||
  negb (String.eqb (event_source_id e) (source_id b)) ||
  negb (String.eqb (event_regional_cell_id e) (regional_cell_id b)).

(** [activity.query.is_some() == event.capture.metadata_only] for an activity,
    [!metadata_only] for any other payload. *)
Definition capture_mismatch (e : DamEvent) : bool :=
  match payload e with
  | PMongodbActivity activity =>
      Bool.eqb (match activity_query activity with Some _ => true | None => false end)
               (metadata_only (capture e))
  | _ => negb (metadata_only (capture e))
  end.

Definition validate (b : DamBatch) : res string unit :=
  if negb (batch_version b =? BATCH_SCHEMA_VERSION) then Err "unsupported batch schema_version"
  else if blank (batch_id b) || blank (customer_id b) || blank (tenant_id b) ||
          blank (source_id b) || blank (regional_cell_id b)
  then Err "batch identity fields must not be empty"
  else if match events b with [] => true | _ => false end
  then Err "batch must contain at least one event"
  else if existsb (fun event => negb (event_version event =? EVENT_SCHEMA_VERSION)) (events b)
  then Err "unsupported event schema_version"
  else if existsb event_identity_blank (events b) then Err "event identity fields must not be empty"
  else if existsb (foreign_event b) (events b)
  then Err "event identity does not match batch identity"
  else if existsb capture_mismatch (events b)
  then Err "capture metadata does not match MongoDB query-content presence"
  else Ok tt.

(** * What a valid batch is *)

(** The text has a character that is not white space. *)
Definition visible_text (s : string) : Prop := exists c, In c (chars s) /\ is_whitespace c = false.

(** The query content of an event, if it has any. *)
Definition query_content (e : DamEvent) : option JsonValue :=
  match payload e with
  | PMongodbActivity activity => activity_query activity
  | _ => None
  end.

Record valid_event (b : DamBatch) (e : DamEvent) : Prop := {
  ve_version : event_version e = EVENT_SCHEMA_VERSION;
  ve_named : visible_text (event_id e) /\ visible_text (sensor_id (capture e)) /\
    visible_text (node_name (capture e));
  ve_owner : event_customer_id e = customer_id b /\ event_tenant_id e = tenant_id b /\
    event_source_id e = source_id b /\ event_regional_cell_id e = regional_cell_id b;
  ve_metadata_only : metadata_only (capture e) = true <-> query_content e = None
}.

Record valid_batch (b : DamBatch) : Prop := {
  vb_version : batch_version b = BATCH_SCHEMA_VERSION;
  vb_named : visible_text (batch_id b) /\ visible_text (customer_id b) /\ visible_text (tenant_id b) /\
    visible_text (source_id b) /\ visible_text (regional_cell_id b);
  vb_nonempty : events b <> [];
  vb_events : Forall (valid_event b) (events b)
}.

(** The same, with the events' checks grouped by kind. *)
Lemma existsb_false {A} (p : A -> bool) l : existsb p l = false <-> Forall (fun x => p x = false) l.
Proof.
  induction l as [|x l IH]; simpl; [by split|]. rewrite orb_false_iff, Forall_cons, IH. done.
Qed.

Lemma utf8_encode_char_nonempty c : utf8_encode_char c <> [].
Proof. unfold utf8_encode_char. by repeat case_match. Qed.

Lemma of_chars_empty cs : of_chars cs = "" <-> cs = [].
Proof.
  unfold of_chars. split; [|by intros ->]. intros H. apply (f_equal bytes_of) in H.
  rewrite bytes_of_string_of in H. destruct cs as [|c cs]; [done|].
  rewrite fmap_cons in H. cbn [concat] in H. apply app_eq_nil in H as [H _].
  by apply utf8_encode_char_nonempty in H.
Qed.

Lemma drop_while_nil {A} (p : A -> bool) l : drop_while p l = [] <-> Forall (fun x => p x = true) l.
Proof.
  induction l as [|x l IH]; simpl; [by split|]. rewrite Forall_cons. destruct (p x); [|intuition congruence].
  rewrite IH. intuition congruence.
Qed.

(** Trimming only removes: what is left of a list of white space is nothing. *)
Lemma trim_both_nil {A} (p : A -> bool) l : trim_both p l = [] <-> Forall (fun x => p x = true) l.
Proof.
  unfold trim_both. split.
  - intros H. apply (f_equal (@rev A)) in H. rewrite rev_involutive in H. simpl in H.
    apply drop_while_nil in H. apply Forall_rev in H. rewrite rev_involutive in H.
    assert (drop_while p l = []) as Hd; [|by apply drop_while_nil].
    clear -H. induction l as [|x l IH]; simpl in *; [done|]. destruct (p x) eqn:Hp; [by apply IH|].
    apply Forall_cons in H as [H _]. congruence.
  - intros H. by rewrite (proj2 (drop_while_nil p l) H).
Qed.

Lemma blank_spec s : blank s = false <-> visible_text s.
Proof.
  unfold blank, visible_text, trim. rewrite String.eqb_neq, of_chars_empty, trim_both_nil.
  split.
  - intros H. induction (chars s) as [|c cs IH]; [by destruct H|].
    destruct (is_whitespace c) eqn:Hc; [|exists c; split; [by left|done]].
    destruct IH as (c' & Hin & Hw); [intros Hcs; apply H; by constructor|]. exists c'. split; [by right|done].
  - intros (c & Hin & Hw) H. rewrite Forall_forall in H.
    specialize (H c). rewrite list_elem_of_In in H. specialize (H Hin). congruence.
Qed.

Lemma capture_mismatch_spec e :
  capture_mismatch e = false <-> (metadata_only (capture e) = true <-> query_content e = None).
Proof.
  unfold capture_mismatch, query_content. destruct (payload e) as [a| | | | | | |];
    try (destruct (metadata_only (capture e)); simpl; intuition congruence).
  destruct (activity_query a), (metadata_only (capture e)); simpl; intuition congruence.
Qed.

Lemma foreign_event_spec b e :
  foreign_event b e = false <->
  event_customer_id e = customer_id b /\ event_tenant_id e = tenant_id b /\
  event_source_id e = source_id b /\ event_regional_cell_id e = regional_cell_id b.
Proof.
  unfold foreign_event. rewrite !orb_false_iff, !negb_false_iff, !String.eqb_eq. tauto.
Qed.

Lemma event_checks_spec b e :
  (negb (event_version e =? EVENT_SCHEMA_VERSION) = false /\ event_identity_blank e = false /\
   foreign_event b e = false /\ capture_mismatch e = false) <-> valid_event b e.
Proof.
  rewrite foreign_event_spec, capture_mismatch_spec. unfold event_identity_blank.
  rewrite !orb_false_iff, !blank_spec, negb_false_iff, Z.eqb_eq.
  split; [intros; split; tauto|]. intros []. tauto.
Qed.

End batches.
Arguments DamEvent : clear implicits.
Arguments DamBatch : clear implicits.

(** * Validation is exact *)

Lemma valid_validate {OffsetDateTime} (b : DamBatch OffsetDateTime) :
  valid_batch b <-> validate b = Ok tt.
Proof.
  symmetry.
  unfold validate. split.
  - repeat (case_match; [done|]). intros _.
    repeat match goal with
           | H : negb _ = false |- _ => apply negb_false_iff in H
           | H : _ || _ = false |- _ => apply orb_false_iff in H as [? ?]
           | H : blank _ = false |- _ => apply blank_spec in H
           | H : existsb _ _ = false |- _ => apply existsb_false in H
           | H : (_ =? _) = true |- _ => apply Z.eqb_eq in H
           end.
    split; [done|tauto|congruence|]. match goal with H : events b = _ |- _ => rewrite H end.
    rewrite Forall_forall in *. intros e He. apply event_checks_spec. auto.
  - intros [Hv Hn Hne He]. rewrite Hv, Z.eqb_refl. simpl negb. cbv iota.
    destruct Hn as (H1 & H2 & H3 & H4 & H5).
    apply blank_spec in H1, H2, H3, H4, H5. rewrite H1, H2, H3, H4, H5. simpl orb. cbv iota.
    destruct (events b) as [|e es] eqn:Hes; [done|]. rewrite <- Hes in *.
    assert (Forall (fun e => negb (event_version e =? EVENT_SCHEMA_VERSION) = false /\
      event_identity_blank e = false /\ foreign_event b e = false /\ capture_mismatch e = false) (events b))
      as Hall by (eapply Forall_impl; [exact He|]; intros ?; apply event_checks_spec).
    rewrite !Forall_and in Hall. destruct Hall as (Ha & Hb & Hc & Hd).
    by rewrite (proj2 (existsb_false _ _) Ha), (proj2 (existsb_false _ _) Hb),
      (proj2 (existsb_false _ _) Hc), (proj2 (existsb_false _ _) Hd).
Qed.

(** Batch contract.  [validate] accepts a batch exactly when it is a valid
    one: the supported versions, identity fields with visible text, at least
    one event, every event named and owned by the batch's customer, tenant,
    source and cell, and marked metadata-only exactly when it carries no query
    content. *)
Theorem validate_exact {OffsetDateTime} (b : DamBatch OffsetDateTime) :
  validate b = Ok tt <-> valid_batch b.
Proof. symmetry. apply valid_validate. Qed.

Definition healthy (meta : bool) : DamEvent unit := {|
  event_version := 1; event_id := "evt-1"; observed_at := tt; monotonic_timestamp_ns := 1;
  event_customer_id := "customer"; event_tenant_id := "tenant"; event_source_id := "source";
  event_regional_cell_id := "cell";
  capture := {| sensor_id := "sensor"; node_name := "node"; source := CleartextSyscall;
                confidence := Complete; metadata_only := meta; truncated := false |};
  kubernetes := None; process := None; identity := None;
  payload := PSensorHealth {| health_status := "ok"; health_component := "observer";
    health_reason := "test"; health_dropped_events := 0; health_parse_errors := 0;
    health_spool_bytes := 0 |} |}.
Definition health_batch (customer : string) (meta : bool) : DamBatch unit := {|
  batch_version := 1; batch_id := "batch-1"; customer_id := customer; tenant_id := "tenant";
  source_id := "source"; regional_cell_id := "cell"; created_at := tt; events := [healthy meta] |}.

(** The cases of the test [batch_rejects_cross_tenant_or_non_metadata_events]. *)
Example validate_examples :
  validate (health_batch "other" true) = Err "event identity does not match batch identity" /\
  validate (health_batch "customer" false) =
    Err "capture metadata does not match MongoDB query-content presence" /\
  validate (health_batch "customer" true) = Ok tt.
Proof. by vm_compute. Qed.
