(* ===== verification/Spool.v ===== *)
(** The durable spool, crates/spool/src/lib.rs, over a model of the file system
    it runs on.  The methods of [DurableSpool] are programs whose steps are file
    system calls; [exec] runs a program from a state of the disk to a result or
    to a crash at any point in between, and [crash] gives the states the disk
    may be in after a restart. *)
From Stdlib Require Import ZArith Lia ZifyBool Strings.Byte Strings.Ascii Strings.String.
From stdpp Require Import base list strings gmap.
From S2P Require Import Prelude Text.

Local Open Scope string_scope.
Local Open Scope list_scope.
Local Open Scope Z_scope.

(** * The file system

    The spool uses two directories, its root and [root/quarantine].  What the
    disk holds after a crash is a prefix of the changes made so far
    ([journal]): directory changes become durable in order, at the latest when
    a directory is synced.  The content of a file is durable only once the
    file itself has been synced; until then a crash may leave anything in it.
    The quarantine directory is an entry of the root too; it is left out of the
    listings, since every loop skips it (it is not a file and its name has no
    extension).  The [Mutex] every method takes makes each method one
    uninterrupted sequence of calls; opening a file or a directory and the
    operation on it are one call.  The two directories themselves are taken to
    be there: creating them changes nothing, but may fail. *)
Inductive dir : Set := Root | Quarantine.
#[export] Instance dir_eq_dec : EqDecision dir.
Proof. solve_decision. Defined.
#[export] Instance dir_countable : Countable dir.
Proof.
  apply (inj_countable' (fun d => match d with Root => true | Quarantine => false end)
           (fun b : bool => if b then Root else Quarantine)).
  by intros [].
Defined.

Abbreviation path := (dir * string)%type.

Record file : Set := {
  content : bytes;
  synced : bool
}.

Abbreviation fs := (gmap path file).

(** A change to the file system. *)
Inductive change : Set :=
| Create (p : path)
| Write (p : path) (body : bytes)
| SyncFile (p : path)
| Rename (p q : path)
| Remove (p : path).

Definition apply (c : change) (s : fs) : fs :=
  match c with
  | Create p => <[p := {| content := []; synced := false |}]> s
  | Write p body => alter (fun _ => {| content := body; synced := false |}) p s
  | SyncFile p => alter (fun f => {| content := content f; synced := true |}) p s
  | Rename p q =>
      match s !! p with
      | Some f => <[q := f]> (delete p s)
      | None => s
      end
  | Remove p => delete p s
  end.

Record world : Set := {
  durable : fs;
  journal : list change
}.

Definition apply_all (l : list change) (s : fs) : fs := fold_left (fun s c => apply c s) l s.
(** What running programs see. *)
Definition visible (w : world) : fs := apply_all (journal w) (durable w).
Definition log (c : change) (w : world) : world :=
  {| durable := durable w; journal := journal w ++ [c] |}.
(** [sync_all] of a directory *)
Definition flush (w : world) : world := {| durable := visible w; journal := [] |}.

(** The content of an unsynced file is lost. *)
Definition scrambled (s s' : fs) : Prop :=
  forall p, match s !! p, s' !! p with
            | Some f, Some f' => synced f' = true /\ (synced f = true -> f' = f)
            | None, None => True
            | _, _ => False
            end.
Definition crash (w : world) (s : fs) : Prop :=
  exists l l', journal w = l ++ l' /\ scrambled (apply_all l (durable w)) s.
Definition restart (s : fs) : world := {| durable := s; journal := [] |}.

(** * Calls and programs *)
Inductive IoError : Set := NotFound | AlreadyExists | OtherIo.

(** [std::io::Result] *)
Abbreviation io A := (IoError + A)%type.

(** The calls of [std::fs] the spool makes.  A directory listing is a list of
    results, since reading an entry may fail.  [Request] is the one call to the
    network, which the delivery of Outpost makes: it sends [body] under [key] and
    returns the status of the answer, if there is one. *)
Inductive call : Type -> Type :=
| CreateDirAll (d : dir) : call (io unit)
| Exists_ (p : path) : call bool
| ReadDir (d : dir) : call (io (list (io string)))
| IsFile (p : path) : call (io bool)
| Len (p : path) : call (io Z)
| CreateNew (p : path) : call (io unit)
| WriteAll (p : path) (body : bytes) : call (io unit)
| SyncAll (p : path) : call (io unit)
| SyncDir (d : dir) : call (io unit)
| RenameTo (p q : path) : call (io unit)
| RemoveFile (p : path) : call (io unit)
| ReadFile (p : path) : call (io bytes)
| Request (key : string) (body : bytes) : call (option Z).

Inductive prog (A : Type) : Type :=
| Ret (a : A)
| Do {T : Type} (c : call T) (k : T -> prog A).
Arguments Ret {A} a.
Arguments Do {A T} c k.

Fixpoint bind_prog {A B} (m : prog A) (f : A -> prog B) : prog B :=
  match m with
  | Ret a => f a
  | Do c k => Do c (fun t => bind_prog (k t) f)
  end.

Inductive SpoolError : Set :=
| CapacityExceeded (current_bytes incoming_bytes max_bytes : Z)
| Io (e : IoError).

(** A method that returns [Result<A, SpoolError>]. *)
Abbreviation M A := (prog (SpoolError + A)).
Definition good {A} (a : A) : M A := Ret (inr a).
Definition fail {A} (e : SpoolError) : M A := Ret (inl e).
Definition bindM {A B} (m : M A) (f : A -> M B) : M B :=
  bind_prog m (fun r => match r with inl e => fail e | inr a => f a end).
(** [call()?] *)
Definition try {A} (c : call (io A)) : M A :=
  Do c (fun r => match r with inl e => fail (Io e) | inr a => good a end).

Notation "'let?' x := m 'in' k" := (bindM m (fun x => k))
  (at level 10, x pattern, m at level 100, k at level 200) : dam_scope.

(** * Names *)

(** The position after the last dot splits a name into stem and extension,
    except for a leading dot and for [..]. *)
Fixpoint rsplit_dot (s : string) : option (string * string) :=
  match s with
  | EmptyString => None
  | String a s' =>
      match rsplit_dot s' with
      | Some (l, r) => Some (String a l, r)
      | None => if Ascii.eqb a "."%char then Some (EmptyString, s') else None
      end
  end.
(** [Path::file_stem] and [Path::extension] of a file name *)
Definition file_stem (name : string) : string :=
  if String.eqb name ".." then name else
  match rsplit_dot name with
  | Some (EmptyString, _) | None => name
  | Some (stem, _) => stem
  end.
Definition extension (name : string) : option string :=
  if String.eqb name ".." then None else
  match rsplit_dot name with
  | Some (EmptyString, _) | None => None
  | Some (_, ext) => Some ext
  end.
Definition is_json (name : string) : bool :=
  match extension name with
  | Some ext => utf8 ext && String.eqb ext "json"
  | None => false
  end.
Definition strip_suffix (suffix s : string) : option string :=
  if (String.length suffix <=? String.length s)%nat
     && String.eqb (String.substring (String.length s - String.length suffix) (String.length suffix) s) suffix
  then Some (String.substring 0 (String.length s - String.length suffix) s) else None.
(** The id in the name of a temporary file of the spool *)
Definition temporary_id (name : string) : option string :=
  match (if utf8 name then strip_prefix "." name else None) ≫= strip_suffix ".tmp" with
  | Some id =>
      if (slen id =? 64) && forallb is_ascii_hexdigit (bytes_of id) then Some id else None
  | None => None
  end.

Definition json_name (id : string) : string := id ++ ".json".
Definition tmp_name (id : string) : string := "." ++ id ++ ".tmp".

(** * The methods *)
Record PendingItem : Set := {
  id : string;
  item_path : path;
  item_bytes : Z
}.

Record SpoolStats : Set := {
  items : Z;
  stat_bytes : Z
}.

Fixpoint stats_loop (d : dir) (entries : list (io string)) (stats : SpoolStats) : M SpoolStats :=
  match entries with
  | [] => good stats
  | entry :: entries =>
      let? name := Ret (match entry with inl e => inl (Io e) | inr name => inr name end) in
      if is_json name then
        let? n := try (Len (d, name)) in
        stats_loop d entries
          {| items := saturating_add u64_max (items stats) 1;
             stat_bytes := saturating_add u64_max (stat_bytes stats) n |}
      else stats_loop d entries stats
  end.
Definition directory_stats (d : dir) : M SpoolStats :=
  let? entries := try (ReadDir d) in
  stats_loop d entries {| items := 0; stat_bytes := 0 |}.

Fixpoint pending_loop (entries : list (io string)) (found : list PendingItem) : M (list PendingItem) :=
  match entries with
  | [] => good found
  | entry :: entries =>
      let? name := Ret (match entry with inl e => inl (Io e) | inr name => inr name end) in
      if negb (is_json name) then pending_loop entries found else
      if negb (utf8 (file_stem name)) then pending_loop entries found else
      let? n := try (Len (Root, name)) in
      pending_loop entries
        (found ++ [{| id := file_stem name; item_path := (Root, name); item_bytes := n |}])
  end.

(** [sort_by(|left, right| left.id.cmp(&right.id))]: strings compare as bytes *)
Fixpoint insert_item (x : PendingItem) (l : list PendingItem) : list PendingItem :=
  match l with
  | [] => [x]
  | y :: l' => if String.leb (id x) (id y) then x :: l else y :: insert_item x l'
  end.
Definition sort_items (l : list PendingItem) : list PendingItem := fold_right insert_item [] l.

Definition pending : M (list PendingItem) :=
  let? entries := try (ReadDir Root) in
  let? found := pending_loop entries [] in
  good (sort_items found).

Definition read (item : PendingItem) : M bytes := try (ReadFile (item_path item)).

Definition acknowledge (item : PendingItem) : M unit :=
  Do (RemoveFile (item_path item)) (fun r =>
    match r with
    | inr _ => let? _ := try (SyncDir Root) in good tt
    | inl NotFound => good tt
    | inl e => fail (Io e)
    end).

Definition quarantine (item : PendingItem) : M unit :=
  let destination := (Quarantine, json_name (id item)) in
  Do (Exists_ destination) (fun e =>
    if (e : bool) then acknowledge item else
    Do (RenameTo (item_path item) destination) (fun r =>
      match r with
      | inr _ =>
          let? _ := try (SyncDir Root) in
          let? _ := try (SyncDir Quarantine) in
          good tt
      | inl NotFound =>
          Do (Exists_ destination) (fun e => if (e : bool) then good tt else fail (Io NotFound))
      | inl e => fail (Io e)
      end)).

Definition stats : M SpoolStats := directory_stats Root.
Definition quarantine_stats : M SpoolStats := directory_stats Quarantine.

(** * Tasks

    The mutex [gate] lets each method of the spool run alone, and other tasks of
    the process run between the methods of a task and while it waits for an
    answer.  A [task] is code cut at these points; [alone] is its run when no
    other task does anything. *)
Inductive task (A : Type) : Type :=
| Finish (a : A)
| Method {X : Type} (m : prog X) (k : X -> task A).
Arguments Finish {A} a.
Arguments Method {A X} m k.

Fixpoint alone {A} (t : task A) : prog A :=
  match t with
  | Finish a => Ret a
  | Method m k => bind_prog m (fun x => alone (k x))
  end.
Fixpoint bind_task {A B} (t : task A) (f : A -> task B) : task B :=
  match t with
  | Finish a => f a
  | Method m k => Method m (fun x => bind_task (k x) f)
  end.

(** The loop both exporters run over the pending items, in the order of
    [pending]: [deliver] settles one, [counted] counts whether it was delivered
    or quarantined, and the first error ends the loop. *)
Section deliver.
Context {E Metrics : Type} (deliver : PendingItem -> task (E + bool)) (counted : bool -> Metrics -> Metrics)
  (spool_failed : SpoolError -> E).
Fixpoint deliver_each (l : list PendingItem) (m : Metrics) : task (Metrics * (E + unit)) :=
  match l with
  | [] => Finish (m, inr tt)
  | item :: l =>
      bind_task (deliver item) (fun r =>
        match r with
        | inl e => Finish (m, inl e)
        | inr delivered => deliver_each l (counted delivered m)
        end)
  end.
Definition deliver_all (m : Metrics) : task (Metrics * (E + unit)) :=
  Method pending (fun r =>
    match r with
    | inl e => Finish (m, inl (spool_failed e))
    | inr l => deliver_each l m
    end).

(** The end of an item: the method that settles it, and what it counts as *)
Definition settle (method : PendingItem -> M unit) (item : PendingItem) (delivered : bool) : task (E + bool) :=
  Method (method item) (fun r => Finish match r with inl e => inl (spool_failed e) | inr _ => inr delivered end).
End deliver.

Section digest.
(** [hex::encode(Sha256::digest(body))]: the sha2 and hex crates *)
Variable digest : bytes -> string.
(** [max_bytes] of the [DurableSpool] *)
Variable max_bytes : Z.

(** The part of [enqueue] that writes the body. *)
Definition store (id : string) (body : bytes) : M string :=
  let temporary_path := (Root, tmp_name id) in
  let final_path := (Root, json_name id) in
  let? _ := try (CreateNew temporary_path) in
  let? _ := try (WriteAll temporary_path body) in
  let? _ := try (SyncAll temporary_path) in
  let? _ := try (RenameTo temporary_path final_path) in
  let? _ := try (SyncDir Root) in
  good id.

Definition enqueue (body : bytes) : M string :=
  let id := digest body in
  let final_path := (Root, json_name id) in
  let quarantined_path := (Quarantine, json_name id) in
  Do (Exists_ final_path) (fun e1 => if (e1 : bool) then good id else
  Do (Exists_ quarantined_path) (fun e2 => if (e2 : bool) then good id else
    let? pending := directory_stats Root in
    let? quarantined := directory_stats Quarantine in
    let current_bytes := saturating_add u64_max (stat_bytes pending) (stat_bytes quarantined) in
    let incoming_bytes := len body in
    if max_bytes <? saturating_add u64_max current_bytes incoming_bytes
    then fail (CapacityExceeded current_bytes incoming_bytes max_bytes)
    else store id body)).

(** One temporary file found at startup. *)
Definition recover_file (name id : string) : M unit :=
  let temporary_path := (Root, name) in
  let final_path := (Root, json_name id) in
  let quarantined_path := (Quarantine, json_name id) in
  let discard := let? _ := try (RemoveFile temporary_path) in good tt in
  Do (Exists_ final_path) (fun e1 => if (e1 : bool) then discard else
  Do (Exists_ quarantined_path) (fun e2 => if (e2 : bool) then discard else
    let? body := try (ReadFile temporary_path) in
    if String.eqb (digest body) id
    then let? _ := try (RenameTo temporary_path final_path) in good tt
    else discard)).

Fixpoint recover_loop (entries : list (io string)) (changed : bool) : M bool :=
  match entries with
  | [] => good changed
  | entry :: entries =>
      let? name := Ret (match entry with inl e => inl (Io e) | inr name => inr name end) in
      let? is_file := try (IsFile (Root, name)) in
      if negb is_file then recover_loop entries changed else
      match temporary_id name with
      | None => recover_loop entries changed
      | Some id =>
          let? _ := recover_file name id in
          recover_loop entries true
      end
  end.

Definition recover_temporary_files : M unit :=
  let? entries := try (ReadDir Root) in
  let? changed := recover_loop entries false in
  if (changed : bool) then (let? _ := try (SyncDir Root) in good tt) else good tt.

Definition open : M unit :=
  let? _ := try (CreateDirAll Root) in
  let? _ := try (CreateDirAll Quarantine) in
  recover_temporary_files.
End digest.

(** * Execution *)

(** The names in a directory. *)
Definition listing (d : dir) (s : fs) : list string :=
  omap (fun kv => if decide (kv.1.1 = d) then Some kv.1.2 else None) (map_to_list s).

(** A call on a file system without I/O faults: the state after it and what it
    returns.  A listing is in some order; here the map's. *)
Definition perform {T} (c : call T) (w : world) : world * T :=
  match c with
  | CreateDirAll d => (w, inr tt)
  | Exists_ p => (w, match visible w !! p with Some _ => true | None => false end)
  | ReadDir d => (w, inr (inr <$> listing d (visible w)))
  | IsFile p => (w, match visible w !! p with Some _ => inr true | None => inl NotFound end)
  | Len p => (w, match visible w !! p with Some f => inr (len (content f)) | None => inl NotFound end)
  | CreateNew p =>
      match visible w !! p with
      | Some _ => (w, inl AlreadyExists)
      | None => (log (Create p) w, inr tt)
      end
  | WriteAll p body => (log (Write p body) w, inr tt)
  | SyncAll p => (log (SyncFile p) w, inr tt)
  | SyncDir d => (flush w, inr tt)
  | RenameTo p q =>
      match visible w !! p with
      | Some _ => (log (Rename p q) w, inr tt)
      | None => (w, inl NotFound)
      end
  | RemoveFile p =>
      match visible w !! p with
      | Some _ => (log (Remove p) w, inr tt)
      | None => (w, inl NotFound)
      end
  | ReadFile p => (w, match visible w !! p with Some f => inr (content f) | None => inl NotFound end)
  | Request key body => (w, Some 200)
  end.

Fixpoint run {A} (m : prog A) (w : world) : world * A :=
  match m with
  | Ret a => (w, a)
  | Do c k => let '(w', t) := perform c w in run (k t) w'
  end.

(** What a call may do.  Without faults it performs as above, the entries of a
    directory coming in any order.  [faulty] allows I/O errors: a failed call
    changes nothing, but a failed write may leave a part of the body, a
    directory may be read in part, and [Path::exists] is false when it cannot
    tell.  A request may get any answer, or none. *)
Definition fault {A} (w w' : world) (t : io A) : Prop := w' = w /\ exists e, t = inl e.
Definition step (faulty : bool) {T} (c : call T) : world -> world -> T -> Prop :=
  match c in call T return world -> world -> T -> Prop with
  | CreateDirAll d => fun w w' t => (w', t) = perform (CreateDirAll d) w \/ faulty = true /\ fault w w' t
  | Exists_ p => fun w w' t => w' = w /\ (t = (perform (Exists_ p) w).2 \/ faulty = true /\ t = false)
  | ReadDir d => fun w w' t =>
      w' = w /\ (exists names, Permutation names (listing d (visible w)) /\ t = inr (inr <$> names)) \/
      faulty = true /\ w' = w /\ (exists names e, incl names (listing d (visible w)) /\
                                  t = inr ((inr <$> names) ++ [inl e])) \/
      faulty = true /\ fault w w' t
  | WriteAll p body => fun w w' t =>
      (w', t) = perform (WriteAll p body) w \/
      faulty = true /\ (exists part e, part `prefix_of` body /\ w' = log (Write p part) w /\ t = inl e)
  | IsFile p => fun w w' t => (w', t) = perform (IsFile p) w \/ faulty = true /\ fault w w' t
  | Len p => fun w w' t => (w', t) = perform (Len p) w \/ faulty = true /\ fault w w' t
  | CreateNew p => fun w w' t => (w', t) = perform (CreateNew p) w \/ faulty = true /\ fault w w' t
  | SyncAll p => fun w w' t => (w', t) = perform (SyncAll p) w \/ faulty = true /\ fault w w' t
  | SyncDir d => fun w w' t => (w', t) = perform (SyncDir d) w \/ faulty = true /\ fault w w' t
  | RenameTo p q => fun w w' t => (w', t) = perform (RenameTo p q) w \/ faulty = true /\ fault w w' t
  | RemoveFile p => fun w w' t => (w', t) = perform (RemoveFile p) w \/ faulty = true /\ fault w w' t
  | ReadFile p => fun w w' t => (w', t) = perform (ReadFile p) w \/ faulty = true /\ fault w w' t
  | Request key body => fun w w' t => w' = w
  end.

(** A run ends in a result, or in a crash at any point. *)
Inductive outcome (A : Type) : Type :=
| Done (w : world) (a : A)
| Crashed (w : world).
Arguments Done {A} w a.
Arguments Crashed {A} w.
Definition world_of {A} (o : outcome A) : world :=
  match o with
  | Done w _ | Crashed w => w
  end.

Fixpoint exec (faulty : bool) {A} (m : prog A) (w : world) (o : outcome A) : Prop :=
  o = Crashed w \/
  match m with
  | Ret a => o = Done w a
  | Do c k => exists w' t, step faulty c w w' t /\ exec faulty (k t) w' o
  end.

Lemma step_perform faulty {T} (c : call T) w : step faulty c w (perform c w).1 (perform c w).2.
Proof.
  destruct c; simpl; auto; try (left; by destruct (visible w !! p)).
  left. split; [done|]. eauto.
Qed.

(** The deterministic run is one of the executions. *)
Lemma run_exec faulty {A} (m : prog A) w : exec faulty m w (Done (run m w).1 (run m w).2).
Proof.
  revert w. induction m as [a|T c k IH]; intros w; simpl; [by right|].
  destruct (perform c w) as [w' t] eqn:Hp. right. exists w', t. split; [|apply IH].
  pose proof (step_perform faulty c w) as Hs. by rewrite Hp in Hs.
Qed.
