(* ===== verification/SpoolSpec.v ===== *)
(** What the spool guarantees: a crash at any point of [enqueue] or of the
    recovery leaves every stored item as it was and the new one whole or absent;
    an accepted item is on disk until it is acknowledged; the capacity is
    respected; and the two ways an I/O error breaks these promises. *)
From Stdlib Require Import ZArith Lia ZifyBool Strings.Byte Strings.Ascii Strings.String.
From stdpp Require Import base list strings gmap.
From S2P Require Import Prelude Text Spool.

Local Open Scope string_scope.
Local Open Scope list_scope.
Local Open Scope Z_scope.

(** * Names *)
Lemma rsplit_dot_app s ext :
  rsplit_dot ext = None -> rsplit_dot (s ++ String "." ext) = Some (s, ext).
Proof.
  intros He. induction s as [|a s IH]; simpl; [by rewrite He|].
  change (String.append s (String "." ext)) with (s ++ String "." ext)%string. by rewrite IH.
Qed.

Lemma rsplit_dot_Some s l r : rsplit_dot s = Some (l, r) -> s = (l ++ String "." r)%string.
Proof.
  revert l r. induction s as [|a s IH]; intros l r; simpl; [done|].
  destruct (rsplit_dot s) as [[l' r']|].
  - intros [= <- <-]. by rewrite (IH l' r').
  - destruct (Ascii.eqb_spec a "."); [|done]. intros [= <- <-]. by subst.
Qed.

Lemma is_json_name id : id <> "" -> id <> "." -> is_json (json_name id) = true.
Proof.
  intros Hid Hdot. unfold is_json, extension, json_name.
  destruct (String.eqb_spec (id ++ ".json") "..") as [Hd|_].
  { destruct id as [|a [|b id]]; [done|done|]. injection Hd as _ _ Hd. by destruct id. }
  rewrite rsplit_dot_app by done. by destruct id.
Qed.

Lemma is_json_inv name : is_json name = true -> name = json_name (file_stem name).
Proof.
  unfold is_json, extension, file_stem, json_name. destruct (String.eqb name ".."); [done|].
  destruct (rsplit_dot name) as [[l r]|] eqn:Hr; [|done]. destruct l as [|a l]; [done|].
  intros [_ ->%String.eqb_eq]%andb_prop. by apply rsplit_dot_Some in Hr.
Qed.

Lemma string_app_assoc (a b c : string) : ((a ++ b) ++ c)%string = (a ++ (b ++ c))%string.
Proof. induction a as [|x a IH]; simpl; [done|]. exact (f_equal (String x) IH). Qed.

Lemma is_json_tmp id : is_json (tmp_name id) = false.
Proof.
  unfold is_json, extension, tmp_name.
  destruct (String.eqb _ ".."); [done|]. rewrite <- string_app_assoc.
  by rewrite rsplit_dot_app by done.
Qed.

Lemma json_name_inj a b : json_name a = json_name b -> a = b.
Proof.
  unfold json_name. intros H%(f_equal bytes_of). rewrite !bytes_of_app in H.
  apply app_inv_tail in H. by apply bytes_of_inj.
Qed.

Lemma substring_whole s : String.substring 0 (String.length s) s = s.
Proof. induction s as [|x s IH]; [done|]. exact (f_equal (String x) IH). Qed.

(** ** The names of temporary files *)
Lemma hexdigit_ascii bs : forallb is_ascii_hexdigit bs = true -> forallb (fun b => u8 b <? 0x80) bs = true.
Proof.
  induction bs as [|b bs IH]; [done|]. simpl. intros [Hb Hbs]%andb_prop. rewrite IH by done.
  rewrite andb_true_r. unfold is_ascii_hexdigit, is_ascii_digit in Hb. lia.
Qed.

Lemma substring_prefix a b : String.substring 0 (String.length a) (a ++ b) = a.
Proof. induction a as [|x a IH]; simpl; [by destruct b|]. exact (f_equal (String x) IH). Qed.

Lemma substring_suffix a b : String.substring (String.length a) (String.length b) (a ++ b) = b.
Proof. induction a as [|x a IH]; simpl; [apply substring_whole|]. exact IH. Qed.

Lemma string_length_app a b : String.length (a ++ b)%string = (String.length a + String.length b)%nat.
Proof. induction a as [|x a IH]; simpl; [done|]. exact (f_equal S IH). Qed.

Lemma strip_suffix_app s suffix : strip_suffix suffix (s ++ suffix) = Some s.
Proof.
  unfold strip_suffix. rewrite string_length_app.
  replace (String.length s + String.length suffix - String.length suffix)%nat with (String.length s) by lia.
  rewrite substring_suffix, substring_prefix, String.eqb_refl.
  by replace (String.length suffix <=? String.length s + String.length suffix)%nat with true by (symmetry; apply Nat.leb_le; lia).
Qed.

Lemma strip_prefix_app p s : strip_prefix p (p ++ s) = Some s.
Proof.
  unfold strip_prefix. rewrite string_length_app.
  replace (String.length p + String.length s - String.length p)%nat with (String.length s) by lia.
  rewrite substring_suffix. assert (String.prefix p (p ++ s) = true) as ->; [|done].
  induction p as [|x p IH]; [by destruct s|].
  change (String x p ++ s)%string with (String x (p ++ s)). cbn [String.prefix]. by destruct (ascii_dec x x).
Qed.

Lemma temporary_id_tmp i :
  slen i = 64 -> forallb is_ascii_hexdigit (bytes_of i) = true -> temporary_id (tmp_name i) = Some i.
Proof.
  intros Hl Hx. unfold temporary_id, utf8, tmp_name.
  rewrite bytes_of_app, bytes_of_app, utf8_decode_ascii
    by (rewrite !forallb_app, (hexdigit_ascii (bytes_of i)) by done; done).
  rewrite strip_prefix_app.
  cbn [mbind option_bind]. rewrite strip_suffix_app, Hl, Hx. done.
Qed.

(** * Crash weakest preconditions

    [cwp Q C m w]: from [w], every result of [m] satisfies [Q] and every state
    it may crash in satisfies [C]. *)
Section cwp.
Context (faulty : bool).

Definition cwp {A} (Q : world -> A -> Prop) (C : world -> Prop) (m : prog A) (w : world) : Prop :=
  forall o, exec faulty m w o ->
    match o with
    | Done w' a => Q w' a
    | Crashed w' => C w'
    end.

Context {A : Type}.

Lemma cwp_ret (Q : world -> A -> Prop) C a w : C w -> Q w a -> cwp Q C (Ret a) w.
Proof. intros HC HQ o [->| ->]; done. Qed.

Lemma cwp_do {T} (Q : world -> A -> Prop) C (c : call T) k w :
  C w -> (forall w' t, step faulty c w w' t -> cwp Q C (k t) w') -> cwp Q C (Do c k) w.
Proof. intros HC Hk o [->|(w' & t & Hs & He)]; [done|]. by apply (Hk w' t Hs). Qed.

Lemma cwp_do_inv {T} (Q : world -> A -> Prop) C (c : call T) k w w' t :
  cwp Q C (Do c k) w -> step faulty c w w' t -> cwp Q C (k t) w'.
Proof. intros H Hs o Ho. apply H. right. eauto. Qed.

Lemma cwp_crash (Q : world -> A -> Prop) C m w : cwp Q C m w -> C w.
Proof. intros H. apply (H (Crashed w)). destruct m; by left. Qed.

Lemma cwp_mono (Q Q' : world -> A -> Prop) (C C' : world -> Prop) m w :
  cwp Q C m w -> (forall w a, Q w a -> Q' w a) -> (forall w, C w -> C' w) -> cwp Q' C' m w.
Proof. intros H HQ HC o Ho. specialize (H o Ho). destruct o; auto. Qed.

(** A run that ends is at hand in its postcondition. *)
Lemma cwp_self Q C (m : prog A) w :
  cwp Q C m w -> cwp (fun w' a => Q w' a /\ exec faulty m w (Done w' a)) C m w.
Proof. intros H o Ho. pose proof (H o Ho) as HQ. by destruct o. Qed.
End cwp.

Lemma cwp_bind faulty {A B} (Q : world -> B -> Prop) C (m : prog A) (f : A -> prog B) w :
  cwp faulty (fun w' a => cwp faulty Q C (f a) w') C m w -> cwp faulty Q C (bind_prog m f) w.
Proof.
  revert w. induction m as [a|T c k IH]; intros w Hm.
  - apply (Hm (Done w a)). by right.
  - simpl. apply cwp_do; [by eapply cwp_crash|]. intros w' t Hs. apply IH. by eapply cwp_do_inv.
Qed.

Lemma cwp_bindM faulty {A B} (Q : world -> SpoolError + B -> Prop) C (m : M A) (f : A -> M B) w :
  cwp faulty (fun w' r => match r with
                          | inl e => C w' /\ Q w' (inl e)
                          | inr a => cwp faulty Q C (f a) w'
                          end) C m w ->
  cwp faulty Q C (bindM m f) w.
Proof.
  intros H. apply cwp_bind. eapply cwp_mono; [exact H| |done].
  intros w' [e|a]; [|done]. intros [HC HQ]. by apply cwp_ret.
Qed.

Lemma cwp_try faulty {A} (Q : world -> SpoolError + A -> Prop) C (c : call (io A)) w :
  C w ->
  (forall w' t, step faulty c w w' t ->
     C w' /\ Q w' (match t with inl e => inl (Io e) | inr a => inr a end)) ->
  cwp faulty Q C (try c) w.
Proof.
  intros HC H. apply cwp_do; [done|]. intros w' t Hs. destruct (H w' t Hs) as [HC' HQ].
  destruct t; by apply cwp_ret.
Qed.

(** * States of the disk *)

(** The items: the files the spool recognises. *)
Definition jsons (s : fs) : fs := filter (fun kv => is_json kv.1.2 = true) s.
(** Every file is synced, as after a restart. *)
Definition settled (s : fs) : Prop := map_Forall (fun _ f => synced f = true) s.
(** [P] holds of every state the directories may be in after a crash. *)
Definition every (P : fs -> Prop) (w : world) : Prop :=
  forall l l', journal w = l ++ l' -> P (apply_all l (durable w)).

Lemma apply_all_app l l' s : apply_all (l ++ l') s = apply_all l' (apply_all l s).
Proof. apply fold_left_app. Qed.

Lemma visible_log c w : visible (log c w) = apply c (visible w).
Proof. unfold visible. simpl. by rewrite apply_all_app. Qed.

Lemma every_visible P w : every P w -> P (visible w).
Proof. intros H. apply (H (journal w) []). by rewrite app_nil_r. Qed.

Lemma every_log P c w : every P w -> P (apply c (visible w)) -> every P (log c w).
Proof.
  intros H Hc l l' Hl. simpl in *. destruct l' as [|x l' _] using rev_ind.
  - rewrite app_nil_r in Hl. subst l. by rewrite apply_all_app.
  - rewrite app_assoc in Hl. apply app_inj_tail in Hl as [Hl _]. by eapply H.
Qed.

Lemma every_flush P w : every P w -> every P (flush w).
Proof. intros H [|x l] l' Hl; [|done]. exact (every_visible P w H). Qed.

Lemma every_restart (P : fs -> Prop) s : P s -> every P (restart s).
Proof. intros H [|x l] l' Hl; done. Qed.

Lemma every_crash P w s : every P w -> crash w s -> exists s0, P s0 /\ scrambled s0 s.
Proof. intros H (l & l' & Hl & Hs). eauto. Qed.

Lemma scrambled_settled s s' : scrambled s s' -> settled s'.
Proof. intros H p f Hf. specialize (H p). rewrite Hf in H. by destruct (s !! p); [destruct H|]. Qed.

Lemma jsons_lookup s p f : jsons s !! p = Some f <-> s !! p = Some f /\ is_json p.2 = true.
Proof. unfold jsons. apply map_lookup_filter_Some. Qed.

Lemma jsons_scrambled s s' : settled (jsons s) -> scrambled s s' -> jsons s' = jsons s.
Proof.
  intros Hset H. apply map_eq. intros p. apply option_eq. intros f.
  rewrite !jsons_lookup. specialize (H p). split; intros [Hf Hj]; rewrite Hf in H.
  - destruct (s !! p) as [f0|] eqn:Hp; [|done]. destruct H as [_ H].
    rewrite H; [done|]. apply (Hset p). by apply jsons_lookup.
  - destruct (s' !! p) as [f0|] eqn:Hp; [|done]. destruct H as [_ H].
    rewrite H; [done|]. apply (Hset p). by apply jsons_lookup.
Qed.

Lemma settled_jsons s : settled s -> settled (jsons s).
Proof. intros H p f [Hp _]%jsons_lookup. by apply (H p). Qed.

(** Changes to files that are not items do not change the items. *)
Lemma jsons_insert_other s p f : is_json p.2 = false -> jsons (<[p := f]> s) = jsons s.
Proof.
  intros Hp. apply map_eq. intros q. apply option_eq. intros g. rewrite !jsons_lookup.
  destruct (decide (q = p)) as [->|]; [|by rewrite lookup_insert_ne].
  split; intros [_ H]; congruence.
Qed.

Lemma jsons_delete_other s p : is_json p.2 = false -> jsons (delete p s) = jsons s.
Proof.
  intros Hp. apply map_eq. intros q. apply option_eq. intros g. rewrite !jsons_lookup.
  destruct (decide (q = p)) as [->|]; [|by rewrite lookup_delete_ne].
  split; intros [_ H]; congruence.
Qed.

Lemma jsons_alter_other s p g : is_json p.2 = false -> jsons (alter g p s) = jsons s.
Proof.
  intros Hp. apply map_eq. intros q. apply option_eq. intros h. rewrite !jsons_lookup.
  destruct (decide (q = p)) as [->|]; [|by rewrite lookup_alter_ne].
  split; intros [_ H]; congruence.
Qed.

Lemma jsons_insert s p f : is_json p.2 = true -> jsons (<[p := f]> s) = <[p := f]> (jsons s).
Proof. intros Hp. unfold jsons. by rewrite map_filter_insert_True. Qed.

Lemma jsons_delete s p : jsons (delete p s) = delete p (jsons s).
Proof. apply map_filter_delete. Qed.

(** * Steps *)
Lemma present p w : true = (perform (Exists_ p) w).2 -> is_Some (visible w !! p).
Proof. simpl. destruct (visible w !! p); [eauto|done]. Qed.

Lemma step_len faulty p w w' t :
  step faulty (Len p) w w' t ->
  w' = w /\ (forall n, t = inr n -> exists f, visible w !! p = Some f /\ n = len (content f)).
Proof.
  intros [[= -> ->]|(_ & -> & e & ->)]; [|done]. split; [done|]. intros n.
  destruct (visible w !! p); [intros [= <-]; eauto|done].
Qed.

(** * Sizes *)

(** The bytes of an item, as a directory listing counts them. *)
Definition weight (p : path) (f : file) : Z := if is_json p.2 then len (content f) else 0.
Definition total_of (l : list (path * file)) : Z := fold_right (fun kv n => weight kv.1 kv.2 + n) 0 l.
Definition total (s : fs) : Z := total_of (map_to_list s).
Definition in_dir (d : dir) (kv : path * file) : bool := bool_decide (kv.1.1 = d).
Definition dir_bytes (d : dir) (s : fs) : Z := total_of (filter (fun kv => in_dir d kv = true) (map_to_list s)).

Lemma total_of_perm l l' : Permutation l l' -> total_of l = total_of l'.
Proof. induction 1; simpl; lia. Qed.

Lemma weight_nonneg p f : 0 <= weight p f.
Proof. unfold weight. destruct (is_json _); [apply len_nonneg|done]. Qed.

Lemma total_of_nonneg l : 0 <= total_of l.
Proof. induction l as [|kv l IH]; simpl; [done|]. pose proof (weight_nonneg kv.1 kv.2). lia. Qed.

Lemma total_insert s p f : s !! p = None -> total (<[p := f]> s) = weight p f + total s.
Proof. intros Hp. unfold total. by rewrite (total_of_perm _ _ (map_to_list_insert s p f Hp)). Qed.

Lemma total_dirs s : total s = dir_bytes Root s + dir_bytes Quarantine s.
Proof.
  unfold total, dir_bytes. induction (map_to_list s) as [|[[d name] f] l IH]; [done|].
  rewrite !filter_cons. unfold in_dir in *. destruct d; simpl in *; rewrite IH; lia.
Qed.

Lemma total_jsons s : total (jsons s) = total s.
Proof.
  unfold jsons. induction s as [|p f s Hp IH] using map_ind; [done|].
  rewrite total_insert by done. destruct (is_json p.2) eqn:Hj.
  - rewrite map_filter_insert_True by done. rewrite total_insert, IH; [done|].
    apply map_lookup_filter_None. by left.
  - rewrite map_filter_insert_False by (simpl; congruence).
    rewrite delete_id by done. rewrite IH. unfold weight. by rewrite Hj.
Qed.

(** What a listing entry adds to the statistics. *)
Definition entry_bytes (d : dir) (s : fs) (name : string) : Z :=
  match s !! (d, name) with
  | Some f => weight (d, name) f
  | None => 0
  end.
Definition names_bytes (d : dir) (s : fs) (names : list string) : Z :=
  fold_right (fun name n => entry_bytes d s name + n) 0 names.

Lemma names_bytes_perm d s l l' : Permutation l l' -> names_bytes d s l = names_bytes d s l'.
Proof. induction 1; simpl; lia. Qed.

Lemma names_bytes_nonneg d s l : 0 <= names_bytes d s l.
Proof.
  induction l as [|name l IH]; simpl; [done|]. unfold entry_bytes.
  destruct (s !! (d, name)) as [f|]; [pose proof (weight_nonneg (d, name) f)|]; lia.
Qed.

Lemma names_bytes_listing d s : names_bytes d s (listing d s) = dir_bytes d s.
Proof.
  unfold listing, dir_bytes. set (pick := fun kv : path * file => if decide (kv.1.1 = d) then Some kv.1.2 else None).
  assert (forall l, (forall kv, In kv l -> s !! kv.1 = Some kv.2) ->
    names_bytes d s (omap pick l) = total_of (filter (fun kv => in_dir d kv = true) l)) as H.
  - induction l as [|[[d' name] f] l IH]; intros Hl; [done|].
    specialize (IH (fun kv Hin => Hl kv (or_intror Hin))). pose proof (Hl _ (or_introl eq_refl)) as Hf.
    cbn [fst snd] in Hf. destruct (decide (d' = d)) as [->|Hd].
    + rewrite filter_cons_True by (by apply bool_decide_eq_true).
      assert (omap pick ((d, name, f) :: l) = name :: omap pick l) as ->
        by (simpl; unfold pick at 1; simpl; by rewrite decide_True).
      simpl. rewrite IH. unfold entry_bytes. by rewrite Hf.
    + rewrite filter_cons_False by (unfold in_dir; simpl; by rewrite bool_decide_eq_true).
      assert (omap pick ((d', name, f) :: l) = omap pick l) as ->
        by (simpl; unfold pick at 1; simpl; by rewrite decide_False).
      exact IH.
  - apply H. intros [p f] Hin. apply elem_of_map_to_list. by apply list_elem_of_In.
Qed.

Section stats.
Context (faulty : bool) (d : dir) (w : world).

Lemma cwp_stats_loop entries st :
  stat_bytes st <= u64_max ->
  cwp faulty
    (fun w' r => w' = w /\ forall st', r = inr st' -> exists names, entries = inr <$> names /\
       stat_bytes st' = Z.min u64_max (stat_bytes st + names_bytes d (visible w) names))
    (fun w' => w' = w) (stats_loop d entries st) w.
Proof.
  revert st. induction entries as [|[e|name] entries IH]; intros st Hst.
  - apply cwp_ret; [done|]. split; [done|]. intros st' [= <-]. exists []. split; [done|]. simpl. lia.
  - by apply cwp_ret.
  - cbn [stats_loop bindM bind_prog]. destruct (is_json name) eqn:Hj.
    + apply cwp_bindM. eapply cwp_try; [done|]. intros w' t [-> Ht]%step_len. split; [done|].
      destruct t as [e|n]; [done|]. destruct (Ht n eq_refl) as (f & Hf & ->).
      eapply cwp_mono; [apply IH|..]; [simpl; unfold saturating_add; lia| |done].
      intros w' r [-> Hr]. split; [done|]. intros st' Hst'. destruct (Hr st' Hst') as (names & -> & Hs).
      exists (name :: names). split; [done|]. rewrite Hs. simpl. unfold entry_bytes at 1. rewrite Hf.
      unfold weight. simpl. rewrite Hj. unfold saturating_add.
      pose proof (names_bytes_nonneg d (visible w) names). lia.
    + eapply cwp_mono; [apply IH; done| |done].
      intros w' r [-> Hr]. split; [done|]. intros st' Hst'. destruct (Hr st' Hst') as (names & -> & Hs).
      exists (name :: names). split; [done|]. rewrite Hs. simpl. unfold entry_bytes at 1.
      destruct (visible w !! (d, name)) as [f|]; [|done]. unfold weight. simpl. by rewrite Hj.
Qed.

Lemma fmap_inr_inj {E A} (l l' : list A) : (inr <$> l : list (E + A)) = inr <$> l' -> l = l'.
Proof. apply list_fmap_eq_inj. by intros x y [= ->]. Qed.

(** The size of a directory, when it is read at all, is exact up to saturation. *)
Lemma cwp_directory_stats :
  cwp faulty
    (fun w' r => w' = w /\ forall st, r = inr st -> stat_bytes st = Z.min u64_max (dir_bytes d (visible w)))
    (fun w' => w' = w) (directory_stats d) w.
Proof.
  apply cwp_bindM. eapply cwp_try; [done|]. intros w' t Hs.
  assert (w' = w) as -> by (destruct Hs as [[? _]|[(_ & ? & _)|(_ & ? & _)]]; done).
  split; [done|]. destruct t as [e|entries]; [done|].
  eapply cwp_mono; [apply cwp_stats_loop; simpl; lia| |done].
  intros w' r [-> Hr]. split; [done|]. intros st Hst. destruct (Hr st Hst) as (names & -> & ->). simpl.
  destruct Hs as [(_ & names' & Hp & [= Hn])|[(_ & _ & names' & e & _ & [= Hn])|(_ & _ & e & [=])]].
  - apply fmap_inr_inj in Hn as ->. rewrite (names_bytes_perm _ _ _ _ Hp), names_bytes_listing. lia.
  - exfalso. assert (In (inl e) (inr <$> names : list (io string))) as Hin
      by (rewrite Hn; apply in_or_app; right; by left).
    apply list_elem_of_In, list_elem_of_fmap in Hin as (? & [=] & _).
Qed.
End stats.

Lemma total_insert_le s p f : total (<[p := f]> s) <= weight p f + total s.
Proof.
  destruct (s !! p) as [g|] eqn:Hp; [|by rewrite total_insert].
  rewrite <- insert_delete_eq, total_insert by apply lookup_delete_eq.
  assert (total (delete p s) <= total s); [|lia].
  rewrite <- (insert_delete_id s p g Hp) at 2. rewrite total_insert by apply lookup_delete_eq.
  pose proof (weight_nonneg p g). lia.
Qed.

(** An item is on disk, pending or quarantined. *)
Definition stored (id : string) (s : fs) : Prop :=
  is_Some (s !! (Root, json_name id)) \/ is_Some (s !! (Quarantine, json_name id)).

(** * Enqueue *)
Section enqueue.
Context (digest : bytes -> string) (Hdigest : forall body, slen (digest body) = 64).
Context (max_bytes : Z) (faulty : bool) (s : fs) (body : bytes).

Definition final : path := (Root, json_name (digest body)).
Definition whole : file := {| content := body; synced := true |}.

(** The items are those of [s], or those and the new one, which fits. *)
Definition near (t : fs) : Prop :=
  jsons t = jsons s \/
  jsons t = <[final := whole]> (jsons s) /\
    (max_bytes < u64_max -> total s + len body <= max_bytes).

Lemma digest_named : digest body <> "" /\ digest body <> ".".
Proof. split; intros He; specialize (Hdigest body); rewrite He in Hdigest; discriminate. Qed.

Lemma final_json : is_json (json_name (digest body)) = true.
Proof. destruct digest_named. by apply is_json_name. Qed.

Lemma near_log c w :
  every near w -> jsons (apply c (visible w)) = jsons (visible w) -> every near (log c w).
Proof.
  intros H Hc. apply every_log; [done|]. unfold near. rewrite Hc.
  exact (every_visible near w H).
Qed.

Definition enqueued (w : world) (r : SpoolError + string) : Prop :=
  every near w /\ forall id, r = inr id -> id = digest body /\ every (stored id) w.

Lemma enqueued_error w e : every near w -> enqueued w (inl e).
Proof. by split. Qed.

Lemma stored_final t : t !! final = Some whole -> stored (digest body) t.
Proof. left. eauto. Qed.

(** A call that logs one change, or fails and changes nothing. *)
Definition logs (c : call (io unit)) (ch : change) (w : world) : Prop :=
  forall w' t, step faulty c w w' t -> w' = w /\ (exists e, t = inl e) \/ w' = log ch w /\ t = inr tt.

Lemma cwp_logged c ch w (k : unit -> M string) :
  logs c ch w -> every near w -> every near (log ch w) ->
  cwp faulty enqueued (every near) (k tt) (log ch w) ->
  cwp faulty enqueued (every near) (bindM (try c) k) w.
Proof.
  intros Hc Hn Hn' Hk. apply cwp_bindM, cwp_try; [done|]. intros w' t Hs.
  destruct (Hc w' t Hs) as [[-> [e ->]]|[-> ->]]; [|done].
  split; [done|]. split; [done|]. by apply enqueued_error.
Qed.

Abbreviation tmp := (Root, tmp_name (digest body)).

Lemma tmp_json : is_json (tmp_name (digest body)) = false.
Proof. apply is_json_tmp. Qed.

(** The rename publishes a complete temporary file. *)
Lemma cwp_publish w :
  every near w -> jsons (visible w) = jsons s -> visible w !! tmp = Some whole ->
  (max_bytes < u64_max -> total s + len body <= max_bytes) ->
  cwp faulty enqueued (every near)
    (let? _ := try (RenameTo tmp final) in let? _ := try (SyncDir Root) in good (digest body)) w.
Proof.
  intros Hn Hj Ht Hfit. set (w4 := log (Rename tmp final) w).
  assert (visible w4 = <[final := whole]> (delete tmp (visible w))) as Hv
    by (unfold w4; rewrite visible_log; cbn [apply]; by rewrite Ht).
  assert (every near w4) as Hn4.
  { apply every_log; [done|]. rewrite <- visible_log. fold w4. right. split; [|done].
    rewrite Hv, jsons_insert by apply final_json. by rewrite jsons_delete_other, Hj by apply tmp_json. }
  apply (cwp_logged _ (Rename tmp final)); [|done|done|].
  - intros w' t [Hs|(_ & -> & Hs)]; [|by left]. simpl in Hs. rewrite Ht in Hs. injection Hs as -> ->. by right.
  - apply cwp_bindM, cwp_try; [done|]. intros w' t Hs. fold w4 in Hs.
    destruct Hs as [[= -> ->]|(_ & -> & e & ->)]; [|by split; [|split; [|apply enqueued_error]]].
    pose proof (every_flush _ _ Hn4). split; [done|]. apply cwp_ret; [done|]. split; [done|].
    intros id [= <-]. split; [done|]. apply every_restart, stored_final. by rewrite Hv, lookup_insert_eq.
Qed.

(** The temporary file is filled and synced. *)
Lemma cwp_fill w :
  every near w -> jsons (visible w) = jsons s -> is_Some (visible w !! tmp) ->
  (max_bytes < u64_max -> total s + len body <= max_bytes) ->
  cwp faulty enqueued (every near)
    (let? _ := try (WriteAll tmp body) in let? _ := try (SyncAll tmp) in
     let? _ := try (RenameTo tmp final) in let? _ := try (SyncDir Root) in good (digest body)) w.
Proof.
  intros Hn Hj [g Ht] Hfit. apply cwp_bindM, cwp_try; [done|]. intros w2 t Hs.
  assert (exists part, w2 = log (Write tmp part) w /\ (t = inr tt -> part = body)) as (part & -> & Hpart).
  { destruct Hs as [[= -> ->]|(_ & part & e & _ & -> & ->)]; [by exists body|]. by exists part. }
  set (w2 := log (Write tmp part) w).
  assert (visible w2 = alter (fun _ => {| content := part; synced := false |}) tmp (visible w)) as Hv2
    by apply visible_log.
  assert (every near w2) as Hn2 by (apply near_log; [done|by apply jsons_alter_other, tmp_json]).
  split; [done|]. destruct t as [e|[]]; [split; [done|by apply enqueued_error]|].
  specialize (Hpart eq_refl) as ->.
  assert (jsons (visible w2) = jsons s) as Hj2 by (by rewrite Hv2, jsons_alter_other by apply tmp_json).
  apply (cwp_logged _ (SyncFile tmp)); [|done|..].
  - intros w' t [[= -> ->]|(_ & -> & Hs')]; [by right|by left].
  - apply near_log; [done|by apply jsons_alter_other, tmp_json].
  - apply cwp_publish; [| |rewrite visible_log; cbn [apply]|done].
    + apply near_log; [done|by apply jsons_alter_other, tmp_json].
    + rewrite visible_log. cbn [apply]. by rewrite jsons_alter_other by apply tmp_json.
    + by rewrite lookup_alter_eq, Hv2, lookup_alter_eq, Ht.
Qed.

(** The writing part, on a disk whose items are those of [s]. *)
Lemma cwp_store w :
  every near w -> jsons (visible w) = jsons s ->
  (max_bytes < u64_max -> total s + len body <= max_bytes) ->
  cwp faulty enqueued (every near) (store (digest body) body) w.
Proof.
  intros Hn Hj Hfit. unfold store. destruct (visible w !! tmp) as [g|] eqn:Hg.
  - apply cwp_bindM, cwp_try; [done|]. intros w' t Hs.
    destruct Hs as [Hs|(_ & -> & e & ->)]; [|by split; [|split; [|apply enqueued_error]]].
    simpl in Hs. rewrite Hg in Hs. injection Hs as -> ->. by split; [|split; [|apply enqueued_error]].
  - assert (jsons (apply (Create tmp) (visible w)) = jsons (visible w)) as Hc
      by (by apply jsons_insert_other, tmp_json).
    assert (every near (log (Create tmp) w)) as Hn1 by (by apply near_log).
    apply (cwp_logged _ (Create tmp)); [|done|done|].
    + intros w' t [Hs|(_ & -> & Hs)]; [|by left]. simpl in Hs. rewrite Hg in Hs. injection Hs as -> ->. by right.
    + apply cwp_fill; [done|by rewrite visible_log, Hc| |done].
      rewrite visible_log. cbn [apply]. rewrite lookup_insert_eq. eauto.
Qed.

Lemma saturating_total a b c : 0 <= a -> 0 <= b -> 0 <= c ->
  max_bytes < u64_max ->
  (max_bytes <? saturating_add u64_max
     (saturating_add u64_max (Z.min u64_max a) (Z.min u64_max b)) c) = false ->
  a + b + c <= max_bytes.
Proof. unfold saturating_add. lia. Qed.

Lemma cwp_enqueue :
  cwp faulty enqueued (every near) (enqueue digest max_bytes body) (restart s).
Proof.
  assert (every near (restart s)) as Hn by (apply every_restart; by left).
  assert (forall p, (exists d, p = (d, json_name (digest body))) -> is_Some (s !! p) ->
    cwp faulty enqueued (every near) (good (digest body)) (restart s)) as Hfound.
  { intros p [d ->] Hp. apply cwp_ret; [done|]. split; [done|]. intros id [= <-]. split; [done|].
    apply every_restart. destruct d; [by left|by right]. }
  unfold enqueue. apply cwp_do; [done|]. intros w1 e1 [-> He1]. change (visible (restart s)) with s in He1.
  destruct e1.
  { apply (Hfound final); [by eexists|]. destruct He1 as [He1|[_ [=]]]. by apply (present _ (restart s)). }
  apply cwp_do; [done|]. intros w2 e2 [-> He2]. destruct e2.
  { apply (Hfound (Quarantine, json_name (digest body))); [by eexists|].
    destruct He2 as [He2|[_ [=]]]. by apply (present _ (restart s)). }
  apply cwp_bindM. eapply cwp_mono; [apply cwp_directory_stats| |by intros ? ->].
  intros w3 [e|pend] [-> Hp]; [by split; [|apply enqueued_error]|].
  apply cwp_bindM. eapply cwp_mono; [apply cwp_directory_stats| |by intros ? ->].
  intros w4 [e|quar] [-> Hq]; [by split; [|apply enqueued_error]|].
  rewrite (Hp _ eq_refl), (Hq _ eq_refl). change (visible (restart s)) with s. cbv zeta.
  destruct (max_bytes <? _) eqn:Hfit; [apply cwp_ret; [done|by apply enqueued_error]|].
  apply cwp_store; [done|done|]. intros Hmax. rewrite total_dirs.
  apply saturating_total; [apply total_of_nonneg|apply total_of_nonneg|apply len_nonneg|done|done].
Qed.
End enqueue.

(** * Recovery *)
Lemma temporary_id_Some name i :
  temporary_id name = Some i -> name = tmp_name i /\ slen i = 64.
Proof.
  unfold temporary_id. destruct (utf8 name); [|done].
  unfold strip_prefix. destruct (String.prefix "." name) eqn:Hp; [|done]. cbn [mbind option_bind].
  destruct name as [|a name]; [done|]. cbn [String.prefix] in Hp. destruct (ascii_dec "." a) as [<-|]; [|done].
  change (String.length ".") with 1%nat. cbn [String.substring String.length Nat.sub].
  rewrite Nat.sub_0_r, substring_whole.
  unfold strip_suffix. destruct (_ && _) eqn:Hs; [|done]. apply andb_prop in Hs as [Hl Hs%String.eqb_eq].
  destruct (_ && _) eqn:Hi; [|done]. intros [= <-]. apply andb_prop in Hi as [Hi _]. split; [|by apply Z.eqb_eq].
  unfold tmp_name. apply (f_equal (String ".")).
  change (String.length ".tmp") with 4%nat in *. apply Nat.leb_le in Hl.
  remember (String.length name - 4)%nat as k eqn:Hk.
  assert (k + 4 = String.length name)%nat as Hkl by lia. rewrite <- Hs. clear -Hkl.
  revert k Hkl. induction name as [|x name IH]; intros [|k] Hkl; simpl in *; try lia.
  - do 4 (destruct name as [|? name]; [done|]; simpl in * ). by destruct name.
  - apply (f_equal (String x)), IH. lia.
Qed.

Section recovery.
Context (digest : bytes -> string) (faulty : bool) (s : fs) (Hset : settled s).

(** [p] is the place of an item with the content of [g]. *)
Definition addressed (p : path) (g : file) : Prop := p = (Root, json_name (digest (content g))).
Definition from_temporary (p : path) : Prop :=
  exists n i, p = (Root, json_name i) /\ temporary_id n = Some i /\ is_Some (s !! (Root, n)).

(** The items are those of [s] and those complete temporary files make. *)
Definition recovering (t : fs) : Prop :=
  (forall p f, jsons s !! p = Some f -> exists g, jsons t !! p = Some g /\ (g = f \/ addressed p g)) /\
  (forall p g, jsons t !! p = Some g ->
     jsons s !! p = Some g \/ addressed p g /\ synced g = true /\ from_temporary p).

(** The temporary files left are untouched. *)
Definition temporaries_of (t : fs) : Prop :=
  forall n i f, temporary_id n = Some i -> t !! (Root, n) = Some f -> s !! (Root, n) = Some f.

Lemma temporary_not_json n i : temporary_id n = Some i -> is_json n = false.
Proof. intros [-> _]%temporary_id_Some. apply is_json_tmp. Qed.

Lemma id_json i : slen i = 64 -> is_json (json_name i) = true.
Proof. intros Hi. by apply is_json_name; intros ->. Qed.

Lemma recovering_jsons t t' : jsons t' = jsons t -> recovering t -> recovering t'.
Proof. unfold recovering. by intros ->. Qed.

Lemma recovering_rename t n i f :
  recovering t -> temporary_id n = Some i -> t !! (Root, n) = Some f -> s !! (Root, n) = Some f ->
  digest (content f) = i ->
  recovering (apply (Rename (Root, n) (Root, json_name i)) t).
Proof.
  intros [Hk Ha] Hn Ht Hs Hi. cbn [apply]. rewrite Ht.
  pose proof (temporary_id_Some _ _ Hn) as [_ Hlen]. unfold recovering.
  rewrite jsons_insert by (by apply id_json).
  rewrite jsons_delete_other by (simpl; by eapply temporary_not_json). split.
  - intros p g Hp. destruct (decide (p = (Root, json_name i))) as [->|Hne].
    + exists f. rewrite lookup_insert_eq. split; [done|]. right. unfold addressed. by rewrite Hi.
    + rewrite lookup_insert_ne by done. by apply Hk.
  - intros p g. destruct (decide (p = (Root, json_name i))) as [->|Hne].
    + rewrite lookup_insert_eq. intros [= <-]. right. unfold addressed. rewrite Hi.
      split; [done|]. split; [by eapply Hset|]. exists n, i. eauto.
    + rewrite lookup_insert_ne by done. apply Ha.
Qed.

(** What processing the temporary file [name] leaves. *)
Definition file_done (w : world) (name : string) (w' : world) : Prop :=
  every recovering w' /\ temporaries_of (visible w') /\
  (forall n, temporary_id n <> None -> is_Some (visible w' !! (Root, n)) -> is_Some (visible w !! (Root, n))).

Lemma remove_done w name i :
  every recovering w -> temporaries_of (visible w) -> temporary_id name = Some i ->
  file_done w name (log (Remove (Root, name)) w) /\
  visible (log (Remove (Root, name)) w) !! (Root, name) = None.
Proof.
  intros He Ht Hn. split; [split; [|split]|].
  - apply every_log; [done|]. eapply recovering_jsons; [|exact (every_visible _ _ He)].
    apply jsons_delete_other. by eapply temporary_not_json.
  - rewrite visible_log. cbn [apply]. intros n i' f Hi [_ Hf]%lookup_delete_Some. by eapply Ht.
  - rewrite visible_log. cbn [apply]. intros n _ [f [_ Hf]%lookup_delete_Some]. eauto.
  - rewrite visible_log. apply lookup_delete_eq.
Qed.

Lemma rename_done w name i f :
  every recovering w -> temporaries_of (visible w) -> temporary_id name = Some i ->
  visible w !! (Root, name) = Some f -> digest (content f) = i ->
  file_done w name (log (Rename (Root, name) (Root, json_name i)) w) /\
  visible (log (Rename (Root, name) (Root, json_name i)) w) !! (Root, name) = None.
Proof.
  intros He Ht Hn Hf Hd. pose proof (temporary_not_json _ _ Hn) as Hnj.
  pose proof (temporary_id_Some _ _ Hn) as [_ Hlen]. pose proof (id_json i Hlen) as Hj.
  assert (forall n, n <> name -> is_json n = false ->
    visible (log (Rename (Root, name) (Root, json_name i)) w) !! (Root, n) = visible w !! (Root, n)) as Hother.
  { intros n Hne Hnn. rewrite visible_log. cbn [apply]. rewrite Hf.
    rewrite lookup_insert_ne by congruence. rewrite lookup_delete_ne; congruence. }
  assert (visible (log (Rename (Root, name) (Root, json_name i)) w) !! (Root, name) = None) as Hgone.
  { rewrite visible_log. cbn [apply]. rewrite Hf. rewrite lookup_insert_ne by congruence. apply lookup_delete_eq. }
  split; [split; [|split]|done].
  - apply every_log; [done|]. eapply recovering_rename; [exact (every_visible _ _ He)|done|done| |done]. by eapply Ht.
  - intros n i' g Hi Hg. destruct (decide (n = name)) as [->|Hne]; [congruence|].
    rewrite Hother in Hg by (by eauto using temporary_not_json). by eapply Ht.
  - intros n Hi Hg. destruct (decide (n = name)) as [->|Hne]; [by eexists|].
    destruct (temporary_id n) as [i'|] eqn:Hi'; [|done].
    by rewrite Hother in Hg by (by eauto using temporary_not_json).
Qed.
(** A call that only reads. *)
Lemma step_readonly {T} (c : call T) w w' t :
  match c with Exists_ _ | ReadDir _ | IsFile _ | Len _ | ReadFile _ => True | _ => False end ->
  step faulty c w w' t -> w' = w.
Proof.
  destruct c; try done; intros _.
  - by intros [? _].
  - intros [[? _]|[(_ & ? & _)|(_ & ? & _)]]; done.
  - intros [[= -> _]|(_ & ? & _)]; done.
  - intros [[= -> _]|(_ & ? & _)]; done.
  - intros [[= -> _]|(_ & ? & _)]; done.
Qed.

Definition file_result (name : string) (w w' : world) (r : SpoolError + unit) : Prop :=
  file_done w name w' /\ (r = inr tt -> visible w' !! (Root, name) = None).

Lemma file_done_refl w name :
  every recovering w -> temporaries_of (visible w) -> file_done w name w.
Proof. intros He Ht. split; [done|]. by split. Qed.

Lemma file_result_error w name e :
  every recovering w -> temporaries_of (visible w) -> file_result name w w (inl e).
Proof. intros He Ht. by split; [apply file_done_refl|]. Qed.

Section file.
Context (w : world) (name i : string).
Context (He : every recovering w) (Ht : temporaries_of (visible w)) (Hn : temporary_id name = Some i).

Lemma cwp_discard :
  cwp faulty (file_result name w) (every recovering)
    (let? _ := try (RemoveFile (Root, name)) in good tt) w.
Proof.
  apply cwp_bindM, cwp_try; [done|]. intros w' t [Hs|(_ & -> & e & ->)];
    [|by split; [|split; [|apply file_result_error]]].
  simpl in Hs. destruct (visible w !! (Root, name)) as [f|] eqn:Hf; injection Hs as -> ->;
    [|by split; [|split; [|apply file_result_error]]].
  destruct (remove_done w name i He Ht Hn) as [Hd Hg]. pose proof Hd as [Hd' _].
  split; [done|]. apply cwp_ret; [done|]. by split.
Qed.

Lemma cwp_recover_file :
  cwp faulty (file_result name w) (every recovering) (recover_file digest name i) w.
Proof.
  unfold recover_file. cbv zeta. apply cwp_do; [done|]. intros w1 e1 ->%step_readonly; [|done].
  destruct e1; [apply cwp_discard|]. apply cwp_do; [done|]. intros w2 e2 ->%step_readonly; [|done].
  destruct e2; [apply cwp_discard|]. apply cwp_bindM, cwp_try; [done|]. intros w3 t Hs.
  assert (w3 = w) as -> by (by eapply step_readonly in Hs). split; [done|].
  destruct Hs as [Hs|(_ & _ & e & ->)]; [|split; [done|by apply file_result_error]].
  simpl in Hs. destruct (visible w !! (Root, name)) as [f|] eqn:Hf; injection Hs as ->;
    [|split; [done|by apply file_result_error]].
  destruct (String.eqb_spec (digest (content f)) i) as [Hd|_]; [|apply cwp_discard].
  apply cwp_bindM, cwp_try; [done|]. intros w4 t [Hs|(_ & -> & e & ->)];
    [|by split; [|split; [|apply file_result_error]]].
  simpl in Hs. rewrite Hf in Hs. injection Hs as -> ->.
  destruct (rename_done w name i f He Ht Hn Hf Hd) as [Hr Hg]. pose proof Hr as [Hr' _].
  split; [done|]. apply cwp_ret; [done|]. by split.
Qed.
End file.

Definition no_temporaries (t : fs) : Prop :=
  forall n, temporary_id n <> None -> t !! (Root, n) = None.

(** The temporary files that are left are listed in the entries still to come. *)
Definition listed (w : world) (entries : list (io string)) : Prop :=
  forall n, temporary_id n <> None -> is_Some (visible w !! (Root, n)) -> In (inr n) entries.

Lemma cwp_recover_loop entries changed w :
  every recovering w -> temporaries_of (visible w) ->
  cwp faulty
    (fun w' r => every recovering w' /\
       (forall b, r = inr b -> (listed w entries -> no_temporaries (visible w')) /\
                             forall e, ~ In (inl e) entries))
    (every recovering) (recover_loop digest entries changed) w.
Proof.
  revert w changed. induction entries as [|[e|name] entries IH]; intros w changed He Ht.
  - apply cwp_ret; [done|]. split; [done|]. intros b _. split; [|by intros e []]. intros Hl n Hn.
    destruct (visible w !! (Root, n)) as [f|] eqn:Hf; [|done]. by destruct (Hl n Hn).
  - by apply cwp_ret.
  - cbn [recover_loop bindM bind_prog]. apply cwp_bindM, cwp_try; [done|]. intros w1 t Hs.
    assert (w1 = w) as -> by (by eapply step_readonly in Hs). split; [done|].
    destruct Hs as [Hs|(_ & _ & e & ->)]; [|by split].
    simpl in Hs. destruct (visible w !! (Root, name)) as [f|] eqn:Hf; injection Hs as ->; [|by split].
    cbn [negb]. cbv iota.
    destruct (temporary_id name) as [i|] eqn:Hn.
    + apply cwp_bindM. eapply cwp_mono; [by apply (cwp_recover_file w name i)| |done].
      intros w' [e|[]] [(He' & Ht' & Hd) Hg]; [done|]. specialize (Hg eq_refl).
      eapply cwp_mono; [by apply IH| |done]. intros w2 r [He2 Hr]. split; [done|].
      intros b Hb. destruct (Hr b Hb) as [Hr1 Hr2]. split; [|by intros e [[=]|Hin]; eapply Hr2].
      intros Hl. apply Hr1. intros n Hn' Hin.
      destruct (Hl n Hn' (Hd n Hn' Hin)) as [[= <-]|Hin']; [|done].
      rewrite Hg in Hin. by destruct Hin.
    + eapply cwp_mono; [by apply IH| |done]. intros w2 r [He2 Hr]. split; [done|].
      intros b Hb. destruct (Hr b Hb) as [Hr1 Hr2]. split; [|by intros e [[=]|Hin]; eapply Hr2].
      intros Hl. apply Hr1. intros n Hn' Hin.
      destruct (Hl n Hn' Hin) as [[= <-]|Hin']; [congruence|done].
Qed.

Lemma listing_In d t n : is_Some (t !! (d, n)) -> In n (listing d t).
Proof.
  intros [f Hf]. unfold listing. apply list_elem_of_In, list_elem_of_omap. exists ((d, n), f).
  split; [by apply elem_of_map_to_list|]. simpl. by rewrite decide_True.
Qed.

Lemma recovering_refl : recovering s.
Proof. split; [intros p f Hp; exists f; auto|auto]. Qed.

Lemma cwp_recover :
  cwp faulty (fun w r => every recovering w /\ (r = inr tt -> no_temporaries (visible w)))
    (every recovering) (recover_temporary_files digest) (restart s).
Proof.
  assert (every recovering (restart s)) as He by apply every_restart, recovering_refl.
  assert (temporaries_of (visible (restart s))) as Ht by (by intros n i f _).
  unfold recover_temporary_files. apply cwp_bindM, cwp_try; [done|]. intros w1 t Hs.
  assert (w1 = restart s) as -> by (by eapply step_readonly in Hs). split; [done|].
  destruct t as [e|entries]; [by split|].
  apply cwp_bindM. eapply cwp_mono; [by apply cwp_recover_loop| |done].
  intros w' [e|changed] [He' Hr]; [by split|]. destruct (Hr changed eq_refl) as [Hr1 Hr2].
  destruct Hs as [(_ & names & Hp & [= ->])|[(_ & _ & names & e & _ & [= ->])|(_ & _ & e & [=])]].
  - assert (no_temporaries (visible w')) as Hno.
    { apply Hr1. intros n _ Hin. apply list_elem_of_In, list_elem_of_fmap_2, list_elem_of_In.
      apply (Permutation_in n (Permutation_sym Hp)). by apply listing_In. }
    destruct changed; [|by apply cwp_ret].
    apply cwp_bindM, cwp_try; [done|]. intros w2 t [[= -> ->]|(_ & -> & e & ->)]; [|by split].
    pose proof (every_flush _ _ He'). split; [done|]. by apply cwp_ret.
  - exfalso. apply (Hr2 e), in_or_app. right. by left.
Qed.
End recovery.

(** * Guarantees *)
Section guarantees.
Context (digest : bytes -> string) (Hdigest : forall body, slen (digest body) = 64).

Lemma near_settled max_bytes s body t : settled s -> near digest max_bytes s body t -> settled (jsons t).
Proof.
  intros Hs [-> |[-> _]]; [by apply settled_jsons|].
  intros p f. destruct (decide (p = final digest body)) as [->|Hne].
  - rewrite lookup_insert_eq. by intros [= <-].
  - rewrite lookup_insert_ne by done. intros [Hp _]%jsons_lookup. by apply (Hs p).
Qed.

Lemma crash_near max_bytes s body w s' :
  settled s -> every (near digest max_bytes s body) w -> crash w s' -> near digest max_bytes s body s'.
Proof.
  intros Hs He Hc. destruct (every_crash _ _ _ He Hc) as (t & Hn & Ht).
  unfold near. rewrite (jsons_scrambled t s'); [done|by eapply near_settled|done].
Qed.

Lemma stored_scrambled id s s' : stored id s -> scrambled s s' -> stored id s'.
Proof.
  intros [[f Hf]|[f Hf]] H; [left|right].
  - specialize (H (Root, json_name id)). rewrite Hf in H. by destruct (s' !! _); [eauto|].
  - specialize (H (Quarantine, json_name id)). rewrite Hf in H. by destruct (s' !! _); [eauto|].
Qed.

Lemma enqueue_outcome max_bytes faulty s body o :
  exec faulty (enqueue digest max_bytes body) (restart s) o ->
  every (near digest max_bytes s body) (world_of o) /\
  (forall w id, o = Done w (inr id) -> id = digest body /\ every (stored id) w).
Proof.
  intros Ho. pose proof (cwp_enqueue digest Hdigest max_bytes faulty s body o Ho) as H.
  destruct o as [w r|w].
  - destruct H as [Hn Hr]. split; [done|]. intros w' id [= <- ->]. by apply Hr.
  - by split.
Qed.

(** C29: Atomic acceptance, on a disk at rest.  Let [enqueue] start when every file
    is synced and no change waits for a sync of a directory, as after a restart of
    the machine.  Whatever calls fail and wherever it is cut off, the next restart
    finds every item as it was, and the new item whole under its id or not at all;
    and when it has returned an id, the item is on disk after a crash.  (On a disk
    with changes that wait, an id can be returned of an item that a crash loses:
    [SpoolLife.retry_not_durable].) *)
Theorem enqueue_atomic max_bytes faulty s body o s' :
  settled s ->
  exec faulty (enqueue digest max_bytes body) (restart s) o -> crash (world_of o) s' ->
  (jsons s' = jsons s \/
   jsons s' = <[(Root, json_name (digest body)) := {| content := body; synced := true |}]> (jsons s)) /\
  (forall w id, o = Done w (inr id) -> id = digest body /\ stored id s').
Proof.
  intros Hs Ho Hc. destruct (enqueue_outcome _ _ _ _ _ Ho) as [Hn Hr]. split.
  - destruct (crash_near _ _ _ _ _ Hs Hn Hc) as [H|[H _]]; auto.
  - intros w id ->. destruct (Hr w id eq_refl) as [-> Hst]. split; [done|].
    destruct (every_crash _ _ _ Hst Hc) as (t & Ht & Hsc). by eapply stored_scrambled.
Qed.

(** Capacity.  No run of [enqueue], failed, cut off or completed, leaves
    items of more than [max_bytes] in the two directories, unless they were
    there before. *)
Theorem enqueue_capacity max_bytes faulty s body o s' :
  settled s -> max_bytes < u64_max ->
  exec faulty (enqueue digest max_bytes body) (restart s) o -> crash (world_of o) s' ->
  total s' <= Z.max (total s) max_bytes.
Proof.
  intros Hs Hmax Ho Hc. destruct (enqueue_outcome _ _ _ _ _ Ho) as [Hn _].
  rewrite <- (total_jsons s').
  destruct (crash_near _ _ _ _ _ Hs Hn Hc) as [->|[-> Hfit]]; [rewrite total_jsons; lia|].
  specialize (Hfit Hmax). pose proof (total_insert_le (jsons s) (final digest body) (whole body)) as Hle.
  rewrite total_jsons in Hle. unfold weight, final in Hle. cbn [snd] in Hle.
  rewrite (final_json digest Hdigest) in Hle. cbn [whole content] in Hle. unfold final. lia.
Qed.

(** ** Crash, then recovery *)

(** The calls a program makes. *)
Fixpoint uses (P : forall T, call T -> Prop) {A} (m : prog A) : Prop :=
  match m with
  | Ret _ => True
  | Do c k => P _ c /\ forall t, uses P (k t)
  end.

Lemma uses_bind (P : forall T, call T -> Prop) {A B} (m : prog A) (f : A -> prog B) :
  uses P m -> (forall a, uses P (f a)) -> uses P (bind_prog m f).
Proof. induction m as [a|T c k IH]; simpl; [auto|]. intros [Hc Hk] Hf. split; auto. Qed.

Lemma uses_bindM (P : forall T, call T -> Prop) {A B} (m : M A) (f : A -> M B) :
  uses P m -> (forall a, uses P (f a)) -> uses P (bindM m f).
Proof. intros Hm Hf. apply uses_bind; [done|]. intros [e|a]; [done|auto]. Qed.

Lemma uses_try (P : forall T, call T -> Prop) {A} (c : call (io A)) : P _ c -> uses P (try c).
Proof. intros Hc. split; [done|]. by intros []. Qed.

(** The calls of [enqueue] make no temporary file but its own. *)
Definition own_temporary (body : bytes) (T : Type) (c : call T) : Prop :=
  match c with
  | CreateNew p => p = (Root, tmp_name (digest body))
  | RenameTo _ q => is_json q.2 = true
  | _ => True
  end.
Definition only_temporary (body : bytes) (t : fs) : Prop :=
  forall n, temporary_id n <> None -> is_Some (t !! (Root, n)) -> n = tmp_name (digest body).

Lemma uses_stats body d : uses (own_temporary body) (directory_stats d).
Proof.
  apply uses_bindM; [by apply uses_try|]. intros entries. generalize {| items := 0; stat_bytes := 0 |}.
  induction entries as [|[e|name] entries IH]; intros st; [done|done|].
  cbn [stats_loop bindM bind_prog]. destruct (is_json name); [|apply IH].
  apply uses_bindM; [by apply uses_try|]. intros n. apply IH.
Qed.

Lemma uses_enqueue max_bytes body : uses (own_temporary body) (enqueue digest max_bytes body).
Proof.
  split; [done|]. intros []; [done|]. split; [done|]. intros []; [done|].
  apply uses_bindM; [apply uses_stats|]. intros pend. apply uses_bindM; [apply uses_stats|]. intros quar.
  cbv zeta. destruct (max_bytes <? _); [done|].
  repeat (apply uses_bindM; [apply uses_try|intros _]); try done. by apply final_json.
Qed.

Lemma only_temporary_change body t c :
  only_temporary body t ->
  match c with
  | Create p => p = (Root, tmp_name (digest body))
  | Rename p q => is_json q.2 = true
  | _ => True
  end ->
  only_temporary body (apply c t).
Proof.
  intros H Hc n Hn [f Hf]. destruct c as [p|p b|p|p q|p]; cbn [apply] in Hf.
  - apply lookup_insert_Some in Hf as [[Hp _]|[_ Hf]]; [congruence|]. apply (H n Hn); eauto.
  - apply lookup_alter_Some in Hf as [(-> & g & Hg & _)|[_ Hg]]; apply (H n Hn); eauto.
  - apply lookup_alter_Some in Hf as [(-> & g & Hg & _)|[_ Hg]]; apply (H n Hn); eauto.
  - destruct (t !! p) as [g|] eqn:Hp; [|apply (H n Hn); eauto].
    apply lookup_insert_Some in Hf as [[-> _]|[_ [_ Hf]%lookup_delete_Some]]; [|apply (H n Hn); eauto].
    destruct (temporary_id n) as [i|] eqn:Hi; [|done]. apply temporary_not_json in Hi. simpl in Hc. congruence.
  - apply lookup_delete_Some in Hf as [_ Hf]. apply (H n Hn); eauto.
Qed.

Lemma step_own faulty body {T} (c : call T) w w' t :
  step faulty c w w' t -> own_temporary body T c ->
  every (only_temporary body) w -> every (only_temporary body) w'.
Proof.
  intros Hs Hc He. pose proof (every_visible _ _ He) as Hv.
  assert (forall ch, (match ch with
    | Create p => p = (Root, tmp_name (digest body)) | Rename p q => is_json q.2 = true | _ => True end) ->
    every (only_temporary body) (log ch w)) as Hlog
    by (intros ch Hch; apply every_log; [done|by apply only_temporary_change]).
  assert (every (only_temporary body) (flush w)) as Hflush by (by apply every_flush).
  destruct c; simpl in Hs, Hc;
    repeat match goal with
           | H : _ \/ _ |- _ => destruct H
           | H : _ /\ _ |- _ => destruct H
           | H : exists _, _ |- _ => destruct H
           | H : fault _ _ _ |- _ => destruct H
           | H : (_, _) = (_, _) |- _ => injection H as -> ->
           | H : (_, _) = match ?x with _ => _ end |- _ => destruct x
           end; subst; auto.
Qed.

Lemma exec_uses faulty body {A} (m : prog A) w o :
  uses (own_temporary body) m -> every (only_temporary body) w -> exec faulty m w o ->
  every (only_temporary body) (world_of o).
Proof.
  revert w. induction m as [a|T c k IH]; intros w Hu He; simpl.
  - by intros [->| ->].
  - destruct Hu as [Hc Hk]. intros [->|(w' & t & Hs & Ho)]; [done|].
    eapply IH; [apply Hk| |exact Ho]. by eapply step_own.
Qed.
Lemma recover_outcome faulty s o :
  settled s -> exec faulty (recover_temporary_files digest) (restart s) o ->
  every (recovering digest s) (world_of o) /\
  (forall w, o = Done w (inr tt) -> no_temporaries (visible w)).
Proof.
  intros Hs Ho. pose proof (cwp_recover digest faulty s Hs o Ho) as H. destruct o as [w r|w].
  - destruct H as [He Hr]. split; [done|]. intros w' [= <- ->]. by apply Hr.
  - by split.
Qed.

Lemma recovering_settled s t : settled s -> recovering digest s t -> settled (jsons t).
Proof.
  intros Hs [_ Ha] p g Hp. destruct (Ha p g Hp) as [Hg|(_ & Hg & _)]; [|done].
  by apply (settled_jsons s Hs p).
Qed.

Lemma crash_recovering s w s' :
  settled s -> every (recovering digest s) w -> crash w s' -> recovering digest s s'.
Proof.
  intros Hs He Hc. destruct (every_crash _ _ _ He Hc) as (t & Hn & Ht).
  eapply recovering_jsons; [|exact Hn]. by apply jsons_scrambled; [eapply recovering_settled|].
Qed.

Lemma crash_only_temporary body w s' :
  every (only_temporary body) w -> crash w s' -> only_temporary body s'.
Proof.
  intros He Hc. destruct (every_crash _ _ _ He Hc) as (t & Hn & Ht). intros n Hi [f Hf].
  apply (Hn n Hi). specialize (Ht (Root, n)). rewrite Hf in Ht. by destruct (t !! _); [eauto|].
Qed.

(** What a recovery makes of the disk a crashed [enqueue] left. *)
Lemma recovered_items max_bytes s body s1 s2 :
  near digest max_bytes s body s1 -> only_temporary body s1 -> recovering digest s1 s2 ->
  (forall p, p <> (Root, json_name (digest body)) -> jsons s2 !! p = jsons s !! p) /\
  (forall g, jsons s2 !! (Root, json_name (digest body)) = Some g ->
     jsons s !! (Root, json_name (digest body)) = Some g \/ digest (content g) = digest body) /\
  (is_Some (jsons s !! (Root, json_name (digest body))) ->
   is_Some (jsons s2 !! (Root, json_name (digest body)))).
Proof.
  set (fin := (Root, json_name (digest body))). intros Hn Ht [Hk Ha].
  assert (forall p, p <> fin -> jsons s1 !! p = jsons s !! p) as Hs1.
  { intros p Hp. destruct Hn as [-> |[-> _]]; [done|]. by rewrite lookup_insert_ne. }
  assert (forall p, from_temporary s1 p -> p = fin) as Hfrom.
  { intros p (n & i & -> & Hi & Hin). destruct (temporary_id_Some _ _ Hi) as [Hni _].
    assert (n = tmp_name (digest body)) as Hn' by (apply (Ht n); congruence).
    unfold fin. do 2 f_equal. unfold tmp_name in *. rewrite Hni in Hn'.
    apply (f_equal bytes_of) in Hn'. rewrite !bytes_of_app in Hn'. apply app_inv_head in Hn'.
    apply app_inv_tail in Hn'. by apply bytes_of_inj. }
  split; [|split].
  - intros p Hp. rewrite <- Hs1 by done. apply option_eq. intros g. split; intros Hg.
    + destruct (Ha p g Hg) as [?|(_ & _ & Hf)]; [done|]. by apply (Hfrom p) in Hf.
    + destruct (Hk p g Hg) as (h & Hh & [->|Had]); [done|]. destruct (Ha p h Hh) as [Hh1|(_ & _ & Hf)].
      * congruence.
      * by apply (Hfrom p) in Hf.
  - intros g Hg. destruct (Ha fin g Hg) as [Hg1|(Had & _)].
    + destruct Hn as [Hj|[Hj _]]; rewrite Hj in Hg1; [by left|].
      rewrite lookup_insert_eq in Hg1. injection Hg1 as <-. by right.
    + right. unfold addressed, fin in Had. injection Had as Had. by apply json_name_inj in Had.
  - intros [f Hf]. assert (is_Some (jsons s1 !! fin)) as [g Hg].
    { destruct Hn as [-> |[-> _]]; [eauto|]. rewrite lookup_insert_eq. eauto. }
    destruct (Hk fin g Hg) as (h & Hh & _). eauto.
Qed.

(** ** The life of a spool *)

(** The calls that cannot take the item [id] off the disk. *)
Definition harmless (id : string) (T : Type) (c : call T) : Prop :=
  match c with
  | RemoveFile p => p.2 <> json_name id
  | RenameTo p q => p.2 <> json_name id
  | _ => True
  end.

Lemma stored_insert id t p f : stored id t -> stored id (<[p := f]> t).
Proof. intros [H|H]; [left|right]; by apply lookup_insert_is_Some'; right. Qed.

Lemma stored_alter id t p g : stored id t -> stored id (alter g p t).
Proof. intros [[f H]|[f H]]; [left|right]; apply lookup_alter_is_Some; eauto. Qed.

Lemma stored_delete id t p : p.2 <> json_name id -> stored id t -> stored id (delete p t).
Proof.
  intros Hp [H|H]; [left|right]; (rewrite lookup_delete_ne; [done|]); intros ->; by apply Hp.
Qed.

Lemma stored_change id t c :
  stored id t ->
  match c with Remove p | Rename p _ => p.2 <> json_name id | _ => True end ->
  stored id (apply c t).
Proof.
  intros H Hc. destruct c as [p|p b|p|p q|p]; cbn [apply].
  - by apply stored_insert.
  - by apply stored_alter.
  - by apply stored_alter.
  - destruct (t !! p); [|done]. by apply stored_insert, stored_delete.
  - by apply stored_delete.
Qed.

(** A property of the disk that the change of a harmless call and a directory
    sync keep, every harmless program keeps. *)
Definition harmless_change (id : string) (c : change) : Prop :=
  match c with Remove p | Rename p _ => p.2 <> json_name id | _ => True end.

Section keeping.
Context (faulty : bool) (id : string) (P : world -> Prop).
Context (P_log : forall c w, harmless_change id c -> P w -> P (log c w)) (P_flush : forall w, P w -> P (flush w)).

Lemma step_keeping {T} (c : call T) w w' t : step faulty c w w' t -> harmless id T c -> P w -> P w'.
Proof using P_log P_flush.
  intros Hs Hc He. pose proof (fun ch H => P_log ch w H He) as Hlog. pose proof (P_flush w He) as Hflush.
  destruct c; simpl in Hs, Hc;
    repeat match goal with
           | H : _ \/ _ |- _ => destruct H
           | H : _ /\ _ |- _ => destruct H
           | H : exists _, _ |- _ => destruct H
           | H : fault _ _ _ |- _ => destruct H
           | H : (_, _) = (_, _) |- _ => injection H as -> ->
           | H : (_, _) = match ?x with _ => _ end |- _ => destruct x
           end; subst; auto; by apply Hlog.
Qed.

Lemma exec_keeping {A} (m : prog A) w o : uses (harmless id) m -> P w -> exec faulty m w o -> P (world_of o).
Proof using P_log P_flush.
  revert w. induction m as [a|T c k IH]; intros w Hu He; simpl.
  - by intros [->| ->].
  - destruct Hu as [Hc Hk]. intros [->|(w' & t & Hs & Ho)]; [done|].
    eapply IH; [apply Hk| |exact Ho]. by eapply step_keeping.
Qed.
End keeping.

Lemma exec_harmless faulty id {A} (m : prog A) w o :
  uses (harmless id) m -> every (stored id) w -> exec faulty m w o -> every (stored id) (world_of o).
Proof.
  apply exec_keeping; [|intros; by apply every_flush].
  intros c w' Hc He. apply every_log; [done|]. apply stored_change; [by apply every_visible|done].
Qed.

Lemma exec_harmless_visible faulty id {A} (m : prog A) w o :
  uses (harmless id) m -> stored id (visible w) -> exec faulty m w o -> stored id (visible (world_of o)).
Proof.
  apply (exec_keeping faulty id (fun w => stored id (visible w))); [|done].
  intros c w' Hc He. rewrite visible_log. by apply stored_change.
Qed.

Lemma uses_stats_any (P : forall T, call T -> Prop) d :
  P _ (ReadDir d) -> (forall name, P _ (Len (d, name))) -> uses P (directory_stats d).
Proof.
  intros Hr Hl. apply uses_bindM; [by apply uses_try|]. intros entries.
  generalize {| items := 0; stat_bytes := 0 |}.
  induction entries as [|[e|name] entries IH]; intros st; [done|done|].
  cbn [stats_loop bindM bind_prog]. destruct (is_json name); [|apply IH].
  apply uses_bindM; [by apply uses_try|]. intros n. apply IH.
Qed.

Lemma tmp_not_json_name i j : slen j = 64 -> tmp_name i <> json_name j.
Proof. intros Hj He. pose proof (is_json_tmp i) as Ht. by rewrite He, id_json in Ht. Qed.

Lemma harmless_enqueue i max_bytes body :
  slen i = 64 -> uses (harmless i) (enqueue digest max_bytes body).
Proof.
  intros Hi. split; [done|]. intros []; [done|]. split; [done|]. intros []; [done|].
  apply uses_bindM; [by apply uses_stats_any|]. intros pend.
  apply uses_bindM; [by apply uses_stats_any|]. intros quar.
  cbv zeta. destruct (max_bytes <? _); [done|].
  repeat (apply uses_bindM; [apply uses_try|intros _]); try done. by apply tmp_not_json_name.
Qed.

(** Opening a spool is a recovery, or stops before it. *)
Lemma open_recovers faulty w o :
  exec faulty (open digest) w o ->
  exists o', exec faulty (recover_temporary_files digest) w o' /\ world_of o' = world_of o.
Proof.
  assert (exec faulty (recover_temporary_files digest) w (Crashed w)) as Hcut by (by left).
  assert (forall d t w1, step faulty (CreateDirAll d) w w1 t -> w1 = w) as Hstep.
  { intros d t w1 [[= -> _]|(_ & -> & _)]; done. }
  intros [->|(w1 & t & ->%Hstep & Ho)]; [by exists (Crashed w)|]. destruct t as [e|[]].
  { destruct Ho as [->| ->]; by exists (Crashed w). }
  destruct Ho as [->|(w2 & t & ->%Hstep & Ho)]; [by exists (Crashed w)|]. destruct t as [e|[]]; [|by exists o].
  destruct Ho as [->| ->]; by exists (Crashed w).
Qed.

Lemma harmless_recover i : slen i = 64 -> uses (harmless i) (recover_temporary_files digest).
Proof.
  intros Hi. apply uses_bindM; [by apply uses_try|]. intros entries.
  apply uses_bindM; [|by intros []; [apply uses_bindM; [apply uses_try|]|]].
  generalize false. induction entries as [|[e|name] entries IH]; intros b; [done|done|].
  cbn [recover_loop bindM bind_prog]. apply uses_bindM; [by apply uses_try|]. intros []; [|apply IH].
  simpl. destruct (temporary_id name) as [j|] eqn:Hj; [|apply IH].
  apply temporary_id_Some in Hj as [-> _].
  apply uses_bindM; [|intros _; apply IH].
  assert (uses (harmless i) (let? _ := try (RemoveFile (Root, tmp_name j)) in good tt)) as Hd.
  { apply uses_bindM; [apply uses_try|done]. by apply tmp_not_json_name. }
  split; [done|]. intros []; [done|]. split; [done|]. intros []; [done|].
  apply uses_bindM; [by apply uses_try|]. intros body. destruct (String.eqb _ _); [|done].
  apply uses_bindM; [apply uses_try|done]. by apply tmp_not_json_name.
Qed.

(** An item the spool lists *)
Definition proper (item : PendingItem) : Prop := item_path item = (Root, json_name (id item)).

Lemma harmless_acknowledge i item :
  proper item -> i <> id item -> uses (harmless i) (acknowledge item).
Proof.
  intros Hp Hi. split.
  - rewrite Hp. simpl. intros He%json_name_inj. congruence.
  - intros [[]|[]]; try done. apply uses_bindM; [by apply uses_try|done].
Qed.

(** ** Doubtful items

    Two things the code does can cost an item.  A restart publishes a temporary
    file that is whole without syncing it; if the process stopped before
    [sync_all], a crash can then empty the item ([SpoolLife.recovered_not_durable]).
    And [enqueue] returns the name of an item that is there without syncing
    anything, also while the item waits for a sync of its directory
    ([SpoolLife.retry_not_durable]).  [doubtful] are the names to which one of the
    two happened in the history of the disk; what follows is said of the others. *)
Context (doubtful : gset string).

(** The temporary files that are whole are synced, or doubtful. *)
Definition whole_synced (t : fs) : Prop :=
  forall n i f, temporary_id n = Some i -> i ∉ doubtful ->
    t !! (Root, n) = Some f -> digest (content f) = i -> synced f = true.

Lemma settled_whole_synced t : settled t -> whole_synced t.
Proof. intros H n i f _ _ Hf _. by apply (H _ _ Hf). Qed.

Lemma whole_synced_delete t p : whole_synced t -> whole_synced (delete p t).
Proof. intros H n i f Hn Hi [_ Hf]%lookup_delete_Some. by eapply H. Qed.

Lemma whole_synced_rename t p d i :
  whole_synced t -> slen i = 64 -> whole_synced (apply (Rename p (d, json_name i)) t).
Proof.
  intros H Hi. cbn [apply]. destruct (t !! p) as [f|]; [|done]. intros n j g Hn Hj Hg.
  rewrite lookup_insert_ne in Hg; [by apply (whole_synced_delete t p H n j g)|].
  intros [= _ <-]. apply temporary_not_json in Hn. by rewrite id_json in Hn.
Qed.

(** Every item whose name is a digest, and not doubtful, has a synced content of
    that digest. *)
Definition sound (t : fs) : Prop :=
  forall d i f, slen i = 64 -> i ∉ doubtful -> t !! (d, json_name i) = Some f ->
    synced f = true /\ digest (content f) = i.

Lemma sound_other t p f : is_json p.2 = false -> sound t -> sound (<[p := f]> t).
Proof.
  intros Hp H d i g Hi Hn. destruct (decide (p = (d, json_name i))) as [->|Hne].
  - simpl in Hp. by rewrite id_json in Hp.
  - rewrite lookup_insert_ne by done. by apply H.
Qed.

Lemma sound_alter t p g : is_json p.2 = false -> sound t -> sound (alter g p t).
Proof.
  intros Hp H d i f Hi Hn. destruct (decide (p = (d, json_name i))) as [->|Hne].
  - simpl in Hp. by rewrite id_json in Hp.
  - rewrite lookup_alter_ne by done. by apply H.
Qed.

Lemma sound_delete t p : sound t -> sound (delete p t).
Proof. intros H d i f Hi Hn [_ Hf]%lookup_delete_Some. by apply (H d). Qed.

Lemma sound_rename t p d i f :
  sound t -> t !! p = Some f -> (i ∉ doubtful -> synced f = true) -> digest (content f) = i ->
  sound (apply (Rename p (d, json_name i)) t).
Proof.
  intros H Hp Hs Hi. cbn [apply]. rewrite Hp.
  intros d' i' g Hi' Hn [[[= -> ->%json_name_inj] <-]|[_ Hg]]%lookup_insert_Some.
  - auto.
  - by apply (sound_delete t p H d').
Qed.

Lemma sound_scrambled t t' : sound t -> scrambled t t' -> sound t'.
Proof.
  intros H Hs d i f Hi Hn Hf. specialize (Hs (d, json_name i)). rewrite Hf in Hs.
  destruct (t !! _) as [g|] eqn:Hg; [|done]. destruct (H d i g Hi Hn Hg) as [Hsy Hd].
  destruct Hs as [_ Hs]. by rewrite (Hs Hsy).
Qed.

(** ** Enqueue, from any state *)

(** The item, if it is there, does not wait for a directory to be synced: a crash
    would not lose it. *)
Definition clean (i : string) (w : world) : Prop := stored i (visible w) -> every (stored i) w.

Lemma clean_idle i w : journal w = [] -> clean i w.
Proof.
  intros Hj Hst [|x l] l' Hl; rewrite Hj in Hl; [|done]. unfold visible in Hst. by rewrite Hj in Hst.
Qed.

Lemma clean_absent i w : ~ stored i (visible w) -> clean i w.
Proof. by intros Hn Hst. Qed.

(** A returned name is a receipt: the item is clean, or one of the doubtful. *)
Definition vouched (i : string) (w : world) : Prop := i ∈ doubtful \/ clean i w.

Definition accepts (body : bytes) (w w' : world) (r : SpoolError + string) : Prop :=
  every sound w' /\
  forall i, r = inr i -> i = digest body /\ (clean i w -> every (stored i) w').

Lemma accepts_error body w w' e : every sound w' -> accepts body w w' (inl e).
Proof. by split. Qed.

Lemma cwp_sound_publish faulty body w0 w f :
  every sound w -> visible w !! (Root, tmp_name (digest body)) = Some f -> synced f = true -> content f = body ->
  cwp faulty (accepts body w0) (every sound)
    (let? _ := try (RenameTo (Root, tmp_name (digest body)) (Root, json_name (digest body))) in
     let? _ := try (SyncDir Root) in good (digest body)) w.
Proof.
  intros He Hf Hsy Hb. apply cwp_bindM, cwp_try; [done|].
  intros w' t [Hs|(_ & -> & e & ->)]; [|by split; [|split; [|apply accepts_error]]].
  simpl in Hs. rewrite Hf in Hs. injection Hs as -> ->.
  set (w1 := log _ w).
  assert (every sound w1) as He1.
  { apply every_log; [done|]. eapply sound_rename; [by apply every_visible|done|done|by rewrite Hb]. }
  split; [done|]. apply cwp_bindM, cwp_try; [done|].
  intros w' t [[= -> ->]|(_ & -> & e & ->)]; [|by split; [|split; [|apply accepts_error]]].
  pose proof (every_flush _ _ He1) as He2. split; [done|]. apply cwp_ret; [done|]. split; [done|].
  intros i [= <-]. split; [done|]. intros _. apply every_restart. left. unfold w1.
  rewrite visible_log. cbn [apply]. rewrite Hf, lookup_insert_eq. eauto.
Qed.

Lemma cwp_sound_store faulty body w0 w :
  every sound w -> cwp faulty (accepts body w0) (every sound) (store (digest body) body) w.
Proof.
  intros He. pose proof (is_json_tmp (digest body)) as Hj. set (tmp := tmp_name (digest body)) in *.
  unfold store. fold tmp.
  apply cwp_bindM, cwp_try; [done|]. intros w1 t [Hs|(_ & -> & e & ->)];
    [|by split; [|split; [|apply accepts_error]]].
  simpl in Hs. destruct (visible w !! (Root, tmp)) as [g|] eqn:Hg; injection Hs as -> ->;
    [by split; [|split; [|apply accepts_error]]|].
  set (w1 := log _ w).
  assert (every sound w1) as He1 by (apply every_log; [done|]; by apply sound_other, every_visible).
  split; [done|]. apply cwp_bindM, cwp_try; [done|]. intros w2 t Hs.
  assert (exists part, w2 = log (Write (Root, tmp) part) w1 /\ (t = inr tt -> part = body)) as (part & -> & Hpart).
  { destruct Hs as [[= -> ->]|(_ & part & e & _ & -> & ->)]; [by exists body|]. by exists part. }
  set (w2 := log _ w1).
  assert (every sound w2) as He2 by (apply every_log; [done|]; by apply sound_alter, every_visible).
  split; [done|]. destruct t as [e|[]]; [split; [done|by apply accepts_error]|]. specialize (Hpart eq_refl) as ->.
  apply cwp_bindM, cwp_try; [done|].
  intros w' t [[= -> ->]|(_ & -> & e & ->)]; [|by split; [|split; [|apply accepts_error]]].
  assert (every sound (log (SyncFile (Root, tmp)) w2)) as He3
    by (apply every_log; [done|]; by apply sound_alter, every_visible).
  split; [done|]. eapply cwp_sound_publish; [done| | |].
  - unfold w2, w1. rewrite !visible_log. cbn [apply]. by rewrite !lookup_alter_eq, lookup_insert_eq.
  - done.
  - done.
Qed.

Lemma cwp_sound_enqueue faulty max_bytes body w :
  every sound w -> cwp faulty (accepts body w) (every sound) (enqueue digest max_bytes body) w.
Proof.
  intros He.
  assert (forall d, is_Some (visible w !! (d, json_name (digest body))) ->
    cwp faulty (accepts body w) (every sound) (good (digest body)) w) as Hfound.
  { intros d Hd. apply cwp_ret; [done|]. split; [done|]. intros i [= <-]. split; [done|].
    intros Hcl. apply Hcl. destruct d; [by left|by right]. }
  unfold enqueue. apply cwp_do; [done|]. intros w1 e1 [-> He1].
  destruct e1; [apply (Hfound Root); destruct He1 as [He1|[_ [=]]]; by apply present|].
  apply cwp_do; [done|]. intros w2 e2 [-> He2].
  destruct e2; [apply (Hfound Quarantine); destruct He2 as [He2|[_ [=]]]; by apply present|].
  apply cwp_bindM. eapply cwp_mono; [apply cwp_directory_stats| |by intros ? ->].
  intros w3 [e|pend] [-> _]; [by split; [|apply accepts_error]|].
  apply cwp_bindM. eapply cwp_mono; [apply cwp_directory_stats| |by intros ? ->].
  intros w4 [e|quar] [-> _]; [by split; [|apply accepts_error]|].
  cbv zeta. destruct (max_bytes <? _); [apply cwp_ret; [done|by apply accepts_error]|].
  by apply cwp_sound_store.
Qed.
End guarantees.

(** * Examples

    A digest of 64 hexadecimal digits to run the spool with: the body read as a
    little-endian number, modulo 2^256. *)
Definition sample_digest (body : bytes) : string :=
  string_of (concat ((fun b => [hex_digit (Z.shiftr (u8 b) 4); hex_digit (Z.land (u8 b) 15)])
    <$> le_bytes 32 (le_val body))).

Lemma slen_sample_digest body : slen (sample_digest body) = 64.
Proof.
  unfold sample_digest. rewrite slen_string_of. generalize (le_val body). intros v.
  cbn [le_bytes]. reflexivity.
Qed.

(** One stored item of one byte. *)
Definition sample_disk : fs :=
  <[(Root, json_name (sample_digest [x01])) := {| content := [x01]; synced := true |}]> ∅.

#[export] Instance settled_dec s : Decision (settled s).
Proof. unfold settled. apply _. Defined.

Lemma sample_settled : settled sample_disk.
Proof. apply (bool_decide_unpack _). vm_compute. exact I. Qed.

(** The crash that loses every change of the journal. *)
Lemma crash_durable w : settled (durable w) -> crash w (durable w).
Proof.
  intros Hs. exists [], (journal w). split; [done|]. intros p. simpl.
  destruct (durable w !! p) eqn:Hp; [|done]. split; [by apply (Hs p)|done].
Qed.

(** The run that adds a second item of two bytes. *)
Definition sample_run : world * (SpoolError + string) :=
  run (enqueue sample_digest 10 [x02; x03]) (restart sample_disk).

Lemma sample_run_exec faulty :
  exec faulty (enqueue sample_digest 10 [x02; x03]) (restart sample_disk) (Done sample_run.1 sample_run.2).
Proof. apply run_exec. Qed.

Lemma sample_run_durable : settled (durable sample_run.1).
Proof. apply (bool_decide_unpack _). vm_compute. exact I. Qed.

Example sample_run_result :
  sample_run.2 = inr (sample_digest [x02; x03]) /\
  visible sample_run.1 !! (Root, json_name (sample_digest [x02; x03])) = Some {| content := [x02; x03]; synced := true |}.
Proof. vm_compute. auto. Qed.

Lemma enqueue_atomic_witness :
  settled sample_disk /\
  (jsons (durable sample_run.1) = jsons sample_disk \/
   jsons (durable sample_run.1) =
     <[(Root, json_name (sample_digest [x02; x03])) := {| content := [x02; x03]; synced := true |}]>
       (jsons sample_disk)) /\
  (forall w id, Done sample_run.1 sample_run.2 = Done w (inr id) ->
   id = sample_digest [x02; x03] /\ stored id (durable sample_run.1)).
Proof.
  split; [exact sample_settled|].
  exact (enqueue_atomic sample_digest slen_sample_digest 10 true sample_disk [x02; x03]
    (Done sample_run.1 sample_run.2) (durable sample_run.1)
    sample_settled (sample_run_exec true) (crash_durable _ sample_run_durable)).
Defined.

Lemma enqueue_capacity_witness :
  settled sample_disk /\ 10 < u64_max /\ total (durable sample_run.1) <= Z.max (total sample_disk) 10.
Proof.
  split; [exact sample_settled|]. split; [reflexivity|].
  exact (enqueue_capacity sample_digest slen_sample_digest 10 true sample_disk [x02; x03]
    (Done sample_run.1 sample_run.2) (durable sample_run.1)
    sample_settled eq_refl (sample_run_exec true) (crash_durable _ sample_run_durable)).
Defined.

Lemma sample_no_temporaries : no_temporaries sample_disk.
Proof.
  intros n Hn. apply lookup_insert_None. split; [done|]. intros [= <-]. by apply Hn.
Qed.

(** The recovery after the run. *)
Definition sample_recovery : world * (SpoolError + unit) :=
  run (recover_temporary_files sample_digest) (restart (durable sample_run.1)).

Lemma sample_recovery_durable : settled (durable sample_recovery.1).
Proof. apply (bool_decide_unpack _). vm_compute. exact I. Qed.

