(* ===== verification/SpoolLife.v ===== *)
(** The life of a spool: any sequence of accepted, failed and cut off calls,
    restarts of the process and crashes of the machine.  An accepted item stays
    on disk with its content until it is acknowledged; [pending] lists exactly
    the items; [enqueue] is idempotent; and the histories in which an I/O error
    breaks a promise. *)
From Stdlib Require Import ZArith Lia ZifyBool Strings.Byte Strings.Ascii Strings.String Sorted.
From stdpp Require Import base list strings gmap.
From S2P Require Import Prelude Text Spool SpoolSpec.

Local Open Scope string_scope.
Local Open Scope list_scope.
Local Open Scope Z_scope.

(** * Acknowledge, quarantine and recover keep the items *)
Section life.
Context (digest : bytes -> string) (Hdigest : forall body, slen (digest body) = 64).
Context (doubtful : gset string) (faulty : bool).

Lemma cwp_sound_acknowledge w item :
  every (sound digest doubtful) w ->
  cwp faulty (fun w' _ => every (sound digest doubtful) w') (every (sound digest doubtful)) (acknowledge item) w.
Proof.
  intros He. apply cwp_do; [done|]. intros w' t Hs.
  assert (every (sound digest doubtful) w') as He'.
  { destruct Hs as [Hs|(_ & -> & _)]; [|done]. simpl in Hs.
    destruct (visible w !! item_path item); injection Hs as -> ->; [|done].
    apply every_log; [done|]. by apply sound_delete, every_visible. }
  destruct t as [[]|[]]; try by apply cwp_ret.
  apply cwp_bindM, cwp_try; [done|]. intros w2 t [[= -> ->]|(_ & -> & e & ->)]; [|done].
  pose proof (every_flush _ _ He'). split; [done|]. by apply cwp_ret.
Qed.

(** What [quarantine] must keep. *)
Definition keeps (ids : gset string) (w : world) : Prop :=
  every (sound digest doubtful) w /\ forall i, i ∈ ids -> slen i = 64 /\ every (stored i) w.

Lemma keeps_flush ids w : keeps ids w -> keeps ids (flush w).
Proof.
  intros [He Hi]. split; [by apply every_flush|]. intros i H. destruct (Hi i H). split; [done|by apply every_flush].
Qed.

Lemma keeps_log ids w c :
  keeps ids w -> sound digest doubtful (apply c (visible w)) ->
  (forall i, i ∈ ids -> stored i (visible w) -> stored i (apply c (visible w))) -> keeps ids (log c w).
Proof.
  intros [He Hi] Hs Hst. split; [by apply every_log|]. intros i H. destruct (Hi i H) as [Hl Hw].
  split; [done|]. apply every_log; [done|]. by apply Hst, every_visible.
Qed.

Lemma stored_rename i j t :
  is_Some (t !! (Root, json_name j)) -> stored i t ->
  stored i (apply (Rename (Root, json_name j) (Quarantine, json_name j)) t).
Proof.
  intros [f Hf] Hi. cbn [apply]. rewrite Hf. destruct (decide (i = j)) as [->|Hne].
  - right. rewrite lookup_insert_eq. eauto.
  - apply stored_insert, stored_delete; [|done]. simpl. intros He%json_name_inj. congruence.
Qed.

Lemma stored_delete_quarantined i j t :
  is_Some (t !! (Quarantine, json_name j)) -> stored i t -> stored i (delete (Root, json_name j) t).
Proof.
  intros Hq Hi. destruct (decide (i = j)) as [->|Hne].
  - right. by rewrite lookup_delete_ne.
  - apply stored_delete; [|done]. simpl. intros He%json_name_inj. congruence.
Qed.

Lemma cwp_keeps_sync ids w d (k : M unit) :
  keeps ids w ->
  (forall w', keeps ids w' -> cwp faulty (fun w' _ => keeps ids w') (keeps ids) k w') ->
  cwp faulty (fun w' _ => keeps ids w') (keeps ids) (let? _ := try (SyncDir d) in k) w.
Proof.
  intros Hw Hk. apply cwp_bindM, cwp_try; [done|]. intros w' t [[= -> ->]|(_ & -> & e & ->)]; [|done].
  pose proof (keeps_flush _ _ Hw). auto.
Qed.

Lemma cwp_keeps_acknowledge ids w item :
  keeps ids w -> proper item -> is_Some (visible w !! (Quarantine, json_name (id item))) ->
  cwp faulty (fun w' _ => keeps ids w') (keeps ids) (acknowledge item) w.
Proof.
  intros Hw Hp Hq. apply cwp_do; [done|]. intros w' t Hs.
  assert (keeps ids w') as Hw'.
  { destruct Hs as [Hs|(_ & -> & _)]; [|done]. rewrite Hp in Hs. simpl in Hs.
    destruct (visible w !! (Root, _)); injection Hs as -> ->; [|done].
    apply keeps_log; [done|by apply sound_delete, every_visible, Hw|].
    intros i _ Hi. by apply stored_delete_quarantined. }
  destruct t as [[]|[]]; try by apply cwp_ret.
  apply cwp_keeps_sync; [done|]. intros w2 H2. by apply cwp_ret.
Qed.

Lemma cwp_keeps_quarantine ids w item :
  keeps ids w -> proper item ->
  cwp faulty (fun w' _ => keeps ids w') (keeps ids) (quarantine item) w.
Proof.
  intros Hw Hp. unfold quarantine. apply cwp_do; [done|]. intros w1 e [-> He].
  destruct e; [apply cwp_keeps_acknowledge; [done|done|]; destruct He as [He|[_ [=]]]; by apply present|].
  apply cwp_do; [done|]. intros w1 t Hs. rewrite Hp in Hs.
  assert (keeps ids w1) as Hw1.
  { destruct Hs as [Hs|(_ & -> & _)]; [|done]. simpl in Hs.
    destruct (visible w !! (Root, _)) as [f|] eqn:Hf; injection Hs as -> ->; [|done].
    apply keeps_log; [done| |by intros i _; apply stored_rename; rewrite Hf].
    pose proof (every_visible _ _ (proj1 Hw)) as Hv. intros d i g Hi Hdt Hg. cbn [apply] in Hg. rewrite Hf in Hg.
    apply lookup_insert_Some in Hg as [[[= <- <-%json_name_inj] <-]|[_ Hg]].
    - by apply (Hv Root).
    - by apply (sound_delete digest doubtful _ (Root, json_name (id item)) Hv d). }
  destruct t as [[]|[]]; try by apply cwp_ret.
  - apply cwp_do; [done|]. intros w2 e2 [-> _]. by destruct e2; apply cwp_ret.
  - apply cwp_keeps_sync; [done|]. intros w2 H2. apply cwp_keeps_sync; [done|]. intros w3 H3. by apply cwp_ret.
Qed.

(** ** Recovery, when the whole temporary files are synced *)
Definition steady (w : world) : Prop := every (sound digest doubtful) w /\ whole_synced digest doubtful (visible w).

Lemma cwp_steady_discard w name :
  steady w ->
  cwp faulty (fun w' _ => steady w') steady (let? _ := try (RemoveFile (Root, name)) in good tt) w.
Proof.
  intros Hw. apply cwp_bindM, cwp_try; [done|].
  intros w' t [Hs|(_ & -> & e & ->)]; [|done]. simpl in Hs.
  destruct (visible w !! (Root, name)) as [f|] eqn:Hf; injection Hs as -> ->; [|done].
  assert (steady (log (Remove (Root, name)) w)) as H.
  { destruct Hw as [He Hset]. split.
    - apply every_log; [done|]. by apply sound_delete, every_visible.
    - rewrite visible_log. by apply whole_synced_delete. }
  split; [done|]. by apply cwp_ret.
Qed.

Lemma cwp_steady_file w name i :
  steady w -> temporary_id name = Some i ->
  cwp faulty (fun w' _ => steady w') steady (recover_file digest name i) w.
Proof.
  intros Hw Hn. pose proof (temporary_id_Some _ _ Hn) as [_ Hlen]. unfold recover_file. cbv zeta. apply cwp_do; [done|]. intros w1 e1 [-> _].
  destruct e1; [by apply cwp_steady_discard|]. apply cwp_do; [done|]. intros w2 e2 [-> _].
  destruct e2; [by apply cwp_steady_discard|]. apply cwp_bindM, cwp_try; [done|]. intros w3 t Hs.
  assert (w3 = w) as -> by (by eapply step_readonly in Hs). split; [done|].
  destruct Hs as [Hs|(_ & _ & e & ->)]; [|done]. simpl in Hs.
  destruct (visible w !! (Root, name)) as [f|] eqn:Hf; injection Hs as ->; [|done].
  destruct (String.eqb_spec (digest (content f)) i) as [Hd|_]; [|by apply cwp_steady_discard].
  apply cwp_bindM, cwp_try; [done|].
  intros w4 t [Hs|(_ & -> & e & ->)]; [|done]. simpl in Hs. rewrite Hf in Hs. injection Hs as -> ->.
  assert (steady (log (Rename (Root, name) (Root, json_name i)) w)) as H.
  { destruct Hw as [He Hset]. split.
    - apply every_log; [done|]. eapply sound_rename; [by apply every_visible|done|intros Hdt; by eapply Hset|done].
    - rewrite visible_log. by apply whole_synced_rename. }
  split; [done|]. by apply cwp_ret.
Qed.

Lemma cwp_steady_loop entries changed w :
  steady w -> cwp faulty (fun w' _ => steady w') steady (recover_loop digest entries changed) w.
Proof.
  revert changed w. induction entries as [|[e|name] entries IH]; intros changed w Hw; try by apply cwp_ret.
  cbn [recover_loop bindM bind_prog]. apply cwp_bindM, cwp_try; [done|]. intros w1 t Hs.
  assert (w1 = w) as -> by (by eapply step_readonly in Hs). split; [done|].
  destruct t as [e|[]]; [done| |by apply IH].
  cbn [negb]. destruct (temporary_id name) as [i|] eqn:Hn; [|by apply IH].
  apply cwp_bindM. eapply cwp_mono; [by apply cwp_steady_file| |done].
  intros w' [e|[]] Hw'; [done|]. by apply IH.
Qed.

Lemma cwp_steady_recover w :
  steady w -> cwp faulty (fun w' _ => steady w') steady (recover_temporary_files digest) w.
Proof.
  intros Hw. unfold recover_temporary_files. apply cwp_bindM, cwp_try; [done|]. intros w1 t Hs.
  assert (w1 = w) as -> by (by eapply step_readonly in Hs). split; [done|].
  destruct t as [e|entries]; [done|].
  apply cwp_bindM. eapply cwp_mono; [by apply cwp_steady_loop| |done].
  intros w' [e|changed] Hw'; [done|]. destruct changed; [|by apply cwp_ret].
  apply cwp_bindM, cwp_try; [done|]. intros w2 t [[= -> ->]|(_ & -> & e & ->)]; [|done].
  assert (steady (flush w')) as H by (destruct Hw'; split; [by apply every_flush|done]).
  split; [done|]. by apply cwp_ret.
Qed.
End life.

(** * Histories

    [life w ids]: the disk may be in state [w] after some history that starts
    from an empty directory, and [ids] are the items accepted and not yet
    acknowledged.  Each rule is one method call, returned or cut off.  A process
    may stop and start at any point, which changes nothing on disk;
    [life_crash] is a crash of the machine.

    Two rules have a condition about the items in [doubtful].  [life_accept]: when
    [enqueue] returns the name of an item that was on disk and waited for a sync of
    its directory, the name is in [doubtful] ([vouched]).  [life_open]: when a
    restart finds a temporary file that is whole and was never synced, which a
    crash of the machine never leaves, its name is in [doubtful] ([whole_synced]).
    No history is left out: for every one there is such a set of names
    ([life_open_any], [life_accept_any]). *)
Section history.
Context (digest : bytes -> string) (Hdigest : forall body, slen (digest body) = 64).
Context (max_bytes : Z) (doubtful : gset string) (faulty : bool).

Inductive life : world -> gset string -> Prop :=
| life_new : life (restart ∅) ∅
| life_crash w ids s :
    life w ids -> crash w s -> life (restart s) ids
| life_open w ids o :
    life w ids -> whole_synced digest doubtful (visible w) ->
    exec faulty (open digest) w o -> life (world_of o) ids
| life_accept w ids body w' i :
    life w ids -> vouched doubtful i w ->
    exec faulty (enqueue digest max_bytes body) w (Done w' (inr i)) -> life w' ({[i]} ∪ ids)
| life_enqueue w ids body o :
    life w ids -> exec faulty (enqueue digest max_bytes body) w o -> life (world_of o) ids
| life_quarantine w ids item o :
    life w ids -> proper item -> exec faulty (quarantine item) w o -> life (world_of o) ids
| life_acknowledge w ids item o :
    life w ids -> proper item -> exec faulty (acknowledge item) w o ->
    life (world_of o) (ids ∖ {[id item]}).

Lemma cwp_every {A} (P : world -> Prop) (m : prog A) w o :
  cwp faulty (fun w' _ => P w') P m w -> exec faulty m w o -> P (world_of o).
Proof. intros H Ho. specialize (H o Ho). by destruct o. Qed.

Lemma sound_empty : sound digest doubtful ∅.
Proof. intros d i f _ _. by rewrite lookup_empty. Qed.

Lemma enqueue_keeps ids w body o :
  keeps digest doubtful ids w -> exec faulty (enqueue digest max_bytes body) w o -> keeps digest doubtful ids (world_of o).
Proof.
  intros [He Hi] Ho. split.
  - eapply cwp_every; [|exact Ho]. eapply cwp_mono; [by apply cwp_sound_enqueue| |done]. by intros w' r [H _].
  - intros i H. destruct (Hi i H) as [Hl Hs]. split; [done|].
    eapply exec_harmless; [by apply harmless_enqueue|done|exact Ho].
Qed.

Lemma keeps_crash ids w s : keeps digest doubtful ids w -> crash w s -> keeps digest doubtful ids (restart s).
Proof.
  intros [He Hi] Hc. split.
  - destruct (every_crash _ _ _ He Hc) as (t & Ht & Hs). by eapply every_restart, sound_scrambled.
  - intros i H. destruct (Hi i H) as [Hl Hw]. split; [done|].
    destruct (every_crash _ _ _ Hw Hc) as (t & Ht & Hs). by eapply every_restart, stored_scrambled.
Qed.

Lemma open_keeps ids w o :
  keeps digest doubtful ids w -> whole_synced digest doubtful (visible w) -> exec faulty (open digest) w o ->
  keeps digest doubtful ids (world_of o).
Proof.
  intros [He Hi] Hset Ho. apply open_recovers in Ho as (o' & Ho & <-). revert Ho. generalize o'. clear o o'.
  intros o Ho. split.
  - apply (cwp_every (steady digest doubtful) (recover_temporary_files digest) w o); [|done].
    apply cwp_steady_recover. by split.
  - intros i H. destruct (Hi i H) as [Hl Hw]. split; [done|].
    eapply exec_harmless; [by apply harmless_recover|done|exact Ho].
Qed.

(** A returned id joins the items that are kept, unless it is doubtful. *)
Lemma accept_keeps_receipt ids w body w' i :
  keeps digest doubtful ids w -> vouched doubtful i w ->
  exec faulty (enqueue digest max_bytes body) w (Done w' (inr i)) ->
  keeps digest doubtful ({[i]} ∖ doubtful ∪ ids) w'.
Proof.
  intros Hk Hv Ho. destruct (enqueue_keeps ids w body _ Hk Ho) as [He Hi]. split; [done|].
  intros j [[->%elem_of_singleton Hd]%elem_of_difference|Hj]%elem_of_union; [|by apply Hi].
  destruct Hv as [Hv|Hcl]; [done|].
  pose proof (cwp_sound_enqueue digest doubtful faulty max_bytes body w (proj1 Hk) _ Ho) as [_ Hr].
  destruct (Hr i eq_refl) as [-> Hst]. auto.
Qed.

Lemma life_keeps w ids : life w ids -> keeps digest doubtful (ids ∖ doubtful) w.
Proof.
  induction 1 as [|w ids s _ IH Hc|w ids o _ IH Hset Ho|w ids body w' i _ IH Hcl Ho|w ids body o _ IH Ho
                  |w ids item o _ IH Hp Ho|w ids item o _ IH Hp Ho].
  - split; [by apply every_restart, sound_empty|]. by intros i [Hi%elem_of_empty _]%elem_of_difference.
  - by eapply keeps_crash.
  - by eapply open_keeps.
  - rewrite difference_union_distr_l_L. by eapply accept_keeps_receipt.
  - by eapply enqueue_keeps.
  - eapply cwp_every; [|exact Ho]. by apply cwp_keeps_quarantine.
  - destruct IH as [He Hi]. split.
    + eapply cwp_every; [|exact Ho]. by apply cwp_sound_acknowledge.
    + intros i [[H Hne%not_elem_of_singleton]%elem_of_difference Hd]%elem_of_difference.
      destruct (Hi i) as [Hl Hw]; [by apply elem_of_difference|]. split; [done|].
      eapply exec_harmless; [by apply harmless_acknowledge|done|exact Ho].
Qed.

(** A kept item is on disk, whole, after a crash. *)
Lemma keeps_on_disk ids w i s :
  keeps digest doubtful ids w -> i ∈ ids -> i ∉ doubtful -> crash w s ->
  exists d f, s !! (d, json_name i) = Some f /\ digest (content f) = i.
Proof.
  intros [He Hk] Hi Hd Hc. destruct (Hk i Hi) as [Hlen Hst].
  destruct (every_crash _ _ _ He Hc) as (t & Ht & Hs).
  destruct (every_crash _ _ _ Hst Hc) as (t' & Ht' & Hs').
  pose proof (sound_scrambled _ _ _ _ Ht Hs) as Hsound.
  destruct (stored_scrambled _ _ _ Ht' Hs') as [[f Hf]|[f Hf]]; eexists _, f; (split; [exact Hf|]);
    by eapply Hsound.
Qed.

(** C14: At least once.  In any history of enqueues, acknowledgements, moves to
    quarantine, restarts, I/O errors, cut off calls and crashes of the machine, an
    accepted item that no one acknowledged is on disk after the next crash too,
    pending or in quarantine, under its id and with a content of that digest;
    unless it is doubtful.  The doubtful items are those which a restart found
    whole in a temporary file that was never synced, and those accepted while
    already on disk and waiting for a sync of the directory: the code can lose them,
    as [recovered_not_durable] and [retry_not_durable] show. *)
Theorem at_least_once w ids i s :
  life w ids -> i ∈ ids -> i ∉ doubtful -> crash w s ->
  exists d f, s !! (d, json_name i) = Some f /\ digest (content f) = i.
Proof.
  intros Hl Hi Hd Hc. eapply keeps_on_disk; [by apply life_keeps| |done|done]. by apply elem_of_difference.
Qed.
End history.

(** ** No history is left out *)
Section doubtful.
Context (digest : bytes -> string) (max_bytes : Z) (faulty : bool).
Abbreviation life := (life digest max_bytes).

Lemma whole_synced_mono doubtful doubtful' t :
  doubtful ⊆ doubtful' -> whole_synced digest doubtful t -> whole_synced digest doubtful' t.
Proof. intros Hs H n i f Hn Hi. apply (H n i f Hn). by intros Hi'%Hs. Qed.

Lemma vouched_mono doubtful doubtful' i w : doubtful ⊆ doubtful' -> vouched doubtful i w -> vouched doubtful' i w.
Proof. intros Hs [Hd|Hc]; [left; by apply Hs|by right]. Qed.

(** The conditions of a history only get weaker with more names. *)
Lemma life_mono doubtful doubtful' w ids :
  doubtful ⊆ doubtful' -> life doubtful faulty w ids -> life doubtful' faulty w ids.
Proof.
  intros Hs. induction 1.
  - apply life_new.
  - by eapply life_crash.
  - eapply life_open; [done|by eapply whole_synced_mono|done].
  - eapply life_accept; [done|by eapply vouched_mono|done].
  - by eapply life_enqueue.
  - by eapply life_quarantine.
  - by eapply life_acknowledge.
Qed.

(** The names a restart makes doubtful: of temporary files that are whole and were
    never synced *)
Definition unsynced_name (t : fs) (n : string) : option string :=
  match temporary_id n, t !! (Root, n) with
  | Some i, Some f => if String.eqb (digest (content f)) i && negb (synced f) then Some i else None
  | _, _ => None
  end.
Definition unsynced_names (t : fs) : gset string := list_to_set (omap (unsynced_name t) (listing Root t)).

Lemma unsynced_names_whole doubtful t : unsynced_names t ⊆ doubtful -> whole_synced digest doubtful t.
Proof.
  intros Hs n i f Hn Hi Hf Hd. destruct (synced f) eqn:Hsy; [done|]. exfalso. apply Hi, Hs.
  apply elem_of_list_to_set, list_elem_of_omap. exists n. split; [apply list_elem_of_In, listing_In; eauto|].
  unfold unsynced_name. by rewrite Hn, Hf, Hd, String.eqb_refl, Hsy.
Qed.

Lemma life_open_any doubtful w ids o :
  life doubtful faulty w ids -> exec faulty (open digest) w o ->
  life (unsynced_names (visible w) ∪ doubtful) faulty (world_of o) ids.
Proof.
  intros Hl Ho. eapply life_open; [eapply life_mono; [by apply union_subseteq_r|exact Hl]| |exact Ho].
  by apply unsynced_names_whole, union_subseteq_l.
Qed.

Lemma life_accept_any doubtful w ids body w' i :
  life doubtful faulty w ids -> exec faulty (enqueue digest max_bytes body) w (Done w' (inr i)) ->
  life ({[i]} ∪ doubtful) faulty w' ({[i]} ∪ ids).
Proof.
  intros Hl Ho. eapply life_accept; [eapply life_mono; [by apply union_subseteq_r|exact Hl]| |exact Ho].
  left. by apply elem_of_union_l, elem_of_singleton.
Qed.
End doubtful.

(** * Reading the spool back *)

(** The item a directory entry makes. *)
Definition entry_item (s : fs) (name : string) : option PendingItem :=
  match s !! (Root, name) with
  | Some f =>
      if is_json name && utf8 (file_stem name)
      then Some {| id := file_stem name; item_path := (Root, name); item_bytes := len (content f) |}
      else None
  | None => None
  end.

Definition id_le (x y : PendingItem) : Prop := String.leb (id x) (id y) = true.

Lemma string_leb_cons a s b t :
  String.leb (String a s) (String b t) = true <->
  (Ascii.compare a b = Lt \/ a = b /\ String.leb s t = true).
Proof.
  unfold String.leb. cbn [String.compare]. destruct (Ascii.compare a b) eqn:Hab.
  - apply Ascii.compare_eq_iff in Hab as ->. split; [auto|]. by intros [|[_ H]].
  - by split; [left|].
  - split; [done|]. intros [H|[-> _]]; [done|]. unfold Ascii.compare in Hab. by rewrite N.compare_refl in Hab.
Qed.

Lemma string_leb_trans s t u : String.leb s t = true -> String.leb t u = true -> String.leb s u = true.
Proof.
  revert t u. induction s as [|a s IH]; intros [|b t] [|c u]; try done.
  rewrite !string_leb_cons. unfold Ascii.compare. rewrite !N.compare_lt_iff.
  intros [H1|[-> H1]] [H2|[-> H2]]; [left; by etrans|by left|by left|right]. split; [done|by eapply IH].
Qed.

#[export] Instance id_le_trans : Transitive id_le.
Proof. intros x y z. apply string_leb_trans. Qed.

Lemma insert_item_perm x l : Permutation (insert_item x l) (x :: l).
Proof.
  induction l as [|y l IH]; [done|]. simpl. destruct (String.leb (id x) (id y)); [done|].
  by rewrite IH, Permutation_swap.
Qed.

Lemma sort_items_perm l : Permutation (sort_items l) l.
Proof. induction l as [|x l IH]; [done|]. simpl. rewrite insert_item_perm. by rewrite IH. Qed.

Lemma insert_item_sorted x l : Sorted id_le l -> Sorted id_le (insert_item x l).
Proof.
  assert (forall a b, id_le a b \/ id_le b a) as Htotal by (intros a b; unfold id_le; apply String.leb_total).
  induction l as [|y l IH]; intros Hl; simpl; [by repeat constructor|].
  destruct (String.leb (id x) (id y)) eqn:Hxy; [by constructor; [|constructor]|].
  assert (id_le y x) as Hyx by (destruct (Htotal x y) as [H|H]; [unfold id_le in H; congruence|done]).
  apply Sorted_inv in Hl as [Hl Hhd]. constructor; [by apply IH|].
  destruct l as [|z l]; simpl; [by constructor|].
  destruct (String.leb (id x) (id z)); constructor; [done|]. by inversion Hhd.
Qed.

Lemma sort_items_sorted l : Sorted id_le (sort_items l).
Proof. induction l as [|x l IH]; simpl; [constructor|]. by apply insert_item_sorted. Qed.

Lemma cwp_pending_loop w names found :
  incl names (listing Root (visible w)) ->
  cwp false
    (fun w' r => w' = w /\ r = inr (found ++ omap (entry_item (visible w)) names))
    (fun w' => w' = w) (pending_loop (inr <$> names) found) w.
Proof.
  revert found. induction names as [|name names IH]; intros found Hin.
  - apply cwp_ret; [done|]. split; [done|]. by rewrite app_nil_r.
  - assert (exists f, visible w !! (Root, name) = Some f) as [f Hf].
    { specialize (Hin name (or_introl eq_refl)). unfold listing in Hin.
      apply list_elem_of_In, list_elem_of_omap in Hin as ([[d n] f] & Hin & Hd).
      simpl in Hd. destruct (decide (d = Root)) as [->|]; [|done]. injection Hd as ->.
      exists f. by apply elem_of_map_to_list. }
    assert (incl names (listing Root (visible w))) as Hin' by (intros n Hn; apply Hin; by right).
    cbn [fmap list_fmap pending_loop bindM bind_prog omap list_omap]. fold (omap (entry_item (visible w)) names).
    unfold entry_item at 1. rewrite Hf.
    destruct (is_json name); [|by apply IH]. cbn [negb andb].
    destruct (utf8 (file_stem name)); [|by apply IH]. cbn [negb].
    apply cwp_bindM, cwp_try; [done|]. intros w' t [Hs|[[=] _]]. simpl in Hs. rewrite Hf in Hs.
    injection Hs as -> ->. split; [done|]. eapply cwp_mono; [by apply IH| |done].
    intros w' r [-> ->]. split; [done|]. by rewrite <- app_assoc.
Qed.

Lemma listing_spec d t name : name ∈ listing d t <-> is_Some (t !! (d, name)).
Proof.
  split; [|intros H; by apply list_elem_of_In, listing_In].
  unfold listing. intros ([[d' n] f] & Hin & Hd)%list_elem_of_omap.
  simpl in Hd. destruct (decide (d' = d)) as [->|]; [|done]. injection Hd as ->.
  exists f. by apply elem_of_map_to_list.
Qed.

Lemma listing_nodup d t : NoDup (listing d t).
Proof.
  unfold listing. pose proof (NoDup_fst_map_to_list t) as H. revert H.
  generalize (map_to_list t). induction l as [|[[d' n] f] l IH]; intros H; [constructor|].
  apply NoDup_cons in H as [Hn H]. simpl. destruct (decide (d' = d)) as [->|]; [|by apply IH].
  apply NoDup_cons. split; [|by apply IH]. intros ([[d2 n2] f2] & Hin & Hd)%list_elem_of_omap.
  simpl in Hd. destruct (decide (d2 = d)) as [->|]; [|done]. injection Hd as ->.
  apply Hn, list_elem_of_fmap. by exists (d, n, f2).
Qed.

Lemma entry_item_name t name x : entry_item t name = Some x -> name = json_name (id x).
Proof.
  unfold entry_item. destruct (t !! _) as [f|]; [|done]. destruct (is_json name) eqn:Hj; [|done].
  destruct (utf8 _); [|done]. intros [= <-]. by apply is_json_inv.
Qed.

Lemma entry_items_nodup t names : NoDup names -> NoDup (id <$> omap (entry_item t) names).
Proof.
  induction names as [|name names IH]; intros H; [constructor|]. apply NoDup_cons in H as [Hn H].
  simpl. destruct (entry_item t name) as [x|] eqn:Hx; [|by apply IH].
  apply NoDup_cons. split; [|by apply IH].
  intros (y & Hy & (n & Hin & He)%list_elem_of_omap)%list_elem_of_fmap.
  apply entry_item_name in Hx, He. congruence.
Qed.

Lemma entry_paths_nodup t names : NoDup names -> NoDup (item_path <$> omap (entry_item t) names).
Proof.
  intros H. apply (NoDup_fmap_1 (fun p : path => file_stem p.2)). rewrite <- list_fmap_compose.
  rewrite (list_fmap_ext _ id); [by apply entry_items_nodup|].
  intros i x (name & _ & Hx)%list_elem_of_lookup_2%list_elem_of_omap. simpl. unfold entry_item in Hx.
  destruct (t !! _); [|done]. destruct (_ && _); [|done]. by injection Hx as <-.
Qed.

Lemma entry_item_file t name x :
  entry_item t name = Some x ->
  exists f, t !! (Root, name) = Some f /\ item_path x = (Root, name) /\
    forall t' f', t' !! (Root, name) = Some f' -> f' = f -> entry_item t' name = Some x.
Proof.
  unfold entry_item. destruct (t !! _) as [f|]; [|done]. intros H. exists f. split; [done|].
  split; [destruct (_ && _); [by injection H as <-|done]|]. by intros t' f' -> ->.
Qed.

(** The listing, up to its order. *)
Lemma cwp_pending_listed w :
  cwp false
    (fun w' r => w' = w /\ exists l, r = inr l /\
       Permutation l (omap (entry_item (visible w)) (listing Root (visible w))) /\ Sorted id_le l)
    (fun w' => w' = w) pending w.
Proof.
  apply cwp_bindM, cwp_try; [done|]. intros w1 t [(-> & names & Hp & ->)|[([=] & _)|([=] & _)]].
  split; [done|]. apply cwp_bindM. eapply cwp_mono; [apply cwp_pending_loop| |by intros ? ->].
  { intros n Hn. by apply (Permutation_in n Hp). }
  intros w' r [-> ->]. apply cwp_ret; [done|]. split; [done|]. rewrite app_nil_l. eexists. split; [done|].
  split; [|apply sort_items_sorted]. rewrite sort_items_perm. by rewrite Hp.
Qed.

(** The listing is exact.  Without I/O errors, in whatever order the
    directory is read, [pending] returns and changes nothing; its items are
    exactly the [.json] files of the root with a name that is valid text, each
    with its size, in ascending order of their ids and each id once. *)
Theorem pending_exact w o :
  exec false pending w o ->
  match o with
  | Done w' r =>
      w' = w /\ exists l, r = inr l /\ Sorted id_le l /\ NoDup (id <$> l) /\
      forall x, x ∈ l <-> exists name, entry_item (visible w) name = Some x
  | Crashed w' => w' = w
  end.
Proof.
  revert o. change (cwp false
    (fun w' r => w' = w /\ exists l, r = inr l /\ Sorted id_le l /\ NoDup (id <$> l) /\
      forall x, x ∈ l <-> exists name, entry_item (visible w) name = Some x) (fun w' => w' = w) pending w).
  eapply cwp_mono; [apply cwp_pending_listed| |done]. intros w' r (-> & l & -> & Hl & Hs).
  split; [done|]. exists l. split; [done|]. split; [done|]. split.
  - rewrite Hl. apply entry_items_nodup, listing_nodup.
  - intros x. rewrite Hl, list_elem_of_omap. split; [intros (n & _ & Hn); eauto|].
    intros [n Hn]. exists n. split; [|done]. apply listing_spec.
    unfold entry_item in Hn. by destruct (visible w !! _); [eauto|].
Qed.

(** * What a returned id means at once *)
Section visible.
Context (digest : bytes -> string) (max_bytes : Z) (faulty : bool) (body : bytes).

Definition seen (w : world) (r : SpoolError + string) : Prop :=
  forall i, r = inr i -> i = digest body /\ stored i (visible w).

Lemma cwp_skip {A} (c : call (io A)) (k : A -> M string) w :
  (forall w' a, cwp faulty seen (fun _ => True) (k a) w') ->
  cwp faulty seen (fun _ => True) (bindM (try c) k) w.
Proof. intros Hk. apply cwp_bindM, cwp_try; [done|]. intros w' [e|a] _; by split. Qed.

Lemma cwp_enqueue_visible w : cwp faulty seen (fun _ => True) (enqueue digest max_bytes body) w.
Proof.
  assert (forall d, is_Some (visible w !! (d, json_name (digest body))) ->
    cwp faulty seen (fun _ => True) (good (digest body)) w) as Hfound.
  { intros d Hd. apply cwp_ret; [done|]. intros i [= <-]. split; [done|]. destruct d; [by left|by right]. }
  unfold enqueue. apply cwp_do; [done|]. intros w1 e1 [-> He1].
  destruct e1; [apply (Hfound Root); destruct He1 as [He1|[_ [=]]]; by apply present|].
  apply cwp_do; [done|]. intros w2 e2 [-> He2].
  destruct e2; [apply (Hfound Quarantine); destruct He2 as [He2|[_ [=]]]; by apply present|].
  apply cwp_bindM. eapply cwp_mono; [apply cwp_directory_stats| |done]. intros w3 [e|pend] [-> _]; [by split|].
  apply cwp_bindM. eapply cwp_mono; [apply cwp_directory_stats| |done]. intros w4 [e|quar] [-> _]; [by split|].
  cbv zeta. destruct (max_bytes <? _); [by apply cwp_ret|].
  unfold store. do 3 (apply cwp_skip; intros ? _).
  apply cwp_bindM, cwp_try; [done|]. intros w5 t [Hs|(_ & -> & e & ->)]; [|by split].
  simpl in Hs. destruct (visible _ !! (Root, tmp_name _)) as [f|] eqn:Hf; injection Hs as -> ->; [|by split].
  split; [done|]. apply cwp_bindM, cwp_try; [done|].
  intros w6 t [[= -> ->]|(_ & -> & e & ->)]; [|by split]. split; [done|]. apply cwp_ret; [done|].
  intros i [= <-]. split; [done|]. left. change (visible (flush ?w)) with (visible w).
  rewrite visible_log. cbn [apply]. rewrite Hf, lookup_insert_eq. eauto.
Qed.

(** What a call of [enqueue] does to the items, from any disk: nothing, or it
    places this one, whole. *)
Definition placed (w w' : world) : Prop :=
  jsons (visible w') = jsons (visible w) \/
  jsons (visible w') = <[final digest body := whole body]> (jsons (visible w)).

Lemma placed_same w w' : jsons (visible w') = jsons (visible w) -> placed w w'.
Proof. by left. Qed.

Abbreviation places w := (cwp faulty (fun w' _ => placed w w') (fun _ => True)).

Lemma cwp_places_publish w w1 :
  slen (digest body) = 64 -> jsons (visible w1) = jsons (visible w) ->
  (forall f, visible w1 !! (Root, tmp_name (digest body)) = Some f -> f = whole body) ->
  places w (let? _ := try (RenameTo (Root, tmp_name (digest body)) (Root, json_name (digest body))) in
            let? _ := try (SyncDir Root) in good (digest body)) w1.
Proof.
  intros Hlen Hj Hf. pose proof (is_json_tmp (digest body)) as Htmp. apply cwp_bindM, cwp_try; [done|].
  intros w2 t [Hs|(_ & -> & e & ->)]; [|by split; [|split; [|apply placed_same]]].
  simpl in Hs. destruct (visible w1 !! _) as [f|] eqn:Hg; injection Hs as -> ->; [|by split; [|split; [|apply placed_same]]].
  rewrite (Hf f eq_refl) in Hg. set (w2 := log _ w1).
  assert (placed w w2) as Hw2.
  { right. unfold w2. rewrite visible_log. cbn [apply].
    by rewrite Hg, jsons_insert, jsons_delete_other, Hj by (done || by apply id_json). }
  split; [done|]. apply cwp_bindM, cwp_try; [done|].
  intros w3 t [[= -> ->]|(_ & -> & e & ->)]; (split; [done|]); [by apply cwp_ret|by split].
Qed.

Lemma cwp_enqueue_places w :
  slen (digest body) = 64 -> places w (enqueue digest max_bytes body) w.
Proof.
  intros Hlen. pose proof (is_json_tmp (digest body)) as Htmp.
  assert (placed w w) as Hsame by (by left).
  unfold enqueue. apply cwp_do; [done|]. intros w1 e1 [-> _]. destruct e1; [by apply cwp_ret|].
  apply cwp_do; [done|]. intros w2 e2 [-> _]. destruct e2; [by apply cwp_ret|].
  apply cwp_bindM. eapply cwp_mono; [apply cwp_directory_stats| |done]. intros w3 [e|pend] [-> _]; [by split|].
  apply cwp_bindM. eapply cwp_mono; [apply cwp_directory_stats| |done]. intros w4 [e|quar] [-> _]; [by split|].
  cbv zeta. destruct (max_bytes <? _); [by apply cwp_ret|]. unfold store.
  apply cwp_bindM, cwp_try; [done|]. intros w5 t [Hs|(_ & -> & e & ->)]; [|by split].
  simpl in Hs. destruct (visible w !! _) as [g|] eqn:Hg; injection Hs as -> ->; [by split|]. split; [done|].
  assert (jsons (visible (log (Create (Root, tmp_name (digest body))) w)) = jsons (visible w)) as Hj1
    by (rewrite visible_log; by apply jsons_insert_other).
  apply cwp_bindM, cwp_try; [done|]. intros w6 t Hs.
  assert (exists part, w6 = log (Write (Root, tmp_name (digest body)) part) (log (Create (Root, tmp_name (digest body))) w) /\
    (t = inr tt -> part = body)) as (part & -> & Hpart).
  { destruct Hs as [[= -> ->]|(_ & part & e & _ & -> & ->)]; [by exists body|]. by exists part. }
  set (w6 := log (Write _ part) _).
  assert (jsons (visible w6) = jsons (visible w)) as Hj2
    by (unfold w6; rewrite visible_log; cbn [apply]; by rewrite jsons_alter_other).
  split; [done|]. destruct t as [e|[]]; [split; [done|by apply placed_same]|]. specialize (Hpart eq_refl) as ->.
  apply cwp_bindM, cwp_try; [done|].
  intros w7 t [[= -> ->]|(_ & -> & e & ->)]; (split; [done|]); [|split; [done|by apply placed_same]].
  apply cwp_places_publish; [done| |].
  - rewrite visible_log. cbn [apply]. by rewrite jsons_alter_other.
  - intros f. unfold w6. rewrite !visible_log. cbn [apply].
    by rewrite !lookup_alter_eq, lookup_insert_eq; intros [= <-].
Qed.
End visible.

(** * Enqueue without I/O errors *)
Section sizes.
Context (d : dir) (w : world).

Lemma cwp_stats_loop_ok names st :
  incl names (listing d (visible w)) ->
  cwp false (fun w' r => exists st', r = inr st') (fun _ => True) (stats_loop d (inr <$> names) st) w.
Proof.
  revert st. induction names as [|name names IH]; intros st Hin; [by apply cwp_ret; eauto|].
  assert (incl names (listing d (visible w))) as Hin' by (intros n Hn; apply Hin; by right).
  assert (is_Some (visible w !! (d, name))) as [f Hf].
  { apply listing_spec, list_elem_of_In, Hin. by left. }
  cbn [fmap list_fmap stats_loop bindM bind_prog]. destruct (is_json name); [|by apply IH].
  apply cwp_bindM, cwp_try; [done|]. intros w' t [Hs|[[=] _]]. simpl in Hs. rewrite Hf in Hs.
  injection Hs as -> ->. split; [done|]. by apply IH.
Qed.

Lemma cwp_directory_size :
  cwp false
    (fun w' r => w' = w /\ exists st, r = inr st /\ stat_bytes st = Z.min u64_max (dir_bytes d (visible w)))
    (fun w' => w' = w) (directory_stats d) w.
Proof.
  assert (cwp false (fun w' r => exists st, r = inr st) (fun _ => True) (directory_stats d) w) as Hok.
  { apply cwp_bindM, cwp_try; [done|]. intros w1 t [(-> & names & Hp & ->)|[([=] & _)|([=] & _)]].
    split; [done|]. apply cwp_stats_loop_ok. intros n Hn. by apply (Permutation_in n Hp). }
  intros o Ho. pose proof (cwp_directory_stats false d w o Ho) as Hsize. specialize (Hok o Ho).
  destruct o as [w' r|w']; [|done]. destruct Hok as [st ->], Hsize as [-> Hsize]. eauto.
Qed.
End sizes.

(** Steps of a run without faults. *)
Lemma cwp_do_false {A} (Q : world -> A -> Prop) {T} (c : call T) k w :
  match c with ReadDir _ | Request _ _ => False | _ => True end ->
  cwp false Q (fun _ => True) (k (perform c w).2) (perform c w).1 ->
  cwp false Q (fun _ => True) (Do c k) w.
Proof.
  intros Hc Hk. apply cwp_do; [done|]. intros w' t Hs.
  assert ((w', t) = perform c w) as He
    by (destruct c; try done; simpl in Hs |- *;
        first [by destruct Hs as [-> [->|[[=] _]]]|destruct Hs as [Hs|[[=] _]]; exact Hs]).
  by rewrite <- He in Hk.
Qed.

(** The state once the temporary file is written and synced. *)
Definition filled (digest : bytes -> string) (w : world) (body : bytes) : world :=
  let tmp := (Root, tmp_name (digest body)) in
  log (SyncFile tmp) (log (Write tmp body) (log (Create tmp) w)).

Lemma visible_filled digest w body :
  visible (filled digest w body) =
    <[(Root, tmp_name (digest body)) := {| content := body; synced := true |}]> (visible w).
Proof. unfold filled. rewrite !visible_log. cbn [apply]. by rewrite !alter_insert_eq. Qed.

Section exact.
Context (digest : bytes -> string) (Hdigest : forall body, slen (digest body) = 64).
Context (max_bytes : Z) (w : world) (body : bytes).

Abbreviation fin := (Root, json_name (digest body)).
Abbreviation tmp := (Root, tmp_name (digest body)).

(** What [enqueue] returns and leaves, branch by branch. *)
Definition enqueue_spec (w' : world) (r : SpoolError + string) : Prop :=
  let used := Z.min u64_max (total (visible w)) in
  if decide (stored (digest body) (visible w)) then r = inr (digest body) /\ w' = w
  else if max_bytes <? Z.min u64_max (total (visible w) + len body)
  then r = inl (CapacityExceeded used (len body) max_bytes) /\ w' = w
  else match visible w !! tmp with
  | Some _ => r = inl (Io AlreadyExists) /\ w' = w
  | None =>
      r = inr (digest body) /\ journal w' = [] /\
      visible w' = <[fin := {| content := body; synced := true |}]> (visible w)
  end.

Lemma cwp_store_exact :
  cwp false
    (fun w' r => match visible w !! tmp with
                 | Some _ => r = inl (Io AlreadyExists) /\ w' = w
                 | None => r = inr (digest body) /\ journal w' = [] /\
                           visible w' = <[fin := {| content := body; synced := true |}]> (visible w)
                 end)
    (fun _ => True) (store (digest body) body) w.
Proof.
  unfold store. destruct (visible w !! tmp) as [g|] eqn:Hg; apply cwp_do_false; try done; cbn [perform]; rewrite Hg.
  - by apply cwp_ret.
  - do 3 (apply cwp_do_false; [done|]; cbn [perform fst snd bind_prog]).
    fold (filled digest w body). pose proof (visible_filled digest w body) as Hv.
    rewrite Hv, lookup_insert_eq. cbn [fst snd bind_prog bindM].
    apply cwp_do_false; [done|]. cbn [perform fst snd bind_prog].
    apply cwp_ret; [done|]. split; [done|]. split; [done|].
    change (visible (log (Rename tmp fin) (filled digest w body)) = <[fin := {| content := body; synced := true |}]> (visible w)).
    rewrite visible_log. cbn [apply]. rewrite Hv, lookup_insert_eq. by rewrite delete_insert_id.
Qed.

Lemma present_perform p : (perform (Exists_ p) w).2 = true <-> is_Some (visible w !! p).
Proof. simpl. destruct (visible w !! p); [|by split; [|intros []]]. split; [eauto|done]. Qed.

Lemma saturating_totals a b c : 0 <= a -> 0 <= b -> 0 <= c ->
  saturating_add u64_max (saturating_add u64_max (Z.min u64_max a) (Z.min u64_max b)) c =
    Z.min u64_max (a + b + c) /\
  saturating_add u64_max (Z.min u64_max a) (Z.min u64_max b) = Z.min u64_max (a + b).
Proof. unfold saturating_add. lia. Qed.

Lemma cwp_enqueue_exact : cwp false enqueue_spec (fun _ => True) (enqueue digest max_bytes body) w.
Proof.
  unfold enqueue, enqueue_spec. cbv zeta.
  destruct (decide (stored (digest body) (visible w))) as [Hst|Hst]; apply cwp_do_false; try done.
  { destruct (perform (Exists_ fin) w).2 eqn:H1; cbn [perform fst]; [by apply cwp_ret|].
    apply cwp_do_false; [done|].
    destruct (perform (Exists_ (Quarantine, json_name (digest body))) w).2 eqn:H2; cbn [perform fst];
      [by apply cwp_ret|].
    destruct Hst as [H%present_perform|H%present_perform]; congruence. }
  destruct (perform (Exists_ fin) w).2 eqn:H1; cbn [perform fst].
  { destruct Hst. left. by apply present_perform. }
  apply cwp_do_false; [done|].
  destruct (perform (Exists_ (Quarantine, json_name (digest body))) w).2 eqn:H2; cbn [perform fst].
  { destruct Hst. right. by apply present_perform. }
  apply cwp_bindM. eapply cwp_mono; [apply cwp_directory_size| |done]. intros w1 r [-> (p & -> & Hp)].
  apply cwp_bindM. eapply cwp_mono; [apply cwp_directory_size| |done]. intros w1 r [-> (q & -> & Hq)].
  rewrite Hp, Hq. unfold dir_bytes.
  edestruct saturating_totals as [Hs1 Hs2]; [apply total_of_nonneg|apply total_of_nonneg|apply (len_nonneg body)|].
  rewrite Hs1, Hs2. fold (dir_bytes Root (visible w)) (dir_bytes Quarantine (visible w)).
  rewrite <- total_dirs. destruct (max_bytes <? _); [by apply cwp_ret|]. apply cwp_store_exact.
Qed.
End exact.

(** Enqueue, branch by branch.  Without I/O errors, in whatever order the
    directories are read, [enqueue] returns the digest and changes nothing when
    the item is pending or quarantined; refuses a body that does not fit with
    the exact sizes (saturating at 2^64-1); fails when a temporary file of that
    name is there; and otherwise adds exactly the item, durably. *)
Theorem enqueue_exact digest max_bytes w body w' r :
  exec false (enqueue digest max_bytes body) w (Done w' r) -> enqueue_spec digest max_bytes w body w' r.
Proof. apply (cwp_enqueue_exact digest max_bytes w body (Done w' r)). Qed.

(** * I/O errors that break a promise *)

(** One step of a run, by what the call does without faults. *)
Lemma exec_perform {A} faulty {T} (c : call T) (k : T -> prog A) w o :
  exec faulty (k (perform c w).2) (perform c w).1 o -> exec faulty (Do c k) w o.
Proof. intros H. right. eexists _, _. split; [apply step_perform|done]. Qed.

Section errors.
Context (digest : bytes -> string) (Hdigest : forall body, slen (digest body) = 64).
Context (max_bytes : Z) (body : bytes) (Hfit : len body <= max_bytes).

Abbreviation fin := (Root, json_name (digest body)).
Abbreviation tmp := (Root, tmp_name (digest body)).

(** [enqueue] on an empty spool gets to its writing part. *)
Lemma enqueue_empty faulty o :
  exec faulty (store (digest body) body) (restart ∅) o ->
  exec faulty (enqueue digest max_bytes body) (restart ∅) o.
Proof.
  intros Ho. unfold enqueue. do 4 (apply exec_perform; cbn [perform fst snd]).
  change (listing Root (visible (restart ∅))) with (@nil string).
  change (listing Quarantine (visible (restart ∅))) with (@nil string).
  cbv zeta. cbn. unfold saturating_add. pose proof (len_nonneg body).
  replace (max_bytes <? _) with false by lia. done.
Qed.

(** [store], after the temporary file was created *)
Lemma store_created faulty o :
  exec faulty
    (let? _ := try (WriteAll tmp body) in let? _ := try (SyncAll tmp) in
     let? _ := try (RenameTo tmp fin) in let? _ := try (SyncDir Root) in good (digest body))
    (log (Create tmp) (restart ∅)) o ->
  exec faulty (store (digest body) body) (restart ∅) o.
Proof.
  intros Ho. apply exec_perform. cbn [perform]. change (visible (restart ∅)) with (∅ : fs).
  rewrite lookup_empty. exact Ho.
Qed.

Lemma stored_empty : ~ stored (digest body) ∅.
Proof. intros [[f H]|[f H]]; by rewrite lookup_empty in H. Qed.

(** The state after the rename. *)
Definition renamed : world := log (Rename tmp fin) (filled digest (restart ∅) body).

Lemma visible_renamed : visible renamed = <[fin := {| content := body; synced := true |}]> ∅.
Proof.
  unfold renamed. rewrite visible_log. cbn [apply]. rewrite visible_filled, lookup_insert_eq.
  by rewrite delete_insert_id by apply lookup_empty.
Qed.

(** The failed call of a run. *)
Lemma exec_fault {A} (c : call (io unit)) (k : io unit -> prog A) w e o :
  (forall w' t, w' = w -> t = inl e -> step true c w w' t) -> exec true (k (inl e)) w o -> exec true (Do c k) w o.
Proof. intros Hs Ho. right. exists w, (inl e). split; [by apply Hs|done]. Qed.

Lemma exec_ret {A} faulty (a : A) w : exec faulty (Ret a) w (Done w a).
Proof. by right. Qed.

(** C37: A retry can accept an item that is not durable.  The sync of the
    directory fails after the rename, and [enqueue] reports the error.  The
    sender retries; the retry finds the file, returns its id without syncing the
    directory, and a crash of the machine then loses the accepted item. *)
Theorem retry_not_durable :
  exists w1 e, exec true (enqueue digest max_bytes body) (restart ∅) (Done w1 (inl (Io e))) /\
    exec false (enqueue digest max_bytes body) w1 (Done w1 (inr (digest body))) /\
    crash w1 ∅ /\ ~ stored (digest body) ∅.
Proof.
  exists renamed, OtherIo. split; [|split; [|split; [|apply stored_empty]]].
  - apply enqueue_empty, store_created. do 2 (apply exec_perform; cbn [perform fst snd bind_prog bindM]).
    fold (filled digest (restart ∅) body). apply exec_perform. cbn [perform].
    rewrite visible_filled, lookup_insert_eq. cbn [fst snd bind_prog bindM].
    apply (exec_fault _ _ _ OtherIo); [|apply exec_ret]. intros w' t -> ->. right. split; [done|]. split; eauto.
  - unfold enqueue. apply exec_perform. cbn [perform]. rewrite visible_renamed, lookup_insert_eq. apply exec_ret.
  - by apply crash_durable.
Qed.

(** A failed write blocks its body.  When the write fails, the temporary
    file stays; from then on, with no further error, every [enqueue] of the same
    body fails with [AlreadyExists], until a restart recovers the file. *)
Theorem failed_write_blocks :
  exists w1 e, exec true (enqueue digest max_bytes body) (restart ∅) (Done w1 (inl (Io e))) /\
    forall w2 r, exec false (enqueue digest max_bytes body) w1 (Done w2 r) ->
      r = inl (Io AlreadyExists) /\ w2 = w1.
Proof.
  set (w1 := log (Write tmp []) (log (Create tmp) (restart ∅))). exists w1, OtherIo. split.
  - apply enqueue_empty, store_created.
    right. exists w1, (inl OtherIo). split; [|apply exec_ret].
    right. split; [done|]. exists [], OtherIo. split; [apply prefix_nil|done].
  - assert (visible w1 = <[tmp := {| content := []; synced := false |}]> ∅) as Hv
      by (unfold w1; rewrite !visible_log; cbn [apply]; by rewrite alter_insert_eq).
    intros w2 r Hr. pose proof (cwp_enqueue_exact digest max_bytes w1 body _ Hr) as Hspec.
    unfold enqueue_spec in Hspec. rewrite Hv in Hspec.
    rewrite decide_False in Hspec.
    + assert (total (<[tmp := {| content := []; synced := false |}]> ∅) = 0) as Ht.
      { rewrite total_insert by apply lookup_empty. unfold weight. simpl. by rewrite is_json_tmp. }
      rewrite Ht in Hspec. replace (max_bytes <? _) with false in Hspec by lia.
      by rewrite lookup_insert_eq in Hspec.
    + intros [[f H]|[f H]]; apply lookup_insert_Some in H as [[[=] _]|[_ H]]; try done.
      pose proof (is_json_tmp (digest body)) as Hj. pose proof (final_json digest Hdigest body). congruence.
Qed.
(** The disk after a process stopped between [write_all] and [sync_all]. *)
Definition unsynced : world := log (Write tmp body) (log (Create tmp) (restart ∅)).

Lemma visible_unsynced : visible unsynced = {[ tmp := {| content := body; synced := false |} ]}.
Proof. unfold unsynced. rewrite !visible_log. cbn [apply]. by rewrite alter_insert_eq. Qed.

Lemma listing_singleton n f : listing Root {[ (Root, n) := f ]} = [n].
Proof. unfold listing. by rewrite map_to_list_singleton. Qed.

Lemma recover_unsynced :
  forallb is_ascii_hexdigit (bytes_of (digest body)) = true ->
  exec false (open digest) unsynced
    (Done (flush (log (Rename tmp fin) unsynced)) (inr tt)).
Proof.
  intros Hx. assert (temporary_id (tmp_name (digest body)) = Some (digest body)) as Hid by (by apply temporary_id_tmp).
  pose proof (is_json_tmp (digest body)) as Hj. pose proof (final_json digest Hdigest body) as Hf.
  assert (forall d, (d, json_name (digest body)) <> tmp) as Hne by (intros d [= _ H]; congruence).
  unfold open. do 2 (apply exec_perform; cbn [perform fst snd bind_prog]).
  unfold recover_temporary_files. apply exec_perform. cbn [perform fst snd].
  rewrite visible_unsynced, listing_singleton. cbn [fmap list_fmap bindM bind_prog recover_loop].
  apply exec_perform. cbn [perform fst snd]. rewrite visible_unsynced, lookup_singleton_eq.
  cbn [fst snd bind_prog negb]. rewrite Hid. cbn [bindM bind_prog recover_file].
  do 2 (apply exec_perform; cbn [perform fst snd]; rewrite visible_unsynced, lookup_singleton_ne by (symmetry; apply Hne);
    cbn [fst snd bind_prog]).
  apply exec_perform. cbn [perform fst snd]. rewrite visible_unsynced, lookup_singleton_eq. cbn [fst snd bind_prog content].
  unfold good. cbn [bind_prog].  rewrite String.eqb_refl. cbn [bindM bind_prog try].
  apply exec_perform. cbn [perform fst snd]. rewrite visible_unsynced, lookup_singleton_eq. cbn [fst snd bind_prog].
  apply exec_perform. apply exec_ret.
Qed.

Definition emptied : fs := {[ fin := {| content := []; synced := true |} ]}.

(** Recovery can publish a file that is not durable.  The process stops
    after [write_all] and before [sync_all]; the next process finds the file
    complete, renames it and syncs the directory, but not the file.  A sender
    that retries gets the id back, and a crash of the machine then leaves the
    item without its content. *)
Theorem recovered_not_durable :
  forallb is_ascii_hexdigit (bytes_of (digest body)) = true ->
  exists w1 w2,
    exec true (enqueue digest max_bytes body) (restart ∅) (Crashed w1) /\
    exec false (open digest) w1 (Done w2 (inr tt)) /\
    exec false (enqueue digest max_bytes body) w2 (Done w2 (inr (digest body))) /\
    exists s, crash w2 s /\ s !! fin = Some {| content := []; synced := true |}.
Proof.
  intros Hx. exists unsynced, (flush (log (Rename tmp fin) unsynced)).
  assert (visible (log (Rename tmp fin) unsynced) = {[ fin := {| content := body; synced := false |} ]}) as Hv.
  { rewrite visible_log. cbn [apply]. rewrite visible_unsynced, lookup_singleton_eq.
    by rewrite delete_singleton_eq. }
  split; [|split; [by apply recover_unsynced|split]].
  - apply enqueue_empty, store_created. apply exec_perform. by left.
  - unfold enqueue. apply exec_perform. cbn [perform].
    change (visible (flush ?w)) with (visible w). rewrite Hv, lookup_singleton_eq. apply exec_ret.
  - exists emptied. split; [|apply lookup_singleton_eq]. exists [], []. split; [done|].
    cbn [apply_all fold_left durable flush]. rewrite Hv. intros p.
    destruct (decide (p = fin)) as [->|Hne]; [unfold emptied; by rewrite !lookup_singleton_eq|].
    unfold emptied. by rewrite !lookup_singleton_ne by done.
Qed.
End errors.

(** * Examples *)

(** A spool that accepted two items, the second one still to be delivered. *)
Definition two_bodies : bytes := [x02; x03].
Definition first_run : world * (SpoolError + string) := run (enqueue sample_digest 10 [x01]) (restart ∅).
Definition second_run : world * (SpoolError + string) :=
  run (enqueue sample_digest 10 two_bodies) first_run.1.
Definition first_item : PendingItem :=
  {| id := sample_digest [x01]; item_path := (Root, json_name (sample_digest [x01])); item_bytes := 1 |}.
Definition delivered : world * (SpoolError + unit) := run (acknowledge first_item) second_run.1.

Lemma first_run_exec faulty :
  exec faulty (enqueue sample_digest 10 [x01]) (restart ∅) (Done first_run.1 (inr (sample_digest [x01]))).
Proof.
  assert (first_run.2 = inr (sample_digest [x01])) as <- by (vm_compute; reflexivity). apply run_exec.
Qed.

Lemma second_run_exec faulty :
  exec faulty (enqueue sample_digest 10 two_bodies) first_run.1
    (Done second_run.1 (inr (sample_digest two_bodies))).
Proof.
  assert (second_run.2 = inr (sample_digest two_bodies)) as <- by (vm_compute; reflexivity). apply run_exec.
Qed.

Lemma sample_life :
  life sample_digest 10 ∅ true delivered.1
    (({[sample_digest two_bodies]} ∪ ({[sample_digest [x01]]} ∪ ∅)) ∖ {[id first_item]}).
Proof.
  apply (life_acknowledge _ _ _ _ second_run.1 _ first_item (Done delivered.1 delivered.2));
    [|done|apply run_exec].
  apply (life_accept _ _ _ _ first_run.1 _ two_bodies);
    [|right; apply clean_idle; vm_compute; reflexivity|apply second_run_exec].
  apply (life_accept _ _ _ _ (restart ∅) _ [x01]);
    [apply life_new|by right; apply clean_idle|apply first_run_exec].
Qed.

Lemma delivered_durable : settled (durable delivered.1).
Proof. apply (bool_decide_unpack _). vm_compute. exact I. Qed.

Lemma sample_undelivered :
  sample_digest two_bodies ∈
    (({[sample_digest two_bodies]} ∪ ({[sample_digest [x01]]} ∪ ∅)) ∖ {[id first_item]} : gset string).
Proof. apply (bool_decide_unpack _). vm_compute. exact I. Qed.

Lemma at_least_once_witness :
  exists d f, durable delivered.1 !! (d, json_name (sample_digest two_bodies)) = Some f /\
    sample_digest (content f) = sample_digest two_bodies.
Proof.
  exact (at_least_once sample_digest slen_sample_digest 10 ∅ true delivered.1 _ (sample_digest two_bodies)
    (durable delivered.1) sample_life sample_undelivered (not_elem_of_empty _) (crash_durable _ delivered_durable)).
Defined.

(** The acknowledged item is gone. *)
Example delivered_gone : visible delivered.1 !! (Root, json_name (sample_digest [x01])) = None.
Proof. vm_compute. reflexivity. Qed.

Lemma pending_exact_witness :
  exists l, (run pending second_run.1).2 = inr l /\ length l = 2%nat /\ NoDup (id <$> l).
Proof.
  destruct (pending_exact second_run.1 _ (run_exec false pending second_run.1)) as (_ & l & Hl & _ & Hn & _).
  exists l. split; [exact Hl|]. split; [|exact Hn].
  apply (f_equal (fun r : SpoolError + list PendingItem => match r with inr l => length l | inl _ => 0%nat end)) in Hl.
  rewrite <- Hl. vm_compute. reflexivity.
Defined.

Lemma enqueue_exact_witness :
  enqueue_spec sample_digest 2 first_run.1 two_bodies first_run.1
    (inl (CapacityExceeded 1 2 2)) /\
  (run (enqueue sample_digest 2 two_bodies) first_run.1).2 = inl (CapacityExceeded 1 2 2).
Proof.
  assert (run (enqueue sample_digest 2 two_bodies) first_run.1 = (first_run.1, inl (CapacityExceeded 1 2 2)))
    as Hr by (vm_compute; reflexivity).
  split; [|by rewrite Hr].
  apply (enqueue_exact sample_digest 2 first_run.1 two_bodies).
  pose proof (run_exec false (enqueue sample_digest 2 two_bodies) first_run.1) as H. rewrite Hr in H. exact H.
Defined.

Lemma retry_not_durable_witness :
  len two_bodies <= 10 /\
  exists w1 e, exec true (enqueue sample_digest 10 two_bodies) (restart ∅) (Done w1 (inl (Io e))) /\
    exec false (enqueue sample_digest 10 two_bodies) w1 (Done w1 (inr (sample_digest two_bodies))) /\
    crash w1 ∅ /\ ~ stored (sample_digest two_bodies) ∅.
Proof. split; [done|]. apply (retry_not_durable sample_digest 10 two_bodies). done. Defined.

Lemma failed_write_blocks_witness :
  len two_bodies <= 10 /\
  exists w1 e, exec true (enqueue sample_digest 10 two_bodies) (restart ∅) (Done w1 (inl (Io e))) /\
    forall w2 r, exec false (enqueue sample_digest 10 two_bodies) w1 (Done w2 r) ->
      r = inl (Io AlreadyExists) /\ w2 = w1.
Proof. split; [done|]. apply (failed_write_blocks sample_digest slen_sample_digest 10 two_bodies). done. Defined.

Lemma recovered_not_durable_witness :
  forallb is_ascii_hexdigit (bytes_of (sample_digest two_bodies)) = true /\
  exists w1 w2,
    exec true (enqueue sample_digest 10 two_bodies) (restart ∅) (Crashed w1) /\
    exec false (open sample_digest) w1 (Done w2 (inr tt)) /\
    exec false (enqueue sample_digest 10 two_bodies) w2 (Done w2 (inr (sample_digest two_bodies))) /\
    exists s, crash w2 s /\
      s !! (Root, json_name (sample_digest two_bodies)) = Some {| content := []; synced := true |}.
Proof.
  split; [reflexivity|].
  apply (recovered_not_durable sample_digest slen_sample_digest 10 two_bodies); [done|reflexivity].
Defined.
