(* ===== verification/Enrich.v ===== *)
(** What Outpost adds to a batch before it stores it, crates/outpost/src/lib.rs:
    the identity mapping document ([parse_identity_mappings]), the external
    identity of the events ([enrich_external_identities]), the Kubernetes cache
    ([refresh_kubernetes_cache]) and [enrich_batch].  Parsing the JSON of the
    mapping document and of the pod list is serde's: the functions here start
    from the parsed document. *)
From Stdlib Require Import ZArith Lia ZifyBool Strings.Byte Strings.Ascii Strings.String.
From stdpp Require Import base list strings gmap.
From S2P Require Import Prelude Text Float64 Json Schema.

Local Open Scope string_scope.
Local Open Scope list_scope.
Local Open Scope Z_scope.
Local Open Scope dam_scope.

(** * The identity mapping document *)
Record IdentityMappingEntry : Set := {
  mongodb_principal_hash : string;
  entry_provider : string;
  entry_principal_type : string;
  entry_principal_arn : string;
  entry_account_id : string;
  entry_credential_source : string;
  entry_credential_resource : string
}.

Record IdentityMappingDocument : Set := {
  document_version : Z;
  mappings : list IdentityMappingEntry
}.

(** [anyhow::ensure!] *)
Definition ensure (condition : bool) (message : string) : res string unit :=
  if condition then Ok tt else Err message.

(** [s[n..]] for an offset the caller has checked *)
Definition drop_bytes (n : nat) (s : string) : string :=
  String.substring n (String.length s - n) s.

(** [splitn(6, ':')] and a test of its pieces, when there are six *)
Definition arn_parts (value : string)
    (test : string -> string -> string -> string -> string -> string -> bool) : bool :=
  match splitn 6 ":" value with
  | [p0; p1; p2; p3; p4; p5] => test p0 p1 p2 p3 p4 p5
  | _ => false
  end.
Definition nonempty (s : string) : bool := negb (String.eqb s "").

Definition valid_iam_principal_arn (value account_id principal_type : string) : bool :=
  let expected_resource := if String.eqb principal_type "iam_user" then "user/" else "role/" in
  arn_parts value (fun p0 p1 p2 p3 p4 p5 =>
    String.eqb p0 "arn" && nonempty p1 && String.eqb p2 "iam" && negb (nonempty p3) &&
    String.eqb p4 account_id && starts_with expected_resource p5 &&
    (slen expected_resource <? slen p5)).

Definition valid_secrets_manager_arn (value account_id : string) : bool :=
  arn_parts value (fun p0 p1 p2 p3 p4 p5 =>
    String.eqb p0 "arn" && nonempty p1 && String.eqb p2 "secretsmanager" && nonempty p3 &&
    String.eqb p4 account_id && starts_with "secret:" p5 && (slen "secret:" <? slen p5)).

Definition validate_identity_mapping (mapping : IdentityMappingEntry) : res string unit :=
  let! _ := ensure
    (starts_with "sha256:" (mongodb_principal_hash mapping) &&
     (slen (mongodb_principal_hash mapping) =? 71) &&
     forallb is_ascii_hexdigit (bytes_of (drop_bytes 7 (mongodb_principal_hash mapping))))
    "MongoDB principal hash must be sha256 followed by 64 hexadecimal characters" in
  let! _ := ensure (String.eqb (entry_provider mapping) "aws") "identity provider must be aws" in
  let! _ := ensure (one_of (entry_principal_type mapping) ["iam_user"; "iam_role"])
    "principal_type must be iam_user or iam_role" in
  let! _ := ensure
    ((slen (entry_account_id mapping) =? 12) &&
     forallb is_ascii_digit (bytes_of (entry_account_id mapping)))
    "AWS account_id must contain 12 digits" in
  let! _ := ensure
    (valid_iam_principal_arn (entry_principal_arn mapping) (entry_account_id mapping)
       (entry_principal_type mapping))
    "principal_arn does not match account_id and principal_type" in
  let! _ := ensure (String.eqb (entry_credential_source mapping) "aws_secrets_manager")
    "credential_source must be aws_secrets_manager" in
  ensure (valid_secrets_manager_arn (entry_credential_resource mapping) (entry_account_id mapping))
    "credential_resource must be a Secrets Manager ARN in account_id".

Definition external_identity (mapping : IdentityMappingEntry) : ExternalIdentity := {|
  provider := entry_provider mapping;
  principal_type := entry_principal_type mapping;
  principal_arn := entry_principal_arn mapping;
  account_id := entry_account_id mapping;
  credential_source := entry_credential_source mapping;
  credential_resource := entry_credential_resource mapping
|}.

Fixpoint mappings_loop (l : list IdentityMappingEntry) (identities : gmap string ExternalIdentity)
    : res string (gmap string ExternalIdentity) :=
  match l with
  | [] => Ok identities
  | mapping :: l =>
      let! _ := validate_identity_mapping mapping in
      let! _ := ensure
        (match identities !! mongodb_principal_hash mapping with Some _ => false | None => true end)
        "identity mapping contains a duplicate MongoDB principal hash" in
      mappings_loop l (<[mongodb_principal_hash mapping := external_identity mapping]> identities)
  end.

(** [parse_identity_mappings], after [serde_json::from_slice] *)
Definition parse_identity_mappings (document : IdentityMappingDocument)
    : res string (gmap string ExternalIdentity) :=
  let! _ := ensure (document_version document =? 1) "unsupported identity mapping schema_version" in
  let! _ := ensure (len (mappings document) <=? 1000) "identity mapping exceeds 1000 entries" in
  mappings_loop (mappings document) ∅.

(** * Enrichment *)
Section enrichment.
Context {OffsetDateTime : Type}.
Abbreviation DamEvent := (DamEvent OffsetDateTime).
Abbreviation DamBatch := (DamBatch OffsetDateTime).

Definition set_identity (i : option ExternalIdentity) (e : DamEvent) : DamEvent := {|
  event_version := event_version e; event_id := event_id e; observed_at := observed_at e;
  monotonic_timestamp_ns := monotonic_timestamp_ns e; event_customer_id := event_customer_id e;
  event_tenant_id := event_tenant_id e; event_source_id := event_source_id e;
  event_regional_cell_id := event_regional_cell_id e; capture := capture e;
  kubernetes := kubernetes e; process := process e; identity := i; payload := payload e
|}.
Definition set_kubernetes (k : option KubernetesMetadata) (e : DamEvent) : DamEvent := {|
  event_version := event_version e; event_id := event_id e; observed_at := observed_at e;
  monotonic_timestamp_ns := monotonic_timestamp_ns e; event_customer_id := event_customer_id e;
  event_tenant_id := event_tenant_id e; event_source_id := event_source_id e;
  event_regional_cell_id := event_regional_cell_id e; capture := capture e;
  kubernetes := k; process := process e; identity := identity e; payload := payload e
|}.
Definition set_events (es : list DamEvent) (b : DamBatch) : DamBatch := {|
  batch_version := batch_version b; batch_id := batch_id b; customer_id := customer_id b;
  tenant_id := tenant_id b; source_id := source_id b; regional_cell_id := regional_cell_id b;
  created_at := created_at b; events := es
|}.

Definition event_principal (p : EventPayload) : option string :=
  match p with
  | PMongodbActivity activity => if activity_principal_hashed activity then activity_principal activity else None
  | PMongodbAuth auth => if auth_event_principal_hashed auth then auth_event_principal auth else None
  | _ => None
  end.

Definition enrich_external_identities (identities : gmap string ExternalIdentity) (batch : DamBatch) : DamBatch :=
  set_events
    ((fun event => set_identity (event_principal (payload event) ≫= fun value => identities !! value) event)
       <$> events batch) batch.

(** [KubernetesMetadata::default()] *)
Definition no_kubernetes : KubernetesMetadata := {|
  cluster_name := None; namespace := None; pod_name := None; pod_uid := None; container_name := None;
  workload_kind := None; workload_name := None; labels := None
|}.
Definition with_cluster (cluster : option string) (k : KubernetesMetadata) : KubernetesMetadata := {|
  cluster_name := cluster; namespace := namespace k; pod_name := pod_name k; pod_uid := pod_uid k;
  container_name := container_name k; workload_kind := workload_kind k; workload_name := workload_name k;
  labels := labels k
|}.
(** A cached entry with the pod uid and container name of the event. *)
Definition with_pod (uid container : option string) (k : KubernetesMetadata) : KubernetesMetadata := {|
  cluster_name := cluster_name k; namespace := namespace k; pod_name := pod_name k; pod_uid := uid;
  container_name := container; workload_kind := workload_kind k; workload_name := workload_name k;
  labels := labels k
|}.

Definition enrich_kubernetes (cluster : string) (cache : gmap string KubernetesMetadata)
    (k : option KubernetesMetadata) : KubernetesMetadata :=
  let existing := default no_kubernetes k in
  let existing :=
    match cluster_name existing with
    | None => with_cluster (Some cluster) existing
    | Some _ => existing
    end in
  match pod_uid existing with
  | None => existing
  | Some uid =>
      match cache !! uid with
      | Some enriched =>
          with_pod (pod_uid existing)
            (match container_name existing with
             | Some c => Some c
             | None => container_name enriched
             end) enriched
      | None => existing
      end
  end.

(** [enrich_batch]; [identities] is what [load_identity_mappings] returned, or
    the empty map when there is no mapping file or it is invalid. *)
Definition enrich_batch (cluster : string) (identities : gmap string ExternalIdentity)
    (cache : gmap string KubernetesMetadata) (batch : DamBatch) : DamBatch :=
  let batch := enrich_external_identities identities batch in
  set_events ((fun event => set_kubernetes (Some (enrich_kubernetes cluster cache (kubernetes event))) event)
                <$> events batch) batch.
End enrichment.

(** [load_identity_mappings] and the fallback of [enrich_batch].  [file] is what
    reading the file gives: [None] when it is not there, an error, or its
    bytes; [from_slice] is [serde_json::from_slice] on a mapping document. *)
Definition identities_of (from_slice : bytes -> option IdentityMappingDocument)
    (file : option (option bytes)) : gmap string ExternalIdentity :=
  match file with
  | None => ∅
  | Some None => ∅
  | Some (Some encoded) =>
      match from_slice encoded with
      | Some document => match parse_identity_mappings document with Ok m => m | _ => ∅ end
      | None => ∅
      end
  end.

(** * The Kubernetes cache *)
Record OwnerReference : Set := {
  owner_kind : string;
  owner_name : string;
  controller : bool
}.
Record PodMetadata : Set := {
  pod_meta_uid : option string;
  pod_meta_name : option string;
  pod_meta_namespace : option string;
  pod_meta_labels : option (list (string * string));
  owner_references : option (list OwnerReference)
}.

Definition pod_entry (cluster : string) (pod : PodMetadata) : KubernetesMetadata :=
  let owner := List.find controller (default [] (owner_references pod)) in
  {| cluster_name := Some cluster;
     namespace := pod_meta_namespace pod;
     pod_name := pod_meta_name pod;
     pod_uid := None;
     container_name := None;
     workload_kind := owner_kind <$> owner;
     workload_name := owner_name <$> owner;
     labels := pod_meta_labels pod |}.

(** The cache [refresh_kubernetes_cache] builds from the pods of the list. *)
Definition kubernetes_cache (cluster : string) (pods : list PodMetadata) : gmap string KubernetesMetadata :=
  fold_left (fun next pod =>
    match pod_meta_uid pod with
    | Some uid => <[uid := pod_entry cluster pod]> next
    | None => next
    end) pods ∅.

(** * What a mapping is *)

(** The character does not occur in the text. *)
Fixpoint lacks (c : ascii) (s : string) : bool :=
  match s with
  | EmptyString => true
  | String a s => negb (Ascii.eqb a c) && lacks c s
  end.

Lemma split_once_app c l r : lacks c l = true -> split_once c (l ++ String c r) = Some (l, r).
Proof.
  induction l as [|a l IH]; simpl; [by rewrite Ascii.eqb_refl|].
  intros [Ha Hl]%andb_prop. destruct (Ascii.eqb a c); [done|]. 
  change (l ++ String c r)%string with (String.append l (String c r)) in IH. by rewrite IH.
Qed.

Lemma split_once_Some c s l r :
  split_once c s = Some (l, r) -> s = (l ++ String c r)%string /\ lacks c l = true.
Proof.
  revert l. induction s as [|a s IH]; intros l; simpl; [done|].
  destruct (Ascii.eqb_spec a c) as [->|Hne]; [by intros [= <- <-]|].
  destruct (split_once c s) as [[l' r']|]; [|done]. intros [= <- <-].
  destruct (IH l' eq_refl) as [-> Hl]. split; [done|]. simpl.
  by apply Ascii.eqb_neq in Hne as ->.
Qed.

Lemma splitn_step n c l r : lacks c l = true -> splitn (S (S n)) c (l ++ String c r) = l :: splitn (S n) c r.
Proof. intros Hl. cbn [splitn]. by rewrite split_once_app. Qed.

Lemma splitn_cons n c s p q ps :
  splitn (S (S n)) c s = p :: q :: ps ->
  exists r, s = (p ++ String c r)%string /\ lacks c p = true /\ splitn (S n) c r = q :: ps.
Proof.
  cbn [splitn]. destruct (split_once c s) as [[l r]|] eqn:Hs; [|done].
  intros [= <- Hr]. apply split_once_Some in Hs as [-> Hl]. by exists r.
Qed.

(** Six fields separated by colons *)
Definition six (p0 p1 p2 p3 p4 p5 : string) : string :=
  p0 ++ String ":" (p1 ++ String ":" (p2 ++ String ":" (p3 ++ String ":" (p4 ++ String ":" p5)))).

Lemma arn_parts_spec value test :
  arn_parts value test = true <->
  exists p0 p1 p2 p3 p4 p5, value = six p0 p1 p2 p3 p4 p5 /\
    forallb (lacks ":") [p0; p1; p2; p3; p4] = true /\ test p0 p1 p2 p3 p4 p5 = true.
Proof.
  unfold arn_parts, six. split.
  - destruct (splitn 6 ":" value) as [|p0 [|p1 [|p2 [|p3 [|p4 [|p5 [|]]]]]]] eqn:Hs; try done.
    intros Ht. exists p0, p1, p2, p3, p4, p5.
    apply splitn_cons in Hs as (r0 & -> & H0 & Hs). apply splitn_cons in Hs as (r1 & -> & H1 & Hs).
    apply splitn_cons in Hs as (r2 & -> & H2 & Hs). apply splitn_cons in Hs as (r3 & -> & H3 & Hs).
    apply splitn_cons in Hs as (r4 & -> & H4 & Hs). cbn [splitn] in Hs. injection Hs as ->.
    simpl. by rewrite H0, H1, H2, H3, H4.
  - intros (p0 & p1 & p2 & p3 & p4 & p5 & -> & Hl & Ht). simpl in Hl.
    repeat (apply andb_prop in Hl as [? Hl]). by rewrite !splitn_step by done.
Qed.

Lemma starts_with_spec p s : starts_with p s = true <-> exists r, s = (p ++ r)%string.
Proof.
  unfold starts_with. revert s. induction p as [|a p IH]; intros s; simpl.
  - split; [by exists s|by destruct s].
  - destruct s as [|b s]; [by split; [|intros [r Hr]]|].
    cbn [String.prefix]. destruct (ascii_dec a b) as [->|Hne].
    + rewrite IH. split; intros [r Hr]; exists r; [by rewrite Hr|by injection Hr].
    + split; [done|]. intros [r Hr]. by injection Hr as ->.
Qed.

(** A prefix and more *)
Lemma starts_with_more p s :
  starts_with p s && (slen p <? slen s) = true <-> exists r, s = (p ++ r)%string /\ r <> "".
Proof.
  rewrite andb_true_iff, starts_with_spec. split.
  - intros [[r ->] Hl]. exists r. split; [done|]. intros ->. rewrite slen_append in Hl. change (slen "") with 0 in Hl. lia.
  - intros (r & -> & Hr). split; [eauto|]. rewrite slen_append.
    assert (0 < slen r) by (unfold slen; destruct r; [done|simpl; lia]). lia.
Qed.

Lemma nonempty_spec s : nonempty s = true <-> s <> "".
Proof. unfold nonempty. by rewrite negb_true_iff, String.eqb_neq. Qed.

(** The ARN of a principal of the account: [arn:partition:iam::account:user/name],
    or [role/] for a role. *)
Definition iam_arn (account_id principal_type value : string) : Prop :=
  exists partition name, partition <> "" /\ lacks ":" partition = true /\ name <> "" /\
    value = six "arn" partition "iam" "" account_id
              ((if String.eqb principal_type "iam_user" then "user/" else "role/") ++ name)%string.
Definition secret_arn (account_id value : string) : Prop :=
  exists partition region name, partition <> "" /\ lacks ":" partition = true /\
    region <> "" /\ lacks ":" region = true /\ name <> "" /\
    value = six "arn" partition "secretsmanager" region account_id ("secret:" ++ name)%string.

Lemma valid_iam_principal_arn_spec value account ty :
  lacks ":" account = true ->
  valid_iam_principal_arn value account ty = true <-> iam_arn account ty value.
Proof.
  intros Ha. unfold valid_iam_principal_arn, iam_arn. cbv zeta. rewrite arn_parts_spec. split.
  - intros (p0 & p1 & p2 & p3 & p4 & p5 & -> & Hl & Ht).
    simpl in Hl. apply andb_prop in Hl as [_ [Hl _]%andb_prop].
    rewrite <- andb_assoc in Ht. apply andb_prop in Ht as [Ht H5].
    apply starts_with_more in H5 as (name & -> & Hn).
    repeat rewrite andb_true_iff in Ht. destruct Ht as [[[[H0 H1] H2] H3] H4].
    apply String.eqb_eq in H0 as ->, H2 as ->, H4 as ->. apply nonempty_spec in H1.
    assert (p3 = "") as -> by (apply negb_true_iff in H3; unfold nonempty in H3;
      by apply negb_false_iff, String.eqb_eq in H3).
    by exists p1, name.
  - intros (partition & name & H1 & Hl & Hn & ->). do 6 eexists. split; [reflexivity|]. split.
    + simpl. by rewrite Hl, Ha.
    + rewrite <- andb_assoc, (proj2 (starts_with_more _ _)) by eauto.
      by rewrite (proj2 (nonempty_spec _) H1), (String.eqb_refl account).
Qed.

Lemma valid_secrets_manager_arn_spec value account :
  lacks ":" account = true ->
  valid_secrets_manager_arn value account = true <-> secret_arn account value.
Proof.
  intros Ha. unfold valid_secrets_manager_arn, secret_arn. rewrite arn_parts_spec. split.
  - intros (p0 & p1 & p2 & p3 & p4 & p5 & -> & Hl & Ht).
    simpl in Hl. apply andb_prop in Hl as [_ [Hl [_ [Hr _]%andb_prop]%andb_prop]%andb_prop].
    rewrite <- andb_assoc in Ht. apply andb_prop in Ht as [Ht H5].
    apply starts_with_more in H5 as (name & -> & Hn).
    repeat rewrite andb_true_iff in Ht. destruct Ht as [[[[H0 H1] H2] H3] H4].
    apply String.eqb_eq in H0 as ->, H2 as ->, H4 as ->. apply nonempty_spec in H1, H3.
    by exists p1, p3, name.
  - intros (partition & region & name & H1 & Hl & H3 & Hr & Hn & ->). do 6 eexists. split; [reflexivity|]. split.
    + simpl. by rewrite Hl, Hr, Ha.
    + rewrite <- andb_assoc, (proj2 (starts_with_more _ _)) by eauto.
      by rewrite (proj2 (nonempty_spec _) H1), (proj2 (nonempty_spec _) H3), (String.eqb_refl account).
Qed.

Record valid_mapping (m : IdentityMappingEntry) : Prop := {
  vm_hash : exists h, mongodb_principal_hash m = ("sha256:" ++ h)%string /\ slen h = 64 /\
    forallb is_ascii_hexdigit (bytes_of h) = true;
  vm_provider : entry_provider m = "aws";
  vm_type : entry_principal_type m = "iam_user" \/ entry_principal_type m = "iam_role";
  vm_account : slen (entry_account_id m) = 12 /\
    forallb is_ascii_digit (bytes_of (entry_account_id m)) = true;
  vm_principal : iam_arn (entry_account_id m) (entry_principal_type m) (entry_principal_arn m);
  vm_source : entry_credential_source m = "aws_secrets_manager";
  vm_resource : secret_arn (entry_account_id m) (entry_credential_resource m)
}.

Lemma digits_lack_colon s : forallb is_ascii_digit (bytes_of s) = true -> lacks ":" s = true.
Proof.
  induction s as [|a s IH]; [done|]. rewrite bytes_of_cons. simpl. intros [Ha Hs]%andb_prop.
  rewrite IH by done. destruct (Ascii.eqb_spec a ":") as [->|]; [by vm_compute in Ha|done].
Qed.

Lemma drop_bytes_app p s : drop_bytes (String.length p) (p ++ s) = s.
Proof.
  unfold drop_bytes. replace (String.length (p ++ s) - String.length p)%nat with (String.length s).
  - induction p as [|a p IH]; simpl; [|exact IH].
    induction s as [|a s IH]; [done|]. exact (f_equal (String a) IH).
  - apply Nat2Z.inj. pose proof (slen_append p s) as H. unfold slen in H. lia.
Qed.

Lemma ensure_bind {A} c m (k : unit -> res string A) :
  (let! x := ensure c m in k x) = if c then k tt else Err m.
Proof. by destruct c. Qed.

Lemma hash_spec s :
  starts_with "sha256:" s && (slen s =? 71) && forallb is_ascii_hexdigit (bytes_of (drop_bytes 7 s)) = true <->
  exists h, s = ("sha256:" ++ h)%string /\ slen h = 64 /\ forallb is_ascii_hexdigit (bytes_of h) = true.
Proof.
  rewrite !andb_true_iff, starts_with_spec. split.
  - intros [[[h ->] Hl] Hx]. exists h. rewrite slen_append in Hl. change (slen "sha256:") with 7 in Hl.
    change 7%nat with (String.length "sha256:") in Hx. rewrite drop_bytes_app in Hx. split; [done|]. split; [lia|done].
  - intros (h & -> & Hl & Hx). rewrite slen_append, Hl. split; [split; [eauto|done]|].
    change 7%nat with (String.length "sha256:"). by rewrite drop_bytes_app.
Qed.

Lemma validate_identity_mapping_spec m : validate_identity_mapping m = Ok tt <-> valid_mapping m.
Proof.
  unfold validate_identity_mapping. rewrite !ensure_bind. split.
  - repeat (case_match; [|done]). unfold ensure. case_match; [|done]. intros _.
    repeat match goal with
           | H : String.eqb _ _ = true |- _ => apply String.eqb_eq in H
           | H : (_ =? _) && _ = true |- _ => apply andb_prop in H as [? ?]
           end.
    assert (lacks ":" (entry_account_id m) = true) by (by apply digits_lack_colon).
    split; [by apply hash_spec|done| |split; [lia|done]| |done|].
    + match goal with H : one_of _ _ = true |- _ => apply one_of_In in H; destruct H as [H|[H|[]]]; auto end.
    + by apply valid_iam_principal_arn_spec.
    + by apply valid_secrets_manager_arn_spec.
  - intros [Hh Hp Ht [Hl Hd] Ha Hs Hr]. apply hash_spec in Hh as ->.
    pose proof (digits_lack_colon _ Hd) as Hc.
    apply (valid_iam_principal_arn_spec _ _ _ Hc) in Ha as ->.
    apply (valid_secrets_manager_arn_spec _ _ Hc) in Hr as ->.
    rewrite Hp, Hl, Hd, Hs. by destruct Ht as [-> | ->].
Qed.

(** The map a list of mappings stands for *)
Definition identity_map (l : list IdentityMappingEntry) : gmap string ExternalIdentity :=
  list_to_map ((fun m => (mongodb_principal_hash m, external_identity m)) <$> l).

Lemma identity_map_cons m l :
  identity_map (m :: l) = <[mongodb_principal_hash m := external_identity m]> (identity_map l).
Proof. done. Qed.

Lemma identity_map_lookup_None l h :
  (forall m, m ∈ l -> mongodb_principal_hash m <> h) -> identity_map l !! h = None.
Proof.
  intros H. apply not_elem_of_list_to_map_1. rewrite <- list_fmap_compose.
  intros (m & -> & Hin)%list_elem_of_fmap. by eapply H.
Qed.

Lemma fresh_insert (ids : gmap string ExternalIdentity) h x l :
  Forall (fun m => <[h := x]> ids !! mongodb_principal_hash m = None) l <->
  (forall m, m ∈ l -> mongodb_principal_hash m <> h) /\
  Forall (fun m => ids !! mongodb_principal_hash m = None) l.
Proof.
  rewrite !Forall_forall. setoid_rewrite lookup_insert_None. split.
  - intros H. split; intros m Hm; [|by apply H]. intros He. by destruct (H m Hm).
  - intros [H1 H2] m Hm. split; [by apply H2|]. intros He. by apply (H1 m Hm).
Qed.

Lemma mappings_loop_spec l ids r :
  mappings_loop l ids = Ok r <->
  Forall valid_mapping l /\ NoDup (mongodb_principal_hash <$> l) /\
  Forall (fun m => ids !! mongodb_principal_hash m = None) l /\ r = identity_map l ∪ ids.
Proof.
  revert ids. induction l as [|m l IH]; intros ids; simpl.
  - change (identity_map []) with (∅ : gmap string ExternalIdentity). rewrite map_empty_union.
    split; [intros [= ->]; repeat split; constructor|by intros (_ & _ & _ & ->)].
  - destruct (validate_identity_mapping m) as [[]| |] eqn:Hv; cbn [mbind res_bind];
      [|split; [done|]; intros (Hf & _); apply Forall_cons in Hf as [Hf _];
        apply validate_identity_mapping_spec in Hf; congruence..].
    apply validate_identity_mapping_spec in Hv. rewrite !Forall_cons, NoDup_cons, identity_map_cons.
    destruct (ids !! mongodb_principal_hash m) as [x|] eqn:Hids; cbn [ensure mbind res_bind];
      [by split; [|intros (_ & _ & [H _] & _)]|].
    rewrite IH, fresh_insert. rewrite list_elem_of_fmap.
    assert ((forall y, y ∈ l -> mongodb_principal_hash y <> mongodb_principal_hash m) <->
      ~ exists y, mongodb_principal_hash m = mongodb_principal_hash y /\ y ∈ l) as Hd.
    { split; [intros H (y & Hy & Hin); by apply (H y Hin)|]. intros H y Hin He. apply H. by exists y. }
    assert ((forall y, y ∈ l -> mongodb_principal_hash y <> mongodb_principal_hash m) ->
      identity_map l ∪ <[mongodb_principal_hash m:=external_identity m]> ids =
      <[mongodb_principal_hash m:=external_identity m]> (identity_map l) ∪ ids) as Hu.
    { intros H. rewrite <- insert_union_r by (by apply identity_map_lookup_None). by rewrite insert_union_l. }
    rewrite <- Hd. split.
    + intros (Hf & Hn & [Hfr Hg] & ->). rewrite Hu by done. done.
    + intros ([_ Hf] & [Hfr Hn] & [_ Hg] & ->). by rewrite Hu.
Qed.

(** Identity mappings.  A mapping document is accepted exactly when its
    version is 1, it has at most 1000 entries, every entry is well formed (a
    SHA-256 principal hash, an IAM user or role ARN and a Secrets Manager ARN of
    the same 12-digit account) and no hash occurs twice; the result maps each
    hash to the identity of its entry. *)
Theorem parse_identity_mappings_exact d m :
  parse_identity_mappings d = Ok m <->
  document_version d = 1 /\ len (mappings d) <= 1000 /\ Forall valid_mapping (mappings d) /\
  NoDup (mongodb_principal_hash <$> mappings d) /\ m = identity_map (mappings d).
Proof.
  unfold parse_identity_mappings. destruct (Z.eqb_spec (document_version d) 1) as [Hv|Hv];
    cbn [ensure mbind res_bind]; [|by split; [|intros [? _]]].
  destruct (Z.leb_spec (len (mappings d)) 1000) as [Hl|Hl]; cbn [ensure mbind res_bind];
    [|split; [done|intros (_ & ? & _); lia]].
  rewrite mappings_loop_spec, map_union_empty. split; [intros (? & ? & _ & ?); auto|].
  intros (_ & _ & Hf & Hn & Hm). repeat split; [done..| |done]. by apply Forall_forall.
Qed.

(** * What enrichment does *)

(** The pod of an event, as the cache knows it: the last pod of the list with
    its uid. *)
Definition find_pod (pods : list PodMetadata) (uid : string) : option PodMetadata :=
  List.find (fun pod => bool_decide (pod_meta_uid pod = Some uid)) (rev pods).

Lemma kubernetes_cache_lookup cluster pods uid :
  kubernetes_cache cluster pods !! uid = pod_entry cluster <$> find_pod pods uid.
Proof.
  unfold kubernetes_cache, find_pod. rewrite <- fold_left_rev_right.
  induction (rev pods) as [|pod l IH]; simpl; [done|].
  destruct (pod_meta_uid pod) as [u|] eqn:Hu; simpl.
  - destruct (decide (u = uid)) as [->|Hne].
    + rewrite lookup_insert_eq, bool_decide_eq_true_2 by done. done.
    + rewrite lookup_insert_ne, bool_decide_eq_false_2 by congruence. exact IH.
  - exact IH.
Qed.

Record enriched_kubernetes (cluster : string) (pods : list PodMetadata) (k : option KubernetesMetadata)
    (k' : KubernetesMetadata) : Prop := {
  ek_uid : pod_uid k' = k ≫= pod_uid;
  ek_cluster : exists c, cluster_name k' = Some c;
  ek_container : forall c, k ≫= container_name = Some c -> container_name k' = Some c;
  ek_known : forall uid pod, k ≫= pod_uid = Some uid -> find_pod pods uid = Some pod ->
    k' = with_pod (Some uid) (k ≫= container_name) (pod_entry cluster pod);
  ek_unknown : (k ≫= pod_uid) ≫= find_pod pods = None ->
    k' = with_cluster (match k ≫= cluster_name with Some c => Some c | None => Some cluster end)
           (default no_kubernetes k)
}.

Lemma with_cluster_id k : with_cluster (cluster_name k) k = k.
Proof. by destruct k. Qed.

Lemma enrich_kubernetes_spec cluster pods k :
  enriched_kubernetes cluster pods k (enrich_kubernetes cluster (kubernetes_cache cluster pods) k).
Proof.
  unfold enrich_kubernetes. cbv zeta. set (existing := default no_kubernetes k).
  set (existing' := match cluster_name existing with None => _ | Some _ => _ end).
  assert (pod_uid existing' = k ≫= pod_uid) as Hu by (unfold existing', existing; destruct k as [[[]]|]; done).
  assert (container_name existing' = k ≫= container_name) as Hc
    by (unfold existing', existing; destruct k as [[[]]|]; done).
  assert (existing' = with_cluster (match k ≫= cluster_name with Some c => Some c | None => Some cluster end) existing) as He
    by (unfold existing', existing; destruct k as [[[]]|]; done).
  rewrite Hu, Hc. destruct (k ≫= pod_uid) as [uid|] eqn:Huid; cbn [mbind option_bind].
  - rewrite kubernetes_cache_lookup. destruct (find_pod pods uid) as [pod|] eqn:Hf; cbn [fmap option_fmap option_map].
    + split.
      * by rewrite Huid.
      * eexists. done.
      * intros c Hk. cbn [with_pod container_name]. by rewrite Hk.
      * intros uid' pod' Hu' Hf'. assert (uid' = uid) as -> by congruence. assert (pod' = pod) as -> by congruence.
        by destruct (k ≫= container_name).
      * rewrite Huid. cbn [mbind option_bind]. congruence.
    + split; [by rewrite Hu|rewrite He; destruct (k ≫= cluster_name); by eexists| | |done].
      * intros c Hk. by rewrite Hc.
      * intros uid' pod' Hu' Hf'. congruence.
  - split; [by rewrite Hu|rewrite He; destruct (k ≫= cluster_name); by eexists| | |done].
    + intros c Hk. by rewrite Hc.
    + intros uid' pod' Hu' Hf'. congruence.
Qed.

Section exact.
Context {OffsetDateTime : Type}.
Implicit Types (e : DamEvent OffsetDateTime) (b : DamBatch OffsetDateTime).

Record enriched_event (cluster : string) (ids : gmap string ExternalIdentity) (pods : list PodMetadata)
    (e e' : DamEvent OffsetDateTime) : Prop := {
  ee_identity : identity e' = event_principal (payload e) ≫= (fun value => ids !! value);
  ee_kubernetes : exists k, kubernetes e' = Some k /\ enriched_kubernetes cluster pods (kubernetes e) k;
  ee_rest : set_identity (identity e) (set_kubernetes (kubernetes e) e') = e
}.

Lemma valid_event_enriched b es cluster ids pods e e' :
  enriched_event cluster ids pods e e' -> valid_event b e -> valid_event (set_events es b) e'.
Proof. intros [_ _ <-] [Hv Hn Ho Hm]. by split. Qed.

(** C28: Enrichment.  [enrich_batch] changes nothing of a batch but the external
    identity and the Kubernetes metadata of its events.  The identity is what
    the mapping has for the hashed principal of an activity or authentication
    event, and none otherwise: an identity the sender claims is never kept.
    The pod metadata of a known pod comes from the API server, with the sender's
    pod uid and container; of an unknown pod, the sender's is kept.  A valid
    batch stays valid. *)
Theorem enrich_batch_exact cluster ids pods b :
  let b' := enrich_batch cluster ids (kubernetes_cache cluster pods) b in
  set_events (events b) b' = b /\
  Forall2 (enriched_event cluster ids pods) (events b) (events b') /\
  (valid_batch b -> valid_batch b').
Proof.
  intros b'. assert (Forall2 (enriched_event cluster ids pods) (events b) (events b')) as Hall.
  { unfold b', enrich_batch, enrich_external_identities. cbn [events set_events].
    rewrite <- list_fmap_compose. apply Forall2_fmap_r, Forall_Forall2_diag, Forall_forall. intros e _. split.
    - done.
    - eexists. split; [done|]. apply enrich_kubernetes_spec.
    - by destruct e. }
  split; [by destruct b|]. split; [done|]. intros [Hv Hn Hne Hev]. split; [done|done| |].
  - intros He. rewrite He in Hall. by inversion Hall as [Hnil|]; rewrite <- Hnil in Hne.
  - apply Forall_forall. intros e' Hin. apply list_elem_of_lookup in Hin as [i Hi].
    destruct (Forall2_lookup_r _ _ _ _ _ Hall Hi) as (e & He & Hen).
    eapply (valid_event_enriched b (events b')); [exact Hen|].
    rewrite Forall_forall in Hev. apply Hev. by eapply list_elem_of_lookup_2.
Qed.
End exact.
