(* ===== verification/Destination.v ===== *)
(** Where Outpost delivers to, crates/outpost/src/lib.rs: the configuration and
    its validation, and the S3 object key of a batch.  [Url::parse] (the url
    crate) and the calendar fields of [OffsetDateTime] (the time crate) are
    parameters. *)
From Stdlib Require Import ZArith Lia ZifyBool Strings.Byte Strings.Ascii Strings.String.
From stdpp Require Import base list strings pretty.
From S2P Require Import Prelude Text Float64 Json Schema Enrich.

Local Open Scope string_scope.
Local Open Scope list_scope.
Local Open Scope Z_scope.
Local Open Scope dam_scope.

(** * Configuration

    Paths are strings and durations numbers of seconds. *)
Record HttpDestinationConfig : Set := {
  endpoint : string;
  bearer_token : string;
  ca_file : option string
}.
Record S3DestinationConfig : Set := {
  bucket : string;
  prefix : string;
  endpoint_url : option string;
  force_path_style : bool
}.
Inductive DestinationConfig : Set :=
| Http (destination : HttpDestinationConfig)
| S3 (destination : S3DestinationConfig).

Record OutpostConfig : Set := {
  config_customer_id : string;
  config_tenant_id : string;
  config_source_id : string;
  config_regional_cell_id : string;
  config_cluster_name : string;
  internal_token : option string;
  destination : DestinationConfig;
  spool_dir : string;
  spool_max_bytes : Z;
  max_request_bytes : Z;
  export_interval : Z;
  kubernetes_api_url : option string;
  kubernetes_token_path : string;
  kubernetes_ca_path : string;
  kubernetes_refresh_interval : Z;
  identity_mapping_file : option string
}.

(** A parsed URL, as far as the program looks at it. *)
Record Url : Set := {
  scheme : string;
  host_str : option string;
  username : string;
  password : option string
}.

Definition trim_matches (c : Z) (s : string) : string := of_chars (trim_both (Z.eqb c) (chars s)).
Definition normalized_s3_prefix (prefix : string) : string := trim_matches 47 (trim prefix).

Definition host_is (hosts : list string) (u : Url) : bool :=
  match host_str u with
  | Some h => one_of h hosts
  | None => false
  end.

Section validation.
Context (url_parse : string -> option Url).

(** The two checks of an endpoint: HTTPS or a local host, and no credentials. *)
Definition check_url (hosts : list string) (what tls credentials : string) (value : string) : res string unit :=
  let! u := ok_or what (url_parse value) in
  let is_local := String.eqb (scheme u) "http" && host_is hosts u in
  let! _ := ensure (String.eqb (scheme u) "https" || is_local) tls in
  ensure (String.eqb (username u) "" && match password u with None => true | Some _ => false end) credentials.

Definition validate_http_destination (d : HttpDestinationConfig) : res string unit :=
  let! _ := ensure (negb (blank (endpoint d))) "HTTP endpoint must not be empty" in
  let! _ := ensure (negb (blank (bearer_token d))) "HTTP bearer token must not be empty" in
  check_url ["127.0.0.1"; "localhost"; "mock-endpoint"]
    "HTTP endpoint is invalid"
    "HTTP endpoint must use HTTPS except for the bundled local mock"
    "HTTP endpoint must not contain credentials" (endpoint d).

Definition validate_s3_destination (d : S3DestinationConfig) : res string unit :=
  let b := trim (bucket d) in
  let p := normalized_s3_prefix (prefix d) in
  let! _ := ensure (nonempty b) "S3 bucket must not be empty" in
  let! _ := ensure (String.eqb b (bucket d))
    "S3 bucket must not have leading or trailing whitespace" in
  let! _ := ensure (negb (existsb is_control (chars b)))
    "S3 bucket must not contain control characters" in
  let! _ := ensure (nonempty p) "S3 prefix must not be empty" in
  let! _ := ensure (negb (existsb is_control (chars p)))
    "S3 prefix must not contain control characters" in
  match endpoint_url d with
  | Some value =>
      check_url ["127.0.0.1"; "localhost"] "S3 endpoint URL is invalid"
        "S3 endpoint URL must use HTTPS except for localhost"
        "S3 endpoint URL must not contain credentials" value
  | None => Ok tt
  end.

Fixpoint check_names (l : list (string * string)) : res string unit :=
  match l with
  | [] => Ok tt
  | (name, value) :: l =>
      let! _ := ensure (negb (blank value)) (name ++ " must not be empty") in
      check_names l
  end.

Definition validate_config (c : OutpostConfig) : res string unit :=
  let! _ := check_names
    [("customer_id", config_customer_id c); ("tenant_id", config_tenant_id c);
     ("source_id", config_source_id c); ("regional_cell_id", config_regional_cell_id c);
     ("cluster_name", config_cluster_name c)] in
  let! _ :=
    match destination c with
    | Http d => validate_http_destination d
    | S3 d => validate_s3_destination d
    end in
  ensure (0 <? max_request_bytes c) "max_request_bytes must be positive".
End validation.

(** * S3 object keys *)

(** [%{byte:02X}] *)
Definition hex_upper (n : Z) : byte := u8_of (if n <? 10 then 48 + n else 55 + n).
Definition plain_byte (b : byte) : bool :=
  is_ascii_alphanumeric b || (u8 b =? 45) || (u8 b =? 95) || (u8 b =? 46).
Definition encode_byte (b : byte) : bytes :=
  if plain_byte b then [b]
  else [x25; hex_upper (Z.shiftr (u8 b) 4); hex_upper (Z.land (u8 b) 15)].
Definition encode_s3_key_segment (value : string) : string :=
  string_of (concat (encode_byte <$> bytes_of value)).

Fixpoint zeros (n : nat) : string :=
  match n with
  | O => EmptyString
  | S n => String "0" (zeros n)
  end.
(** [{:0w}] of an integer: zeros after the sign, up to [w] characters. *)
Definition fmt_0 (w : nat) (z : Z) : string :=
  if z <? 0
  then String "-" (zeros (w - 1 - String.length (int_to_string (- z))) ++ int_to_string (- z))
  else zeros (w - String.length (int_to_string z)) ++ int_to_string z.

Section keys.
Context {OffsetDateTime : Type} (year month day hour : OffsetDateTime -> Z).

Definition s3_object_key (d : S3DestinationConfig) (b : DamBatch OffsetDateTime) : string :=
  let timestamp := created_at b in
  normalized_s3_prefix (prefix d) ++ "/customer_id=" ++ encode_s3_key_segment (customer_id b)
  ++ "/tenant_id=" ++ encode_s3_key_segment (tenant_id b)
  ++ "/regional_cell_id=" ++ encode_s3_key_segment (regional_cell_id b)
  ++ "/source_id=" ++ encode_s3_key_segment (source_id b)
  ++ "/date=" ++ fmt_0 4 (year timestamp) ++ "-" ++ fmt_0 2 (month timestamp) ++ "-" ++ fmt_0 2 (day timestamp)
  ++ "/hour=" ++ fmt_0 2 (hour timestamp)
  ++ "/" ++ encode_s3_key_segment (batch_id b) ++ ".ndjson.gz".
End keys.

(** * Segments are safe and unambiguous *)

(** The bytes of an encoded segment. *)
Definition segment_byte (b : byte) : bool := plain_byte b || (u8 b =? 37).

Lemma byte_forall (P : byte -> bool) : forallb (fun n => P (u8_of (Z.of_nat n))) (seq 0 256) = true -> forall b, P b = true.
Proof.
  intros H b. rewrite forallb_forall in H. specialize (H (Z.to_nat (u8 b))). pose proof (u8_range b).
  rewrite Z2Nat.id, u8_of_u8 in H by lia. apply H, in_seq. lia.
Qed.

Lemma encode_byte_safe b : forallb segment_byte (encode_byte b) = true.
Proof. revert b. apply (byte_forall (fun b => forallb segment_byte (encode_byte b))). vm_compute. reflexivity. Qed.

(** Reads one encoded byte back. *)
Definition hex_value (b : byte) : Z := if u8 b <? 58 then u8 b - 48 else u8 b - 55.
Fixpoint decode_bytes (bs : bytes) : bytes :=
  match bs with
  | [] => []
  | b :: r =>
      if u8 b =? 37 then
        match r with
        | h :: l :: r => u8_of (16 * hex_value h + hex_value l) :: decode_bytes r
        | _ => []
        end
      else b :: decode_bytes r
  end.

Lemma decode_encode_byte b bs : decode_bytes (encode_byte b ++ bs) = b :: decode_bytes bs.
Proof.
  unfold encode_byte. destruct (plain_byte b) eqn:Hb.
  - assert (negb (plain_byte b) || negb (u8 b =? 37) = true) as H
      by (revert b Hb; intros b _; revert b; apply byte_forall; vm_compute; reflexivity).
    rewrite Hb in H. simpl in H. apply negb_true_iff in H. simpl. by rewrite H.
  - assert ((u8 (u8_of (16 * hex_value (hex_upper (Z.shiftr (u8 b) 4)) + hex_value (hex_upper (Z.land (u8 b) 15)))) =? u8 b) = true)
      as H by (clear Hb; revert b; apply byte_forall; vm_compute; reflexivity).
    apply Z.eqb_eq, u8_inj in H. simpl. change (u8 x25 =? 37) with true. cbv iota. by rewrite H.
Qed.

Lemma encode_s3_key_segment_bytes s : bytes_of (encode_s3_key_segment s) = concat (encode_byte <$> bytes_of s).
Proof. apply bytes_of_string_of. Qed.

Lemma decode_segment s : decode_bytes (bytes_of (encode_s3_key_segment s)) = bytes_of s.
Proof.
  rewrite encode_s3_key_segment_bytes. induction (bytes_of s) as [|b bs IH]; [done|].
  rewrite fmap_cons. cbn [concat]. by rewrite decode_encode_byte, IH.
Qed.

Lemma encode_s3_key_segment_inj s t : encode_s3_key_segment s = encode_s3_key_segment t -> s = t.
Proof. intros H. apply bytes_of_inj. rewrite <- (decode_segment s), H. apply decode_segment. Qed.

Lemma segment_safe s : forallb segment_byte (bytes_of (encode_s3_key_segment s)) = true.
Proof.
  rewrite encode_s3_key_segment_bytes. induction (bytes_of s) as [|b bs IH]; [done|].
  rewrite fmap_cons. cbn [concat]. by rewrite forallb_app, encode_byte_safe, IH.
Qed.

(** * Slash-separated texts *)
Lemma lacks_app c s t : lacks c (s ++ t) = lacks c s && lacks c t.
Proof.
  induction s as [|a s IH]; [done|]. simpl. rewrite <- andb_assoc. exact (f_equal (andb _) IH).
Qed.

Lemma lacks_bytes c s : forallb (fun b => negb (Byte.eqb b (byte_of_ascii c))) (bytes_of s) = lacks c s.
Proof.
  induction s as [|a s IH]; [done|]. rewrite bytes_of_cons. simpl. rewrite IH. f_equal. f_equal.
  destruct (Ascii.eqb_spec a c) as [->|Hne].
  - by apply Byte.byte_dec_lb.
  - apply not_true_is_false. intros H%Byte.byte_dec_bl. apply Hne.
    by rewrite <- (ascii_of_byte_of_ascii a), H, ascii_of_byte_of_ascii.
Qed.

Lemma segment_lacks_slash s : lacks "/" (encode_s3_key_segment s) = true.
Proof.
  rewrite <- lacks_bytes. pose proof (segment_safe s) as H. rewrite forallb_forall in *.
  intros b Hb. specialize (H b Hb). clear Hb. by destruct b.
Qed.

Lemma lacks_zeros n : lacks "/" (zeros n) = true.
Proof. by induction n. Qed.

Lemma lacks_pretty_N x s : lacks "/" s = true -> lacks "/" (pretty_N_go x s) = true.
Proof.
  revert s. induction (N.lt_wf_0 x) as [x _ IH]. intros s Hs.
  assert (x = 0 \/ 0 < x)%N as [->|Hx] by lia; [by rewrite pretty_N_go_0|].
  rewrite pretty_N_go_step by done. apply IH; [apply N.div_lt; lia|]. simpl. rewrite Hs, andb_true_r.
  unfold pretty_N_char. by repeat case_match.
Qed.

Lemma lacks_pretty z : lacks "/" (int_to_string z) = true.
Proof.
  assert (forall x : N, lacks "/" (pretty x) = true) as HN.
  { intros x. unfold pretty, pretty_N. destruct (decide _); [done|]. by apply lacks_pretty_N. }
  unfold int_to_string. destruct z as [|p|p]; [done|apply (HN (Npos p))|].
  unfold pretty, pretty_Z. rewrite lacks_app. apply (HN (Npos p)).
Qed.

Lemma lacks_fmt_0 w z : lacks "/" (fmt_0 w z) = true.
Proof.
  unfold fmt_0. destruct (z <? 0); [cbn [lacks]|]; by rewrite lacks_app, lacks_zeros, lacks_pretty.
Qed.

Lemma append_inj_l (p s t : string) : (p ++ s)%string = (p ++ t)%string -> s = t.
Proof. induction p as [|a p IH]; [done|]. intros [= H]. by apply IH. Qed.

(** Up to the first slash. *)
Lemma segment_inj (s t s' t' : string) :
  lacks "/" s = true -> lacks "/" s' = true ->
  (s ++ String "/" t)%string = (s' ++ String "/" t')%string -> s = s' /\ t = t'.
Proof.
  intros Hs Hs' He. pose proof (split_once_app "/" s t Hs) as H1.
  pose proof (split_once_app "/" s' t' Hs') as H2. rewrite He in H1. by rewrite H1 in H2; injection H2 as -> ->.
Qed.

Lemma append_assoc (a b c : string) : ((a ++ b) ++ c)%string = (a ++ (b ++ c))%string.
Proof. induction a as [|x a IH]; [done|]. exact (f_equal (String x) IH). Qed.

Section keys_exact.
Context {OffsetDateTime : Type} (year month day hour : OffsetDateTime -> Z).
Abbreviation key := (s3_object_key year month day hour).

(** The date and the hour of a batch, as its key writes them *)
Definition stamp (b : DamBatch OffsetDateTime) : string * string :=
  let t := created_at b in
  (fmt_0 4 (year t) ++ "-" ++ fmt_0 2 (month t) ++ "-" ++ fmt_0 2 (day t), fmt_0 2 (hour t))%string.

Lemma lacks_stamp b : lacks "/" (stamp b).1 = true /\ lacks "/" (stamp b).2 = true.
Proof. unfold stamp. simpl. rewrite !lacks_app, !lacks_fmt_0. by split. Qed.

Lemma key_shape d b : key d b =
  (normalized_s3_prefix (prefix d) ++ "/customer_id=" ++ encode_s3_key_segment (customer_id b)
   ++ String "/" ("tenant_id=" ++ encode_s3_key_segment (tenant_id b)
   ++ String "/" ("regional_cell_id=" ++ encode_s3_key_segment (regional_cell_id b)
   ++ String "/" ("source_id=" ++ encode_s3_key_segment (source_id b)
   ++ String "/" ("date=" ++ (stamp b).1
   ++ String "/" ("hour=" ++ (stamp b).2
   ++ String "/" (encode_s3_key_segment (batch_id b) ++ ".ndjson.gz")))))))%string.
Proof. unfold s3_object_key, stamp. cbn [fst snd]. by rewrite !append_assoc. Qed.

(** C38: Object keys.  Two batches get the same key under one destination exactly
    when they have the same customer, tenant, cell, source and batch id and the
    same calendar date and hour: no batch overwrites another's object, whatever
    bytes the identifiers contain. *)
Theorem s3_key_injective d b1 b2 :
  key d b1 = key d b2 <->
  customer_id b1 = customer_id b2 /\ tenant_id b1 = tenant_id b2 /\
  regional_cell_id b1 = regional_cell_id b2 /\ source_id b1 = source_id b2 /\
  batch_id b1 = batch_id b2 /\ stamp b1 = stamp b2.
Proof.
  rewrite !key_shape. split; [|by intros (-> & -> & -> & -> & -> & ->)].
  destruct (lacks_stamp b1) as [Hd1 Hh1], (lacks_stamp b2) as [Hd2 Hh2].
  intros H%append_inj_l%append_inj_l.
  apply segment_inj in H as [Hc H%append_inj_l]; [|apply segment_lacks_slash..].
  apply segment_inj in H as [Ht H%append_inj_l]; [|apply segment_lacks_slash..].
  apply segment_inj in H as [Hr H%append_inj_l]; [|apply segment_lacks_slash..].
  apply segment_inj in H as [Hs H%append_inj_l]; [|apply segment_lacks_slash..].
  apply segment_inj in H as [Hd H%append_inj_l]; [|done..].
  apply segment_inj in H as [Hh H]; [|done..].
  apply (f_equal bytes_of) in H. rewrite !bytes_of_app in H. apply app_inv_tail, bytes_of_inj in H.
  repeat split; try (by apply encode_s3_key_segment_inj).
  destruct (stamp b1), (stamp b2). simpl in Hd, Hh. by subst.
Qed.
End keys_exact.

(** * What a valid configuration is *)
Section valid.
Context (url_parse : string -> option Url).

(** Encrypted, or to a host of this machine, and without credentials in the URL. *)
Definition secure (hosts : list string) (value : string) : Prop :=
  exists u, url_parse value = Some u /\
    (scheme u = "https" \/ scheme u = "http" /\ exists h, host_str u = Some h /\ In h hosts) /\
    username u = "" /\ password u = None.

Definition valid_destination (d : DestinationConfig) : Prop :=
  match d with
  | Http d =>
      visible_text (endpoint d) /\ visible_text (bearer_token d) /\
      secure ["127.0.0.1"; "localhost"; "mock-endpoint"] (endpoint d)
  | S3 d =>
      bucket d <> "" /\ trim (bucket d) = bucket d /\
      (forall c, In c (chars (bucket d)) -> is_control c = false) /\
      normalized_s3_prefix (prefix d) <> "" /\
      (forall c, In c (chars (normalized_s3_prefix (prefix d))) -> is_control c = false) /\
      (forall value, endpoint_url d = Some value -> secure ["127.0.0.1"; "localhost"] value)
  end.

Definition valid_config (c : OutpostConfig) : Prop :=
  Forall visible_text [config_customer_id c; config_tenant_id c; config_source_id c;
                       config_regional_cell_id c; config_cluster_name c] /\
  valid_destination (destination c) /\ 0 < max_request_bytes c.

Lemma ensure_then_ok c m (r : res string unit) :
  (let! _ := ensure c m in r) = Ok tt <-> c = true /\ r = Ok tt.
Proof. destruct c; cbn [ensure mbind res_bind]; [by split; [|intros []]|by split; [|intros []]]. Qed.

Lemma ensure_is_ok c m : ensure c m = Ok tt <-> c = true.
Proof. by destruct c. Qed.

Lemma not_blank s : negb (blank s) = true <-> visible_text s.
Proof. by rewrite negb_true_iff, blank_spec. Qed.

Lemma no_control s : negb (existsb is_control (chars s)) = true <-> forall c, In c (chars s) -> is_control c = false.
Proof.
  rewrite negb_true_iff, existsb_false, Forall_forall. by setoid_rewrite list_elem_of_In.
Qed.

Lemma host_is_spec hosts u : host_is hosts u = true <-> exists h, host_str u = Some h /\ In h hosts.
Proof.
  unfold host_is. destruct (host_str u) as [h|]; [rewrite one_of_In|by split; [|intros (h & ? & _)]].
  split; [by exists h|]. by intros (h' & [= <-] & ?).
Qed.

Lemma check_url_spec hosts what tls credentials value :
  check_url url_parse hosts what tls credentials value = Ok tt <-> secure hosts value.
Proof.
  unfold check_url, secure. destruct (url_parse value) as [u|] eqn:Hu; cbn [ok_or mbind res_bind];
    [|split; [done|by intros (u & ? & _)]].
  rewrite ensure_then_ok, ensure_is_ok, orb_true_iff, !andb_true_iff, !String.eqb_eq, host_is_spec.
  assert ((match password u with None => true | Some _ => false end) = true <-> password u = None) as ->
    by (by destruct (password u)).
  split; [intros (H & ? & ?); by exists u|]. intros (u' & [= <-] & H & ? & ?). auto.
Qed.

Lemma check_names_spec l : check_names l = Ok tt <-> Forall visible_text (l.*2).
Proof.
  induction l as [|[name value] l IH]; [by split|]. cbn [check_names].
  by rewrite ensure_then_ok, not_blank, IH, fmap_cons, Forall_cons.
Qed.

Lemma validate_http_destination_spec d :
  validate_http_destination url_parse d = Ok tt <-> valid_destination (Http d).
Proof. unfold validate_http_destination. by rewrite !ensure_then_ok, !not_blank, check_url_spec. Qed.

Lemma validate_s3_destination_spec d :
  validate_s3_destination url_parse d = Ok tt <-> valid_destination (S3 d).
Proof.
  unfold validate_s3_destination. cbv zeta. rewrite !ensure_then_ok, !nonempty_spec, String.eqb_eq, !no_control.
  assert ((match endpoint_url d with
           | Some value => check_url url_parse ["127.0.0.1"; "localhost"] "S3 endpoint URL is invalid"
               "S3 endpoint URL must use HTTPS except for localhost"
               "S3 endpoint URL must not contain credentials" value
           | None => Ok tt
           end) = Ok tt <-> forall value, endpoint_url d = Some value -> secure ["127.0.0.1"; "localhost"] value) as ->.
  { destruct (endpoint_url d) as [value|]; [rewrite check_url_spec|by split].
    split; [by intros H v [= <-]|auto]. }
  cbn [valid_destination]. split.
  - intros (H1 & H2 & H3 & H4 & H5 & H6). rewrite H2 in H1, H3. by repeat split.
  - intros (H1 & H2 & H3 & H4 & H5 & H6). rewrite H2. by repeat split.
Qed.

(** Configuration: [validate_config] accepts exactly the configurations with
    visible identity fields, a positive request limit and a destination that is
    complete and secure: an HTTPS endpoint, or a local one, without credentials in
    its URL; or a clean bucket and prefix. *)
Theorem validate_config_exact c : validate_config url_parse c = Ok tt <-> valid_config c.
Proof.
  unfold validate_config, valid_config.
  set (names := [("customer_id", config_customer_id c); _; _; _; _]).
  change (Forall visible_text _) with (Forall visible_text names.*2). rewrite <- check_names_spec.
  destruct (check_names names) as [[]| |]; cbn [mbind res_bind]; [|by split; [|intros [? _]]..].
  destruct (destination c) as [d|d].
  - rewrite <- validate_http_destination_spec.
    destruct (validate_http_destination url_parse d) as [[]| |]; cbn [mbind res_bind];
      [rewrite ensure_is_ok, Z.ltb_lt; tauto|by split; [|intros (_ & ? & _)]..].
  - rewrite <- validate_s3_destination_spec.
    destruct (validate_s3_destination url_parse d) as [[]| |]; cbn [mbind res_bind];
      [rewrite ensure_is_ok, Z.ltb_lt; tauto|by split; [|intros (_ & ? & _)]..].
Qed.
End valid.
