(* ===== verification/Outpost.v ===== *)
(** Outpost, crates/outpost/src/lib.rs: the request handlers and the exporter,
    as programs over the spool's calls and the network.  [AppState] is the state
    the handlers share; a handler maps it to the state after the request and the
    response.  serde, gzip, SHA-256 and the texts of I/O errors are parameters. *)
From Stdlib Require Import ZArith Lia ZifyBool Strings.Byte Strings.Ascii Strings.String.
From stdpp Require Import base list strings gmap pretty.
From S2P Require Import Prelude Text Float64 Json Schema Spool Enrich Destination.

Local Open Scope string_scope.
Local Open Scope list_scope.
Local Open Scope Z_scope.
Local Open Scope dam_scope.

(** * State *)

(** The counters and gauges of [Metrics]. *)
Record Metrics : Set := {
  accepted_batches : Z;
  rejected_batches : Z;
  delivered_batches : Z;
  delivery_failures : Z;
  quarantined_batches : Z;
  spool_items : Z;
  spool_bytes : Z;
  quarantine_items : Z;
  quarantine_bytes : Z;
  kubernetes_cache_entries : Z
}.
Definition no_metrics : Metrics := {|
  accepted_batches := 0; rejected_batches := 0; delivered_batches := 0; delivery_failures := 0;
  quarantined_batches := 0; spool_items := 0; spool_bytes := 0; quarantine_items := 0;
  quarantine_bytes := 0; kubernetes_cache_entries := 0
|}.

(** A change to the counters, by what is added. *)
Definition count (accepted rejected delivered failures quarantined : Z) (m : Metrics) : Metrics := {|
  accepted_batches := accepted_batches m + accepted;
  rejected_batches := rejected_batches m + rejected;
  delivered_batches := delivered_batches m + delivered;
  delivery_failures := delivery_failures m + failures;
  quarantined_batches := quarantined_batches m + quarantined;
  spool_items := spool_items m; spool_bytes := spool_bytes m;
  quarantine_items := quarantine_items m; quarantine_bytes := quarantine_bytes m;
  kubernetes_cache_entries := kubernetes_cache_entries m
|}.
(** [n as i64] *)
Definition as_i64 (n : Z) : Z := signed 64 n.
Definition set_spool (s : SpoolStats) (m : Metrics) : Metrics := {|
  accepted_batches := accepted_batches m; rejected_batches := rejected_batches m;
  delivered_batches := delivered_batches m; delivery_failures := delivery_failures m;
  quarantined_batches := quarantined_batches m;
  spool_items := as_i64 (items s); spool_bytes := as_i64 (stat_bytes s);
  quarantine_items := quarantine_items m; quarantine_bytes := quarantine_bytes m;
  kubernetes_cache_entries := kubernetes_cache_entries m
|}.
Definition set_quarantine (s : SpoolStats) (m : Metrics) : Metrics := {|
  accepted_batches := accepted_batches m; rejected_batches := rejected_batches m;
  delivered_batches := delivered_batches m; delivery_failures := delivery_failures m;
  quarantined_batches := quarantined_batches m;
  spool_items := spool_items m; spool_bytes := spool_bytes m;
  quarantine_items := as_i64 (items s); quarantine_bytes := as_i64 (stat_bytes s);
  kubernetes_cache_entries := kubernetes_cache_entries m
|}.

(** [notified]: the exporter has a wake-up waiting ([Notify::notify_one]). *)
Record AppState : Set := {
  config : OutpostConfig;
  app_metrics : Metrics;
  notified : bool;
  pods : gmap string KubernetesMetadata
}.
Definition on_metrics (f : Metrics -> Metrics) (s : AppState) : AppState :=
  {| config := config s; app_metrics := f (app_metrics s); notified := notified s; pods := pods s |}.
Definition notify_one (s : AppState) : AppState :=
  {| config := config s; app_metrics := app_metrics s; notified := true; pods := pods s |}.

(** * Responses *)
Inductive Body : Set :=
| ErrorResponse (error : string)
| AcceptedResponse (batch_id receipt_id : string)
| HealthResponse (regional_cell_id : string) (spool quarantine : SpoolStats).
Record Response : Set := {
  status : Z;
  response_body : Body
}.
Definition error_response (status : Z) (error : string) : Response :=
  {| status := status; response_body := ErrorResponse error |}.

(** [refresh_spool_metrics] *)
Definition refresh_spool_metrics (m : Metrics) : prog Metrics :=
  bind_prog stats (fun r =>
    let m := match r with inr s => set_spool s m | inl _ => m end in
    bind_prog quarantine_stats (fun r =>
      Ret (match r with inr s => set_quarantine s m | inl _ => m end))).

Definition strip_bearer (value : string) : option string := strip_prefix "Bearer " value.
Definition authorized (expected : option string) (authorization : option string) : bool :=
  match expected with
  | None => true
  | Some expected =>
      match authorization ≫= strip_bearer with
      | Some provided => String.eqb provided expected
      | None => false
      end
  end.

Section handlers.
Context {OffsetDateTime : Type}.
Abbreviation DamBatch := (DamBatch OffsetDateTime).
(** [serde_json::from_slice] and [to_vec] of a batch: an error is its text. *)
Context (from_slice : bytes -> string + DamBatch) (to_vec : DamBatch -> string + bytes).
(** [Display] of [std::io::Error] *)
Context (io_text : IoError -> string).
(** [hex::encode(Sha256::digest(_))] *)
Context (digest : bytes -> string).

Definition spool_error_text (e : SpoolError) : string :=
  match e with
  | CapacityExceeded current incoming max =>
      "spool capacity exceeded: current=" ++ pretty current ++ ", incoming=" ++ pretty incoming
      ++ ", maximum=" ++ pretty max
  | Io e => "spool I/O failed: " ++ io_text e
  end.

Definition health (s : AppState) : prog Response :=
  bind_prog stats (fun spool => bind_prog quarantine_stats (fun quarantine =>
    Ret match spool, quarantine with
        | inr spool, inr quarantine =>
            {| status := 200;
               response_body := HealthResponse (config_regional_cell_id (config s)) spool quarantine |}
        | inl error, _ | _, inl error => error_response 503 (spool_error_text error)
        end)).

Definition assigned (c : OutpostConfig) (b : DamBatch) : bool :=
  String.eqb (customer_id b) (config_customer_id c) && String.eqb (tenant_id b) (config_tenant_id c) &&
  String.eqb (source_id b) (config_source_id c) && String.eqb (regional_cell_id b) (config_regional_cell_id c).

Definition reject (s : AppState) (status : Z) (error : string) : prog (AppState * Response) :=
  Ret (on_metrics (count 0 1 0 0 0) s, error_response status error).

(** [accept_batch].  [authorization] is the header's value when it is text;
    [identities] what the identity mapping file gives. *)
Definition accept_batch (s : AppState) (identities : gmap string ExternalIdentity)
    (authorization : option string) (body : bytes) : prog (AppState * Response) :=
  if negb (authorized (internal_token (config s)) authorization)
  then reject s 401 "missing or invalid Observer credential" else
  match from_slice body with
  | inl error => reject s 400 ("invalid DAM batch: " ++ error)
  | inr batch =>
      match validate batch with
      | Ok _ =>
          if negb (assigned (config s) batch)
          then reject s 403 "batch identity does not match this Outpost assignment" else
          let batch := enrich_batch (config_cluster_name (config s)) identities (pods s) batch in
          match to_vec batch with
          | inl error => reject s 500 error
          | inr encoded =>
              bind_prog (enqueue digest (spool_max_bytes (config s)) encoded) (fun receipt =>
                match receipt with
                | inl error =>
                    bind_prog (refresh_spool_metrics (count 0 1 0 0 0 (app_metrics s))) (fun m =>
                      Ret (on_metrics (fun _ => m) s, error_response 507 (spool_error_text error)))
                | inr receipt_id =>
                    bind_prog (refresh_spool_metrics (count 1 0 0 0 0 (app_metrics s))) (fun m =>
                      Ret (notify_one (on_metrics (fun _ => m) s),
                           {| status := 202; response_body := AcceptedResponse (batch_id batch) receipt_id |}))
                end)
          end
      | Err error => reject s 400 error
      | Fault _ => reject s 400 ""
      end
  end.

(** * Delivery *)

Record S3NdjsonRecord : Type := {
  batch_schema_version : Z;
  record_batch_id : string;
  batch_created_at : OffsetDateTime;
  record_event : DamEvent OffsetDateTime
}.
(** [serde_json::to_writer] of a record, and the gzip encoder *)
Context (record_json : S3NdjsonRecord -> option bytes) (gzip : bytes -> bytes).
(** The texts an HTTP header can carry ([HeaderValue::from_str]); a request
    with any other idempotency key fails before it is sent. *)
Context (header_value : string -> bool).
(** The calendar fields of a timestamp *)
Context (year month day hour : OffsetDateTime -> Z).

Fixpoint ndjson_lines (batch : DamBatch) (l : list (DamEvent OffsetDateTime)) : option bytes :=
  match l with
  | [] => Some []
  | event :: l =>
      match record_json {| batch_schema_version := batch_version batch; record_batch_id := batch_id batch;
                           batch_created_at := created_at batch; record_event := event |} with
      | Some line =>
          match ndjson_lines batch l with
          | Some lines => Some (line ++ x0a :: lines)
          | None => None
          end
      | None => None
      end
  end.
Definition encode_s3_ndjson (batch : DamBatch) : option bytes :=
  match ndjson_lines batch (events batch) with
  | Some lines => Some (gzip lines)
  | None => None
  end.

Inductive DeliveryError : Set :=
| SpoolFailed (e : SpoolError)
| InvalidBatch (id : string)
| NoAnswer (batch_id : string)
| RetryableStatus (status : Z)
| EncodingFailed
| PutObjectFailed (key : string).

Definition is_success (status : Z) : bool := (200 <=? status) && (status <? 300).
Definition is_client_error (status : Z) : bool := (400 <=? status) && (status <? 500).

Definition deliver_http_batch (batch : DamBatch) (body : bytes) : prog (DeliveryError + bool) :=
  if negb (header_value (batch_id batch)) then Ret (inl (NoAnswer (batch_id batch))) else
  Do (Request (batch_id batch) body) (fun answer =>
    Ret match answer with
        | None => inl (NoAnswer (batch_id batch))
        | Some status =>
            if is_success status || (status =? 409) then inr true
            else if is_client_error status && negb (status =? 429) then inr false
            else inl (RetryableStatus status)
        end).

(** The SDK reports success exactly for an answer of success. *)
Definition deliver_s3_batch (d : S3DestinationConfig) (batch : DamBatch) : prog (DeliveryError + unit) :=
  let key := s3_object_key year month day hour d batch in
  match encode_s3_ndjson batch with
  | None => Ret (inl EncodingFailed)
  | Some body =>
      Do (Request key body) (fun answer =>
        Ret match answer with
            | Some status => if is_success status then inr tt else inl (PutObjectFailed key)
            | None => inl (PutObjectFailed key)
            end)
  end.

(** One batch, delivered or quarantined: [true] when it was delivered. *)
Definition deliver_item (d : DestinationConfig) (item : PendingItem) : task (DeliveryError + bool) :=
  Method (read item) (fun r =>
    match r with
    | inl e => Finish (inl (SpoolFailed e))
    | inr body =>
        match from_slice body with
        | inl _ => Finish (inl (InvalidBatch (id item)))
        | inr batch =>
            match d with
            | Http _ =>
                Method (deliver_http_batch batch body) (fun r =>
                  match r with
                  | inl e => Finish (inl e)
                  | inr true => settle SpoolFailed acknowledge item true
                  | inr false => settle SpoolFailed quarantine item false
                  end)
            | S3 d =>
                Method (deliver_s3_batch d batch) (fun r =>
                  match r with
                  | inl e => Finish (inl e)
                  | inr _ => settle SpoolFailed acknowledge item true
                  end)
            end
        end
    end).

Definition count_item (delivered : bool) : Metrics -> Metrics :=
  if delivered then count 0 0 1 0 0 else count 0 0 0 0 1.
Definition deliver_pending (d : DestinationConfig) (m : Metrics) : task (Metrics * (DeliveryError + unit)) :=
  deliver_all (deliver_item d) count_item SpoolFailed m.

(** One turn of the loop of [run_exporter] *)
Definition export_pass (s : AppState) : task AppState :=
  bind_task (deliver_pending (destination (config s)) (app_metrics s)) (fun '(m, r) =>
    let m := match r with inl _ => count 0 0 0 1 0 m | inr _ => m end in
    Method (refresh_spool_metrics m) (fun m => Finish (on_metrics (fun _ => m) s))).
End handlers.
