(* ===== verification/Trace.v ===== *)
(** Runs with the requests they make.  [exec_trace] is [exec] with the list of
    the requests sent and their answers; [twp] is the logic [cwp] over it.  A
    program that makes no request has the runs [cwp] speaks of. *)
From Stdlib Require Import ZArith Lia Strings.String.
From stdpp Require Import base list strings gmap.
From S2P Require Import Prelude Text Spool SpoolSpec.

Local Open Scope list_scope.

Record sent : Set := {
  sent_key : string;
  sent_body : bytes;
  answer : option Z
}.

Definition note {T} (c : call T) : T -> list sent :=
  match c in call T return T -> list sent with
  | Request key body => fun t => [{| sent_key := key; sent_body := body; answer := t |}]
  | _ => fun _ => []
  end.

Fixpoint exec_trace (faulty : bool) {A} (m : prog A) (w : world) (tr : list sent) (o : outcome A) : Prop :=
  o = Crashed w /\ tr = [] \/
  match m with
  | Ret a => o = Done w a /\ tr = []
  | Do c k => exists w' t tr', step faulty c w w' t /\ exec_trace faulty (k t) w' tr' o /\ tr = note c t ++ tr'
  end.

(** The trace adds nothing to what a run does. *)
Lemma exec_trace_exec faulty {A} (m : prog A) w o :
  exec faulty m w o <-> exists tr, exec_trace faulty m w tr o.
Proof.
  revert w. induction m as [a|T c k IH]; intros w; simpl.
  - split; [intros [->| ->]; exists []; auto|intros (tr & [[-> _]|[-> _]]); auto].
  - split.
    + intros [->|(w' & t & Hs & Ho)]; [exists []; auto|]. apply IH in Ho as [tr Ho].
      exists (note c t ++ tr). right. by exists w', t, tr.
    + intros (tr & [[-> _]|(w' & t & tr' & Hs & Ho & _)]); [auto|]. right. exists w', t. split; [done|].
      apply IH. eauto.
Qed.

(** No request *)
Definition silent (T : Type) (c : call T) : Prop :=
  match c with
  | Request _ _ => False
  | _ => True
  end.

Section twp.
Context (faulty : bool).

Definition twp {A} (Q : world -> A -> list sent -> Prop) (C : world -> list sent -> Prop)
    (m : prog A) (w : world) : Prop :=
  forall tr o, exec_trace faulty m w tr o ->
    match o with
    | Done w' a => Q w' a tr
    | Crashed w' => C w' tr
    end.

Lemma twp_ret {A} (Q : world -> A -> list sent -> Prop) C a w : C w [] -> Q w a [] -> twp Q C (Ret a) w.
Proof. intros HC HQ tr o [[-> ->]|[-> ->]]; done. Qed.

Lemma twp_do {A T} (Q : world -> A -> list sent -> Prop) C (c : call T) k w :
  C w [] ->
  (forall w' t, step faulty c w w' t ->
     twp (fun w' a tr => Q w' a (note c t ++ tr)) (fun w' tr => C w' (note c t ++ tr)) (k t) w') ->
  twp Q C (Do c k) w.
Proof.
  intros HC Hk tr o [[-> ->]|(w' & t & tr' & Hs & He & ->)]; [done|].
  specialize (Hk w' t Hs tr' o He). by destruct o.
Qed.

Lemma twp_mono {A} (Q Q' : world -> A -> list sent -> Prop) (C C' : world -> list sent -> Prop) m w :
  twp Q C m w -> (forall w a tr, Q w a tr -> Q' w a tr) -> (forall w tr, C w tr -> C' w tr) -> twp Q' C' m w.
Proof. intros H HQ HC tr o Ho. specialize (H tr o Ho). destruct o; auto. Qed.

Lemma twp_crash {A} (Q : world -> A -> list sent -> Prop) C m w : twp Q C m w -> C w [].
Proof. intros H. apply (H [] (Crashed w)). destruct m; by left. Qed.

Lemma twp_bind {A B} (Q : world -> B -> list sent -> Prop) C (m : prog A) (f : A -> prog B) w :
  twp (fun w' a tr => twp (fun w' b tr' => Q w' b (tr ++ tr')) (fun w' tr' => C w' (tr ++ tr')) (f a) w') C m w ->
  twp Q C (bind_prog m f) w.
Proof.
  revert w Q C. induction m as [a|T c k IH]; intros w Q C Hm.
  - apply (Hm [] (Done w a)). by right.
  - simpl. apply twp_do; [by eapply twp_crash|]. intros w' t Hs. apply IH.
    intros tr o Ho. assert (exec_trace faulty (Do c k) w (note c t ++ tr) o) as Hd by (right; eauto 6).
    specialize (Hm _ _ Hd). destruct o as [w2 a|w2]; [|done].
    eapply twp_mono; [exact Hm|..]; intros *; by rewrite app_assoc.
Qed.

(** A run of a sequence, from runs of its parts *)
Lemma exec_trace_bind {A B} (m : prog A) (f : A -> prog B) w tr w' a tr' o :
  exec_trace faulty m w tr (Done w' a) -> exec_trace faulty (f a) w' tr' o ->
  exec_trace faulty (bind_prog m f) w (tr ++ tr') o.
Proof.
  revert w tr. induction m as [b|T c k IH]; intros w tr Hm Hf.
  - destruct Hm as [[[=] _]|[[= -> ->] ->]]. exact Hf.
  - destruct Hm as [[[=] _]|(w1 & t & tr1 & Hs & Hm & ->)]. right. exists w1, t, (tr1 ++ tr').
    split; [done|]. split; [by apply IH|by rewrite app_assoc].
Qed.
Lemma exec_trace_bind_cut {A B} (m : prog A) (f : A -> prog B) w tr w' :
  exec_trace faulty m w tr (Crashed w') -> exec_trace faulty (bind_prog m f) w tr (Crashed w').
Proof.
  revert w tr. induction m as [b|T c k IH]; intros w tr.
  - intros [[[= ->] ->]|[[=] _]]. simpl. destruct (f b); by left.
  - intros [[[= ->] ->]|(w1 & t & tr1 & Hs & Hm & ->)]; [by left|]. right. exists w1, t, tr1. auto.
Qed.

(** And back: a run of a sequence is a run of the first part cut off, or one of
    both parts. *)
Lemma exec_trace_bind_inv {A B} (m : prog A) (f : A -> prog B) w tr o :
  exec_trace faulty (bind_prog m f) w tr o ->
  (exists w', o = Crashed w' /\ exec_trace faulty m w tr (Crashed w')) \/
  exists w' a tr1 tr2, exec_trace faulty m w tr1 (Done w' a) /\ exec_trace faulty (f a) w' tr2 o /\ tr = tr1 ++ tr2.
Proof.
  revert w tr. induction m as [b|T c k IH]; intros w tr; simpl.
  - intros Ho. right. exists w, b, [], tr. auto.
  - intros [[-> ->]|(w1 & t & tr1 & Hs & Ho & ->)]; [left; exists w; auto|].
    destruct (IH t w1 tr1 Ho) as [(w' & -> & Hm)|(w' & a & tr2 & tr3 & Hm & Hf & ->)].
    + left. exists w'. split; [done|]. right. exists w1, t, tr1. auto.
    + right. exists w', a, (note c t ++ tr2), tr3. split; [right; exists w1, t, tr2; auto|].
      split; [done|by rewrite app_assoc].
Qed.

Lemma twp_bind_inv {A B} (Q : world -> B -> list sent -> Prop) C (m : prog A) (f : A -> prog B) w :
  twp Q C (bind_prog m f) w ->
  twp (fun w' a tr => twp (fun w' b tr' => Q w' b (tr ++ tr')) (fun w' tr' => C w' (tr ++ tr')) (f a) w') C m w.
Proof.
  intros H tr o Ho. destruct o as [w' a|w'].
  - intros tr' o' Ho'. pose proof (H _ _ (exec_trace_bind m f w tr w' a tr' o' Ho Ho')) as HQ. by destruct o'.
  - exact (H _ _ (exec_trace_bind_cut m f w tr w' Ho)).
Qed.

(** Tasks that no other task interrupts *)
Lemma twp_bind_task {A B} (Q : world -> B -> list sent -> Prop) C (t : task A) (f : A -> task B) w :
  twp (fun w' a tr => twp (fun w' b tr' => Q w' b (tr ++ tr')) (fun w' tr' => C w' (tr ++ tr')) (alone (f a)) w')
    C (alone t) w ->
  twp Q C (alone (bind_task t f)) w.
Proof.
  revert w Q C. induction t as [a|X m k IH]; intros w Q C Ht.
  - apply (Ht [] (Done w a)). by right.
  - cbn [bind_task alone] in *. apply twp_bind. apply twp_bind_inv in Ht.
    eapply twp_mono; [exact Ht| |done]. intros w' x tr Hx. apply IH.
    eapply twp_mono; [exact Hx| |done]. intros w2 a tr2 Ha.
    eapply twp_mono; [exact Ha|..]; intros *; by rewrite app_assoc.
Qed.

(** A run without requests has no trace. *)
Lemma silent_trace {A} (m : prog A) w tr o :
  uses silent m -> exec_trace faulty m w tr o -> tr = [] /\ exec faulty m w o.
Proof.
  revert w tr. induction m as [a|T c k IH]; intros w tr Hu; simpl.
  - intros [[-> ->]|[-> ->]]; auto.
  - destruct Hu as [Hc Hk]. intros [[-> ->]|(w' & t & tr' & Hs & Ho & ->)]; [auto|].
    destruct (IH t w' tr' (Hk t) Ho) as [-> He]. split; [by destruct c|]. right. eauto.
Qed.

Lemma twp_silent {A} (Q : world -> A -> list sent -> Prop) C (m : prog A) w :
  uses silent m -> cwp faulty (fun w' a => Q w' a []) (fun w' => C w' []) m w -> twp Q C m w.
Proof. intros Hu H tr o Ho. destruct (silent_trace m w tr o Hu Ho) as [-> He]. exact (H o He). Qed.
End twp.

(** The deterministic run with its trace: every request is answered 200. *)
Fixpoint run_trace {A} (m : prog A) (w : world) : list sent :=
  match m with
  | Ret _ => []
  | Do c k => let '(w', t) := perform c w in note c t ++ run_trace (k t) w'
  end.

Lemma run_trace_exec faulty {A} (m : prog A) w :
  exec_trace faulty m w (run_trace m w) (Done (run m w).1 (run m w).2).
Proof.
  revert w. induction m as [a|T c k IH]; intros w; simpl; [by right|].
  destruct (perform c w) as [w' t] eqn:Hp. right. exists w', t, (run_trace (k t) w').
  split; [|split; [apply IH|done]]. pose proof (step_perform faulty c w) as Hs. by rewrite Hp in Hs.
Qed.
