(* ===== verification/Accounted.v ===== *)
(** Delivery from a spool, whoever delivers: the programs that make no request,
    what the calls of a pass keep of the spool, and the accounting of the items
    that receipts were given for against the requests that were made. *)
From Stdlib Require Import ZArith Lia ZifyBool Strings.Byte Strings.Ascii Strings.String Sorted.
From stdpp Require Import base list strings gmap.
From S2P Require Import Prelude Text Spool SpoolSpec SpoolLife Trace.

Local Open Scope string_scope.
Local Open Scope list_scope.
Local Open Scope Z_scope.

(** * Programs without requests *)
Section silent.

Lemma silent_stats d : uses silent (directory_stats d).
Proof. by apply uses_stats_any. Qed.

Lemma silent_enqueue digest max_bytes body : uses silent (enqueue digest max_bytes body).
Proof.
  split; [done|]. intros []; [done|]. split; [done|]. intros []; [done|].
  apply uses_bindM; [apply silent_stats|]. intros pend. apply uses_bindM; [apply silent_stats|]. intros quar.
  cbv zeta. destruct (max_bytes <? _); [done|].
  by repeat (apply uses_bindM; [by apply uses_try|intros _]).
Qed.

Lemma silent_acknowledge item : uses silent (acknowledge item).
Proof. split; [done|]. intros [[]|[]]; try done. by apply uses_bindM; [by apply uses_try|]. Qed.

Lemma silent_quarantine item : uses silent (quarantine item).
Proof.
  split; [done|]. intros []; [apply silent_acknowledge|]. split; [done|].
  intros [[]|[]]; try done; [split; [done|]; by intros []|].
  by repeat (apply uses_bindM; [by apply uses_try|intros _]).
Qed.

Lemma silent_read item : uses silent (read item).
Proof. by apply uses_try. Qed.

Lemma silent_pending : uses silent pending.
Proof.
  apply uses_bindM; [by apply uses_try|]. intros entries. apply uses_bindM; [|done].
  generalize (@nil PendingItem). induction entries as [|[e|name] entries IH]; intros found; [done|done|].
  cbn [pending_loop bindM bind_prog]. destruct (negb (is_json name)); [apply IH|].
  destruct (negb (utf8 (file_stem name))); [apply IH|].
  apply uses_bindM; [by apply uses_try|]. intros n. apply IH.
Qed.
End silent.

(** * What the calls of a pass keep *)
Section calls.
Context (digest : bytes -> string) (doubtful : gset string) (faulty : bool).

Lemma keeps_subset ids ids' w : ids' ⊆ ids -> keeps digest doubtful ids w -> keeps digest doubtful ids' w.
Proof. intros Hs [He Hi]. split; [done|]. intros i H. apply Hi. by apply Hs. Qed.

(** An acknowledged item may go; the others stay. *)
Lemma cwp_keeps_remove ids w item :
  keeps digest doubtful ids w -> proper item ->
  cwp faulty (fun w' _ => keeps digest doubtful (ids ∖ {[id item]}) w') (keeps digest doubtful (ids ∖ {[id item]}))
    (acknowledge item) w.
Proof.
  intros [He Hi] Hp o Ho.
  assert (keeps digest doubtful (ids ∖ {[id item]}) (world_of o)) as H; [|by destruct o].
  split.
  - pose proof (cwp_sound_acknowledge digest doubtful faulty w item He o Ho) as H. by destruct o.
  - intros i [Hin Hne%not_elem_of_singleton]%elem_of_difference. destruct (Hi i Hin) as [Hl Hw].
    split; [done|]. eapply exec_harmless; [by apply harmless_acknowledge|done|exact Ho].
Qed.

(** The items of a listing are where their ids say. *)
Lemma cwp_pending_proper w :
  cwp faulty (fun w' r => w' = w /\ forall l, r = inr l -> Forall proper l) (fun w' => w' = w) pending w.
Proof.
  assert (forall entries found, Forall proper found ->
    cwp faulty (fun w' r => w' = w /\ forall l, r = inr l -> Forall proper l) (fun w' => w' = w)
      (pending_loop entries found) w) as Hloop.
  { induction entries as [|[e|name] entries IH]; intros found Hf; [|by apply cwp_ret|].
    - apply cwp_ret; [done|]. split; [done|]. by intros l [= <-].
    - cbn [pending_loop bindM bind_prog]. destruct (is_json name) eqn:Hj; [|by apply IH]. cbn [negb].
      destruct (utf8 (file_stem name)); [|by apply IH]. cbn [negb].
      apply cwp_bindM. eapply cwp_try; [done|]. intros w' t [-> Ht]%step_len. split; [done|].
      destruct t as [e|n]; [done|]. apply IH. apply Forall_app. split; [done|]. constructor; [|constructor].
      unfold proper. simpl. f_equal. by apply is_json_inv. }
  apply cwp_bindM, cwp_try; [done|]. intros w1 t Hs.
  assert (w1 = w) as -> by (by eapply step_readonly in Hs). split; [done|]. destruct t as [e|entries]; [done|].
  apply cwp_bindM. eapply cwp_mono; [by apply Hloop| |done]. intros w' [e|found] [-> Hl]; [done|].
  apply cwp_ret; [done|]. split; [done|]. intros l [= <-]. rewrite sort_items_perm. by apply Hl.
Qed.

(** A body that is read is the content of the item's id, if that is a digest and
    not doubtful. *)
Lemma cwp_read ids w item :
  keeps digest doubtful ids w -> proper item ->
  cwp faulty (fun w' r => w' = w /\ forall body, r = inr body -> slen (id item) = 64 -> id item ∉ doubtful -> digest body = id item)
    (fun w' => w' = w) (read item) w.
Proof.
  intros [He Hi] Hp. apply cwp_try; [done|]. intros w1 t Hs.
  assert (w1 = w) as -> by (by eapply step_readonly in Hs). split; [done|]. split; [done|].
  intros body Hb Hl Hd. destruct Hs as [Hs|(_ & _ & e & ->)]; [|done]. rewrite Hp in Hs. simpl in Hs.
  destruct (visible w !! _) as [f|] eqn:Hf; injection Hs as ->; [|done]. injection Hb as <-.
  by apply (every_visible _ _ He Root).
Qed.
End calls.

(** * Accounting

    [delivered i r]: the request [r] took the item [i] to the receiver, which
    answered for it. *)
Section accounting.
Context (digest : bytes -> string) (doubtful : gset string) (delivered : string -> sent -> Prop).

(** Each of [ids] that is not doubtful is still kept or was delivered. *)
Definition accounted (ids : gset string) (w : world) (tr : list sent) : Prop :=
  exists ids', keeps digest doubtful ids' w /\ forall i, i ∈ ids -> i ∉ doubtful -> i ∈ ids' \/ Exists (delivered i) tr.

Lemma accounted_keeps ids w tr : keeps digest doubtful ids w -> accounted ids w tr.
Proof. intros H. exists ids. auto. Qed.

(** A step that keeps what is kept keeps the account. *)
Lemma accounted_step ids w w' tr tr' :
  accounted ids w tr -> (forall kept, keeps digest doubtful kept w -> keeps digest doubtful kept w') -> accounted ids w' (tr ++ tr').
Proof.
  intros (kept & Hk & Hi) Hstep. exists kept. split; [auto|]. intros i Hin Hd.
  destruct (Hi i Hin Hd); [by left|right; apply Exists_app; auto].
Qed.

(** A new receipt *)
Lemma accounted_receipt ids w w' tr i :
  accounted ids w tr -> (forall kept, keeps digest doubtful kept w -> keeps digest doubtful ({[i]} ∖ doubtful ∪ kept) w') ->
  accounted ({[i]} ∪ ids) w' tr.
Proof.
  intros (kept & Hk & Hi) Hstep. exists ({[i]} ∖ doubtful ∪ kept). split; [auto|].
  intros j [->%elem_of_singleton|Hj]%elem_of_union Hd.
  { left. by apply elem_of_union_l, elem_of_difference; split; [apply elem_of_singleton|]. }
  destruct (Hi j Hj Hd); [left; by apply elem_of_union_r|by right].
Qed.
End accounting.
