(* ===== verification/Interleave.v ===== *)
(** Tasks that others interrupt.  Before, between and after the methods of a task
    the environment may change the disk and tell others something, as a receipt;
    [interleaved] are the runs of a task among such changes.  [honours] is what
    a task must ensure at each of its methods so that, whatever happens in
    between, every receipt stays accounted for. *)
From Stdlib Require Import ZArith Lia Strings.String.
From stdpp Require Import base list strings gmap.
From S2P Require Import Prelude Text Spool SpoolSpec SpoolLife Trace Accounted.

Local Open Scope list_scope.

Section interleave.
Context (faulty : bool).

(** [env w g w' g']: another task takes the disk from [w] to [w'], and what it
    has told others from [g] to [g']. *)
Context {R : Type} (env : world -> R -> world -> R -> Prop).

(** [interleaved t w g tr o g']: the task, started at [w] when others have been
    told [g], makes the requests [tr] and ends with [o], and then others have been
    told [g']. *)
Inductive interleaved {A} : task A -> world -> R -> list sent -> outcome A -> R -> Prop :=
| interleaved_env t w g w1 g1 tr o g' :
    env w g w1 g1 -> interleaved t w1 g1 tr o g' -> interleaved t w g tr o g'
| interleaved_stop t w g : interleaved t w g [] (Crashed w) g
| interleaved_finish a w g : interleaved (Finish a) w g [] (Done w a) g
| interleaved_method {X} (m : prog X) k w g tr1 w1 x tr2 o g' :
    exec_trace faulty m w tr1 (Done w1 x) -> interleaved (k x) w1 g tr2 o g' ->
    interleaved (Method m k) w g (tr1 ++ tr2) o g'
| interleaved_cut {X} (m : prog X) k w g tr w1 :
    exec_trace faulty m w tr (Crashed w1) -> interleaved (Method m k) w g tr (Crashed w1) g.

(** [advanced t w g tr t' w' g']: the same run under way.  It made the requests
    [tr], the disk is [w'], others have been told [g'], and [t'] is what is left of
    the task. *)
Inductive advanced {A} (t : task A) (w : world) (g : R) : list sent -> task A -> world -> R -> Prop :=
| advanced_start : advanced t w g [] t w g
| advanced_env tr t1 w1 g1 w2 g2 : advanced t w g tr t1 w1 g1 -> env w1 g1 w2 g2 -> advanced t w g tr t1 w2 g2
| advanced_method {X} tr (m : prog X) k w1 g1 tr1 w2 x :
    advanced t w g tr (Method m k) w1 g1 -> exec_trace faulty m w1 tr1 (Done w2 x) ->
    advanced t w g (tr ++ tr1) (k x) w2 g1.

(** What is left may go on in any way. *)
Lemma advanced_interleaved {A} (t : task A) w g tr t1 w1 g1 tr1 o g' :
  advanced t w g tr t1 w1 g1 -> interleaved t1 w1 g1 tr1 o g' -> interleaved t w g (tr ++ tr1) o g'.
Proof.
  intros Ha. revert tr1 o g'. induction Ha as [|tr t1 w1 g1 w2 g2 _ IH He|X tr m k w1 g1 tr2 w2 x _ IH Hm];
    intros tr1 o g' Hi; [done| |].
  - apply IH. by eapply interleaved_env.
  - rewrite <- app_assoc. apply IH. by eapply interleaved_method.
Qed.

(** The task itself tells no one anything. *)
Lemma interleaved_told {A} (P : R -> Prop) (t : task A) w g tr o g' :
  (forall w g w' g', env w g w' g' -> P g -> P g') -> interleaved t w g tr o g' -> P g -> P g'.
Proof. intros Henv Hi. induction Hi; eauto. Qed.

(** The runs without interruption are among them. *)
Lemma alone_interleaved {A} (t : task A) w g tr o :
  exec_trace faulty (alone t) w tr o -> interleaved t w g tr o g.
Proof.
  revert w tr. induction t as [a|X m k IH]; intros w tr Ho.
  - destruct Ho as [[-> ->]|[-> ->]]; [apply interleaved_stop|apply interleaved_finish].
  - apply exec_trace_bind_inv in Ho as [(w' & -> & Hm)|(w' & x & tr1 & tr2 & Hm & Hk & ->)].
    + by apply interleaved_cut.
    + eapply interleaved_method; [exact Hm|by apply IH].
Qed.

(** * Tasks that honour receipts *)
Context (digest : bytes -> string) (doubtful : gset string) (delivered : string -> sent -> Prop).
Abbreviation accounted := (accounted digest doubtful delivered).

(** [honours Q t tr]: at each of its methods the task keeps the account, whatever the
    disk and the receipts are then; [tr] are all the requests made so far, and [Q]
    holds of the result and the requests at the end. *)
Fixpoint honours {A} (Q : A -> list sent -> Prop) (t : task A) (tr : list sent) : Prop :=
  match t with
  | Finish a => Q a tr
  | Method m k => forall w ids, accounted ids w tr ->
      twp faulty (fun w' x tr' => accounted ids w' (tr ++ tr') /\ honours Q (k x) (tr ++ tr'))
        (fun w' tr' => accounted ids w' (tr ++ tr')) m w
  end.

Lemma honours_bind {A B} (Q : B -> list sent -> Prop) (t : task A) (f : A -> task B) tr :
  honours (fun a tr' => honours Q (f a) tr') t tr -> honours Q (bind_task t f) tr.
Proof.
  revert tr. induction t as [a|X m k IH]; intros tr; cbn [honours bind_task]; [done|].
  intros H w ids Ha. eapply twp_mono; [by apply H| |done]. intros w' x tr' [Ha' Hs]. split; [done|by apply IH].
Qed.

Lemma honours_mono {A} (Q Q' : A -> list sent -> Prop) (t : task A) tr :
  (forall a tr', Q a tr' -> Q' a tr') -> honours Q t tr -> honours Q' t tr.
Proof.
  intros HQ. revert tr. induction t as [a|X m k IH]; intros tr; cbn [honours]; [apply HQ|].
  intros H w ids Ha. eapply twp_mono; [by apply H| |done]. intros w' x tr' [Ha' Hs]. auto.
Qed.

(** The account of the receipts told is kept among any changes that keep it. *)
Lemma honours_interleaved {A} (receipts : R -> gset string) (Q : A -> list sent -> Prop) (t : task A) w g tr tr' o g' :
  (forall w g w' g' tr, env w g w' g' -> accounted (receipts g) w tr -> accounted (receipts g') w' tr) ->
  honours Q t tr -> accounted (receipts g) w tr -> interleaved t w g tr' o g' ->
  accounted (receipts g') (world_of o) (tr ++ tr').
Proof.
  intros Henv Hs Ha Hi. revert tr Hs Ha.
  induction Hi as [t w g w1 g1 tr' o g' He _ IH|t w g|a w g|X m k w g tr1 w1 x tr2 o g' Hm _ IH|X m k w g tr1 w1 Hm];
    intros tr Hs Ha; cbn [world_of].
  - apply IH; [done|by eapply Henv].
  - by rewrite app_nil_r.
  - by rewrite app_nil_r.
  - destruct (Hs w _ Ha tr1 _ Hm) as [Ha1 Hs1]. rewrite app_assoc. by apply IH.
  - exact (Hs w _ Ha tr1 _ Hm).
Qed.

(** ** Methods *)

(** A method that keeps what is kept, without requests *)
Lemma honours_method {A X} (Q : A -> list sent -> Prop) (P : X -> Prop) (m : prog X) k tr :
  uses silent m ->
  (forall kept w, keeps digest doubtful kept w ->
     cwp faulty (fun w' x => keeps digest doubtful kept w' /\ P x) (keeps digest doubtful kept) m w) ->
  (forall x, P x -> honours Q (k x) tr) -> honours Q (Method m k) tr.
Proof.
  intros Hu Hm Hk w ids (kept & Hkept & Hi). apply twp_silent; [done|].
  eapply cwp_mono; [by apply (Hm kept w)|..]; intros *; rewrite app_nil_r.
  - intros [Hk' HP]. split; [by exists kept|by apply Hk].
  - intros Hk'. by exists kept.
Qed.

(** A request *)
Lemma honours_request {A X} (Q : A -> list sent -> Prop) key body (answered : option Z -> X) k tr :
  (forall t, honours Q (k (answered t)) (tr ++ [{| sent_key := key; sent_body := body; answer := t |}])) ->
  honours Q (Method (Do (Request key body) (fun t => Ret (answered t))) k) tr.
Proof.
  intros Hk w ids Ha. assert (forall tr', accounted ids w (tr ++ tr')) as Hany by (intros tr'; by eapply accounted_step).
  apply twp_do; [apply Hany|]. intros w1 t ->. apply twp_ret; [apply Hany|]. split; [apply Hany|apply Hk].
Qed.

Lemma honours_settle_acknowledge {E} (failed : SpoolError -> E) item b tr :
  proper item -> (slen (id item) = 64%Z -> id item ∉ doubtful -> Exists (delivered (id item)) tr) ->
  honours (fun _ _ => True) (settle failed acknowledge item b) tr.
Proof.
  intros Hp Hd w ids (kept & Hk & Hi). apply twp_silent; [apply silent_acknowledge|].
  assert (forall w', keeps digest doubtful (kept ∖ {[id item]}) w' -> accounted ids w' (tr ++ [])) as Ha.
  { intros w' Hk'. rewrite app_nil_r. exists (kept ∖ {[id item]}). split; [done|]. intros i Hin Hnd.
    destruct (Hi i Hin Hnd) as [Hkept|]; [|by right].
    destruct (decide (i = id item)) as [->|Hne]; [|left; by apply elem_of_difference; split; [|by rewrite elem_of_singleton]].
    right. apply Hd; [by apply (proj2 Hk)|done]. }
  eapply cwp_mono; [by apply cwp_keeps_remove| |done]. intros w' r Hk'. split; [by apply Ha|done].
Qed.

Lemma honours_settle_quarantine {E} (failed : SpoolError -> E) item b tr :
  proper item -> honours (fun _ _ => True) (settle failed quarantine item b) tr.
Proof.
  intros Hp. apply (honours_method _ (fun _ => True)); [apply silent_quarantine| |done].
  intros kept w Hk. eapply cwp_mono; [by apply cwp_keeps_quarantine| |done]. by intros w' r H.
Qed.

Lemma honours_read {A} (Q : A -> list sent -> Prop) item k tr :
  proper item ->
  (forall r, (forall body, r = inr body -> slen (id item) = 64%Z -> id item ∉ doubtful -> digest body = id item) -> honours Q (k r) tr) ->
  honours Q (Method (read item) k) tr.
Proof.
  intros Hp Hk. eapply honours_method; [apply silent_read| |exact Hk].
  intros kept w Hkept. eapply cwp_mono; [by eapply cwp_read|..]; [|by intros w' ->]. by intros w' r [-> H].
Qed.

(** ** The loop of the exporters *)
Context {E Metrics : Type} (deliver : PendingItem -> task (E + bool)) (counted : bool -> Metrics -> Metrics)
  (spool_failed : SpoolError -> E).
Context (deliver_safe : forall item tr, proper item -> honours (fun _ _ => True) (deliver item) tr).

Lemma honours_deliver_each l m tr : Forall proper l -> honours (fun _ _ => True) (deliver_each deliver counted l m) tr.
Proof using deliver_safe.
  intros Hp. revert m tr. induction Hp as [|item l Hi _ IH]; intros m tr; [done|]. cbn [deliver_each].
  apply honours_bind. eapply honours_mono; [|by apply deliver_safe]. intros [e|b] tr' _; [done|apply IH].
Qed.

Lemma honours_deliver_all m tr : honours (fun _ _ => True) (deliver_all deliver counted spool_failed m) tr.
Proof using deliver_safe.
  apply (honours_method _ (fun r => forall l, r = inr l -> Forall proper l)); [apply silent_pending|..].
  - intros kept w Hk. eapply cwp_mono; [apply cwp_pending_proper|..]; [|by intros w' ->]. by intros w' r [-> H].
  - intros [e|l] Hl; [done|]. by apply honours_deliver_each, Hl.
Qed.
End interleave.
