(* ===== verification/Blocked.v ===== *)
(** A pass that cannot get past an item.  Whoever delivers: when the deliverer
    fails on an item's content without touching the disk, every pass that nobody
    interrupts ends there, and that item and all those after it stay. *)
From Stdlib Require Import ZArith Lia ZifyBool Strings.Byte Strings.Ascii Strings.String Sorted.
From stdpp Require Import base list strings gmap sorting.
From S2P Require Import Prelude Text Spool SpoolSpec SpoolLife Trace Accounted.

Local Open Scope string_scope.
Local Open Scope list_scope.
Local Open Scope Z_scope.

Lemma twp_true faulty {A} (Q : world -> A -> list sent -> Prop) (m : prog A) w :
  (forall w' a tr, Q w' a tr) -> twp faulty Q (fun _ _ => True) m w.
Proof. intros H tr o _. by destruct o. Qed.

(** The fault-free acknowledgement of a pending item. *)
Lemma cwp_acknowledge_ok item w f :
  visible w !! item_path item = Some f ->
  cwp false (fun w' r => r = inr tt /\ visible w' = delete (item_path item) (visible w)) (fun _ => True)
    (acknowledge item) w.
Proof.
  intros Hf. apply cwp_do_false; [done|]. cbn [perform]. rewrite Hf. cbn [fst snd].
  apply cwp_bindM, cwp_try; [done|]. intros w' t [[= -> ->]|[[=] _]]. split; [done|].
  apply cwp_ret; [done|]. split; [done|]. change (visible (flush ?w)) with (visible w). by rewrite visible_log.
Qed.

(** Only the item's own file can leave the root. *)
Definition frame (item : PendingItem) (w w' : world) : Prop :=
  forall p, p.1 = Root -> p <> item_path item -> visible w' !! p = visible w !! p.

Lemma frame_refl item w : frame item w w.
Proof. done. Qed.

Lemma cwp_acknowledge_frame faulty item w :
  cwp faulty (fun w' _ => frame item w w') (fun _ => True) (acknowledge item) w.
Proof.
  apply cwp_do; [done|]. intros w' t Hs.
  assert (frame item w w') as Hw.
  { destruct Hs as [Hs|(_ & -> & _)]; [|done]. simpl in Hs.
    destruct (visible w !! item_path item); injection Hs as -> ->; [|done].
    intros p _ Hp. rewrite visible_log. cbn [apply]. by rewrite lookup_delete_ne. }
  destruct t as [[]|[]]; try by apply cwp_ret.
  apply cwp_bindM, cwp_try; [done|]. intros w2 t [[= -> ->]|(_ & -> & e & ->)]; [|by split].
  split; [done|]. by apply cwp_ret.
Qed.

Lemma cwp_quarantine_frame faulty item w :
  cwp faulty (fun w' _ => frame item w w') (fun _ => True) (quarantine item) w.
Proof.
  unfold quarantine. apply cwp_do; [done|]. intros w1 e [-> _]. destruct e; [apply cwp_acknowledge_frame|].
  apply cwp_do; [done|]. intros w1 t Hs.
  assert (frame item w w1) as Hw1.
  { destruct Hs as [Hs|(_ & -> & _)]; [|done]. simpl in Hs.
    destruct (visible w !! item_path item) as [f|] eqn:Hf; injection Hs as -> ->; [|done].
    intros p Hr Hp. rewrite visible_log. cbn [apply]. rewrite Hf, lookup_insert_ne by (intros <-; done).
    by rewrite lookup_delete_ne. }
  destruct t as [[]|[]]; try by apply cwp_ret.
  - apply cwp_do; [done|]. intros w2 e2 [-> _]. by destruct e2; apply cwp_ret.
  - apply cwp_bindM, cwp_try; [done|]. intros w2 t [[= -> ->]|(_ & -> & e & ->)]; [|by split]. split; [done|].
    apply cwp_bindM, cwp_try; [done|]. intros w2 t [[= -> ->]|(_ & -> & e & ->)]; [|by split]. split; [done|].
    by apply cwp_ret.
Qed.

Lemma cwp_read_same faulty item w :
  cwp faulty (fun w' r => w' = w /\ forall body, r = inr body ->
      exists f, visible w !! item_path item = Some f /\ content f = body) (fun _ => True) (read item) w.
Proof.
  apply cwp_try; [done|]. intros w1 t Hs.
  assert (w1 = w) as -> by (by eapply step_readonly in Hs). split; [done|]. split; [done|].
  intros body Hb. destruct Hs as [Hs|(_ & _ & e & ->)]; [|done]. simpl in Hs.
  destruct (visible w !! _) as [f|]; injection Hs as ->; [|done]. injection Hb as <-. eauto.
Qed.

Lemma twp_frame_settle {E} (failed : SpoolError -> E) (method : PendingItem -> M unit) item w (b : bool) :
  uses silent (method item) -> cwp false (fun w' _ => frame item w w') (fun _ => True) (method item) w ->
  twp false (fun w' _ _ => frame item w w') (fun _ _ => True) (alone (settle failed method item b)) w.
Proof.
  intros Hu Hm. apply twp_bind, twp_silent; [done|]. eapply cwp_mono; [exact Hm| |done].
  intros w' r Hw. by apply twp_ret.
Qed.

Lemma twp_frame_acknowledge {E} (failed : SpoolError -> E) item w (b : bool) :
  twp false (fun w' _ _ => frame item w w') (fun _ _ => True) (alone (settle failed acknowledge item b)) w.
Proof. apply twp_frame_settle; [apply silent_acknowledge|apply cwp_acknowledge_frame]. Qed.

Lemma twp_frame_quarantine {E} (failed : SpoolError -> E) item w (b : bool) :
  twp false (fun w' _ _ => frame item w w') (fun _ _ => True) (alone (settle failed quarantine item b)) w.
Proof. apply twp_frame_settle; [apply silent_quarantine|apply cwp_quarantine_frame]. Qed.

Section blocked.
Context {E Metrics : Type} (deliver : PendingItem -> task (E + bool)) (counted : bool -> Metrics -> Metrics)
  (spool_failed : SpoolError -> E).
Context (deliver_frame : forall item w, twp false (fun w' _ _ => frame item w w') (fun _ _ => True) (alone (deliver item)) w).

(** The content on which the deliverer fails *)
Definition stuck (x : PendingItem) (body : bytes) : Prop :=
  forall w f, visible w !! item_path x = Some f -> content f = body ->
    twp false (fun w' r tr => w' = w /\ exists e, r = inl e) (fun _ _ => True) (alone (deliver x)) w.

Lemma twp_each_stuck l1 x l2 w m f :
  ~ item_path x ∈ item_path <$> l1 -> Forall (fun y => (item_path y).1 = Root) (x :: l1) ->
  visible w !! item_path x = Some f -> stuck x (content f) ->
  twp false
    (fun w' r tr => (exists e, r.2 = inl e) /\
       forall p, p.1 = Root -> ~ p ∈ item_path <$> l1 -> visible w' !! p = visible w !! p)
    (fun _ _ => True) (alone (deliver_each deliver counted (l1 ++ x :: l2) m)) w.
Proof using deliver_frame.
  intros Hx Hroot Hf Hd. apply Forall_cons in Hroot as [Hxr Hroot].
  revert w m Hf. induction l1 as [|y l1 IH]; intros w m Hf; cbn [deliver_each app]; apply twp_bind_task.
  - eapply twp_mono; [by eapply Hd| |done]. intros w' r tr (-> & e & ->).
    apply twp_ret; [done|]. split; [by exists e|done].
  - rewrite fmap_cons, not_elem_of_cons in Hx. destruct Hx as [Hxy Hx]. apply Forall_cons in Hroot as [Hy Hroot].
    eapply twp_mono; [apply deliver_frame| |done]. intros w' r tr Hw. destruct r as [e|b].
    + apply twp_ret; [done|]. split; [by exists e|].
      intros p Hpr Hn. rewrite fmap_cons, not_elem_of_cons in Hn. apply Hw; tauto.
    + eapply twp_mono; [apply (IH Hx Hroot w' (counted b m)); by rewrite (Hw _ Hxr Hxy)| |done].
      intros w2 r2 tr2 [He Hp]. split; [done|]. intros p Hpr Hn. rewrite fmap_cons, not_elem_of_cons in Hn.
      rewrite Hp by tauto. apply Hw; tauto.
Qed.

Lemma deliver_all_blocked name x f w m tr w' m' r :
  entry_item (visible w) name = Some x -> visible w !! (Root, name) = Some f -> stuck x (content f) ->
  exec_trace false (alone (deliver_all deliver counted spool_failed m)) w tr (Done w' (m', r)) ->
  (exists e, r = inl e) /\
  forall name' y, entry_item (visible w) name' = Some y -> String.leb (id x) (id y) = true ->
    visible w' !! (Root, name') = visible w !! (Root, name').
Proof using deliver_frame.
  intros Hx Hf Hd Ho.
  assert (twp false (fun w' mr tr => (exists e, mr.2 = inl e) /\
    forall name' y, entry_item (visible w) name' = Some y -> String.leb (id x) (id y) = true ->
      visible w' !! (Root, name') = visible w !! (Root, name')) (fun _ _ => True)
    (alone (deliver_all deliver counted spool_failed m)) w)
    as H; [|exact (H tr _ Ho)].
  apply twp_bind, twp_silent; [apply silent_pending|].
  eapply cwp_mono; [apply cwp_pending_listed| |done]. intros w1 z (-> & l & -> & Hp & Hsort).
  destruct (entry_item_file _ _ _ Hx) as (f' & Hf' & Hpath & _).
  assert (x ∈ l) as Hin.
  { rewrite Hp. apply list_elem_of_omap. exists name. split; [apply listing_spec; eauto|done]. }
  assert (NoDup (item_path <$> l)) as Hnd by (rewrite Hp; apply entry_paths_nodup, listing_nodup).
  apply list_elem_of_split in Hin as (l1 & l2 & ->).
  rewrite fmap_app, fmap_cons, NoDup_app in Hnd. destruct Hnd as (_ & Hdisj & Hnd2).
  assert (Forall (fun y => (item_path y).1 = Root) (l1 ++ x :: l2)) as Hroot.
  { apply Forall_forall. intros y Hy. rewrite Hp in Hy. apply list_elem_of_omap in Hy as (n & _ & Hn).
    by destruct (entry_item_file _ _ _ Hn) as (g & _ & -> & _). }
  apply Forall_app in Hroot as [Hr1 Hr2]. apply Forall_cons in Hr2 as [Hrx _].
  eapply twp_mono; [eapply (twp_each_stuck l1 x l2 w m f)| |done].
  - intros Hin. apply (Hdisj _ Hin). by left.
  - by constructor.
  - by rewrite Hpath.
  - done.
  - intros w2 mr tr2 [He Hfr]. split; [done|]. intros name' y Hy Hle.
    destruct (entry_item_file _ _ _ Hy) as (g & Hg & Hpy & _). apply Hfr; [done|]. rewrite <- Hpy.
    intros (y' & Hy' & Hin1)%list_elem_of_fmap.
    assert (y ∈ l1 ++ x :: l2) as Hyl.
    { rewrite Hp. apply list_elem_of_omap. exists name'. split; [apply listing_spec; eauto|done]. }
    assert (y' = y) as ->.
    { assert (y' ∈ l1 ++ x :: l2) as Hyl' by (apply elem_of_app; by left).
      rewrite Hp in Hyl'. apply list_elem_of_omap in Hyl' as (n' & _ & Hn').
      destruct (entry_item_file _ _ _ Hn') as (g' & _ & Hpy' & _).
      assert (n' = name') as -> by congruence. congruence. }
    assert (id_le y x) as Hyx.
    { apply Sorted_StronglySorted in Hsort; [|exact id_le_trans]. eapply (StronglySorted_app_1_elem_of _ l1 (x :: l2)); [done|done|by left]. }
    assert (id x = id y) as Hid by (by apply String.leb_antisym).
    apply entry_item_name in Hx, Hy. apply (Hdisj (item_path y)); [by apply list_elem_of_fmap_2|].
    rewrite Hpy, Hy, <- Hid, <- Hx, <- Hpath. by left.
Qed.
End blocked.
