(* ===== verification/OutpostSpec.v ===== *)
(** What Outpost guarantees: a batch it accepted is on disk until a receiver
    answered for it, whatever fails and wherever a call is cut off; intake
    answers each request as its checks say; a pass without failures delivers
    everything; and one batch that cannot be sent blocks those after it. *)
From Stdlib Require Import ZArith Lia ZifyBool Strings.Byte Strings.Ascii Strings.String Sorted.
From stdpp Require Import base list strings gmap.
From S2P Require Import Prelude Text Float64 Json Schema.
From S2P Require Import Spool SpoolSpec SpoolLife Enrich Destination Outpost Trace Accounted Interleave.

Local Open Scope string_scope.
Local Open Scope list_scope.
Local Open Scope Z_scope.

(** * The gauges *)
Lemma silent_refresh m : uses silent (refresh_spool_metrics m).
Proof.
  apply uses_bind; [apply silent_stats|]. intros r. by apply uses_bind; [apply silent_stats|].
Qed.

Lemma cwp_refresh faulty m w : cwp faulty (fun w' _ => w' = w) (fun w' => w' = w) (refresh_spool_metrics m) w.
Proof.
  apply cwp_bind. eapply cwp_mono; [apply cwp_directory_stats| |done]. intros w1 r [-> _].
  apply cwp_bind. eapply cwp_mono; [apply cwp_directory_stats| |done]. intros w1 r' [-> _].
  by apply cwp_ret.
Qed.

(** * Answers *)

(** A body that was sent, and the response to it *)
Abbreviation exchange := (bytes * Response)%type.
Definition receipt_of (entry : exchange) : option string :=
  match response_body entry.2 with
  | AcceptedResponse _ receipt => Some receipt
  | _ => None
  end.
Definition receipts (handled : list exchange) : gset string := list_to_set (omap receipt_of handled).

Lemma receipts_snoc handled entry :
  receipts (handled ++ [entry]) =
    match receipt_of entry with Some receipt => {[receipt]} ∪ receipts handled | None => receipts handled end.
Proof.
  unfold receipts. rewrite omap_app, list_to_set_app_L. cbn [omap list_omap].
  destruct (receipt_of entry) as [receipt|]; simpl; [|by rewrite right_id_L by apply _].
  by rewrite (right_id_L ∅ (∪)), (comm_L (∪)) by apply _.
Qed.

Lemma elem_of_receipts i entry handled : entry ∈ handled -> receipt_of entry = Some i -> i ∈ receipts handled.
Proof. intros He Hr. apply elem_of_list_to_set, list_elem_of_omap. eauto. Qed.

(** * Delivery *)
Section delivery.
Context {OffsetDateTime : Type}.
Context (from_slice : bytes -> string + DamBatch OffsetDateTime)
  (to_vec : DamBatch OffsetDateTime -> string + bytes) (io_text : IoError -> string)
  (digest : bytes -> string) (Hdigest : forall body, slen (digest body) = 64)
  (record_json : S3NdjsonRecord (OffsetDateTime := OffsetDateTime) -> option bytes) (gzip : bytes -> bytes)
  (header_value : string -> bool) (year month day hour : OffsetDateTime -> Z).
Context (d : DestinationConfig) (doubtful : gset string) (faulty : bool).

Abbreviation deliver_item := (deliver_item from_slice record_json gzip header_value year month day hour).
Abbreviation export_pass := (export_pass from_slice record_json gzip header_value year month day hour).
Abbreviation object_key := (s3_object_key year month day hour).

(** The request took the item [i] to the receiver, which answered for it. *)
Definition delivered (i : string) (r : sent) : Prop :=
  exists body batch, digest body = i /\ from_slice body = inr batch /\
    match d with
    | Http _ => sent_key r = batch_id batch /\ sent_body r = body /\
        exists status, answer r = Some status /\ (is_success status = true \/ status = 409)
    | S3 s => sent_key r = object_key s batch /\ encode_s3_ndjson record_json gzip batch = Some (sent_body r) /\
        exists status, answer r = Some status /\ is_success status = true
    end.

Lemma honours_item item tr :
  proper item -> honours faulty digest doubtful delivered (fun _ _ => True) (deliver_item d item) tr.
Proof.
  intros Hp. apply honours_read; [done|]. intros [e|body] Hb; [done|].
  destruct (from_slice body) as [error|batch] eqn:Hfs; [done|]. destruct d as [h|s] eqn:Hd.
  - unfold deliver_http_batch. destruct (negb (header_value (batch_id batch))).
    { eapply (honours_method _ _ _ _ _ (fun r => exists e, r = inl e)); [done|by intros; apply cwp_ret; eauto|].
      by intros r [e ->]. }
    apply honours_request. intros [status|]; [|done].
    destruct (is_success status || (status =? 409)) eqn:Hst.
    + apply honours_settle_acknowledge; [done|]. intros Hl Hdt. apply Exists_app. right. constructor.
      exists body, batch. rewrite Hd. repeat split; [by apply Hb|done|].
      exists status. split; [done|]. apply orb_true_iff in Hst. by rewrite Z.eqb_eq in Hst.
    + destruct (is_client_error status && negb (status =? 429)); [by apply honours_settle_quarantine|done].
  - unfold deliver_s3_batch. cbv zeta. destruct (encode_s3_ndjson record_json gzip batch) as [payload|] eqn:Henc.
    + apply honours_request. intros [status|]; [|done]. destruct (is_success status) eqn:Hst; [|done].
      apply honours_settle_acknowledge; [done|]. intros Hl Hdt. apply Exists_app. right. constructor.
      exists body, batch. rewrite Hd. repeat split; [by apply Hb|done|done|]. eauto.
    + eapply (honours_method _ _ _ _ _ (fun r => exists e, r = inl e)); [done|by intros; apply cwp_ret; eauto|].
      by intros r [e ->].
Qed.

Lemma honours_pass s tr :
  destination (config s) = d -> honours faulty digest doubtful delivered (fun _ _ => True) (export_pass s) tr.
Proof.
  intros Hd. unfold Outpost.export_pass. rewrite Hd. apply honours_bind.
  eapply honours_mono; [|by apply honours_deliver_all, honours_item]. intros [m r] tr' _.
  apply (honours_method _ _ _ _ _ (fun _ => True)); [apply silent_refresh| |done].
  intros kept w Hk. eapply cwp_mono; [apply cwp_refresh|..]; [by intros w' m' ->|by intros w' ->].
Qed.

(** * Histories *)
Abbreviation accept_batch := (accept_batch from_slice to_vec io_text digest).
Abbreviation accounted := (accounted digest doubtful delivered).

(** One request: it is answered, or cut off at any point; an answer may also be
    lost.  [handled] are the answers given.  A receipt for a batch that was on disk
    and waited for a sync of its directory makes its name [doubtful]. *)
Inductive intake : world -> list exchange -> world -> list exchange -> Prop :=
| intake_answered w handled s identities authorization body w' s' r :
    exec faulty (accept_batch s identities authorization body) w (Done w' (s', r)) ->
    (forall receipt, receipt_of (body, r) = Some receipt -> vouched doubtful receipt w) ->
    intake w handled w' (handled ++ [(body, r)])
| intake_cut w handled s identities authorization body o :
    exec faulty (accept_batch s identities authorization body) w o -> intake w handled (world_of o) handled.

(** [outpost_life w handled tr]: the disk may be in state [w] after some history
    that starts from an empty directory, in which the answers [handled] were given
    to senders and the requests [tr] were made to the receiver.  Requests are
    taken in between the passes of the exporter and during them.  [doubtful] are
    the names that a restart found in a temporary file that is whole and was never
    synced, and those of receipts that were not [vouched], as in [SpoolLife.life]. *)
Inductive outpost_life : world -> list exchange -> list sent -> Prop :=
| outpost_new : outpost_life (restart ∅) [] []
| outpost_crash w handled tr s : outpost_life w handled tr -> crash w s -> outpost_life (restart s) handled tr
| outpost_open w handled tr o :
    outpost_life w handled tr -> whole_synced digest doubtful (visible w) ->
    exec faulty (open digest) w o -> outpost_life (world_of o) handled tr
| outpost_intake w handled tr w' handled' :
    outpost_life w handled tr -> intake w handled w' handled' -> outpost_life w' handled' tr
| outpost_export w handled tr s tr' o handled' :
    outpost_life w handled tr -> destination (config s) = d ->
    interleaved faulty intake (export_pass s) w handled tr' o handled' ->
    outpost_life (world_of o) handled' (tr ++ tr').

(** Every outcome of intake keeps what was kept. *)
Lemma accept_keeps ids w s identities authorization body o :
  keeps digest doubtful ids w -> exec faulty (accept_batch s identities authorization body) w o ->
  keeps digest doubtful ids (world_of o).
Proof.
  intros Hk. apply cwp_every. unfold Outpost.accept_batch, reject.
  destruct (negb (authorized _ _)); [by apply cwp_ret|].
  destruct (from_slice body) as [error|batch]; [by apply cwp_ret|].
  destruct (validate batch) as [[]|error|f]; [|by apply cwp_ret..].
  destruct (negb (assigned _ _)); [by apply cwp_ret|].
  destruct (to_vec _) as [error|encoded]; [by apply cwp_ret|].
  apply cwp_bind. intros o1 Ho1. pose proof (enqueue_keeps digest _ _ _ _ _ _ _ Hk Ho1) as Hk1.
  destruct o1 as [w1 r|w1]; [|done]. simpl in Hk1.
  destruct r as [e|receipt]; apply cwp_bind; (eapply cwp_mono; [apply cwp_refresh| |by intros ? ->]);
    intros w2 m ->; by apply cwp_ret.
Qed.

(** A run that gives a receipt enqueued the batch of that receipt. *)
Lemma accept_receipt w s identities authorization body w' s' r receipt :
  exec faulty (accept_batch s identities authorization body) w (Done w' (s', r)) ->
  receipt_of (body, r) = Some receipt ->
  exists encoded, exec faulty (enqueue digest (spool_max_bytes (config s)) encoded) w (Done w' (inr receipt)).
Proof.
  assert (cwp faulty (fun w' sr => receipt_of (body, sr.2) = Some receipt ->
     exists encoded, exec faulty (enqueue digest (spool_max_bytes (config s)) encoded) w (Done w' (inr receipt)))
     (fun _ => True) (accept_batch s identities authorization body) w) as H; [|intros Ho; by apply (H _ Ho)].
  unfold Outpost.accept_batch, reject.
  destruct (negb (authorized _ _)); [by apply cwp_ret|].
  destruct (from_slice body) as [error|b]; [by apply cwp_ret|].
  destruct (validate b) as [[]|error|f]; [|by apply cwp_ret..].
  destruct (negb (assigned _ _)); [by apply cwp_ret|]. cbv zeta.
  destruct (to_vec _) as [error|encoded]; [by apply cwp_ret|].
  apply cwp_bind. intros o1 Ho1. destruct o1 as [w1 r1|w1]; [|done].
  destruct r1 as [e|receipt']; apply cwp_bind; (eapply cwp_mono; [apply cwp_refresh| |done]);
    intros w2 m ->; (apply cwp_ret; [done|]).
  - intros [=].
  - intros [= ->]. by exists encoded.
Qed.

Lemma intake_accounted w handled w' handled' tr :
  intake w handled w' handled' -> accounted (receipts handled) w tr -> accounted (receipts handled') w' tr.
Proof.
  assert (forall kept w s idm auth body o, exec faulty (accept_batch s idm auth body) w o ->
    accounted kept w tr -> accounted kept (world_of o) tr) as Hkeep.
  { intros kept w0 s idm auth body o Ho Ha. rewrite <- (app_nil_r tr).
    apply accounted_step with w0; [done|]. intros kept' Hk. by eapply accept_keeps. }
  intros [w0 h s idm auth body w1 s' r Ho Hcl|w0 h s idm auth body o Ho] Ha; [|by eapply Hkeep].
  rewrite receipts_snoc. destruct (receipt_of (body, r)) as [receipt|] eqn:Hr; [|by apply (Hkeep _ _ _ _ _ _ _ Ho)].
  apply accounted_receipt with w0; [done|]. intros kept Hk.
  destruct (accept_receipt _ _ _ _ _ _ _ _ _ Ho Hr) as [encoded He]. eapply accept_keeps_receipt; eauto.
Qed.

Lemma outpost_accounted w handled tr : outpost_life w handled tr -> accounted (receipts handled) w tr.
Proof.
  induction 1 as [|w h tr s _ IH Hc|w h tr o _ IH Hset Ho|w h tr w' h' _ IH Hi|w h tr s tr' o h' _ IH Hd Ho].
  - apply accounted_keeps. split; [by apply every_restart, sound_empty|]. by intros i Hi%elem_of_empty.
  - destruct IH as (ids' & Hk & Hi). exists ids'. split; [by eapply keeps_crash|done].
  - destruct IH as (ids' & Hk & Hi). exists ids'. split; [by eapply open_keeps|done].
  - by eapply intake_accounted.
  - eapply honours_interleaved; [intros; by eapply intake_accounted|by apply honours_pass|done|exact Ho].
Qed.

(** No accepted batch is lost.  In any history of requests, taken in also
    while an export pass is under way, export passes, I/O errors, answers of the
    receiver, cut off calls, restarts and crashes: a batch whose sender got a
    receipt is on disk after the next crash too, pending or in quarantine, with a
    content of its digest; or the receiver answered success (or, over HTTP,
    conflict) to a request that carried it; unless its name is doubtful. *)
Theorem no_batch_lost w handled tr body r i s :
  outpost_life w handled tr -> (body, r) ∈ handled -> receipt_of (body, r) = Some i -> i ∉ doubtful -> crash w s ->
  (exists dir f, s !! (dir, json_name i) = Some f /\ digest (content f) = i) \/ Exists (delivered i) tr.
Proof.
  intros Hl Hi Hr Hdt Hc. destruct (outpost_accounted _ _ _ Hl) as (ids' & Hk & Ha).
  destruct (Ha i (elem_of_receipts _ _ _ Hi Hr) Hdt) as [Hin|Hd]; [left|by right]. by eapply keeps_on_disk.
Qed.

End delivery.

(** * Intake *)
Section intake.
Context {OffsetDateTime : Type}.
Context (from_slice : bytes -> string + DamBatch OffsetDateTime)
  (to_vec : DamBatch OffsetDateTime -> string + bytes) (io_text : IoError -> string)
  (digest : bytes -> string) (faulty : bool).
Abbreviation accept_batch := (accept_batch from_slice to_vec io_text digest).


(** What a sender must present to be accepted, and what is then stored. *)
Record admissible (s : AppState) (identities : gmap string ExternalIdentity) (authorization : option string)
    (body : bytes) (b : DamBatch OffsetDateTime) (encoded : bytes) : Prop := {
  ad_credential : forall token, internal_token (config s) = Some token ->
    exists value, authorization = Some value /\ strip_prefix "Bearer " value = Some token;
  ad_batch : from_slice body = inr b;
  ad_valid : valid_batch b;
  ad_assigned : customer_id b = config_customer_id (config s) /\ tenant_id b = config_tenant_id (config s) /\
    source_id b = config_source_id (config s) /\ regional_cell_id b = config_regional_cell_id (config s);
  ad_encoded : to_vec (enrich_batch (config_cluster_name (config s)) identities (pods s) b) = inr encoded
}.

Lemma authorized_spec expected authorization :
  authorized expected authorization = true <->
  forall token, expected = Some token -> exists value, authorization = Some value /\ strip_prefix "Bearer " value = Some token.
Proof.
  unfold authorized, strip_bearer. destruct expected as [token|]; [|by split].
  destruct authorization as [value|]; cbn [mbind option_bind].
  - destruct (strip_prefix "Bearer " value) as [provided|] eqn:Hp.
    + rewrite String.eqb_eq. split; [intros -> token' [= <-]; by exists value|].
      intros H. destruct (H token eq_refl) as (v & [= <-] & Hv). congruence.
    + split; [done|]. intros H. destruct (H token eq_refl) as (v & [= <-] & Hv). congruence.
  - split; [done|]. intros H. by destruct (H token eq_refl) as (v & ? & _).
Qed.

Lemma assigned_spec c (b : DamBatch OffsetDateTime) :
  assigned c b = true <->
  customer_id b = config_customer_id c /\ tenant_id b = config_tenant_id c /\
  source_id b = config_source_id c /\ regional_cell_id b = config_regional_cell_id c.
Proof. unfold assigned. rewrite !andb_true_iff, !String.eqb_eq. tauto. Qed.

(** Refreshing the gauges leaves the counters. *)
Definition counters (m : Metrics) : list Z :=
  [accepted_batches m; rejected_batches m; delivered_batches m; delivery_failures m; quarantined_batches m].

Lemma cwp_refresh_counters m w :
  cwp faulty (fun w' m' => w' = w /\ counters m' = counters m) (fun w' => w' = w) (refresh_spool_metrics m) w.
Proof.
  apply cwp_bind. eapply cwp_mono; [apply cwp_directory_stats| |done]. intros w1 r [-> _].
  apply cwp_bind. eapply cwp_mono; [apply cwp_directory_stats| |done]. intros w1 r' [-> _].
  apply cwp_ret; [done|]. split; [done|]. by destruct r, r'.
Qed.

(** What an answered request changed.  An item on disk stays as it is in every case;
    what may appear is the batch itself, whole, and after an I/O error its
    temporary file. *)
Definition intake_spec (w : world) (s : AppState) (identities : gmap string ExternalIdentity)
    (authorization : option string) (body : bytes) (w' : world) (s' : AppState) (r : Response) : Prop :=
  config s' = config s /\
  ((exists b encoded, admissible s identities authorization body b encoded /\
      r = {| status := 202; response_body := AcceptedResponse (batch_id b) (digest encoded) |} /\
      stored (digest encoded) (visible w') /\ placed digest encoded w w' /\ notified s' = true /\
      counters (app_metrics s') = counters (count 1 0 0 0 0 (app_metrics s))) \/
   (notified s' = notified s /\ counters (app_metrics s') = counters (count 0 1 0 0 0 (app_metrics s)) /\
    (w' = w /\ In (status r) [400; 401; 403; 500] /\ ~ (exists b encoded, admissible s identities authorization body b encoded) \/
     status r = 507 /\ exists b encoded e, admissible s identities authorization body b encoded /\
       exec faulty (enqueue digest (spool_max_bytes (config s)) encoded) w (Done w' (inl e)) /\
       placed digest encoded w w'))).

(** The rejections: the check that fails is one [admissible] asks for. *)
Lemma cwp_reject w s identities authorization body code error :
  In code [400; 401; 403; 500] -> ~ (exists b encoded, admissible s identities authorization body b encoded) ->
  cwp faulty (fun w' sr => intake_spec w s identities authorization body w' sr.1 sr.2) (fun _ => True)
    (reject s code error) w.
Proof. intros Hc Hn. apply cwp_ret; [done|]. split; [done|]. right. split; [done|]. split; [done|]. by left. Qed.

Lemma cwp_intake w s identities authorization body :
  (forall encoded, slen (digest encoded) = 64) ->
  cwp faulty (fun w' sr => intake_spec w s identities authorization body w' sr.1 sr.2) (fun _ => True)
    (accept_batch s identities authorization body) w.
Proof.
  intros Hdigest. unfold Outpost.accept_batch.
  destruct (authorized (internal_token (config s)) authorization) eqn:Hauth; cbn [negb];
    [|apply cwp_reject; [simpl; auto|]; intros (b & enc & [Ha _ _ _ _]);
      apply authorized_spec in Ha; congruence].
  destruct (from_slice body) as [error|b] eqn:Hb;
    [apply cwp_reject; [simpl; auto|]; intros (b & enc & [_ ? _ _ _]); congruence|].
  destruct (validate b) as [[]|error|f] eqn:Hv;
    [|apply cwp_reject; [simpl; auto|]; intros (b' & enc & [_ Hb' Hval _ _]);
      rewrite Hb in Hb'; injection Hb' as <-; apply valid_validate in Hval; congruence..].
  destruct (assigned (config s) b) eqn:Has; cbn [negb];
    [|apply cwp_reject; [simpl; auto|]; intros (b' & enc & [_ Hb' _ Has' _]);
      rewrite Hb in Hb'; injection Hb' as <-; apply assigned_spec in Has'; congruence].
  cbv zeta. destruct (to_vec _) as [error|encoded] eqn:Henc;
    [apply cwp_reject; [simpl; auto|]; intros (b' & enc & [_ Hb' _ _ Henc']);
      rewrite Hb in Hb'; injection Hb' as <-; congruence|].
  assert (admissible s identities authorization body b encoded) as Hadm.
  { split; [by apply authorized_spec|done|by apply valid_validate|by apply assigned_spec|done]. }
  apply cwp_bind. intros o Ho. pose proof (cwp_enqueue_visible digest _ faulty encoded w o Ho) as Hst.
  pose proof (cwp_enqueue_places digest _ faulty encoded w (Hdigest encoded) o Ho) as Hpl. destruct o as [w1 r|w1]; [|done].
  destruct r as [e|receipt]; apply cwp_bind; (eapply cwp_mono; [apply cwp_refresh_counters| |done]);
    intros w2 m [-> Hm]; (apply cwp_ret; [done|]); (split; [done|]).
  - right. split; [done|]. split; [exact Hm|]. right. split; [done|]. by exists b, encoded, e.
  - left. destruct (Hst receipt eq_refl) as [-> Hs]. by exists b, encoded.
Qed.

(** What a batch that passes the checks can be answered *)
Definition admitted_status (status : Z) : Prop := status = 202 \/ In status [500; 507].

Lemma cwp_admitted w s identities authorization body b :
  authorized (internal_token (config s)) authorization = true -> from_slice body = inr b -> valid_batch b ->
  customer_id b = config_customer_id (config s) -> tenant_id b = config_tenant_id (config s) ->
  source_id b = config_source_id (config s) -> regional_cell_id b = config_regional_cell_id (config s) ->
  forall w' s' r, exec faulty (accept_batch s identities authorization body) w (Done w' (s', r)) ->
    admitted_status (status r).
Proof.
  intros Ha Hb Hv Hc Ht Hs Hr w' s' r Ho.
  assert (cwp faulty (fun _ sr => admitted_status (status sr.2)) (fun _ => True)
    (accept_batch s identities authorization body) w) as H; [|exact (H _ Ho)].
  unfold Outpost.accept_batch. apply valid_validate in Hv.
  assert (assigned (config s) b = true) as Has by (by apply assigned_spec).
  rewrite Ha, Hb, Hv, Has. cbn [negb]. cbv zeta.
  destruct (to_vec _) as [error|encoded]; [apply cwp_ret; [done|by right; left]|].
  apply cwp_bind. intros o _. destruct o as [w1 receipt|w1]; [|done].
  destruct receipt; apply cwp_bind; (eapply cwp_mono; [apply cwp_refresh| |done]); intros w2 m _; (apply cwp_ret; [done|]).
  - right. simpl. auto.
  - by left.
Qed.

(** C23: Intake.  An answered request is accepted, with a receipt, when it carries the
    configured credential and a valid batch of the assigned customer, tenant,
    source and cell that can be written out enriched, and the spool takes it: then
    the enriched batch is on disk under the receipt and the exporter is woken.
    When a check fails the answer is 400, 401, 403 or 500, and the disk stays as
    it was.  When the checks hold and [enqueue] fails the answer is 507: the items
    on disk are those of before, or (the last sync failed) those and this batch,
    whole; a failed write may leave its temporary file.  One counter, accepted or
    rejected, goes up by one.  All this whatever I/O errors there are. *)
Theorem intake_exact w s identities authorization body w' s' r :
  (forall encoded, slen (digest encoded) = 64) ->
  exec faulty (accept_batch s identities authorization body) w (Done w' (s', r)) ->
  intake_spec w s identities authorization body w' s' r.
Proof. intros Hdigest Ho. exact (cwp_intake w s identities authorization body Hdigest _ Ho). Qed.
End intake.
