(* ===== verification/Delivery.v ===== *)
(** How an export pass of Outpost ends: when every answer is a success it
    delivers every pending batch and empties the spool; and a batch that no
    request can carry ends every pass, so that the batches after it stay. *)
From Stdlib Require Import ZArith Lia ZifyBool Strings.Byte Strings.Ascii Strings.String Sorted.
From stdpp Require Import base list strings gmap sorting.
From S2P Require Import Prelude Text Float64 Json Schema.
From S2P Require Import Spool SpoolSpec SpoolLife Enrich Destination Outpost Trace Accounted Interleave Blocked OutpostSpec.

Local Open Scope string_scope.
Local Open Scope list_scope.
Local Open Scope Z_scope.

Section pass.
Context {OffsetDateTime : Type}.
Context (from_slice : bytes -> string + DamBatch OffsetDateTime)
  (record_json : S3NdjsonRecord (OffsetDateTime := OffsetDateTime) -> option bytes) (gzip : bytes -> bytes)
  (header_value : string -> bool) (year month day hour : OffsetDateTime -> Z).
Context (d : DestinationConfig).

Abbreviation deliver_item := (deliver_item from_slice record_json gzip header_value year month day hour).
Abbreviation deliver_pending := (deliver_pending from_slice record_json gzip header_value year month day hour).

(** The content parses, and a request can be built for it. *)
Definition deliverable (body : bytes) : Prop :=
  exists batch, from_slice body = inr batch /\
    match d with
    | Http _ => header_value (batch_id batch) = true
    | S3 _ => is_Some (encode_s3_ndjson record_json gzip batch)
    end.

(** * Draining *)
Definition successes (tr : list sent) : Prop :=
  Forall (fun r => exists status, answer r = Some status /\ is_success status = true) tr.

Lemma twp_answered (Q : world -> DeliveryError + bool -> list sent -> Prop) (r : sent)
    (m : prog (DeliveryError + bool)) w :
  (is_Some (answer r) /\ (forall status, answer r = Some status -> is_success status = true) ->
   twp false (fun w' a tr => successes (r :: tr) -> Q w' a (r :: tr)) (fun _ _ => True) m w) ->
  twp false (fun w' a tr => successes (r :: tr) -> Q w' a (r :: tr)) (fun _ _ => True) m w.
Proof.
  intros H tr o Ho. destruct o as [w' a|w']; [|done]. intros Hs.
  pose proof Hs as Hs'. apply Forall_cons in Hs' as [(st & Ha & Hst) _].
  assert (is_Some (answer r) /\ (forall status, answer r = Some status -> is_success status = true)) as Hr.
  { split; [eauto|]. intros st' Ha'. rewrite Ha in Ha'. by injection Ha' as <-. }
  exact (H Hr tr (Done w' a) Ho Hs).
Qed.

(** The tail of a successful delivery. *)
Lemma twp_deliver_ack item w f tr0 :
  visible w !! item_path item = Some f ->
  twp false
    (fun w' r tr => successes (tr0 ++ tr) ->
       r = inr true /\ visible w' = delete (item_path item) (visible w) /\ length (tr0 ++ tr) = length tr0)
    (fun _ _ => True)
    (alone (settle SpoolFailed acknowledge item true)) w.
Proof.
  intros Hf. apply twp_bind, twp_silent; [apply silent_acknowledge|].
  eapply cwp_mono; [by eapply cwp_acknowledge_ok| |done].
  intros w' r [-> Hv]. apply twp_ret; [done|]. intros _. by rewrite app_nil_r.
Qed.

Lemma twp_item_ok item w f :
  visible w !! item_path item = Some f -> deliverable (content f) ->
  twp false
    (fun w' r tr => successes tr ->
       r = inr true /\ visible w' = delete (item_path item) (visible w) /\ length tr = 1%nat)
    (fun _ _ => True) (alone (deliver_item d item)) w.
Proof.
  intros Hf (batch & Hb & Hd). unfold Outpost.deliver_item. cbv zeta.
  apply twp_bind, twp_silent; [apply silent_read|].
  apply cwp_do_false; [done|]. cbn [perform]. rewrite Hf. cbn [fst snd]. apply cwp_ret; [done|].
  rewrite Hb. destruct d as [h|s].
  - apply twp_bind. unfold deliver_http_batch. rewrite Hd. cbn [negb].
    apply twp_do; [done|]. intros w1 t ->. cbn [note]. apply twp_ret; [done|].
    set (r := {| sent_key := batch_id batch; sent_body := content f; answer := t |}).
    apply (twp_answered (fun w' a tr => a = inr true /\ visible w' = delete (item_path item) (visible w) /\
      length tr = 1%nat) r). intros [[st Ht] Hst]. simpl in Ht. subst t. rewrite (Hst st eq_refl). cbn [orb].
    exact (twp_deliver_ack item w f [r] Hf).
  - apply twp_bind. unfold deliver_s3_batch. cbv zeta. destruct Hd as [payload Henc]. rewrite Henc.
    apply twp_do; [done|]. intros w1 t ->. cbn [note]. apply twp_ret; [done|].
    set (r := {| sent_key := s3_object_key year month day hour s batch; sent_body := payload; answer := t |}).
    apply (twp_answered (fun w' a tr => a = inr true /\ visible w' = delete (item_path item) (visible w) /\
      length tr = 1%nat) r). intros [[st Ht] Hst]. simpl in Ht. subst t. rewrite (Hst st eq_refl).
    exact (twp_deliver_ack item w f [r] Hf).
Qed.

Definition remove_all (l : list PendingItem) (t : fs) : fs :=
  fold_left (fun t item => delete (item_path item) t) l t.

Lemma count_delivered a b m : count 0 0 a 0 0 (count 0 0 b 0 0 m) = count 0 0 (b + a) 0 0 m.
Proof. unfold count. simpl. f_equal; lia. Qed.

Lemma twp_loop_ok l w m :
  NoDup (item_path <$> l) ->
  Forall (fun item => exists f, visible w !! item_path item = Some f /\ deliverable (content f)) l ->
  twp false
    (fun w' r tr => successes tr ->
       r = (count 0 0 (len l) 0 0 m, inr tt) /\ visible w' = remove_all l (visible w) /\ length tr = length l)
    (fun _ _ => True) (alone (deliver_each (deliver_item d) count_item l m)) w.
Proof.
  revert w m. induction l as [|item l IH]; intros w m Hnd Hl.
  - apply twp_ret; [done|]. intros _. split; [|done]. f_equal. destruct m. unfold count, len. simpl.
    by rewrite !Z.add_0_r.
  - apply Forall_cons in Hl as [(f & Hf & Hd) Hl]. apply NoDup_cons in Hnd as [Hn Hnd].
    cbn [deliver_each]. apply twp_bind_task. eapply twp_mono; [by eapply twp_item_ok| |done].
    intros w' r tr Hr tr' o Ho. destruct o as [w2 mr|w2]; [|done]. intros Hs.
    apply Forall_app in Hs as [Hs Hs']. destruct (Hr Hs) as (-> & Hv & Hlen).
    assert (Forall (fun item => exists f, visible w' !! item_path item = Some f /\ deliverable (content f)) l) as Hl'.
    { apply Forall_forall. intros y Hy. rewrite Forall_forall in Hl. destruct (Hl y Hy) as (g & Hg & Hdg).
      exists g. split; [|done]. rewrite Hv, lookup_delete_ne; [done|]. intros He. apply Hn.
      apply list_elem_of_fmap. by exists y. }
    destruct (IH w' (count 0 0 1 0 0 m) Hnd Hl' tr' _ Ho Hs') as (-> & Hv2 & Hlen2).
    split; [|split].
    + f_equal. rewrite count_delivered. f_equal. unfold len. simpl. lia.
    + rewrite Hv2, Hv. done.
    + rewrite length_app. simpl. lia.
Qed.

Lemma remove_all_lookup l t p f :
  remove_all l t !! p = Some f -> t !! p = Some f /\ ~ p ∈ item_path <$> l.
Proof.
  revert t. induction l as [|x l IH]; intros t H; [split; [done|apply not_elem_of_nil]|].
  destruct (IH _ H) as [[Hne Hp]%lookup_delete_Some Hn]. split; [done|].
  rewrite fmap_cons, not_elem_of_cons. auto.
Qed.

(** C33: A pass empties the spool.  Without I/O errors, when every pending batch
    can be put in a request and every answer is a success, one pass of the
    exporter that nobody interrupts sends one request for each, counts each as delivered, reports no
    error and leaves no pending item. *)
Theorem pass_drains w m tr w' m' r :
  (forall name f item, visible w !! (Root, name) = Some f -> entry_item (visible w) name = Some item ->
     deliverable (content f)) ->
  exec_trace false (alone (deliver_pending d m)) w tr (Done w' (m', r)) -> successes tr ->
  r = inr tt /\ m' = count 0 0 (len tr) 0 0 m /\ (forall name, entry_item (visible w') name = None) /\
  length tr = length (omap (entry_item (visible w)) (listing Root (visible w))).
Proof.
  intros Hall Ho Hs.
  assert (twp false (fun w' mr tr => successes tr -> mr.2 = inr tt /\ mr.1 = count 0 0 (len tr) 0 0 m /\
    (forall name, entry_item (visible w') name = None) /\
    length tr = length (omap (entry_item (visible w)) (listing Root (visible w))))
    (fun _ _ => True) (alone (deliver_pending d m)) w) as H; [|exact (H tr _ Ho Hs)].
  apply twp_bind, twp_silent; [apply silent_pending|].
  eapply cwp_mono; [apply cwp_pending_listed| |done]. intros w1 x (-> & l & -> & Hp & _).
  assert (NoDup (item_path <$> l)) as Hnd.
  { rewrite Hp. apply entry_paths_nodup, listing_nodup. }
  eapply twp_mono; [apply twp_loop_ok; [done|]| |done].
  - apply Forall_forall. intros item Hin. rewrite Hp in Hin. apply list_elem_of_omap in Hin as (name & _ & He).
    destruct (entry_item_file _ _ _ He) as (f & Hf & Hpath & _). exists f. rewrite Hpath. split; [done|]. by eapply Hall.
  - intros w2 mr tr2 H Hs2. destruct (H Hs2) as (-> & Hv & Hlen). rewrite app_nil_l. cbn [fst snd].
    split; [done|]. split; [unfold len; by rewrite Hlen|]. split; [|by rewrite Hlen, Hp].
    intros name. destruct (entry_item (visible w2) name) as [item|] eqn:He; [|done]. exfalso.
    destruct (entry_item_file _ _ _ He) as (f & Hf & Hpath & Heq). rewrite Hv in Hf.
    apply remove_all_lookup in Hf as [Hf Hn]. apply Hn. rewrite Hp. apply list_elem_of_fmap. exists item.
    split; [done|]. apply list_elem_of_omap. exists name. split; [apply listing_spec; eauto|].
    by apply (Heq _ _ Hf).
Qed.

(** * Blocking *)

(** A pass leaves the file of every item but the ones it has come to. *)
Lemma twp_item_frame item w :
  twp false (fun w' _ _ => frame item w w') (fun _ _ => True) (alone (deliver_item d item)) w.
Proof.
  unfold Outpost.deliver_item. cbv zeta. apply twp_bind, twp_silent; [apply silent_read|].
  eapply cwp_mono; [apply cwp_read_same| |done]. intros w1 [e|body] [-> _]; [by apply twp_ret|].
  destruct (from_slice body) as [error|batch]; [by apply twp_ret|].
  destruct d as [h|s]; apply twp_bind.
  - unfold deliver_http_batch. destruct (negb _); [by apply twp_ret; [|apply twp_ret]|].
    apply twp_do; [done|]. intros w1 t ->. apply twp_ret; [done|]. destruct t as [st|]; [|by apply twp_ret].
    destruct (_ || _); [apply (twp_frame_acknowledge SpoolFailed)|].
    destruct (_ && _); [apply (twp_frame_quarantine SpoolFailed)|by apply twp_ret].
  - unfold deliver_s3_batch. cbv zeta. destruct (encode_s3_ndjson _ _ _); [|by apply twp_ret; [|apply twp_ret]].
    apply twp_do; [done|]. intros w1 t ->. apply twp_ret; [done|]. destruct t as [st|]; [|by apply twp_ret].
    destruct (is_success st); [apply (twp_frame_acknowledge SpoolFailed)|by apply twp_ret].
Qed.

Lemma twp_item_stuck item w f :
  visible w !! item_path item = Some f -> ~ deliverable (content f) ->
  twp false (fun w' r tr => w' = w /\ tr = [] /\ exists e, r = inl e) (fun _ _ => True) (alone (deliver_item d item)) w.
Proof.
  intros Hf Hn. unfold Outpost.deliver_item. cbv zeta. apply twp_bind, twp_silent; [apply silent_read|].
  apply cwp_do_false; [done|]. cbn [perform]. rewrite Hf. cbn [fst snd]. apply cwp_ret; [done|].
  unfold deliverable in Hn.
  destruct (from_slice (content f)) as [error|batch] eqn:Hb; [apply twp_ret; eauto|].
  destruct d as [h|s]; apply twp_bind.
  - unfold deliver_http_batch. destruct (header_value (batch_id batch)) eqn:Hv; [destruct Hn; eauto|]. cbn [negb].
    apply twp_ret; [done|]. apply twp_ret; eauto.
  - unfold deliver_s3_batch. cbv zeta.
    destruct (encode_s3_ndjson _ _ _) eqn:He; [destruct Hn; exists batch; rewrite He; eauto|].
    apply twp_ret; [done|]. apply twp_ret; eauto.
Qed.

(** One batch can stop delivery.  When a pending batch cannot be put in a
    request (its content does not parse, or over HTTP its batch id is no header
    value), every pass run alone ends with an error there, whatever the receiver answers:
    the batch and all those with greater ids stay, now and in every later pass. *)
Theorem undeliverable_blocks w m tr w' m' r name x f :
  entry_item (visible w) name = Some x -> visible w !! (Root, name) = Some f -> ~ deliverable (content f) ->
  exec_trace false (alone (deliver_pending d m)) w tr (Done w' (m', r)) ->
  (exists e, r = inl e) /\
  forall name' y, entry_item (visible w) name' = Some y -> String.leb (id x) (id y) = true ->
    visible w' !! (Root, name') = visible w !! (Root, name').
Proof.
  intros Hx Hf Hd Ho. eapply deliver_all_blocked; [apply twp_item_frame|exact Hx|exact Hf| |exact Ho].
  intros w0 f0 Hf0 Hc. eapply twp_mono; [eapply twp_item_stuck; [done|by rewrite Hc]| |done].
  intros w1 r1 tr1 (-> & _ & He). by split.
Qed.
End pass.

(** * Examples

    A batch is encoded as its id; the rest of it is the batch of Schema.v's
    examples. *)
Definition sample_batch (batch : string) : DamBatch unit := {|
  batch_version := 1; batch_id := batch; customer_id := "customer"; tenant_id := "tenant";
  source_id := "source"; regional_cell_id := "cell"; created_at := tt; events := [healthy true]
|}.
Definition sample_from_slice (bs : bytes) : string + DamBatch unit :=
  match bs with
  | [] => inl "EOF while parsing a value"
  | _ => inr (sample_batch (string_of bs))
  end.
Definition sample_to_vec (b : DamBatch unit) : string + bytes := inr (bytes_of (batch_id b)).
Definition sample_json (r : S3NdjsonRecord (OffsetDateTime := unit)) : option bytes := Some (bytes_of (record_batch_id r)).
(** [HeaderValue::from_str]: no control characters but the tab *)
Definition sample_header (s : string) : bool :=
  forallb (fun b => ((32 <=? u8 b) && negb (u8 b =? 127)) || (u8 b =? 9)) (bytes_of s).
Definition sample_destination : DestinationConfig :=
  Http {| endpoint := "https://cell.example/ingest"; bearer_token := "token"; ca_file := None |}.
Definition sample_state : AppState := {|
  config := {|
    config_customer_id := "customer"; config_tenant_id := "tenant"; config_source_id := "source";
    config_regional_cell_id := "cell"; config_cluster_name := "cluster"; internal_token := Some "secret";
    destination := sample_destination; spool_dir := "/spool"; spool_max_bytes := 100; max_request_bytes := 1000;
    export_interval := 5; kubernetes_api_url := None; kubernetes_token_path := ""; kubernetes_ca_path := "";
    kubernetes_refresh_interval := 30; identity_mapping_file := None |};
  app_metrics := no_metrics; notified := false; pods := ∅
|}.
Abbreviation sample_accept :=
  (accept_batch sample_from_slice sample_to_vec (fun _ => "") sample_digest sample_state ∅).
Abbreviation sample_pass :=
  (export_pass sample_from_slice sample_json (fun bs => bs) sample_header
     (fun _ => 2026) (fun _ => 1) (fun _ => 2) (fun _ => 3)).
Abbreviation sample_deliver :=
  (deliver_pending sample_from_slice sample_json (fun bs => bs) sample_header
     (fun _ => 2026) (fun _ => 1) (fun _ => 2) (fun _ => 3) sample_destination).

Definition accepted_run : world * (AppState * Response) :=
  run (sample_accept (Some "Bearer secret") (bytes_of "batch-1")) (restart ∅).
Definition sample_receipt : string := sample_digest (bytes_of "batch-1").

Example accepted_response :
  accepted_run.2.2 = {| status := 202; response_body := AcceptedResponse "batch-1" sample_receipt |}.
Proof. vm_compute. reflexivity. Qed.
Example refused_response :
  (run (sample_accept (Some "Bearer guess") (bytes_of "batch-1")) (restart ∅)).2.2
    = error_response 401 "missing or invalid Observer credential".
Proof. vm_compute. reflexivity. Qed.

Lemma accepted_run_exec faulty :
  exec faulty (sample_accept (Some "Bearer secret") (bytes_of "batch-1")) (restart ∅)
    (Done accepted_run.1 (accepted_run.2.1, accepted_run.2.2)).
Proof. rewrite <- surjective_pairing. apply run_exec. Qed.

Lemma intake_exact_witness :
  intake_spec sample_from_slice sample_to_vec sample_digest true (restart ∅) sample_state ∅
    (Some "Bearer secret") (bytes_of "batch-1") accepted_run.1 accepted_run.2.1 accepted_run.2.2.
Proof.
  exact (intake_exact sample_from_slice sample_to_vec (fun _ => "") sample_digest true (restart ∅) sample_state ∅
    (Some "Bearer secret") (bytes_of "batch-1") accepted_run.1 accepted_run.2.1 accepted_run.2.2
    slen_sample_digest (accepted_run_exec true)).
Defined.

Definition exported_run : world * AppState := run (alone (sample_pass accepted_run.2.1)) accepted_run.1.

Definition sample_handled : list (bytes * Response) := [] ++ [(bytes_of "batch-1", accepted_run.2.2)].
Lemma sample_outpost_life :
  outpost_life sample_from_slice sample_to_vec (fun _ => "") sample_digest sample_json (fun bs => bs) sample_header
    (fun _ => 2026) (fun _ => 1) (fun _ => 2) (fun _ => 3) sample_destination ∅ true
    exported_run.1 sample_handled ([] ++ run_trace (alone (sample_pass accepted_run.2.1)) accepted_run.1).
Proof.
  apply (outpost_export _ _ _ _ _ _ _ _ _ _ _ _ _ _ accepted_run.1 sample_handled _ accepted_run.2.1 _
    (Done exported_run.1 exported_run.2)); [|vm_compute; reflexivity|apply alone_interleaved, run_trace_exec].
  apply (outpost_intake _ _ _ _ _ _ _ _ _ _ _ _ _ _ (restart ∅) []); [apply outpost_new|].
  apply (intake_answered _ _ _ _ _ _ (restart ∅) [] sample_state ∅ (Some "Bearer secret")
    (bytes_of "batch-1") accepted_run.1 accepted_run.2.1 accepted_run.2.2 (accepted_run_exec true)).
  intros receipt _. right. by apply clean_idle.
Qed.

Lemma exported_durable : settled (durable exported_run.1).
Proof. apply (bool_decide_unpack _). vm_compute. exact I. Qed.

Lemma no_batch_lost_witness :
  (exists dir f, durable exported_run.1 !! (dir, json_name sample_receipt) = Some f /\
     sample_digest (content f) = sample_receipt) \/
  Exists (delivered sample_from_slice sample_digest sample_json (fun bs => bs)
    (fun _ => 2026) (fun _ => 1) (fun _ => 2) (fun _ => 3) sample_destination sample_receipt)
    ([] ++ run_trace (alone (sample_pass accepted_run.2.1)) accepted_run.1).
Proof.
  apply (no_batch_lost sample_from_slice sample_to_vec (fun _ => "") sample_digest slen_sample_digest sample_json
    (fun bs => bs) sample_header (fun _ => 2026) (fun _ => 1) (fun _ => 2) (fun _ => 3) sample_destination ∅ true
    exported_run.1 _ _ (bytes_of "batch-1") accepted_run.2.2 sample_receipt (durable exported_run.1)
    sample_outpost_life).
  - by left.
  - rewrite accepted_response. reflexivity.
  - apply not_elem_of_empty.
  - apply crash_durable, exported_durable.
Defined.

Lemma pass_drains_witness :
  (run (alone (sample_deliver no_metrics)) accepted_run.1).2.2 = inr tt /\
  length (run_trace (alone (sample_deliver no_metrics)) accepted_run.1) = 1%nat.
Proof.
  destruct (pass_drains sample_from_slice sample_json (fun bs => bs) sample_header
    (fun _ => 2026) (fun _ => 1) (fun _ => 2) (fun _ => 3) sample_destination accepted_run.1 no_metrics
    (run_trace (alone (sample_deliver no_metrics)) accepted_run.1)
    (run (alone (sample_deliver no_metrics)) accepted_run.1).1
    (run (alone (sample_deliver no_metrics)) accepted_run.1).2.1
    (run (alone (sample_deliver no_metrics)) accepted_run.1).2.2) as (Hr & _ & _ & Hlen).
  - intros name f item Hf _.
    assert (map_Forall (fun _ f => content f = bytes_of "batch-1") (visible accepted_run.1)) as Hv
      by (apply (bool_decide_unpack _); vm_compute; exact I).
    apply Hv in Hf. exists (sample_batch "batch-1"). rewrite Hf. by split.
  - rewrite <- surjective_pairing. apply run_trace_exec.
  - assert (run_trace (alone (sample_deliver no_metrics)) accepted_run.1 =
      [{| sent_key := "batch-1"; sent_body := bytes_of "batch-1"; answer := Some 200 |}]) as ->
      by (vm_compute; reflexivity).
    apply Forall_singleton. by exists 200.
  - split; [exact Hr|]. rewrite Hlen. vm_compute. reflexivity.
Defined.

(** A batch id with a line feed passes the validation and is accepted. *)
Definition bad_id : string := string_of [x61; x0a; x62].
Definition blocked_run : world * (AppState * Response) :=
  run (sample_accept (Some "Bearer secret") (bytes_of bad_id)) (restart ∅).
Example bad_id_accepted : status blocked_run.2.2 = 202.
Proof. vm_compute. reflexivity. Qed.

Lemma undeliverable_blocks_witness :
  exists e, (run (alone (sample_deliver no_metrics)) blocked_run.1).2.2 = inl e.
Proof.
  set (name := json_name (sample_digest (bytes_of bad_id))).
  set (x := {| id := sample_digest (bytes_of bad_id); item_path := (Root, name); item_bytes := 3 |}).
  apply (proj1 (undeliverable_blocks sample_from_slice sample_json (fun bs => bs) sample_header
    (fun _ => 2026) (fun _ => 1) (fun _ => 2) (fun _ => 3) sample_destination blocked_run.1 no_metrics
    (run_trace (alone (sample_deliver no_metrics)) blocked_run.1)
    (run (alone (sample_deliver no_metrics)) blocked_run.1).1
    (run (alone (sample_deliver no_metrics)) blocked_run.1).2.1
    (run (alone (sample_deliver no_metrics)) blocked_run.1).2.2 name x
    {| content := bytes_of bad_id; synced := true |}
    ltac:(vm_compute; reflexivity) ltac:(vm_compute; reflexivity)
    ltac:(intros (b & [= <-] & Hb); vm_compute in Hb; discriminate)
    ltac:(rewrite <- surjective_pairing; apply run_trace_exec))).
Defined.
