(* ===== verification/Dns.v ===== *)
(** DNS messages, [decode_dns_message] of crates/observer/src/lib.rs: the
    header and the first question of a UDP payload.  [name_at] is the grammar of
    names of RFC 1035, section 4.1.4, with its compression pointers; the decoder
    accepts exactly the names of the grammar within its limits. *)
From Stdlib Require Import ZArith Lia ZifyBool Strings.Byte Strings.String.
From stdpp Require Import base list strings pretty.
From S2P Require Import Prelude Text.

Local Open Scope string_scope.
Local Open Scope list_scope.
Local Open Scope Z_scope.

Record DecodedDnsMessage : Set := {
  query_id : Z;
  response : bool;
  response_code : Z;
  answer_count : Z;
  name : option string;
  record_type : option string
}.

Definition be16 (bs : bytes) : Z := le_val (rev bs).
Definition read_network_u16 (bytes : bytes) (offset : Z) : res string Z :=
  let! stop := uadd offset 2 in
  let! raw := ok_or "truncated DNS integer" (get_range bytes offset stop) in
  Ok (be16 raw).

Definition dns_record_type (value : Z) : string :=
  match value with
  | 1 => "A"
  | 2 => "NS"
  | 5 => "CNAME"
  | 6 => "SOA"
  | 12 => "PTR"
  | 15 => "MX"
  | 16 => "TXT"
  | 28 => "AAAA"
  | 33 => "SRV"
  | 41 => "OPT"
  | 255 => "ANY"
  | other => pretty other
  end.

(** [is_ascii_alphanumeric() || matches!(byte, b'-' | b'_')] *)
Definition hostname_byte (b : byte) : bool := is_ascii_alphanumeric b || (u8 b =? 45) || (u8 b =? 95).

(** The loop of [parse_dns_name]. *)
Fixpoint parse_dns_name_loop (fuel : nat) (bytes : bytes) (labels : list string) (cursor : Z)
    (after_name : option Z) (jumps decoded_bytes : Z) : res string (string * Z) :=
  match fuel with
  | O => Fault OutOfFuel
  | S fuel =>
      let! length := ok_or "truncated DNS name" (get bytes cursor) in
      let length := u8 length in
      if Z.land length 0xc0 =? 0xc0 then
        let! next := uadd cursor 1 in
        let! second := ok_or "truncated DNS compression pointer" (get bytes next) in
        let! after_pointer := uadd cursor 2 in
        let after_name := Some (default after_pointer after_name) in
        let cursor := Z.lor (Z.shiftl (Z.land length 0x3f) 8) (u8 second) in
        let jumps := jumps + 1 in
        if 16 <? jumps then Err "DNS compression pointer loop"
        else parse_dns_name_loop fuel bytes labels cursor after_name jumps decoded_bytes
      else if negb (Z.land length 0xc0 =? 0) then Err "invalid DNS label type" else
      let! cursor := uadd cursor 1 in
      if length =? 0
      then Ok (to_ascii_lowercase (String.concat "." labels), default cursor after_name)
      else if 63 <? length then Err "invalid DNS label length" else
      let! stop := ok_or "invalid DNS label length" (checked_add cursor length) in
      let! label := ok_or "truncated DNS label" (get_range bytes cursor stop) in
      if negb (forallb hostname_byte label) then Err "DNS label contains unsupported bytes" else
      let decoded_bytes := saturating_add usize_max decoded_bytes (len label + 1) in
      if 254 <? decoded_bytes then Err "DNS name exceeds protocol limit"
      else parse_dns_name_loop fuel bytes (labels ++ [from_utf8_lossy label]) stop after_name jumps decoded_bytes
  end.

(** A name has at most 16 pointers, and each label counts for at least 2 of the
    254 bytes: the loop turns at most 17 + 127 + 1 times. *)
Definition name_fuel : nat := 145.
Definition parse_dns_name (bytes : bytes) (offset : Z) : res string (string * Z) :=
  parse_dns_name_loop name_fuel bytes [] offset None 0 0.

Definition decode_dns_message (bytes : bytes) : res string DecodedDnsMessage :=
  if len bytes <? 12 then Err "truncated DNS header" else
  let! query_id := read_network_u16 bytes 0 in
  let! flags := read_network_u16 bytes 2 in
  let! question_count := read_network_u16 bytes 4 in
  let! answer_count := read_network_u16 bytes 6 in
  let! question :=
    (if 0 <? question_count then
       let! (name, after_name) := parse_dns_name bytes 12 in
       let! record_type := read_network_u16 bytes after_name in
       let! class_offset := uadd after_name 2 in
       let! _ := read_network_u16 bytes class_offset in
       Ok (Some name, Some (dns_record_type record_type))
     else Ok (None, None)) in
  Ok {|
    query_id := query_id;
    response := negb (Z.land flags 0x8000 =? 0);
    response_code := Z.land flags 0x000f;
    answer_count := answer_count;
    name := fst question;
    record_type := snd question
  |}.

(** * The grammar of names

    [name_at bs off j ls after]: the name at [off] has the labels [ls], is read
    through [j] pointers, and its own bytes end before [after]. *)
Inductive name_at (bs : bytes) : Z -> Z -> list bytes -> Z -> Prop :=
| name_root off b : get bs off = Some b -> u8 b = 0 -> name_at bs off 0 [] (off + 1)
| name_label off b label j ls after :
    get bs off = Some b -> 1 <= u8 b <= 63 -> get_range bs (off + 1) (off + 1 + u8 b) = Some label ->
    name_at bs (off + 1 + u8 b) j ls after -> name_at bs off j (label :: ls) after
| name_pointer off b c j ls after :
    get bs off = Some b -> 192 <= u8 b -> get bs (off + 1) = Some c ->
    name_at bs (256 * (u8 b - 192) + u8 c) j ls after -> name_at bs off (j + 1) ls (off + 2).

Fixpoint name_size (ls : list bytes) : Z :=
  match ls with
  | [] => 0
  | l :: ls => len l + 1 + name_size ls
  end.
Definition dotted (ls : list bytes) : string :=
  to_ascii_lowercase (String.concat "." (string_of <$> ls)).

(** A name the decoder takes: at most 16 pointers, 254 bytes, host name characters. *)
Record hostname (j : Z) (ls : list bytes) : Prop := {
  hn_pointers : j <= 16;
  hn_size : name_size ls <= 254;
  hn_chars : Forall (fun l => forallb hostname_byte l = true) ls
}.

(** The 16-bit field at an offset *)
Definition u16_at (bs : bytes) (off : Z) : Z := be16 (take 2 (drop (Z.to_nat off) bs)).

(** The first question: its name, in lower case, and its type; the class follows
    the type. *)
Inductive first_question (bs : bytes) : option string -> option string -> Prop :=
| no_question : u16_at bs 4 = 0 -> first_question bs None None
| a_question j ls after :
    0 < u16_at bs 4 -> name_at bs 12 j ls after -> hostname j ls -> after + 4 <= len bs ->
    first_question bs (Some (dotted ls)) (Some (dns_record_type (u16_at bs after))).

Record dns_message (bs : bytes) (m : DecodedDnsMessage) : Prop := {
  dm_header : 12 <= len bs;
  dm_id : query_id m = u16_at bs 0;
  dm_response : response m = Z.testbit (u16_at bs 2) 15;
  dm_code : response_code m = u16_at bs 2 mod 16;
  dm_answers : answer_count m = u16_at bs 6;
  dm_question : first_question bs (name m) (record_type m)
}.

(** * The decoder and the grammar *)
Lemma pointer_byte b : (Z.land (u8 b) 0xc0 =? 0xc0) = (192 <=? u8 b).
Proof. by destruct b. Qed.
Lemma label_byte b : (Z.land (u8 b) 0xc0 =? 0) = (u8 b <? 64).
Proof. by destruct b. Qed.
Lemma pointer_low b : 192 <= u8 b -> Z.land (u8 b) 0x3f = u8 b - 192.
Proof. by destruct b. Qed.

Lemma pointer_target b c :
  192 <= u8 b -> Z.lor (Z.shiftl (Z.land (u8 b) 0x3f) 8) (u8 c) = 256 * (u8 b - 192) + u8 c.
Proof.
  intros Hb. rewrite pointer_low, Z.shiftl_mul_pow2 by lia. pose proof (u8_range c).
  rewrite <- Z.lxor_lor, <- Z.add_nocarry_lxor; [lia| |];
    (apply Z.bits_inj'; intros n Hn; rewrite Z.land_spec, Z.bits_0;
     destruct (decide (n < 8)); [rewrite Z.mul_pow2_bits_low by lia; done|];
     rewrite (Z.bits_above_log2 (u8 c)); [by rewrite andb_false_r|lia|];
     destruct (decide (u8 c = 0)) as [->|]; [simpl; lia|]; apply Z.log2_lt_pow2; [lia|];
     apply Z.lt_le_trans with (2 ^ 8); [lia|]; apply Z.pow_le_mono_r; lia).
Qed.

Lemma hostname_ascii l : forallb hostname_byte l = true -> from_utf8_lossy l = string_of l.
Proof.
  intros H. apply lossy_ascii. rewrite forallb_forall in *. intros b Hb. specialize (H b Hb).
  unfold hostname_byte, is_ascii_alphanumeric, is_ascii_digit, is_ascii_alphabetic in H. lia.
Qed.

Lemma name_size_nonneg ls : 0 <= name_size ls.
Proof. induction ls as [|l ls IH]; simpl; [lia|]. pose proof (len_nonneg l). lia. Qed.

Lemma name_at_pointers bs off j ls after : name_at bs off j ls after -> 0 <= j.
Proof. induction 1; lia. Qed.

Lemma name_at_labels bs off j ls after : name_at bs off j ls after -> 2 * len ls <= name_size ls.
Proof.
  induction 1 as [|off b label j ls after Hb Hr Hl _ IH|]; [unfold len; simpl; lia| |done].
  apply get_range_Some in Hl as (_ & _ & Hl & _). rewrite len_cons. simpl. lia.
Qed.

Lemma name_at_bounds bs off j ls after : name_at bs off j ls after -> 0 <= off -> off < after <= len bs.
Proof.
  induction 1 as [off b Hb _|off b label j ls after Hb Hr Hl _ IH|off b c j ls after Hb Hr Hc _ _]; intros Ho.
  - apply get_Some in Hb as [Hb _]. lia.
  - pose proof (u8_range b). specialize (IH ltac:(lia)). lia.
  - apply get_Some in Hc as [Hc _]. lia.
Qed.

Definition of_labels (acc : list string) (ls : list bytes) : string :=
  to_ascii_lowercase (String.concat "." (acc ++ (string_of <$> ls))).

(** What the loop returns is a name of the grammar. *)
Lemma loop_sound fuel bs acc cur aft j d :
  0 <= cur -> j <= 16 -> 0 <= d <= 254 ->
  ensures (fun r => exists k ls a, name_at bs cur k ls a /\ j + k <= 16 /\ d + name_size ls <= 254 /\
    Forall (fun l => forallb hostname_byte l = true) ls /\ r = (of_labels acc ls, default a aft))
    (parse_dns_name_loop fuel bs acc cur aft j d).
Proof.
  revert acc cur aft j d. induction fuel as [|fuel IH]; intros acc cur aft j d Hc Hj Hd; [apply ensures_Fault|].
  simpl. destruct (get bs cur) as [b|] eqn:Hb; [|apply ensures_Err]. simpl. unfold uadd.
  rewrite pointer_byte, label_byte. destruct (192 <=? u8 b) eqn:Hp.
  - destruct (cur + 1 <=? usize_max) eqn:?; [|apply ensures_Fault]. simpl.
    destruct (get bs (cur + 1)) as [c|] eqn:Hg; [|apply ensures_Err]. simpl.
    destruct (cur + 2 <=? usize_max) eqn:?; [|apply ensures_Fault]. simpl.
    destruct (16 <? j + 1) eqn:?; [apply ensures_Err|].
    rewrite pointer_target by lia. pose proof (u8_range c).
    eapply ensures_mono; [apply IH; lia|]. intros r (k & ls & a & Hn & Hk & Hs & Hl & ->).
    exists (k + 1), ls, (cur + 2). split; [by eapply name_pointer; eauto; lia|].
    split_and!; [lia|done|done|done].
  - destruct (u8 b <? 64) eqn:Hlab; simpl; [|apply ensures_Err].
    destruct (cur + 1 <=? usize_max) eqn:?; [|apply ensures_Fault]. simpl.
    destruct (u8 b =? 0) eqn:Hz.
    + apply ensures_Ok. exists 0, [], (cur + 1). split; [apply name_root with b; [done|lia]|].
      simpl. split_and!; [lia|lia|done|]. unfold of_labels. simpl. by rewrite app_nil_r.
    + destruct (63 <? u8 b) eqn:?; [apply ensures_Err|].
      destruct (checked_add (cur + 1) (u8 b)) as [stop|] eqn:Hst; [|apply ensures_Err]. simpl.
      unfold checked_add in Hst. destruct (cur + 1 + u8 b <=? usize_max); [|done]. injection Hst as <-.
      destruct (get_range bs (cur + 1) (cur + 1 + u8 b)) as [label|] eqn:Hr; [|apply ensures_Err]. simpl.
      destruct (forallb hostname_byte label) eqn:Hh; simpl; [|apply ensures_Err].
      destruct (254 <? saturating_add usize_max d (len label + 1)) eqn:Hsat; [apply ensures_Err|].
      pose proof (len_nonneg label). pose proof (u8_range b). unfold saturating_add in *.
      eapply ensures_mono; [apply IH; lia|]. intros r (k & ls & a & Hn & Hk & Hs & Hl & ->).
      exists k, (label :: ls), a. split; [eapply name_label; eauto; lia|].
      split_and!; [done|simpl; lia|by constructor|]. unfold of_labels.
      by rewrite hostname_ascii, <- app_assoc.
Qed.

(** A name of the grammar is returned, whatever fuel is left beyond its pointers
    and labels. *)
Lemma loop_complete bs cur k ls a :
  name_at bs cur k ls a -> len bs <= isize_max -> 0 <= cur ->
  forall fuel acc aft j d, 0 <= j -> 0 <= d -> j + k <= 16 -> d + name_size ls <= 254 ->
  Forall (fun l => forallb hostname_byte l = true) ls -> (Z.to_nat k + length ls < fuel)%nat ->
  parse_dns_name_loop fuel bs acc cur aft j d = Ok (of_labels acc ls, default a aft).
Proof.
  intros Hn Hlen. induction Hn as [off b Hb Hz|off b label j' ls after Hb Hr Hl Hn IH|off b c j' ls after Hb Hr Hc Hn IH];
    intros Hoff [|fuel] acc aft j d Hj Hd Hk Hs Hh Hf; try lia; simpl; rewrite Hb; simpl; unfold uadd.
  - assert (off < len bs) by (apply get_Some in Hb; lia). rewrite pointer_byte, label_byte, Hz.
    replace (off + 1 <=? usize_max) with true by lia. simpl. unfold of_labels. simpl. by rewrite app_nil_r.
  - destruct (get_range_Some _ _ _ _ Hl) as (_ & Hle & Hll & _). pose proof (name_size_nonneg ls).
    apply Forall_cons in Hh as [Hh1 Hh2]. simpl in Hs, Hf.
    rewrite pointer_byte, label_byte. replace (192 <=? u8 b) with false by lia.
    replace (u8 b <? 64) with true by lia. simpl. replace (off + 1 <=? usize_max) with true by lia. simpl.
    replace (u8 b =? 0) with false by lia. replace (63 <? u8 b) with false by lia.
    unfold checked_add, saturating_add. replace (off + 1 + u8 b <=? usize_max) with true by lia. simpl.
    rewrite Hl. simpl. rewrite Hh1. simpl. replace (254 <? _) with false by lia.
    rewrite IH; [|lia|lia|lia|lia|lia|done|lia]. unfold of_labels. by rewrite hostname_ascii, <- app_assoc.
  - assert (off + 1 < len bs) by (apply get_Some in Hc; lia). rewrite pointer_byte.
    apply name_at_pointers in Hn as Hj'.
    replace (192 <=? u8 b) with true by lia. replace (off + 1 <=? usize_max) with true by lia. simpl.
    rewrite Hc. simpl. replace (off + 2 <=? usize_max) with true by lia. simpl.
    replace (16 <? j + 1) with false by lia. rewrite pointer_target by lia. pose proof (u8_range b).
    pose proof (u8_range c). rewrite IH; [done|lia|lia|lia|lia|done|done|lia].
Qed.

(** The loop ends: a turn takes a pointer or at least 2 bytes of the limit. *)
Lemma loop_total fuel bs acc cur aft j d :
  len bs <= isize_max -> 0 <= cur <= isize_max -> 0 <= j <= 16 -> 0 <= d <= 254 ->
  match aft with Some a => 0 <= a <= isize_max + 1 | None => True end ->
  2 * (16 - j) + (254 - d) + 2 <= 2 * Z.of_nat fuel ->
  safe (fun r => 0 <= snd r <= isize_max + 1) (parse_dns_name_loop fuel bs acc cur aft j d).
Proof.
  intros Hlen. revert acc cur aft j d. induction fuel as [|fuel IH]; intros acc cur aft j d Hc Hj Hd Ha Hf; [lia|].
  simpl. destruct (get bs cur) as [b|] eqn:Hb; [|exact I]. simpl.
  apply get_Some in Hb as [Hb _]. unfold uadd. rewrite pointer_byte, label_byte.
  replace (cur + 1 <=? usize_max) with true by lia. destruct (192 <=? u8 b) eqn:Hp.
  - simpl. destruct (get bs (cur + 1)) as [c|] eqn:Hg; [|exact I]. simpl. apply get_Some in Hg as [Hg _].
    replace (cur + 2 <=? usize_max) with true by lia. simpl.
    destruct (16 <? j + 1) eqn:?; [exact I|]. rewrite pointer_target by lia.
    pose proof (u8_range b). pose proof (u8_range c). apply IH; try lia. destruct aft; simpl; lia.
  - destruct (u8 b <? 64); simpl; [|exact I]. destruct (u8 b =? 0) eqn:?.
    { simpl. destruct aft; simpl; lia. }
    destruct (63 <? u8 b); [exact I|]. unfold checked_add. pose proof (u8_range b).
    replace (cur + 1 + u8 b <=? usize_max) with true by lia. simpl.
    destruct (get_range bs (cur + 1) (cur + 1 + u8 b)) as [label|] eqn:Hr; [|exact I]. simpl.
    apply get_range_Some in Hr as (_ & Hr & Hll & _).
    destruct (forallb hostname_byte label); simpl; [|exact I].
    destruct (254 <? _) eqn:Hsat; [exact I|]. unfold saturating_add in *. apply IH; try lia. done.
Qed.

(** * Messages *)
Lemma u16_at_range bs off : 0 <= u16_at bs off < 65536.
Proof.
  unfold u16_at, be16. pose proof (le_val_range (rev (take 2 (drop (Z.to_nat off) bs)))) as H.
  assert (len (rev (take 2 (drop (Z.to_nat off) bs))) <= 2) as Hl.
  { unfold len. rewrite length_rev, length_take. lia. }
  split; [lia|]. eapply Z.lt_le_trans; [apply H|]. change 65536 with (2 ^ 16).
  apply Z.pow_le_mono_r; lia.
Qed.

Lemma read_u16_exact bs off :
  0 <= off <= isize_max + 3 ->
  read_network_u16 bs off = if off + 2 <=? len bs then Ok (u16_at bs off) else Err "truncated DNS integer".
Proof.
  intros Ho. unfold read_network_u16, uadd. replace (off + 2 <=? usize_max) with true by lia. simpl.
  destruct (off + 2 <=? len bs) eqn:Hl.
  - rewrite get_range_in by lia. simpl. unfold u16_at. by replace (Z.to_nat (off + 2 - off)) with 2%nat by lia.
  - destruct (get_range bs off (off + 2)) eqn:Hr; [|done]. apply get_range_Some in Hr. lia.
Qed.

Lemma top_bit f : negb (Z.land f 0x8000 =? 0) = Z.testbit f 15.
Proof.
  destruct (Z.testbit f 15) eqn:Ht.
  - apply negb_true_iff, Z.eqb_neq. intros H. apply (f_equal (fun z => Z.testbit z 15)) in H.
    rewrite Z.land_spec, Ht, Z.bits_0 in H. done.
  - apply negb_false_iff, Z.eqb_eq, Z.bits_inj'. intros n Hn. rewrite Z.land_spec, Z.bits_0.
    change 0x8000 with (2 ^ 15). rewrite Z.pow2_bits_eqb by lia.
    destruct (15 =? n) eqn:E; [|by rewrite andb_false_r]. apply Z.eqb_eq in E. subst. by rewrite Ht.
Qed.

Lemma parse_sound bs r :
  parse_dns_name bs 12 = Ok r ->
  exists j ls after, name_at bs 12 j ls after /\ hostname j ls /\ r = (dotted ls, after).
Proof.
  unfold parse_dns_name. generalize name_fuel as fuel. intros fuel H.
  destruct (loop_sound fuel bs [] 12 None 0 0 ltac:(lia) ltac:(lia) ltac:(lia) r H)
    as (k & ls & a & Hn & Hk & Hs & Hl & ->). exists k, ls, a. split; [done|]. by split.
Qed.

Lemma parse_complete bs j ls after :
  len bs <= isize_max -> name_at bs 12 j ls after -> hostname j ls ->
  parse_dns_name bs 12 = Ok (dotted ls, after).
Proof.
  intros Hlen Hn [Hj Hs Hc]. apply name_at_labels in Hn as Hl. apply name_at_pointers in Hn as Hp.
  assert (Z.to_nat j + length ls < name_fuel)%nat as Hf by (unfold name_fuel; unfold len in Hl; lia).
  unfold parse_dns_name. revert Hf. generalize name_fuel as fuel. intros fuel Hf.
  by rewrite (loop_complete bs 12 j ls after Hn) by (done || lia).
Qed.

Lemma decode_dns_total bs : len bs <= isize_max -> returns (decode_dns_message bs).
Proof.
  intros Hlen. unfold decode_dns_message. destruct (len bs <? 12) eqn:Hh; [right; eauto|].
  rewrite !read_u16_exact by lia. repeat (match goal with |- context [?a <=? len bs] =>
    replace (a <=? len bs) with true by lia end; simpl).
  destruct (0 <? u16_at bs 4); simpl; [|left; eauto].
  assert (safe (fun r => 0 <= snd r <= isize_max + 1) (parse_dns_name bs 12)) as Hs.
  { unfold parse_dns_name. assert (288 <= 2 * Z.of_nat name_fuel) as Hf by done. revert Hf.
    generalize name_fuel as fuel. intros fuel Hf. by apply loop_total; lia || done. }
  destruct (parse_dns_name bs 12) as [[s after]|e|] eqn:Hp; simpl in *; [|right; eauto|done].
  rewrite read_u16_exact by lia. destruct (after + 2 <=? len bs); simpl; [|right; eauto].
  unfold uadd. replace (after + 2 <=? usize_max) with true by lia. simpl.
  rewrite read_u16_exact by lia. destruct (after + 2 + 2 <=? len bs); simpl; [left|right]; eauto.
Qed.

(** C27: DNS.  On every capture the decoder returns a message or an error, and it
    returns exactly the messages of the grammar: the header's fields, and, when
    the header counts a question, the name at offset 12 read through at most 16
    compression pointers, in lower case and within 254 bytes, and the type after
    it. *)
Theorem decode_dns_exact bs :
  len bs <= isize_max ->
  returns (decode_dns_message bs) /\ forall m, decode_dns_message bs = Ok m <-> dns_message bs m.
Proof.
  intros Hlen. split; [by apply decode_dns_total|]. intros m. unfold decode_dns_message.
  destruct (len bs <? 12) eqn:Hh; [split; [done|intros []; lia]|].
  rewrite !read_u16_exact by lia. repeat (match goal with |- context [?a <=? len bs] =>
    replace (a <=? len bs) with true by lia end; simpl).
  rewrite top_bit. change 0x000f with (Z.ones 4). rewrite Z.land_ones by lia. change (2 ^ 4) with 16.
  pose proof (u16_at_range bs 4). split.
  - intros H1. destruct (0 <? u16_at bs 4) eqn:Hq; simpl in H1.
    + destruct (parse_dns_name bs 12) as [r|e|] eqn:Hp; simpl in H1; [|done|done].
      destruct (parse_sound _ _ Hp) as (j & ls & after & Hn & Hhn & ->). simpl in H1.
      apply name_at_bounds in Hn as Hb; [|lia].
      rewrite read_u16_exact in H1 by lia. destruct (after + 2 <=? len bs) eqn:?; [|done]. simpl in H1.
      unfold uadd in H1. replace (after + 2 <=? usize_max) with true in H1 by lia. simpl in H1.
      rewrite read_u16_exact in H1 by lia. destruct (after + 2 + 2 <=? len bs) eqn:?; [|done].
      injection H1 as <-. split; simpl; try done; [lia|]. eapply a_question; [lia|done|done|lia].
    + injection H1 as <-. split; simpl; try done; [lia|]. apply no_question. lia.
  - intros [_ Hid Hr Hc Ha Hq]. destruct m as [mi mr mc ma mn mt]. simpl in *. subst.
    destruct Hq as [Hz|j ls after Hpos Hn Hhn Hl].
    + by rewrite Hz.
    + replace (0 <? u16_at bs 4) with true by lia. rewrite (parse_complete _ _ _ _ Hlen Hn Hhn). simpl.
      apply name_at_bounds in Hn as Hb; [|lia]. rewrite read_u16_exact by lia.
      replace (after + 2 <=? len bs) with true by lia. simpl. unfold uadd.
      replace (after + 2 <=? usize_max) with true by lia. simpl. rewrite read_u16_exact by lia.
      by replace (after + 2 + 2 <=? len bs) with true by lia.
Qed.

(** The SRV query of the source's tests, and the same name with its last labels
    behind a pointer. *)
Definition srv_query : bytes :=
  [x12; x34; x01; x00; x00; x01; x00; x00; x00; x00; x00; x00]
  ++ (x08 :: bytes_of "_MongoDB") ++ (x04 :: bytes_of "_tcp") ++ (x03 :: bytes_of "com") ++ [x00; x00; x21; x00; x01].
Definition srv_pointed : bytes :=
  [x12; x34; x81; x83; x00; x01; x00; x00; x00; x00; x00; x00]
  ++ (x08 :: bytes_of "_MongoDB") ++ [xc0; x1b; x00; x21; x00; x01] ++ (x04 :: bytes_of "_tcp") ++ [x00].
Example srv_decoded : decode_dns_message srv_query = Ok {| query_id := 0x1234; response := false;
  response_code := 0; answer_count := 0; name := Some "_mongodb._tcp.com"; record_type := Some "SRV" |}.
Proof. vm_compute. reflexivity. Qed.
Example srv_pointed_decoded : decode_dns_message srv_pointed = Ok {| query_id := 0x1234; response := true;
  response_code := 3; answer_count := 0; name := Some "_mongodb._tcp"; record_type := Some "SRV" |}.
Proof. vm_compute. reflexivity. Qed.
(** A pointer to itself is an error. *)
Example pointer_loop : decode_dns_message ([x00; x00; x00; x00; x00; x01; x00; x00; x00; x00; x00; x00] ++ [xc0; x0c])
  = Err "DNS compression pointer loop".
Proof. vm_compute. reflexivity. Qed.

Lemma decode_dns_exact_witness : dns_message srv_pointed {| query_id := 0x1234; response := true;
  response_code := 3; answer_count := 0; name := Some "_mongodb._tcp"; record_type := Some "SRV" |}.
Proof. apply (decode_dns_exact srv_pointed); [by vm_compute|]. vm_compute. reflexivity. Defined.
