(* ===== verification/Proc.v ===== *)
(** What the observer reads from the machine it runs on: the clock and the
    /proc file system, and the functions of crates/observer/src/lib.rs that take
    the executable, credentials, command name, pod and socket endpoints of a
    process out of it.  The machine is a state; every read may change it and
    gives what it gives. *)
From Stdlib Require Import ZArith Lia ZifyBool Strings.Byte Strings.Ascii Strings.String.
From stdpp Require Import base list strings pretty.
From S2P Require Import Prelude Text Schema.

Local Open Scope string_scope.
Local Open Scope list_scope.
Local Open Scope Z_scope.

(** [fs::read_link], [fs::read_to_string] (a text that is not UTF-8 is an error),
    [OffsetDateTime::now_utc] and [Instant::now], in nanoseconds. *)
Class Host (OffsetDateTime World : Type) : Type := {
  read_link : string -> State World (option bytes);
  read_to_string : string -> State World (option string);
  now_utc : State World OffsetDateTime;
  instant_now : State World Z
}.

(** [Path::join] of a relative component *)
Definition join (base component : string) : string :=
  match rev (bytes_of base) with
  | [] => component
  | last :: _ => if u8 last =? 47 then String.append base component else (base ++ "/" ++ component)%string
  end.

(** [Option::and_then] over a read *)
Definition and_then {W A B} (o : option A) (k : A -> State W (option B)) : State W (option B) :=
  match o with
  | Some a => k a
  | None => mret None
  end.

(** * Pods *)
Definition pod_candidate_byte (b : byte) : bool := is_ascii_hexdigit b || (u8 b =? 45) || (u8 b =? 95).
Fixpoint take_while {A} (p : A -> bool) (l : list A) : list A :=
  match l with
  | [] => []
  | x :: l => if p x then x :: take_while p l else []
  end.
(** [candidate.replace('_', "-")] *)
Definition dashes (bs : bytes) : bytes := (fun b => if u8 b =? 95 then x2d else b) <$> bs.
Fixpoint uid_shape (index : Z) (bs : bytes) : bool :=
  match bs with
  | [] => true
  | b :: bs =>
      (if (index =? 8) || (index =? 13) || (index =? 18) || (index =? 23) then u8 b =? 45 else is_ascii_hexdigit b)
      && uid_shape (index + 1) bs
  end.
(** The body of the loop, on the text after a marker *)
Definition pod_uid_after (suffix : string) : option string :=
  let normalized := dashes (take_while pod_candidate_byte (bytes_of suffix)) in
  if 36 <=? len normalized then
    let uid := take 36 normalized in
    if uid_shape 0 uid then Some (to_ascii_lowercase (string_of uid)) else None
  else None.
Fixpoint extract_pod_uid (cgroup : string) : option string :=
  match cgroup with
  | EmptyString => None
  | String _ rest =>
      match strip_prefix "pod" cgroup ≫= pod_uid_after with
      | Some uid => Some uid
      | None => extract_pod_uid rest
      end
  end.

(** * Socket tables *)

(** [Ipv4Addr::from(encoded.to_le_bytes()).to_string()] *)
Definition ipv4_text (octets : bytes) : string := String.concat "." ((fun b => pretty (u8 b)) <$> octets).

(** [Display] of [Ipv6Addr], from its eight segments: an IPv4-mapped address in
    dotted form, otherwise the first longest run of at least two zero segments
    is replaced by two colons. *)
Fixpoint segments (bs : bytes) : list Z :=
  match bs with
  | a :: b :: bs => u8 a * 256 + u8 b :: segments bs
  | _ => []
  end.
Fixpoint longest_zeroes (i : Z) (l : list Z) (current longest : Z * Z) : Z * Z :=
  match l with
  | [] => longest
  | s :: l =>
      if s =? 0 then
        let current := (if snd current =? 0 then i else fst current, snd current + 1) in
        longest_zeroes (i + 1) l current (if snd longest <? snd current then current else longest)
      else longest_zeroes (i + 1) l (0, 0) longest
  end.
Definition fmt_subslice (l : list Z) : string := String.concat ":" (fmt_x <$> l).
Definition ipv6_text (octets : bytes) : string :=
  let l := segments octets in
  if bool_decide (take 6 l = [0; 0; 0; 0; 0; 65535]) then String.append "::ffff:" (ipv4_text (drop 12 octets))
  else
    let '(start, n) := longest_zeroes 0 l (0, 0) (0, 0) in
    if 1 <? n
    then (fmt_subslice (take (Z.to_nat start) l) ++ "::" ++ fmt_subslice (drop (Z.to_nat (start + n)) l))%string
    else fmt_subslice l.

(** [u32::from_str_radix(word, 16)] of each chunk of 8 bytes, little endian *)
Fixpoint ipv6_words (n : nat) (address : bytes) : option bytes :=
  match n with
  | O => Some []
  | S n =>
      match from_utf8 (take 8 address) ≫= from_str_radix u32_max 16 with
      | Some word =>
          match ipv6_words n (drop 8 address) with
          | Some octets => Some (le_bytes 4 word ++ octets)
          | None => None
          end
      | None => None
      end
  end.
Definition parse_endpoint (value : string) (ipv6 : bool) : option NetworkEndpoint :=
  match split_once ":"%char value with
  | None => None
  | Some (address, port) =>
      match from_str_radix 65535 16 port with
      | None => None
      | Some port =>
          let address :=
            if ipv6
            then if negb (slen address =? 32) then None else ipv6_text <$> ipv6_words 4 (bytes_of address)
            else (fun encoded => ipv4_text (le_bytes 4 encoded)) <$> from_str_radix u32_max 16 address in
          match address with
          | Some address => Some {| address := Some address; port := Some port |}
          | None => None
          end
      end
  end.

Definition endpoints : Set := NetworkEndpoint * NetworkEndpoint.

(** The loop of [parse_proc_net_tcp]: [Some] ends it. *)
Fixpoint find_inode (wanted_inode : string) (ipv6 : bool) (l : list string) : option endpoints :=
  match l with
  | [] => None
  | line :: l =>
      let fields := split_whitespace line in
      match fields !! 9%nat, fields !! 1%nat, fields !! 2%nat with
      | Some inode, Some local, Some remote =>
          if String.eqb inode wanted_inode then
            match parse_endpoint local ipv6, parse_endpoint remote ipv6 with
            | Some local, Some remote => Some (local, remote)
            | _, _ => None
            end
          else find_inode wanted_inode ipv6 l
      | _, _, _ => find_inode wanted_inode ipv6 l
      end
  end.
Definition parse_proc_net_tcp (table wanted_inode : string) (ipv6 : bool) : option endpoints :=
  find_inode wanted_inode ipv6 (drop 1 (lines table)).

(** * Processes *)
Section processes.
Context {OffsetDateTime World : Type} `{Host OffsetDateTime World}.
Context (host_proc : string).

Definition process_file (tgid : Z) (file : string) : string := join (join host_proc (pretty tgid)) file.

Definition process_executable (tgid : Z) : State World (option string) :=
  let! link := read_link (process_file tgid "exe") in
  mret ((fun path => trim_end_matches " (deleted)" (from_utf8_lossy path)) <$> link).

(** The number after a label of /proc/<pid>/status. *)
Definition status_number (label status : string) : option Z :=
  (find_map (strip_prefix label) (lines status) ≫= fun rest => head (split_whitespace rest))
    ≫= from_str_radix u32_max 10.
Definition process_credentials (tgid : Z) : State World (option (Z * Z)) :=
  let! status := read_to_string (process_file tgid "status") in
  mret (status ≫= fun status =>
    match status_number "Uid:" status, status_number "Gid:" status with
    | Some uid, Some gid => Some (uid, gid)
    | _, _ => None
    end).

Definition process_command (tgid : Z) : State World (option string) :=
  let! comm := read_to_string (process_file tgid "comm") in
  mret (comm ≫= fun command =>
    let command := trim_end command in if String.eqb command "" then None else Some command).

Definition pod_metadata (tgid : Z) (cluster_name : string) : State World (option KubernetesMetadata) :=
  let! cgroup := read_to_string (process_file tgid "cgroup") in
  mret ((cgroup ≫= extract_pod_uid) ≫= fun pod_uid =>
    Some {| cluster_name := Some cluster_name; namespace := None; pod_name := None; pod_uid := Some pod_uid;
            container_name := None; workload_kind := None; workload_name := None; labels := None |}).

(** The tables are read until one lists the socket; one that cannot be read ends
    the search. *)
Fixpoint search_tables (tgid : Z) (inode : string) (tables : list (string * bool)) : State World (option endpoints) :=
  match tables with
  | [] => mret None
  | (name, ipv6) :: tables =>
      let! table := read_to_string (join (process_file tgid "net") name) in
      and_then table (fun table =>
        match parse_proc_net_tcp table inode ipv6 with
        | Some value => mret (Some value)
        | None => search_tables tgid inode tables
        end)
  end.
Definition resolve_socket_endpoints (tgid fd : Z) : State World (option endpoints) :=
  let! link := read_link (join (process_file tgid "fd") (pretty fd)) in
  and_then link (fun link =>
    match strip_prefix "socket:[" (from_utf8_lossy link) ≫= strip_suffix "]" with
    | Some inode => search_tables tgid inode [("tcp", false); ("tcp6", true); ("udp", false); ("udp6", true)]
    | None => mret None
    end).
End processes.

(** * The examples of the source *)
Example systemd_pod : extract_pod_uid
  "0::/kubepods.slice/kubepods-burstable-pod08f20c35_9ab0_4a41_94b8_2e19e20c14c8.slice/cri-containerd-deadbeef.scope"
  = Some "08f20c35-9ab0-4a41-94b8-2e19e20c14c8".
Proof. vm_compute. reflexivity. Qed.
Example cgroupfs_pod : extract_pod_uid "0::/kubepods/burstable/pod08F20c35-9ab0-4a41-94b8-2e19e20c14c8/deadbeef"
  = Some "08f20c35-9ab0-4a41-94b8-2e19e20c14c8".
Proof. vm_compute. reflexivity. Qed.
Example ipv4_endpoint : parse_endpoint "0100007F:6989" false
  = Some {| address := Some "127.0.0.1"; port := Some 27017 |}.
Proof. vm_compute. reflexivity. Qed.
Example ipv6_endpoint : parse_endpoint "B80D01200000000067452301EFCDAB89:6989" true
  = Some {| address := Some "2001:db8::123:4567:89ab:cdef"; port := Some 27017 |}.
Proof. vm_compute. reflexivity. Qed.
Example ipv6_mapped : parse_endpoint "0000000000000000FFFF00000100007F:6989" true
  = Some {| address := Some "::ffff:127.0.0.1"; port := Some 27017 |}.
Proof. vm_compute. reflexivity. Qed.
