(* ===== verification/Kernel.v ===== *)
(** Kernel events, crates/observer/src/lib.rs: the record the eBPF programs
    write to the ring buffer, its decoding, and the names of event types and
    operations.  The layout is [repr(C)] with little-endian integers. *)
From Stdlib Require Import ZArith Lia ZifyBool Strings.Byte Strings.String.
From stdpp Require Import base list strings.
From S2P Require Import Prelude Text Schema.

Local Open Scope Z_scope.

Definition MAX_CAPTURE_BYTES : Z := 1024.

Definition EVENT_IO_CHUNK : Z := 1.
Definition EVENT_SYSCALL_LATENCY : Z := 2.
Definition EVENT_CONNECTION : Z := 3.
Definition EVENT_PROFILE : Z := 4.
Definition EVENT_PROCESS : Z := 5.
Definition EVENT_DNS_CHUNK : Z := 6.

Definition OP_PREAD : Z := 1.
Definition OP_PWRITE : Z := 2.
Definition OP_FSYNC : Z := 3.
Definition OP_OPENAT : Z := 4.
Definition OP_OFFCPU : Z := 5.
Definition OP_TCP_CONNECT : Z := 6.
Definition OP_TCP_ACCEPT : Z := 7.
Definition OP_TCP_CLOSE : Z := 8.
Definition OP_TCP_RTT : Z := 9.
Definition OP_TCP_RETRANSMIT : Z := 10.
Definition OP_CPU_SAMPLE : Z := 11.
Definition OP_FDATASYNC : Z := 12.
Definition OP_LOCK_WAIT : Z := 13.
Definition OP_PAGE_FAULT : Z := 14.
Definition OP_PROCESS_EXEC : Z := 15.
Definition OP_PROCESS_EXIT : Z := 16.
Definition OP_TCP_HANDSHAKE : Z := 17.
Definition OP_TCP_RESET_RECEIVED : Z := 18.
Definition OP_TCP_RESET_SENT : Z := 19.
Definition OP_TCP_ZERO_WINDOW : Z := 20.
Definition OP_TCP_TIMEOUT : Z := 21.

Record KernelEvent : Set := {
  raw_timestamp_ns : Z;
  raw_connection_key : Z;
  raw_cgroup_id : Z;
  raw_duration_ns : Z;
  raw_bytes : Z;
  raw_result : Z;
  raw_pid : Z;
  raw_tgid : Z;
  raw_uid : Z;
  raw_gid : Z;
  raw_fd : Z;
  raw_original_len : Z;
  raw_captured_len : Z;
  raw_event_type : Z;
  raw_direction : Z;
  raw_source : Z;
  raw_operation : Z;
  raw_comm : bytes;
  raw_data : bytes
}.

(** [size_of::<KernelEvent>()] *)
Definition KERNEL_EVENT_SIZE : Z := 1120.

(** The [n] bytes at an offset of the record *)
Definition field (bs : bytes) (off n : nat) : bytes := take n (drop off bs).
Definition from_ring_bytes (bs : bytes) : option KernelEvent :=
  if negb (len bs =? KERNEL_EVENT_SIZE) then None else
  Some {|
    raw_timestamp_ns := u64_from_le_bytes (field bs 0 8);
    raw_connection_key := u64_from_le_bytes (field bs 8 8);
    raw_cgroup_id := u64_from_le_bytes (field bs 16 8);
    raw_duration_ns := u64_from_le_bytes (field bs 24 8);
    raw_bytes := u64_from_le_bytes (field bs 32 8);
    raw_result := i64_from_le_bytes (field bs 40 8);
    raw_pid := u32_from_le_bytes (field bs 48 4);
    raw_tgid := u32_from_le_bytes (field bs 52 4);
    raw_uid := u32_from_le_bytes (field bs 56 4);
    raw_gid := u32_from_le_bytes (field bs 60 4);
    raw_fd := i32_from_le_bytes (field bs 64 4);
    raw_original_len := u32_from_le_bytes (field bs 68 4);
    raw_captured_len := u32_from_le_bytes (field bs 72 4);
    raw_event_type := le_val (field bs 76 1);
    raw_direction := le_val (field bs 77 1);
    raw_source := le_val (field bs 78 1);
    raw_operation := le_val (field bs 79 1);
    raw_comm := field bs 80 16;
    raw_data := field bs 96 1024
  |}.

(** [KernelEvent::command]: the text before the first NUL *)
Definition raw_command (raw : KernelEvent) : string :=
  let stop := default (len (raw_comm raw)) (position (fun b => u8 b =? 0) (raw_comm raw)) in
  from_utf8_lossy (take (Z.to_nat stop) (raw_comm raw)).

Record CapturedKernelEvent : Set := {
  raw : KernelEvent;
  user_stack_addresses : list Z;
  kernel_stack_addresses : list Z
}.

Definition capture_source (source : Z) : CaptureSource :=
  match source with
  | 1 => CleartextSyscall
  | 2 => OpenSslUprobe
  | 3 => KernelTracepoint
  | 4 => PerfEvent
  | 5 => UserUprobe
  | _ => Sensor
  end.

(** What the types of the fields say of a record. *)
Record well_typed (r : KernelEvent) : Prop := {
  wt_timestamp : 0 <= raw_timestamp_ns r <= u64_max;
  wt_tgid : 0 <= raw_tgid r <= u32_max;
  wt_captured : 0 <= raw_captured_len r <= u32_max;
  wt_comm : len (raw_comm r) = 16;
  wt_data : len (raw_data r) = MAX_CAPTURE_BYTES
}.

Lemma len_field bs off n : Z.of_nat off + Z.of_nat n <= len bs -> len (field bs off n) = Z.of_nat n.
Proof. intros H. unfold field, len in *. rewrite length_take, length_drop. lia. Qed.

Lemma le_val_field bs off n : 0 <= le_val (field bs off n) < 2 ^ (8 * Z.of_nat n).
Proof.
  pose proof (le_val_range (field bs off n)) as H. split; [lia|]. eapply Z.lt_le_trans; [apply H|].
  apply Z.pow_le_mono_r; [lia|]. unfold field, len. rewrite length_take. lia.
Qed.

Lemma from_ring_well_typed bs r : from_ring_bytes bs = Some r -> well_typed r.
Proof.
  unfold from_ring_bytes. destruct (len bs =? KERNEL_EVENT_SIZE) eqn:Hl; [|done]. intros [= <-].
  unfold KERNEL_EVENT_SIZE in Hl. split; cbn [raw_timestamp_ns raw_tgid raw_captured_len raw_comm raw_data].
  - pose proof (le_val_field bs 0 8) as H. change (2 ^ (8 * Z.of_nat 8)) with 18446744073709551616 in H.
    unfold u64_from_le_bytes. lia.
  - pose proof (le_val_field bs 52 4) as H. change (2 ^ (8 * Z.of_nat 4)) with 4294967296 in H.
    unfold u32_from_le_bytes. lia.
  - pose proof (le_val_field bs 72 4) as H. change (2 ^ (8 * Z.of_nat 4)) with 4294967296 in H.
    unfold u32_from_le_bytes. lia.
  - rewrite len_field by lia. done.
  - rewrite len_field by (change (Z.of_nat 1024) with 1024; lia). done.
Qed.
