(* ===== verification/Ebpf.v ===== *)
(** The eBPF programs, src/bpf/observer.bpf.c: what the kernel runs at system calls,
    socket operations, scheduler switches and library calls of the MongoDB
    processes.  A program is a method over the maps the programs share and the
    machine, whose helpers answer as they answer: the clock, the ring buffer, the
    memory of the process, the stack traces.  What it is called with is an argument:
    the current task, the context of its probe, the socket. *)
From Stdlib Require Import ZArith Lia ZifyBool Strings.Byte.
From stdpp Require Import base list gmap.
From S2P Require Import Prelude Methods Kernel.

Local Open Scope Z_scope.

(** * Integers of C: conversion to a width wraps around *)
Definition to_u32 (z : Z) : Z := z mod 4294967296.
Definition to_u64 (z : Z) : Z := z mod 18446744073709551616.
Definition to_s32 (z : Z) : Z := signed 32 (to_u32 z).
Definition to_s64 (z : Z) : Z := signed 64 (to_u64 z).

(** * Constants *)
Definition TASK_COMM_LEN : Z := 16.
Definition MAX_VECTOR_CHUNKS : nat := 2.
Definition TCP_ESTABLISHED_STATE : Z := 1.
Definition TCP_SYN_SENT_STATE : Z := 2.
Definition TCP_SYN_RECV_STATE : Z := 3.
Definition TCP_CLOSE_STATE : Z := 7.
Definition ECONNRESET_CODE : Z := 104.
Definition ETIMEDOUT_CODE : Z := 110.

Definition DIRECTION_INBOUND : Z := 1.
Definition DIRECTION_OUTBOUND : Z := 2.
Definition SOURCE_SYSCALL : Z := 1.
Definition SOURCE_OPENSSL : Z := 2.
Definition SOURCE_KERNEL : Z := 3.
Definition SOURCE_PERF : Z := 4.
Definition SOURCE_USER_UPROBE : Z := 5.

(** The system calls, by their numbers on the two architectures *)
Inductive Arch : Set := x86 | arm64.
Inductive Syscall : Set :=
  | SYS_READ | SYS_WRITE | SYS_PREAD64 | SYS_PWRITE64 | SYS_READV | SYS_WRITEV | SYS_SENDTO | SYS_RECVFROM
  | SYS_SENDMSG | SYS_RECVMSG | SYS_FSYNC | SYS_FDATASYNC | SYS_OPENAT.
Definition all_syscalls : list Syscall :=
  [SYS_READ; SYS_WRITE; SYS_PREAD64; SYS_PWRITE64; SYS_READV; SYS_WRITEV; SYS_SENDTO; SYS_RECVFROM;
   SYS_SENDMSG; SYS_RECVMSG; SYS_FSYNC; SYS_FDATASYNC; SYS_OPENAT].
Definition number (arch : Arch) (call : Syscall) : Z :=
  match arch, call with
  | x86, SYS_READ => 0 | x86, SYS_WRITE => 1 | x86, SYS_PREAD64 => 17 | x86, SYS_PWRITE64 => 18
  | x86, SYS_READV => 19 | x86, SYS_WRITEV => 20 | x86, SYS_SENDTO => 44 | x86, SYS_RECVFROM => 45
  | x86, SYS_SENDMSG => 46 | x86, SYS_RECVMSG => 47 | x86, SYS_FSYNC => 74 | x86, SYS_FDATASYNC => 75
  | x86, SYS_OPENAT => 257
  | arm64, SYS_OPENAT => 56 | arm64, SYS_READ => 63 | arm64, SYS_WRITE => 64 | arm64, SYS_READV => 65
  | arm64, SYS_WRITEV => 66 | arm64, SYS_PREAD64 => 67 | arm64, SYS_PWRITE64 => 68 | arm64, SYS_FSYNC => 82
  | arm64, SYS_FDATASYNC => 83 | arm64, SYS_SENDTO => 206 | arm64, SYS_RECVFROM => 207
  | arm64, SYS_SENDMSG => 211 | arm64, SYS_RECVMSG => 212
  end.
(** The case of a [switch] over [ctx->id] *)
Definition syscall_of (arch : Arch) (id : Z) : option Syscall :=
  snd <$> list_find (fun call => number arch call = id) all_syscalls.

(** * Data *)
Record pending_read : Set := {
  pr_buffer : Z;
  pr_length_pointer : Z;
  pr_requested : Z;
  pr_connection_key : Z;
  pr_fd : Z;
  pr_source : Z;
  pr_vector_kind : Z;
  pr_is_ex : Z;
  pr_direction : Z;
  pr_is_network : Z;
  pr_protocol : Z
}.
Record syscall_start : Set := {
  ss_started_ns : Z;
  ss_requested : Z;
  ss_fd : Z;
  ss_operation : Z
}.
Record socket_owner : Set := {
  owner_connection_key : Z;
  owner_tgid : Z;
  owner_fd : Z
}.

(** The constants that user space may set before it loads the programs *)
Record rodata : Set := {
  capture_bytes : Z;
  mongodb_port : Z;
  rtt_sample_interval_ns : Z;
  lock_wait_threshold_ns : Z;
  page_fault_threshold_ns : Z;
  offcpu_threshold_ns : Z
}.
Definition initial_rodata : rodata := {|
  capture_bytes := 1024;
  mongodb_port := 27017;
  rtt_sample_interval_ns := 1000000000;
  lock_wait_threshold_ns := 50000;
  page_fault_threshold_ns := 100000;
  offcpu_threshold_ns := 1000000
|}.

(** ** The maps: the hash maps by their names, the only entry of
    [dropped_events], and the records submitted to the ring buffer [events], the
    oldest first.  [stack_traces] is filled and read by helpers. *)
Record Maps : Set := {
  target_tgids_map : gmap Z Z;
  target_threads_map : gmap Z Z;
  pending_reads_map : gmap Z pending_read;
  syscall_starts_map : gmap Z syscall_start;
  lock_starts_map : gmap Z Z;
  fault_starts_map : gmap Z Z;
  offcpu_starts_map : gmap Z Z;
  tracked_sockets_map : gmap Z socket_owner;
  rtt_last_emit_map : gmap Z Z;
  handshake_starts_map : gmap Z Z;
  completed_handshakes_map : gmap Z Z;
  peer_resets_seen_map : gmap Z Z;
  tls_depth_map : gmap Z Z;
  ssl_fds_map : gmap Z Z;
  dropped_events : Z;
  ring : list bytes
}.
Definition no_maps : Maps := {|
  target_tgids_map := ∅;
  target_threads_map := ∅;
  pending_reads_map := ∅;
  syscall_starts_map := ∅;
  lock_starts_map := ∅;
  fault_starts_map := ∅;
  offcpu_starts_map := ∅;
  tracked_sockets_map := ∅;
  rtt_last_emit_map := ∅;
  handshake_starts_map := ∅;
  completed_handshakes_map := ∅;
  peer_resets_seen_map := ∅;
  tls_depth_map := ∅;
  ssl_fds_map := ∅;
  dropped_events := 0;
  ring := []
|}.

(** The hash maps, by what they hold, and their declarations: how many entries they
    may have, and where they are. *)
Inductive bpf_map : Set -> Set :=
  | target_tgids : bpf_map Z
  | target_threads : bpf_map Z
  | pending_reads : bpf_map pending_read
  | syscall_starts : bpf_map syscall_start
  | lock_starts : bpf_map Z
  | fault_starts : bpf_map Z
  | offcpu_starts : bpf_map Z
  | tracked_sockets : bpf_map socket_owner
  | rtt_last_emit : bpf_map Z
  | handshake_starts : bpf_map Z
  | completed_handshakes : bpf_map Z
  | peer_resets_seen : bpf_map Z
  | tls_depth : bpf_map Z
  | ssl_fds : bpf_map Z.
Definition max_entries {V} (m : bpf_map V) : Z :=
  match m with
  | target_tgids => 4096
  | target_threads => 32768
  | pending_reads => 32768
  | syscall_starts => 32768
  | lock_starts => 32768
  | fault_starts => 32768
  | offcpu_starts => 32768
  | tracked_sockets => 65536
  | rtt_last_emit => 65536
  | handshake_starts => 65536
  | completed_handshakes => 65536
  | peer_resets_seen => 65536
  | tls_depth => 32768
  | ssl_fds => 65536
  end.
Definition entries {V} (m : bpf_map V) (s : Maps) : gmap Z V :=
  match m in bpf_map V return gmap Z V with
  | target_tgids => target_tgids_map s
  | target_threads => target_threads_map s
  | pending_reads => pending_reads_map s
  | syscall_starts => syscall_starts_map s
  | lock_starts => lock_starts_map s
  | fault_starts => fault_starts_map s
  | offcpu_starts => offcpu_starts_map s
  | tracked_sockets => tracked_sockets_map s
  | rtt_last_emit => rtt_last_emit_map s
  | handshake_starts => handshake_starts_map s
  | completed_handshakes => completed_handshakes_map s
  | peer_resets_seen => peer_resets_seen_map s
  | tls_depth => tls_depth_map s
  | ssl_fds => ssl_fds_map s
  end.
Definition set_entries {V} (m : bpf_map V) (l : gmap Z V) (s : Maps) : Maps :=
  match m in bpf_map V return gmap Z V -> Maps with
  | target_tgids => fun l => {|
    target_tgids_map := l; target_threads_map := target_threads_map s; pending_reads_map := pending_reads_map s;
    syscall_starts_map := syscall_starts_map s; lock_starts_map := lock_starts_map s;
    fault_starts_map := fault_starts_map s; offcpu_starts_map := offcpu_starts_map s;
    tracked_sockets_map := tracked_sockets_map s; rtt_last_emit_map := rtt_last_emit_map s;
    handshake_starts_map := handshake_starts_map s; completed_handshakes_map := completed_handshakes_map s;
    peer_resets_seen_map := peer_resets_seen_map s; tls_depth_map := tls_depth_map s; ssl_fds_map := ssl_fds_map s;
    dropped_events := dropped_events s; ring := ring s |}
  | target_threads => fun l => {|
    target_tgids_map := target_tgids_map s; target_threads_map := l; pending_reads_map := pending_reads_map s;
    syscall_starts_map := syscall_starts_map s; lock_starts_map := lock_starts_map s;
    fault_starts_map := fault_starts_map s; offcpu_starts_map := offcpu_starts_map s;
    tracked_sockets_map := tracked_sockets_map s; rtt_last_emit_map := rtt_last_emit_map s;
    handshake_starts_map := handshake_starts_map s; completed_handshakes_map := completed_handshakes_map s;
    peer_resets_seen_map := peer_resets_seen_map s; tls_depth_map := tls_depth_map s; ssl_fds_map := ssl_fds_map s;
    dropped_events := dropped_events s; ring := ring s |}
  | pending_reads => fun l => {|
    target_tgids_map := target_tgids_map s; target_threads_map := target_threads_map s; pending_reads_map := l;
    syscall_starts_map := syscall_starts_map s; lock_starts_map := lock_starts_map s;
    fault_starts_map := fault_starts_map s; offcpu_starts_map := offcpu_starts_map s;
    tracked_sockets_map := tracked_sockets_map s; rtt_last_emit_map := rtt_last_emit_map s;
    handshake_starts_map := handshake_starts_map s; completed_handshakes_map := completed_handshakes_map s;
    peer_resets_seen_map := peer_resets_seen_map s; tls_depth_map := tls_depth_map s; ssl_fds_map := ssl_fds_map s;
    dropped_events := dropped_events s; ring := ring s |}
  | syscall_starts => fun l => {|
    target_tgids_map := target_tgids_map s; target_threads_map := target_threads_map s;
    pending_reads_map := pending_reads_map s; syscall_starts_map := l; lock_starts_map := lock_starts_map s;
    fault_starts_map := fault_starts_map s; offcpu_starts_map := offcpu_starts_map s;
    tracked_sockets_map := tracked_sockets_map s; rtt_last_emit_map := rtt_last_emit_map s;
    handshake_starts_map := handshake_starts_map s; completed_handshakes_map := completed_handshakes_map s;
    peer_resets_seen_map := peer_resets_seen_map s; tls_depth_map := tls_depth_map s; ssl_fds_map := ssl_fds_map s;
    dropped_events := dropped_events s; ring := ring s |}
  | lock_starts => fun l => {|
    target_tgids_map := target_tgids_map s; target_threads_map := target_threads_map s;
    pending_reads_map := pending_reads_map s; syscall_starts_map := syscall_starts_map s; lock_starts_map := l;
    fault_starts_map := fault_starts_map s; offcpu_starts_map := offcpu_starts_map s;
    tracked_sockets_map := tracked_sockets_map s; rtt_last_emit_map := rtt_last_emit_map s;
    handshake_starts_map := handshake_starts_map s; completed_handshakes_map := completed_handshakes_map s;
    peer_resets_seen_map := peer_resets_seen_map s; tls_depth_map := tls_depth_map s; ssl_fds_map := ssl_fds_map s;
    dropped_events := dropped_events s; ring := ring s |}
  | fault_starts => fun l => {|
    target_tgids_map := target_tgids_map s; target_threads_map := target_threads_map s;
    pending_reads_map := pending_reads_map s; syscall_starts_map := syscall_starts_map s;
    lock_starts_map := lock_starts_map s; fault_starts_map := l; offcpu_starts_map := offcpu_starts_map s;
    tracked_sockets_map := tracked_sockets_map s; rtt_last_emit_map := rtt_last_emit_map s;
    handshake_starts_map := handshake_starts_map s; completed_handshakes_map := completed_handshakes_map s;
    peer_resets_seen_map := peer_resets_seen_map s; tls_depth_map := tls_depth_map s; ssl_fds_map := ssl_fds_map s;
    dropped_events := dropped_events s; ring := ring s |}
  | offcpu_starts => fun l => {|
    target_tgids_map := target_tgids_map s; target_threads_map := target_threads_map s;
    pending_reads_map := pending_reads_map s; syscall_starts_map := syscall_starts_map s;
    lock_starts_map := lock_starts_map s; fault_starts_map := fault_starts_map s; offcpu_starts_map := l;
    tracked_sockets_map := tracked_sockets_map s; rtt_last_emit_map := rtt_last_emit_map s;
    handshake_starts_map := handshake_starts_map s; completed_handshakes_map := completed_handshakes_map s;
    peer_resets_seen_map := peer_resets_seen_map s; tls_depth_map := tls_depth_map s; ssl_fds_map := ssl_fds_map s;
    dropped_events := dropped_events s; ring := ring s |}
  | tracked_sockets => fun l => {|
    target_tgids_map := target_tgids_map s; target_threads_map := target_threads_map s;
    pending_reads_map := pending_reads_map s; syscall_starts_map := syscall_starts_map s;
    lock_starts_map := lock_starts_map s; fault_starts_map := fault_starts_map s;
    offcpu_starts_map := offcpu_starts_map s; tracked_sockets_map := l; rtt_last_emit_map := rtt_last_emit_map s;
    handshake_starts_map := handshake_starts_map s; completed_handshakes_map := completed_handshakes_map s;
    peer_resets_seen_map := peer_resets_seen_map s; tls_depth_map := tls_depth_map s; ssl_fds_map := ssl_fds_map s;
    dropped_events := dropped_events s; ring := ring s |}
  | rtt_last_emit => fun l => {|
    target_tgids_map := target_tgids_map s; target_threads_map := target_threads_map s;
    pending_reads_map := pending_reads_map s; syscall_starts_map := syscall_starts_map s;
    lock_starts_map := lock_starts_map s; fault_starts_map := fault_starts_map s;
    offcpu_starts_map := offcpu_starts_map s; tracked_sockets_map := tracked_sockets_map s; rtt_last_emit_map := l;
    handshake_starts_map := handshake_starts_map s; completed_handshakes_map := completed_handshakes_map s;
    peer_resets_seen_map := peer_resets_seen_map s; tls_depth_map := tls_depth_map s; ssl_fds_map := ssl_fds_map s;
    dropped_events := dropped_events s; ring := ring s |}
  | handshake_starts => fun l => {|
    target_tgids_map := target_tgids_map s; target_threads_map := target_threads_map s;
    pending_reads_map := pending_reads_map s; syscall_starts_map := syscall_starts_map s;
    lock_starts_map := lock_starts_map s; fault_starts_map := fault_starts_map s;
    offcpu_starts_map := offcpu_starts_map s; tracked_sockets_map := tracked_sockets_map s;
    rtt_last_emit_map := rtt_last_emit_map s; handshake_starts_map := l;
    completed_handshakes_map := completed_handshakes_map s; peer_resets_seen_map := peer_resets_seen_map s;
    tls_depth_map := tls_depth_map s; ssl_fds_map := ssl_fds_map s; dropped_events := dropped_events s;
    ring := ring s |}
  | completed_handshakes => fun l => {|
    target_tgids_map := target_tgids_map s; target_threads_map := target_threads_map s;
    pending_reads_map := pending_reads_map s; syscall_starts_map := syscall_starts_map s;
    lock_starts_map := lock_starts_map s; fault_starts_map := fault_starts_map s;
    offcpu_starts_map := offcpu_starts_map s; tracked_sockets_map := tracked_sockets_map s;
    rtt_last_emit_map := rtt_last_emit_map s; handshake_starts_map := handshake_starts_map s;
    completed_handshakes_map := l; peer_resets_seen_map := peer_resets_seen_map s; tls_depth_map := tls_depth_map s;
    ssl_fds_map := ssl_fds_map s; dropped_events := dropped_events s; ring := ring s |}
  | peer_resets_seen => fun l => {|
    target_tgids_map := target_tgids_map s; target_threads_map := target_threads_map s;
    pending_reads_map := pending_reads_map s; syscall_starts_map := syscall_starts_map s;
    lock_starts_map := lock_starts_map s; fault_starts_map := fault_starts_map s;
    offcpu_starts_map := offcpu_starts_map s; tracked_sockets_map := tracked_sockets_map s;
    rtt_last_emit_map := rtt_last_emit_map s; handshake_starts_map := handshake_starts_map s;
    completed_handshakes_map := completed_handshakes_map s; peer_resets_seen_map := l;
    tls_depth_map := tls_depth_map s; ssl_fds_map := ssl_fds_map s; dropped_events := dropped_events s;
    ring := ring s |}
  | tls_depth => fun l => {|
    target_tgids_map := target_tgids_map s; target_threads_map := target_threads_map s;
    pending_reads_map := pending_reads_map s; syscall_starts_map := syscall_starts_map s;
    lock_starts_map := lock_starts_map s; fault_starts_map := fault_starts_map s;
    offcpu_starts_map := offcpu_starts_map s; tracked_sockets_map := tracked_sockets_map s;
    rtt_last_emit_map := rtt_last_emit_map s; handshake_starts_map := handshake_starts_map s;
    completed_handshakes_map := completed_handshakes_map s; peer_resets_seen_map := peer_resets_seen_map s;
    tls_depth_map := l; ssl_fds_map := ssl_fds_map s; dropped_events := dropped_events s; ring := ring s |}
  | ssl_fds => fun l => {|
    target_tgids_map := target_tgids_map s; target_threads_map := target_threads_map s;
    pending_reads_map := pending_reads_map s; syscall_starts_map := syscall_starts_map s;
    lock_starts_map := lock_starts_map s; fault_starts_map := fault_starts_map s;
    offcpu_starts_map := offcpu_starts_map s; tracked_sockets_map := tracked_sockets_map s;
    rtt_last_emit_map := rtt_last_emit_map s; handshake_starts_map := handshake_starts_map s;
    completed_handshakes_map := completed_handshakes_map s; peer_resets_seen_map := peer_resets_seen_map s;
    tls_depth_map := tls_depth_map s; ssl_fds_map := l; dropped_events := dropped_events s; ring := ring s |}
  end l.
Definition set_dropped_events (n : Z) (s : Maps) : Maps := {|
    target_tgids_map := target_tgids_map s; target_threads_map := target_threads_map s;
    pending_reads_map := pending_reads_map s; syscall_starts_map := syscall_starts_map s;
    lock_starts_map := lock_starts_map s; fault_starts_map := fault_starts_map s;
    offcpu_starts_map := offcpu_starts_map s; tracked_sockets_map := tracked_sockets_map s;
    rtt_last_emit_map := rtt_last_emit_map s; handshake_starts_map := handshake_starts_map s;
    completed_handshakes_map := completed_handshakes_map s; peer_resets_seen_map := peer_resets_seen_map s;
    tls_depth_map := tls_depth_map s; ssl_fds_map := ssl_fds_map s; dropped_events := n; ring := ring s |}.
Definition submit_event (bs : bytes) (s : Maps) : Maps := {|
    target_tgids_map := target_tgids_map s; target_threads_map := target_threads_map s;
    pending_reads_map := pending_reads_map s; syscall_starts_map := syscall_starts_map s;
    lock_starts_map := lock_starts_map s; fault_starts_map := fault_starts_map s;
    offcpu_starts_map := offcpu_starts_map s; tracked_sockets_map := tracked_sockets_map s;
    rtt_last_emit_map := rtt_last_emit_map s; handshake_starts_map := handshake_starts_map s;
    completed_handshakes_map := completed_handshakes_map s; peer_resets_seen_map := peer_resets_seen_map s;
    tls_depth_map := tls_depth_map s; ssl_fds_map := ssl_fds_map s; dropped_events := dropped_events s;
    ring := ring s ++ [bs] |}.

(** * The machine *)

(** The task a program runs in.  [bpf_get_current_comm] may fail. *)
Record Task : Set := {
  pid_tgid : Z;
  uid_gid : Z;
  cgroup_id : Z;
  comm : option bytes
}.
Definition pid_of (task : Task) : Z := to_u32 (pid_tgid task).
Definition tgid_of (task : Task) : Z := Z.shiftr (pid_tgid task) 32.
(** [bpf_get_current_comm] fills its buffer with zeros when it fails. *)
Definition current_comm (task : Task) : bytes := default (replicate 16 x00) (comm task).

(** Registers of the probed function: its first arguments and its result *)
Record pt_regs : Set := {
  parm1 : Z;
  parm2 : Z;
  parm3 : Z;
  parm4 : Z;
  regs_rc : Z
}.

(** What the programs read of a socket at its address *)
Record sock : Set := {
  sk_address : Z;
  skc_daddr : Z;
  skc_rcv_saddr : Z;
  skc_dport : Z;
  skc_num : Z;
  skc_family : Z;
  skc_v6_daddr : list Z;
  skc_v6_rcv_saddr : list Z;
  sk_err : Z;
  srtt_us : Z;
  snd_wnd : Z
}.

(** The helpers whose answers the maps do not determine: the clock, the memory of
    a new record, or none when the ring buffer is full, the bytes of the process at
    an address, and the number of a stack trace. *)
Class Machine (World : Type) : Type := {
  ktime_get_ns : State World Z;
  ringbuf_reserve : State World (option bytes);
  probe_read_user : Z -> Z -> State World (option bytes);
  get_stackid : Z -> State World Z
}.

(** ** [struct kernel_event] in memory *)

(** The sizes of its fields, in order; each is its own alignment, but for the
    arrays of bytes at the end. *)
Definition kernel_event_scalars : list Z := [8; 8; 8; 8; 8; 8; 4; 4; 4; 4; 4; 4; 4; 1; 1; 1; 1].
Definition aligned (offset size : Z) : Z := (offset + size - 1) / size * size.
Fixpoint offsets (offset : Z) (sizes : list Z) : list Z * Z :=
  match sizes with
  | [] => ([], offset)
  | size :: sizes =>
      let at_ := aligned offset size in
      let '(l, stop) := offsets (at_ + size) sizes in (at_ :: l, stop)
  end.
Definition ring_bytes (e : KernelEvent) : bytes :=
  le_bytes 8 (raw_timestamp_ns e) ++ le_bytes 8 (raw_connection_key e) ++ le_bytes 8 (raw_cgroup_id e) ++
  le_bytes 8 (raw_duration_ns e) ++ le_bytes 8 (raw_bytes e) ++ le_bytes 8 (raw_result e) ++
  le_bytes 4 (raw_pid e) ++ le_bytes 4 (raw_tgid e) ++ le_bytes 4 (raw_uid e) ++ le_bytes 4 (raw_gid e) ++
  le_bytes 4 (raw_fd e) ++ le_bytes 4 (raw_original_len e) ++ le_bytes 4 (raw_captured_len e) ++
  le_bytes 1 (raw_event_type e) ++ le_bytes 1 (raw_direction e) ++ le_bytes 1 (raw_source e) ++
  le_bytes 1 (raw_operation e) ++ raw_comm e ++ raw_data e.

(** * Programs *)
Section programs.
Context {World : Type} `{Machine World}.
Context (arch : Arch) (config : rodata).
Abbreviation Prog := (State (Maps * World)).

(** ** Helpers on maps.  An update that would be one entry too many fails, and no
    program looks at the result. *)
Definition map_lookup {V} (m : bpf_map V) (key : Z) : Prog (option V) :=
  let! s := this in mret (entries m s !! key).
Definition has_room {V} (m : bpf_map V) (key : Z) (s : Maps) : bool :=
  is_some (entries m s !! key) || (Z.of_nat (size (entries m s)) <? max_entries m).
Definition updated {V} (m : bpf_map V) (key : Z) (value : V) (s : Maps) : Maps :=
  if has_room m key s then set_entries m (<[key := value]> (entries m s)) s else s.
Definition map_update {V} (m : bpf_map V) (key : Z) (value : V) : Prog unit := update (updated m key value).
Definition deleted {V} (m : bpf_map V) (key : Z) (s : Maps) : Maps := set_entries m (delete key (entries m s)) s.
Definition map_delete {V} (m : bpf_map V) (key : Z) : Prog unit := update (deleted m key).
(** Stores through the pointer that a lookup returned *)
Definition map_modify {V} (m : bpf_map V) (key : Z) (f : V -> V) : Prog unit :=
  update (fun s => set_entries m (alter f key (entries m s)) s).

Definition is_target_tgid (tgid : Z) : Prog bool := is_some <$> map_lookup target_tgids tgid.

Definition count_drop : Prog unit := update (fun s => set_dropped_events (to_u64 (dropped_events s + 1)) s).

Definition reserve_event (task : Task) : Prog (option KernelEvent) :=
  let! memory := host ringbuf_reserve in
  match memory with
  | None => let! _ := count_drop in mret None
  | Some memory =>
      let! now := host ktime_get_ns in
      mret (Some {|
        raw_timestamp_ns := now;
        raw_connection_key := 0;
        raw_cgroup_id := cgroup_id task;
        raw_duration_ns := 0;
        raw_bytes := 0;
        raw_result := 0;
        raw_pid := pid_of task;
        raw_tgid := tgid_of task;
        raw_uid := to_u32 (uid_gid task);
        raw_gid := Z.shiftr (uid_gid task) 32;
        raw_fd := -1;
        raw_original_len := 0;
        raw_captured_len := 0;
        raw_event_type := 0;
        raw_direction := 0;
        raw_source := 0;
        raw_operation := 0;
        raw_comm := current_comm task;
        raw_data := drop 96 memory
      |})
  end.
Definition ringbuf_submit (e : KernelEvent) : Prog unit := update (submit_event (ring_bytes e)).
(** [bpf_ringbuf_discard]: the record is never seen. *)
Definition ringbuf_discard : Prog unit := mret tt.

(** ** Stores into a reserved event *)
Definition with_kind (event_type source operation : Z) (e : KernelEvent) : KernelEvent := {|
  raw_timestamp_ns := raw_timestamp_ns e; raw_connection_key := raw_connection_key e;
  raw_cgroup_id := raw_cgroup_id e; raw_duration_ns := raw_duration_ns e; raw_bytes := raw_bytes e;
  raw_result := raw_result e; raw_pid := raw_pid e; raw_tgid := raw_tgid e; raw_uid := raw_uid e;
  raw_gid := raw_gid e; raw_fd := raw_fd e; raw_original_len := raw_original_len e;
  raw_captured_len := raw_captured_len e; raw_event_type := event_type; raw_direction := raw_direction e;
  raw_source := source; raw_operation := operation; raw_comm := raw_comm e; raw_data := raw_data e |}.
Definition with_duration (duration_ns : Z) (e : KernelEvent) : KernelEvent := {|
  raw_timestamp_ns := raw_timestamp_ns e; raw_connection_key := raw_connection_key e;
  raw_cgroup_id := raw_cgroup_id e; raw_duration_ns := duration_ns; raw_bytes := raw_bytes e;
  raw_result := raw_result e; raw_pid := raw_pid e; raw_tgid := raw_tgid e; raw_uid := raw_uid e;
  raw_gid := raw_gid e; raw_fd := raw_fd e; raw_original_len := raw_original_len e;
  raw_captured_len := raw_captured_len e; raw_event_type := raw_event_type e; raw_direction := raw_direction e;
  raw_source := raw_source e; raw_operation := raw_operation e; raw_comm := raw_comm e; raw_data := raw_data e |}.
Definition with_result (result : Z) (e : KernelEvent) : KernelEvent := {|
  raw_timestamp_ns := raw_timestamp_ns e; raw_connection_key := raw_connection_key e;
  raw_cgroup_id := raw_cgroup_id e; raw_duration_ns := raw_duration_ns e; raw_bytes := raw_bytes e;
  raw_result := result; raw_pid := raw_pid e; raw_tgid := raw_tgid e; raw_uid := raw_uid e; raw_gid := raw_gid e;
  raw_fd := raw_fd e; raw_original_len := raw_original_len e; raw_captured_len := raw_captured_len e;
  raw_event_type := raw_event_type e; raw_direction := raw_direction e; raw_source := raw_source e;
  raw_operation := raw_operation e; raw_comm := raw_comm e; raw_data := raw_data e |}.
Definition with_file (fd bytes_ : Z) (e : KernelEvent) : KernelEvent := {|
  raw_timestamp_ns := raw_timestamp_ns e; raw_connection_key := raw_connection_key e;
  raw_cgroup_id := raw_cgroup_id e; raw_duration_ns := raw_duration_ns e; raw_bytes := bytes_;
  raw_result := raw_result e; raw_pid := raw_pid e; raw_tgid := raw_tgid e; raw_uid := raw_uid e;
  raw_gid := raw_gid e; raw_fd := fd; raw_original_len := raw_original_len e;
  raw_captured_len := raw_captured_len e; raw_event_type := raw_event_type e; raw_direction := raw_direction e;
  raw_source := raw_source e; raw_operation := raw_operation e; raw_comm := raw_comm e; raw_data := raw_data e |}.
Definition with_owner (owner : socket_owner) (e : KernelEvent) : KernelEvent := {|
  raw_timestamp_ns := raw_timestamp_ns e; raw_connection_key := owner_connection_key owner;
  raw_cgroup_id := raw_cgroup_id e; raw_duration_ns := raw_duration_ns e; raw_bytes := raw_bytes e;
  raw_result := raw_result e; raw_pid := owner_tgid owner; raw_tgid := owner_tgid owner; raw_uid := raw_uid e;
  raw_gid := raw_gid e; raw_fd := owner_fd owner; raw_original_len := raw_original_len e;
  raw_captured_len := raw_captured_len e; raw_event_type := raw_event_type e; raw_direction := raw_direction e;
  raw_source := raw_source e; raw_operation := raw_operation e; raw_comm := raw_comm e; raw_data := raw_data e |}.
Definition with_thread (pid tgid : Z) (comm : bytes) (e : KernelEvent) : KernelEvent := {|
  raw_timestamp_ns := raw_timestamp_ns e; raw_connection_key := raw_connection_key e;
  raw_cgroup_id := raw_cgroup_id e; raw_duration_ns := raw_duration_ns e; raw_bytes := raw_bytes e;
  raw_result := raw_result e; raw_pid := pid; raw_tgid := tgid; raw_uid := raw_uid e; raw_gid := raw_gid e;
  raw_fd := raw_fd e; raw_original_len := raw_original_len e; raw_captured_len := raw_captured_len e;
  raw_event_type := raw_event_type e; raw_direction := raw_direction e; raw_source := raw_source e;
  raw_operation := raw_operation e; raw_comm := comm; raw_data := raw_data e |}.
Definition with_chunk (event_type direction source connection_key fd actual original_len captured_len : Z) (data : bytes)
    (e : KernelEvent) : KernelEvent := {|
  raw_timestamp_ns := raw_timestamp_ns e; raw_connection_key := connection_key; raw_cgroup_id := raw_cgroup_id e;
  raw_duration_ns := raw_duration_ns e; raw_bytes := to_u64 actual; raw_result := actual; raw_pid := raw_pid e;
  raw_tgid := raw_tgid e; raw_uid := raw_uid e; raw_gid := raw_gid e; raw_fd := fd;
  raw_original_len := original_len; raw_captured_len := captured_len; raw_event_type := event_type;
  raw_direction := direction; raw_source := source; raw_operation := raw_operation e; raw_comm := raw_comm e;
  raw_data := data ++ drop (length data) (raw_data e) |}.

(** ** Chunks of data *)
Definition captured_of (copy_limit actual : Z) : Z :=
  let limit := if MAX_CAPTURE_BYTES <? copy_limit then MAX_CAPTURE_BYTES else copy_limit in
  if actual <? limit then to_u32 actual else limit.
Definition submit_chunk_limited (task : Task) (buffer requested actual fd direction source connection_key event_type
    copy_limit : Z) : Prog unit :=
  if (actual <=? 0) || (buffer =? 0) || (copy_limit =? 0) then mret tt else
  let! event := reserve_event task in
  match event with
  | None => mret tt
  | Some event =>
      let captured := captured_of copy_limit (to_u64 actual) in
      let! data := host (probe_read_user buffer captured) in
      match data with
      | None => ringbuf_discard
      | Some data =>
          ringbuf_submit (with_chunk event_type direction source connection_key fd actual
            (if u32_max <? requested then u32_max else to_u32 requested) captured data event)
      end
  end.
Definition submit_chunk (task : Task) (buffer requested actual fd direction source connection_key event_type : Z)
    : Prog unit :=
  submit_chunk_limited task buffer requested actual fd direction source connection_key event_type (capture_bytes config).

(** [struct user_iovec]: its base and its length; [struct user_msghdr]: where its
    vectors are and how many *)
Definition IOVEC_SIZE : Z := 16.
Definition iovec_of (bs : bytes) : Z * Z := (le_val (field bs 0 8), le_val (field bs 8 8)).
Definition MSGHDR_SIZE : Z := 32.
Definition msghdr_of (bs : bytes) : Z * Z := (le_val (field bs 16 8), le_val (field bs 24 8)).

(** What an iteration sends, of a buffer of [iov_len] bytes: the bytes of the call
    in it, those that are copied, and the number reported, one too many when what
    follows is not sent *)
Definition segment_of (remaining iov_len : Z) : Z := if remaining <? iov_len then remaining else iov_len.
Definition copied_of (segment budget : Z) : Z := if segment <? budget then to_u32 segment else budget.
Definition reported_of (last_index : bool) (remaining_after budget_after segment copied : Z) : Z :=
  if (0 <? remaining_after) && ((budget_after =? 0) || last_index) && (segment <=? copied) then copied + 1 else segment.
Fixpoint vector_loop (todo : nat) (task : Task) (user_iov iov_count index remaining budget fd direction source
    connection_key event_type : Z) : Prog unit :=
  match todo with
  | O => mret tt
  | S todo =>
      if (iov_count <=? index) || (remaining =? 0) || (budget =? 0) then mret tt else
      let! iov := host (probe_read_user (to_u64 (user_iov + IOVEC_SIZE * index)) IOVEC_SIZE) in
      match iov with
      | None => mret tt
      | Some iov =>
          let '(iov_base, iov_len) := iovec_of iov in
          let segment := segment_of remaining iov_len in
          if segment =? 0 then
            vector_loop todo task user_iov iov_count (index + 1) remaining budget fd direction source connection_key
              event_type
          else
            let copied := copied_of segment budget in
            let remaining_after := remaining - segment in
            let budget_after := budget - copied in
            let reported := reported_of (index =? Z.of_nat MAX_VECTOR_CHUNKS - 1) remaining_after budget_after segment
              copied in
            let! _ := submit_chunk_limited task iov_base iov_len (to_s64 reported) fd direction source connection_key
              event_type copied in
            if copied <? reported then mret tt else
            vector_loop todo task user_iov iov_count (index + 1) remaining_after budget_after fd direction source
              connection_key event_type
      end
  end.
Definition submit_vector_chunks (task : Task) (pointer count_hint : Z) (is_msghdr : bool) (actual fd direction source
    connection_key event_type : Z) : Prog unit :=
  if (actual <=? 0) || (pointer =? 0) then mret tt else
  let budget := if MAX_CAPTURE_BYTES <? capture_bytes config then MAX_CAPTURE_BYTES else capture_bytes config in
  let chunks user_iov iov_count :=
    vector_loop MAX_VECTOR_CHUNKS task user_iov iov_count 0 actual budget fd direction source connection_key event_type in
  if is_msghdr then
    let! message := host (probe_read_user pointer MSGHDR_SIZE) in
    match message with
    | None => mret tt
    | Some message =>
        let '(msg_iov, msg_iovlen) := msghdr_of message in
        if (msg_iovlen =? 0) || (msg_iov =? 0) then mret tt else chunks msg_iov msg_iovlen
    end
  else chunks pointer count_hint.

(** ** System calls *)
Definition remember_read (task : Task) (buffer requested fd source vector_kind is_ex direction is_network connection_key
    length_pointer : Z) : Prog unit :=
  map_update pending_reads (pid_tgid task) {|
    pr_buffer := buffer;
    pr_length_pointer := length_pointer;
    pr_requested := requested;
    pr_connection_key := connection_key;
    pr_fd := fd;
    pr_source := source;
    pr_vector_kind := vector_kind;
    pr_is_ex := is_ex;
    pr_direction := direction;
    pr_is_network := is_network;
    pr_protocol := 0
  |}.
Definition start_latency (task : Task) (fd requested operation : Z) : Prog unit :=
  let! now := host ktime_get_ns in
  map_update syscall_starts (pid_tgid task)
    {| ss_started_ns := now; ss_requested := requested; ss_fd := fd; ss_operation := operation |}.

(** The vector kind and the direction of a call that moves data, and the
    operation of one that is timed *)
Definition data_call (call : Syscall) : option (Z * Z) :=
  match call with
  | SYS_WRITE | SYS_SENDTO => Some (0, DIRECTION_OUTBOUND)
  | SYS_READ | SYS_RECVFROM => Some (0, DIRECTION_INBOUND)
  | SYS_WRITEV => Some (1, DIRECTION_OUTBOUND)
  | SYS_SENDMSG => Some (2, DIRECTION_OUTBOUND)
  | SYS_READV => Some (1, DIRECTION_INBOUND)
  | SYS_RECVMSG => Some (2, DIRECTION_INBOUND)
  | _ => None
  end.
Definition timed_call (call : Syscall) : option Z :=
  match call with
  | SYS_PREAD64 => Some OP_PREAD
  | SYS_PWRITE64 => Some OP_PWRITE
  | SYS_FSYNC => Some OP_FSYNC
  | SYS_FDATASYNC => Some OP_FDATASYNC
  | SYS_OPENAT => Some OP_OPENAT
  | _ => None
  end.

(** The context of [raw_syscalls/sys_enter]: the number and the arguments *)
Definition handle_sys_enter (task : Task) (id : Z) (arg0 arg1 arg2 : Z) : Prog unit :=
  let! target := is_target_tgid (tgid_of task) in
  if negb target then mret tt else
  let! _ := map_update target_threads (pid_of task) (tgid_of task) in
  let! in_tls := map_lookup tls_depth (pid_tgid task) in
  if is_some in_tls then mret tt else
  let fd := to_s32 arg0 in
  match syscall_of arch id with
  | None => mret tt
  | Some call =>
      match data_call call, timed_call call with
      | Some (vector_kind, direction), _ =>
          remember_read task arg1 arg2 fd SOURCE_SYSCALL vector_kind 0 direction 0 (to_u32 fd) 0
      | None, Some operation =>
          start_latency task
            (match call with SYS_OPENAT => -1 | _ => fd end)
            (match call with SYS_PREAD64 | SYS_PWRITE64 => arg2 | _ => 0 end) operation
      | None, None => mret tt
      end
  end.

Definition chunk_type (pending : pending_read) : Z := if pr_protocol pending =? 0 then EVENT_IO_CHUNK else EVENT_DNS_CHUNK.
(** What a call moved, at most what was asked for *)
Definition actual_of (requested ret : Z) : Z := if (0 <? ret) && (requested <? to_u64 ret) then to_s64 requested else ret.
Definition submit_read (task : Task) (pending : pending_read) (ret : Z) : Prog unit :=
  if pr_is_network pending =? 0 then mret tt else
  if pr_vector_kind pending =? 0 then
    submit_chunk task (pr_buffer pending) (pr_requested pending) (actual_of (pr_requested pending) ret) (pr_fd pending)
      (pr_direction pending) (pr_source pending) (pr_connection_key pending) (chunk_type pending)
  else
    submit_vector_chunks task (pr_buffer pending) (pr_requested pending) (pr_vector_kind pending =? 2) ret (pr_fd pending)
      (pr_direction pending) (pr_source pending) (pr_connection_key pending) (chunk_type pending).
Definition submit_latency (task : Task) (start : syscall_start) (ret : Z) : Prog unit :=
  let! event := reserve_event task in
  match event with
  | None => mret tt
  | Some event =>
      let! now := host ktime_get_ns in
      ringbuf_submit (with_result ret (with_duration (to_u64 (now - ss_started_ns start))
        (with_file (ss_fd start) (ss_requested start)
          (with_kind EVENT_SYSCALL_LATENCY SOURCE_KERNEL (ss_operation start) event))))
  end.
Definition exit_data (task : Task) (call : option Syscall) (ret : Z) : Prog unit :=
  let! pending := map_lookup pending_reads (pid_tgid task) in
  match pending, call ≫= data_call with
  | Some pending, Some _ =>
      let! _ := map_delete pending_reads (pid_tgid task) in
      submit_read task pending ret
  | _, _ => mret tt
  end.
Definition exit_timed (task : Task) (call : option Syscall) (ret : Z) : Prog unit :=
  let! start := map_lookup syscall_starts (pid_tgid task) in
  match start, call ≫= timed_call with
  | Some start, Some _ =>
      let! _ := map_delete syscall_starts (pid_tgid task) in
      submit_latency task start ret
  | _, _ => mret tt
  end.
Definition handle_sys_exit (task : Task) (id ret : Z) : Prog unit :=
  let! target := is_target_tgid (tgid_of task) in
  if negb target then mret tt else
  let! in_tls := map_lookup tls_depth (pid_tgid task) in
  if is_some in_tls then mret tt else
  let! _ := exit_data task (syscall_of arch id) ret in
  exit_timed task (syscall_of arch id) ret.

(** ** OpenSSL *)
Definition ssl_enter (task : Task) (ctx : pt_regs) (direction : Z) (is_ex : bool) : Prog unit :=
  let! target := is_target_tgid (tgid_of task) in
  if negb target then mret tt else
  let! _ := map_update tls_depth (pid_tgid task) 1 in
  let ssl := parm1 ctx in
  let! known_fd := map_lookup ssl_fds ssl in
  let fd := default (-1) known_fd in
  let connection_key := if 0 <=? fd then to_u32 fd else ssl in
  remember_read task (parm2 ctx) (parm3 ctx) fd SOURCE_OPENSSL 0 (if is_ex then 1 else 0) direction 1 connection_key
    (if is_ex then parm4 ctx else 0).
(** What [SSL_read_ex] and [SSL_write_ex] say they moved *)
Definition reported_length (pending : pending_read) (result : Z) : Prog Z :=
  if (result =? 1) && negb (pr_length_pointer pending =? 0) then
    let! reported := host (probe_read_user (pr_length_pointer pending) 8) in
    mret (match reported with
          | Some reported => to_s64 (le_val reported)
          | None => 0
          end)
  else mret 0.
Definition ssl_exit (task : Task) (ctx : pt_regs) (direction : Z) : Prog unit :=
  let! pending := map_lookup pending_reads (pid_tgid task) in
  let! _ := map_delete tls_depth (pid_tgid task) in
  match pending with
  | None => mret tt
  | Some pending =>
      let! _ := map_delete pending_reads (pid_tgid task) in
      let result := to_s64 (regs_rc ctx) in
      let! actual := (if pr_is_ex pending =? 0 then mret result else reported_length pending result) in
      submit_chunk task (pr_buffer pending) (pr_requested pending) actual (pr_fd pending) direction SOURCE_OPENSSL
        (pr_connection_key pending) EVENT_IO_CHUNK
  end.
Definition handle_ssl_set_fd (task : Task) (ctx : pt_regs) : Prog unit :=
  let! target := is_target_tgid (tgid_of task) in
  if negb target then mret tt else
  map_update ssl_fds (parm1 ctx) (to_s32 (parm2 ctx)).
Definition handle_ssl_free (ctx : pt_regs) : Prog unit := map_delete ssl_fds (parm1 ctx).
Definition handle_ssl_read_enter (task : Task) (ctx : pt_regs) : Prog unit := ssl_enter task ctx DIRECTION_INBOUND false.
Definition handle_ssl_read_exit (task : Task) (ctx : pt_regs) : Prog unit := ssl_exit task ctx DIRECTION_INBOUND.
Definition handle_ssl_write_enter (task : Task) (ctx : pt_regs) : Prog unit := ssl_enter task ctx DIRECTION_OUTBOUND false.
Definition handle_ssl_write_exit (task : Task) (ctx : pt_regs) : Prog unit := ssl_exit task ctx DIRECTION_OUTBOUND.
Definition handle_ssl_read_ex_enter (task : Task) (ctx : pt_regs) : Prog unit := ssl_enter task ctx DIRECTION_INBOUND true.
Definition handle_ssl_read_ex_exit (task : Task) (ctx : pt_regs) : Prog unit := ssl_exit task ctx DIRECTION_INBOUND.
Definition handle_ssl_write_ex_enter (task : Task) (ctx : pt_regs) : Prog unit := ssl_enter task ctx DIRECTION_OUTBOUND true.
Definition handle_ssl_write_ex_exit (task : Task) (ctx : pt_regs) : Prog unit := ssl_exit task ctx DIRECTION_OUTBOUND.

(** ** Mutexes and page faults *)
Definition start_timer (m : bpf_map Z) (task : Task) : Prog unit :=
  let! target := is_target_tgid (tgid_of task) in
  if negb target then mret tt else
  let! now := host ktime_get_ns in
  map_update m (pid_tgid task) now.
Definition stop_timer (m : bpf_map Z) (threshold event_type source operation : Z) (task : Task) (ctx : pt_regs)
    : Prog unit :=
  let! started := map_lookup m (pid_tgid task) in
  match started with
  | None => mret tt
  | Some started =>
      let! now := host ktime_get_ns in
      let duration := to_u64 (now - started) in
      let! _ := map_delete m (pid_tgid task) in
      if duration <? threshold then mret tt else
      let! event := reserve_event task in
      match event with
      | None => mret tt
      | Some event =>
          ringbuf_submit (with_result (to_s64 (regs_rc ctx)) (with_duration duration
            (with_kind event_type source operation event)))
      end
  end.
Definition handle_mutex_lock_enter (task : Task) : Prog unit := start_timer lock_starts task.
Definition handle_mutex_lock_exit (task : Task) (ctx : pt_regs) : Prog unit :=
  stop_timer lock_starts (lock_wait_threshold_ns config) EVENT_PROFILE SOURCE_USER_UPROBE OP_LOCK_WAIT task ctx.
Definition handle_page_fault_enter (task : Task) : Prog unit := start_timer fault_starts task.
Definition handle_page_fault_exit (task : Task) (ctx : pt_regs) : Prog unit :=
  stop_timer fault_starts (page_fault_threshold_ns config) EVENT_SYSCALL_LATENCY SOURCE_KERNEL OP_PAGE_FAULT task ctx.

(** ** Sockets *)
Definition mix_socket_word (hash value : Z) : Z := to_u64 (Z.lxor hash value * 1099511628211).
Definition socket_handle (sk : sock) : Z := sk_address sk.
Definition word_at (l : list Z) (i : nat) : Z := nth i l 0.
Definition socket_connection_key (sk : sock) : Z :=
  let hash := 1469598103934665603 in
  let hash := mix_socket_word hash (skc_daddr sk) in
  let hash := mix_socket_word hash (skc_rcv_saddr sk) in
  let hash := mix_socket_word hash (skc_dport sk) in
  let hash := mix_socket_word hash (skc_num sk) in
  let hash := mix_socket_word hash (skc_family sk) in
  let hash := foldl (fun hash i => mix_socket_word (mix_socket_word hash (word_at (skc_v6_daddr sk) i))
    (word_at (skc_v6_rcv_saddr sk) i)) hash (seq 0 4) in
  if hash =? 0 then 1 else hash.

Definition with_socket (connection_key : option Z) (dns : bool) (p : pending_read) : pending_read := {|
  pr_buffer := pr_buffer p; pr_length_pointer := pr_length_pointer p; pr_requested := pr_requested p;
  pr_connection_key := default (pr_connection_key p) connection_key; pr_fd := pr_fd p; pr_source := pr_source p;
  pr_vector_kind := pr_vector_kind p; pr_is_ex := pr_is_ex p; pr_direction := pr_direction p;
  pr_is_network := 1; pr_protocol := if dns then 1 else pr_protocol p
|}.
Definition mark_dns_socket (task : Task) (sk : sock) : Prog unit :=
  let! target := is_target_tgid (tgid_of task) in
  if negb target then mret tt else
  let! pending := map_lookup pending_reads (pid_tgid task) in
  match pending with
  | None => mret tt
  | Some _ => map_modify pending_reads (pid_tgid task) (with_socket (Some (socket_connection_key sk)) true)
  end.
Definition handle_udp_sendmsg (task : Task) (sk : sock) : Prog unit := mark_dns_socket task sk.
Definition handle_udp_recvmsg (task : Task) (sk : sock) : Prog unit := mark_dns_socket task sk.
Definition handle_udpv6_sendmsg (task : Task) (sk : sock) : Prog unit := mark_dns_socket task sk.
Definition handle_udpv6_recvmsg (task : Task) (sk : sock) : Prog unit := mark_dns_socket task sk.

(** The key of a socket that is not known yet *)
Definition fresh_key (sk : sock) : Prog Z :=
  let! now := host ktime_get_ns in mret (mix_socket_word (socket_connection_key sk) now).
Definition owner_file (pending : option pending_read) (existing : option socket_owner) : Z :=
  let fd := match pending with Some pending => pr_fd pending | None => -1 end in
  match existing with
  | Some existing => if fd <? 0 then owner_fd existing else fd
  | None => fd
  end.
Definition track_socket (task : Task) (sk : sock) : Prog unit :=
  let! target := is_target_tgid (tgid_of task) in
  if negb target then mret tt else
  let handle := socket_handle sk in
  let! pending := map_lookup pending_reads (pid_tgid task) in
  let! existing := map_lookup tracked_sockets handle in
  let! connection_key :=
    match existing with
    | Some existing => mret (owner_connection_key existing)
    | None => fresh_key sk
    end in
  let owner := {| owner_connection_key := connection_key; owner_tgid := tgid_of task;
                  owner_fd := owner_file pending existing |} in
  let! _ := (if handle =? 0 then mret tt else map_update tracked_sockets handle owner) in
  match pending with
  | None => mret tt
  | Some _ =>
      map_modify pending_reads (pid_tgid task)
        (with_socket (if handle =? 0 then None else Some connection_key) false)
  end.
Definition handle_tcp_sendmsg (task : Task) (sk : sock) : Prog unit := track_socket task sk.
Definition handle_tcp_recvmsg (task : Task) (sk : sock) : Prog unit := track_socket task sk.

Definition submit_connection (task : Task) (sk : sock) (operation duration_ns : Z) : Prog unit :=
  let handle := socket_handle sk in
  if handle =? 0 then mret tt else
  let! owner := map_lookup tracked_sockets handle in
  match owner with
  | None => mret tt
  | Some owner =>
      let! event := reserve_event task in
      match event with
      | None => mret tt
      | Some event =>
          ringbuf_submit (with_owner owner (with_duration duration_ns
            (with_kind EVENT_CONNECTION SOURCE_KERNEL operation event)))
      end
  end.

Definition handle_tcp_connect (task : Task) (sk : sock) : Prog unit :=
  let! target := is_target_tgid (tgid_of task) in
  if negb target then mret tt else
  let! _ := track_socket task sk in
  let! now := host ktime_get_ns in
  let! _ := map_update handshake_starts (socket_handle sk) now in
  submit_connection task sk OP_TCP_CONNECT 0.

Definition elapsed (now : Z) (started : option Z) : Z :=
  match started with
  | Some started => to_u64 (now - started)
  | None => 0
  end.
Definition connection_established (task : Task) (sk : sock) (now : Z) (owned : bool) (started : option Z) : Prog unit :=
  let duration := elapsed now started in
  let! _ := (if owned then submit_connection task sk OP_TCP_HANDSHAKE duration
             else map_update completed_handshakes (socket_handle sk) duration) in
  if is_some started then map_delete handshake_starts (socket_handle sk) else mret tt.
Definition connection_closed (task : Task) (sk : sock) (now : Z) (owned : bool) (started : option Z) : Prog unit :=
  let handle := socket_handle sk in
  let! reset_seen := map_lookup peer_resets_seen handle in
  let! _ := (if owned && negb (is_some reset_seen) && (sk_err sk =? ECONNRESET_CODE)
             then submit_connection task sk OP_TCP_RESET_RECEIVED 0 else mret tt) in
  let! _ := (if owned && (sk_err sk =? ETIMEDOUT_CODE)
             then submit_connection task sk OP_TCP_TIMEOUT (elapsed now started) else mret tt) in
  let! _ := map_delete peer_resets_seen handle in
  let! _ := (if is_some started then map_delete handshake_starts handle else mret tt) in
  map_delete completed_handshakes handle.
Definition handle_tcp_state (task : Task) (sk : sock) (newstate : Z) : Prog unit :=
  let handle := socket_handle sk in
  let! owner := map_lookup tracked_sockets handle in
  if negb (is_some owner) && negb (skc_num sk =? mongodb_port config) then mret tt else
  let! now := host ktime_get_ns in
  if (newstate =? TCP_SYN_SENT_STATE) || (newstate =? TCP_SYN_RECV_STATE) then map_update handshake_starts handle now else
  let! started := map_lookup handshake_starts handle in
  if newstate =? TCP_ESTABLISHED_STATE then connection_established task sk now (is_some owner) started
  else if newstate =? TCP_CLOSE_STATE then connection_closed task sk now (is_some owner) started
  else mret tt.

Definition handle_tcp_accept (task : Task) (sk : option sock) : Prog unit :=
  match sk with
  | None => mret tt
  | Some sk =>
      let! target := is_target_tgid (tgid_of task) in
      if negb target then mret tt else
      let! _ := track_socket task sk in
      let! _ := submit_connection task sk OP_TCP_ACCEPT 0 in
      let! duration := map_lookup completed_handshakes (socket_handle sk) in
      match duration with
      | Some duration =>
          let! _ := submit_connection task sk OP_TCP_HANDSHAKE duration in
          map_delete completed_handshakes (socket_handle sk)
      | None => submit_connection task sk OP_TCP_HANDSHAKE 0
      end
  end.

Definition handle_tcp_close (task : Task) (sk : sock) : Prog unit :=
  let handle := socket_handle sk in
  let! owner := map_lookup tracked_sockets handle in
  let! _ := map_delete handshake_starts handle in
  let! _ := map_delete completed_handshakes handle in
  if negb (is_some owner) then mret tt else
  let! _ := submit_connection task sk OP_TCP_CLOSE 0 in
  let! _ := map_delete tracked_sockets handle in
  let! _ := map_delete rtt_last_emit handle in
  map_delete peer_resets_seen handle.

Definition handle_tcp_rtt (task : Task) (sk : sock) : Prog unit :=
  let handle := socket_handle sk in
  let! owner := map_lookup tracked_sockets handle in
  if negb (is_some owner) then mret tt else
  let! now := host ktime_get_ns in
  let! last := map_lookup rtt_last_emit handle in
  if match last with
     | Some last => to_u64 (now - last) <? rtt_sample_interval_ns config
     | None => false
     end then mret tt else
  let! _ := map_update rtt_last_emit handle now in
  let! _ := submit_connection task sk OP_TCP_RTT (to_u64 (Z.shiftr (srtt_us sk) 3 * 1000)) in
  if snd_wnd sk =? 0 then submit_connection task sk OP_TCP_ZERO_WINDOW 0 else mret tt.

(** A probe that reports [operation] for a socket that is tracked *)
Definition if_tracked (sk : sock) (m : Prog unit) : Prog unit :=
  let! owner := map_lookup tracked_sockets (socket_handle sk) in
  if is_some owner then m else mret tt.
Definition handle_tcp_retransmit (task : Task) (sk : sock) : Prog unit :=
  if_tracked sk (submit_connection task sk OP_TCP_RETRANSMIT 0).
Definition handle_tcp_reset (task : Task) (sk : sock) : Prog unit :=
  if_tracked sk (
    let! _ := submit_connection task sk OP_TCP_RESET_RECEIVED 0 in
    map_update peer_resets_seen (socket_handle sk) 1).
Definition handle_tcp_active_reset (task : Task) (sk : sock) : Prog unit :=
  if_tracked sk (submit_connection task sk OP_TCP_RESET_SENT 0).

(** ** Scheduler and processes *)
Definition handle_sched_switch (task : Task) (prev_pid next_pid : Z) (next_comm : bytes) : Prog unit :=
  let! now := host ktime_get_ns in
  let prev := to_u32 prev_pid in
  let next := to_u32 next_pid in
  let! leaving := map_lookup target_threads prev in
  let! _ := (if is_some leaving then map_update offcpu_starts prev now else mret tt) in
  let! started := map_lookup offcpu_starts next in
  let! tgid := map_lookup target_threads next in
  match started, tgid with
  | Some started, Some tgid =>
      let duration := to_u64 (now - started) in
      let! _ := map_delete offcpu_starts next in
      if duration <? offcpu_threshold_ns config then mret tt else
      let! event := reserve_event task in
      match event with
      | None => mret tt
      | Some event =>
          ringbuf_submit (with_thread next tgid next_comm (with_duration duration
            (with_kind EVENT_SYSCALL_LATENCY SOURCE_KERNEL OP_OFFCPU event)))
      end
  | _, _ => mret tt
  end.

Definition is_mongodb_comm (comm : bytes) : bool :=
  let at_ i := u8 (nth i comm x00) in
  (at_ 0%nat =? 109) && (at_ 1%nat =? 111) && (at_ 2%nat =? 110) && (at_ 3%nat =? 103) && (at_ 4%nat =? 111) &&
  (((at_ 5%nat =? 100) && (at_ 6%nat =? 0)) || ((at_ 5%nat =? 115) && (at_ 6%nat =? 0))).
Definition submit_process (task : Task) (operation : Z) : Prog unit :=
  let! event := reserve_event task in
  match event with
  | None => mret tt
  | Some event => ringbuf_submit (with_kind EVENT_PROCESS SOURCE_KERNEL operation event)
  end.
Definition handle_process_exec (task : Task) : Prog unit :=
  match comm task with
  | None => mret tt
  | Some comm =>
      if negb (is_mongodb_comm comm) then mret tt else
      let! _ := map_update target_tgids (tgid_of task) 1 in
      let! _ := map_update target_threads (pid_of task) (tgid_of task) in
      submit_process task OP_PROCESS_EXEC
  end.
Definition handle_process_exit (task : Task) : Prog unit :=
  let! _ := map_delete target_threads (pid_of task) in
  let! target := is_target_tgid (tgid_of task) in
  if negb (pid_of task =? tgid_of task) || negb target then mret tt else
  let! _ := submit_process task OP_PROCESS_EXIT in
  map_delete target_tgids (tgid_of task).

(** ** CPU samples: the user stack, then the kernel stack *)
Definition BPF_F_USER_STACK : Z := Z.shiftl 1 8.
Definition handle_cpu_sample (task : Task) : Prog unit :=
  let! target := is_target_tgid (tgid_of task) in
  if negb target then mret tt else
  let! event := reserve_event task in
  match event with
  | None => mret tt
  | Some event =>
      let! user := host (get_stackid BPF_F_USER_STACK) in
      let! kernel := host (get_stackid 0) in
      ringbuf_submit (with_file (to_s32 kernel) 0 (with_result user (with_kind EVENT_PROFILE SOURCE_PERF OP_CPU_SAMPLE event)))
  end.

(** * Runs *)

(** A probe fires, with its context, or user space marks a process it found.  A
    firing is one step: what another processor does meanwhile is before or after. *)
Inductive Probe : Set :=
  | sys_enter (id arg0 arg1 arg2 : Z)
  | sys_exit (id ret : Z)
  | ssl_call (writing is_ex : bool) (ctx : pt_regs)
  | ssl_return (writing is_ex : bool) (ctx : pt_regs)
  | ssl_set_fd (ctx : pt_regs)
  | ssl_free (ctx : pt_regs)
  | mutex_lock_enter
  | mutex_lock_exit (ctx : pt_regs)
  | udp_message (sending v6 : bool) (sk : sock)
  | tcp_message (sending : bool) (sk : sock)
  | tcp_connect (sk : sock)
  | tcp_set_state (sk : sock) (newstate : Z)
  | inet_csk_accept (sk : option sock)
  | tcp_close (sk : sock)
  | tcp_rcv_established (sk : sock)
  | tcp_retransmit_skb (sk : sock)
  | tcp_reset (sk : sock)
  | tcp_send_active_reset (sk : sock)
  | sched_switch (prev_pid next_pid : Z) (next_comm : bytes)
  | sched_process_exec
  | sched_process_exit
  | mm_fault_enter
  | mm_fault_exit (ctx : pt_regs)
  | perf_event
  | mark_target (tgid : Z).
Definition fire (task : Task) (probe : Probe) : Prog unit :=
  match probe with
  | sys_enter id arg0 arg1 arg2 => handle_sys_enter task id arg0 arg1 arg2
  | sys_exit id ret => handle_sys_exit task id ret
  | ssl_call false false ctx => handle_ssl_read_enter task ctx
  | ssl_call true false ctx => handle_ssl_write_enter task ctx
  | ssl_call false true ctx => handle_ssl_read_ex_enter task ctx
  | ssl_call true true ctx => handle_ssl_write_ex_enter task ctx
  | ssl_return false false ctx => handle_ssl_read_exit task ctx
  | ssl_return true false ctx => handle_ssl_write_exit task ctx
  | ssl_return false true ctx => handle_ssl_read_ex_exit task ctx
  | ssl_return true true ctx => handle_ssl_write_ex_exit task ctx
  | ssl_set_fd ctx => handle_ssl_set_fd task ctx
  | ssl_free ctx => handle_ssl_free ctx
  | mutex_lock_enter => handle_mutex_lock_enter task
  | mutex_lock_exit ctx => handle_mutex_lock_exit task ctx
  | udp_message true false sk => handle_udp_sendmsg task sk
  | udp_message false false sk => handle_udp_recvmsg task sk
  | udp_message true true sk => handle_udpv6_sendmsg task sk
  | udp_message false true sk => handle_udpv6_recvmsg task sk
  | tcp_message true sk => handle_tcp_sendmsg task sk
  | tcp_message false sk => handle_tcp_recvmsg task sk
  | tcp_connect sk => handle_tcp_connect task sk
  | tcp_set_state sk newstate => handle_tcp_state task sk newstate
  | inet_csk_accept sk => handle_tcp_accept task sk
  | tcp_close sk => handle_tcp_close task sk
  | tcp_rcv_established sk => handle_tcp_rtt task sk
  | tcp_retransmit_skb sk => handle_tcp_retransmit task sk
  | tcp_reset sk => handle_tcp_reset task sk
  | tcp_send_active_reset sk => handle_tcp_active_reset task sk
  | sched_switch prev_pid next_pid next_comm => handle_sched_switch task prev_pid next_pid next_comm
  | sched_process_exec => handle_process_exec task
  | sched_process_exit => handle_process_exit task
  | mm_fault_enter => handle_page_fault_enter task
  | mm_fault_exit ctx => handle_page_fault_exit task ctx
  | perf_event => handle_cpu_sample task
  | mark_target tgid => map_update target_tgids tgid 1
  end.
Fixpoint run (l : list (Task * Probe)) : Prog unit :=
  match l with
  | [] => mret tt
  | (task, probe) :: l => let! _ := fire task probe in run l
  end.
End programs.
