(* ===== verification/EbpfSpec.v ===== *)
(** What the eBPF programs keep true, whatever the kernel calls them with and the
    machine answers: the records they send are read back by the observer and name
    only processes that were marked, and the maps keep what the programs rely on. *)
From Stdlib Require Import ZArith Lia ZifyBool Strings.Byte.
From stdpp Require Import base list gmap.
From S2P Require Import Prelude Methods Kernel Ebpf.

Local Open Scope Z_scope.

(** * Widths *)
Definition is_u32 (z : Z) : Prop := 0 <= z <= u32_max.
Definition is_u64 (z : Z) : Prop := 0 <= z <= u64_max.
Definition is_s32 (z : Z) : Prop := i32_min <= z <= i32_max.
Definition is_s64 (z : Z) : Prop := i64_min <= z <= i64_max.

Lemma to_u32_range z : is_u32 (to_u32 z).
Proof. unfold is_u32, to_u32. pose proof (Z.mod_pos_bound z 4294967296 eq_refl). lia. Qed.
Lemma to_u64_range z : is_u64 (to_u64 z).
Proof. unfold is_u64, to_u64. pose proof (Z.mod_pos_bound z 18446744073709551616 eq_refl). lia. Qed.
Lemma to_s32_range z : is_s32 (to_s32 z).
Proof.
  unfold is_s32, to_s32. pose proof (to_u32_range z) as H. unfold is_u32 in H.
  pose proof (signed_range 32 (to_u32 z) eq_refl) as Hs. simpl in Hs. lia.
Qed.
Lemma to_s64_range z : is_s64 (to_s64 z).
Proof.
  unfold is_s64, to_s64. pose proof (to_u64_range z) as H. unfold is_u64 in H.
  pose proof (signed_range 64 (to_u64 z) eq_refl) as Hs. simpl in Hs. lia.
Qed.
Lemma to_u64_id z : is_u64 z -> to_u64 z = z.
Proof. intros H. apply Z.mod_small. unfold is_u64 in H. lia. Qed.
Lemma to_u32_id z : is_u32 z -> to_u32 z = z.
Proof. intros H. apply Z.mod_small. unfold is_u32 in H. lia. Qed.
Lemma shiftr_32_range z : is_u64 z -> is_u32 (Z.shiftr z 32).
Proof.
  unfold is_u64, is_u32. intros H. rewrite Z.shiftr_div_pow2 by lia. change (2 ^ 32) with 4294967296.
  split; [apply Z.div_pos; lia|]. enough (z / 4294967296 < 4294967296) by lia. apply Z.div_lt_upper_bound; lia.
Qed.
Lemma is_u32_u64 z : is_u32 z -> is_u64 z.
Proof. unfold is_u32, is_u64. lia. Qed.
Create HintDb ebpfdb.
#[export] Hint Resolve to_u32_range to_u64_range to_s32_range to_s64_range shiftr_32_range is_u32_u64 : ebpfdb.
#[export] Hint Extern 5 (is_u32 _) => unfold is_u32 in *; lia : ebpfdb.
#[export] Hint Extern 5 (is_u64 _) => unfold is_u64, is_u32 in *; lia : ebpfdb.
#[export] Hint Extern 5 (is_s32 _) => unfold is_s32 in *; lia : ebpfdb.
#[export] Hint Extern 5 (is_s64 _) => unfold is_s64 in *; lia : ebpfdb.
#[export] Hint Extern 1 (0 <= _ < 256) => first [assumption | done] : ebpfdb.

(** * The record *)

(** The fields are within their types. *)
Record typed_event (e : KernelEvent) : Prop := {
  te_timestamp : is_u64 (raw_timestamp_ns e);
  te_key : is_u64 (raw_connection_key e);
  te_cgroup : is_u64 (raw_cgroup_id e);
  te_duration : is_u64 (raw_duration_ns e);
  te_bytes : is_u64 (raw_bytes e);
  te_result : is_s64 (raw_result e);
  te_pid : is_u32 (raw_pid e);
  te_tgid : is_u32 (raw_tgid e);
  te_uid : is_u32 (raw_uid e);
  te_gid : is_u32 (raw_gid e);
  te_fd : is_s32 (raw_fd e);
  te_original : is_u32 (raw_original_len e);
  te_captured : is_u32 (raw_captured_len e);
  te_type : 0 <= raw_event_type e < 256;
  te_direction : 0 <= raw_direction e < 256;
  te_source : 0 <= raw_source e < 256;
  te_operation : 0 <= raw_operation e < 256;
  te_comm : length (raw_comm e) = 16%nat;
  te_data : length (raw_data e) = 1024%nat
}.

(** The fields in their natural alignment need no padding: [ring_bytes] is the
    structure in memory, and its size is what the observer expects. *)
Lemma kernel_event_layout :
  offsets 0 kernel_event_scalars = ([0; 8; 16; 24; 32; 40; 48; 52; 56; 60; 64; 68; 72; 76; 77; 78; 79], 80)
  /\ 80 + TASK_COMM_LEN + MAX_CAPTURE_BYTES = KERNEL_EVENT_SIZE.
Proof. done. Qed.

Lemma len_ring_bytes e : typed_event e -> len (ring_bytes e) = KERNEL_EVENT_SIZE.
Proof.
  intros T. unfold ring_bytes, len. rewrite !length_app, !length_le_bytes, (te_comm _ T), (te_data _ T). done.
Qed.

(** Fields in front and behind *)
Lemma field_skip (l r : bytes) k off n : length l = k -> (k <= off)%nat -> field (l ++ r) off n = field r (off - k) n.
Proof. intros <- H. unfold field. by rewrite drop_app_ge by done. Qed.
Lemma field_here (l r : bytes) n : length l = n -> field (l ++ r) 0 n = l.
Proof. intros <-. unfold field. rewrite drop_0. apply take_app_length. Qed.
Lemma field_all (l : bytes) n : length l = n -> field l 0 n = l.
Proof. intros <-. unfold field. rewrite drop_0. by rewrite take_ge. Qed.
Lemma le_val_unsigned n v : 0 <= v < 2 ^ (8 * Z.of_nat n) -> le_val (le_bytes n v) = v.
Proof. intros H. rewrite le_val_le_bytes. by apply Z.mod_small. Qed.

(** Reads a field of [ring_bytes] off its parts. *)
Ltac read_field :=
  repeat (erewrite field_skip by (apply length_le_bytes || eassumption || lia); cbn [Nat.sub]);
  first [rewrite field_here by (apply length_le_bytes || assumption) | rewrite field_all by assumption].

Lemma from_ring_bytes_spec e : typed_event e -> from_ring_bytes (ring_bytes e) = Some e.
Proof.
  intros T. unfold from_ring_bytes. rewrite (len_ring_bytes _ T).
  destruct e as [f1 f2 f3 f4 f5 f6 f7 f8 f9 f10 f11 f12 f13 f14 f15 f16 f17 f18 f19], T. cbn in * |-.
  unfold is_u64, is_u32, is_s64, is_s32 in *.
  change (negb (KERNEL_EVENT_SIZE =? KERNEL_EVENT_SIZE)) with false. cbv iota. f_equal.
  unfold ring_bytes. cbn [raw_timestamp_ns raw_connection_key raw_cgroup_id raw_duration_ns raw_bytes raw_result raw_pid
    raw_tgid raw_uid raw_gid raw_fd raw_original_len raw_captured_len raw_event_type raw_direction raw_source
    raw_operation raw_comm raw_data].
  unfold u64_from_le_bytes, u32_from_le_bytes.
  f_equal; read_field; first [reflexivity | apply le_val_unsigned; cbn; lia | apply i64_le_bytes; lia
    | apply i32_le_bytes; lia].
Qed.

(** * Maps *)

(** What is kept of every map but the one that is written *)
Lemma entries_set (P : forall V : Set, bpf_map V -> gmap Z V -> Prop) {V W : Set} (m : bpf_map V) (m' : bpf_map W) l s :
  P V m l -> P W m' (entries m' s) -> P W m' (entries m' (set_entries m l s)).
Proof. destruct m, m'; cbn; auto. Qed.
Lemma entries_set_same {V} (m : bpf_map V) l s : entries m (set_entries m l s) = l.
Proof. by destruct m. Qed.
Lemma ring_set {V} (m : bpf_map V) l s : ring (set_entries m l s) = ring s.
Proof. by destruct m. Qed.
Lemma dropped_set {V} (m : bpf_map V) l s : dropped_events (set_entries m l s) = dropped_events s.
Proof. by destruct m. Qed.
Lemma entries_drop {V} (m : bpf_map V) n s : entries m (set_dropped_events n s) = entries m s.
Proof. by destruct m. Qed.
Lemma entries_submit {V} (m : bpf_map V) bs s : entries m (submit_event bs s) = entries m s.
Proof. by destruct m. Qed.

Section maps.
Context {World : Type}.

Lemma mwp_lookup {V} (m : bpf_map V) key s (Q : option V -> Maps -> Prop) :
  Q (entries m s !! key) s -> mwp (World := World) (map_lookup m key) s Q.
Proof. by intros H w. Qed.
Lemma mwp_target tgid s (Q : bool -> Maps -> Prop) :
  Q (is_some (target_tgids_map s !! tgid)) s -> mwp (World := World) (is_target_tgid tgid) s Q.
Proof. by intros H w. Qed.
Lemma mwp_map_update {V} (m : bpf_map V) key v s (Q : unit -> Maps -> Prop) :
  Q tt (updated m key v s) -> mwp (World := World) (map_update m key v) s Q.
Proof. by intros H w. Qed.
Lemma mwp_map_delete {V} (m : bpf_map V) key s (Q : unit -> Maps -> Prop) :
  Q tt (deleted m key s) -> mwp (World := World) (map_delete m key) s Q.
Proof. by intros H w. Qed.
Lemma mwp_map_modify {V} (m : bpf_map V) key f s (Q : unit -> Maps -> Prop) :
  Q tt (set_entries m (alter f key (entries m s)) s) -> mwp (World := World) (map_modify m key f) s Q.
Proof. by intros H w. Qed.
(** A helper that is known to answer with [P] *)
Lemma mwp_host_law {A} (m : State World A) (P : A -> Prop) s (Q : A -> Maps -> Prop) :
  (forall w, P (fst (m w))) -> (forall a, P a -> Q a s) -> mwp (host m) s Q.
Proof. intros HP HQ w. unfold host. specialize (HP w). destruct (m w) as [a w']. by apply HQ. Qed.
End maps.

(** Symbolic execution of the helpers on maps and the ring buffer *)
Ltac map_step :=
  lazymatch goal with
  | |- mwp (map_lookup _ _) _ _ => apply mwp_lookup
  | |- mwp (is_target_tgid _) _ _ => apply mwp_target
  | |- mwp (map_update _ _ _) _ _ => apply mwp_map_update
  | |- mwp (map_delete _ _) _ _ => apply mwp_map_delete
  | |- mwp (map_modify _ _ _) _ _ => apply mwp_map_modify
  | |- mwp (ringbuf_submit _) _ _ => unfold ringbuf_submit; apply mwp_update
  | |- mwp ringbuf_discard _ _ => unfold ringbuf_discard; apply mwp_ret
  | |- mwp (let '(_, _) := ?x in _) _ _ => destruct x eqn:?
  | |- mwp (let _ := _ in _) _ _ => cbv zeta
  | _ => mwp_step
  end.

(** Membership in a list of constants *)
Ltac listed := apply (bool_decide_eq_true_1 _); reflexivity.

(** ** What a program needs of the entries of the maps *)
Section sound.
Context {World : Type} `{Machine World}.
Context (arch : Arch) (config : rodata).

(** The helpers answer within their types. *)
Class TypedMachine : Prop := {
  typed_ktime w : is_u64 (fst (ktime_get_ns w));
  typed_memory w bs : fst (ringbuf_reserve w) = Some bs -> len bs = KERNEL_EVENT_SIZE;
  typed_user a n w bs : fst (probe_read_user a n w) = Some bs -> len bs = n;
  typed_stackid flags w : is_s64 (fst (get_stackid flags w))
}.
Context `{TypedMachine} (config_typed : is_u32 (capture_bytes config)).

(** What a record may be about: data, or one of the things that are measured *)
Definition measured : list (Z * Z) :=
  [(EVENT_SYSCALL_LATENCY, OP_PREAD); (EVENT_SYSCALL_LATENCY, OP_PWRITE); (EVENT_SYSCALL_LATENCY, OP_FSYNC);
   (EVENT_SYSCALL_LATENCY, OP_FDATASYNC); (EVENT_SYSCALL_LATENCY, OP_OPENAT); (EVENT_SYSCALL_LATENCY, OP_OFFCPU);
   (EVENT_SYSCALL_LATENCY, OP_PAGE_FAULT); (EVENT_CONNECTION, OP_TCP_CONNECT); (EVENT_CONNECTION, OP_TCP_ACCEPT);
   (EVENT_CONNECTION, OP_TCP_CLOSE); (EVENT_CONNECTION, OP_TCP_RTT); (EVENT_CONNECTION, OP_TCP_RETRANSMIT);
   (EVENT_CONNECTION, OP_TCP_HANDSHAKE); (EVENT_CONNECTION, OP_TCP_RESET_RECEIVED);
   (EVENT_CONNECTION, OP_TCP_RESET_SENT); (EVENT_CONNECTION, OP_TCP_ZERO_WINDOW); (EVENT_CONNECTION, OP_TCP_TIMEOUT);
   (EVENT_PROFILE, OP_CPU_SAMPLE); (EVENT_PROFILE, OP_LOCK_WAIT); (EVENT_PROCESS, OP_PROCESS_EXEC);
   (EVENT_PROCESS, OP_PROCESS_EXIT)].
Lemma measured_range t op : (t, op) ∈ measured -> 0 <= t < 256 /\ 0 <= op < 256.
Proof.
  assert (Forall (fun '(t, op) => 0 <= t < 256 /\ 0 <= op < 256) measured) as Hall by (repeat constructor; done).
  intros Hin. by apply (proj1 (Forall_forall _ _) Hall _ Hin).
Qed.
Definition is_chunk (e : KernelEvent) : Prop :=
  (raw_event_type e = EVENT_IO_CHUNK \/ raw_event_type e = EVENT_DNS_CHUNK) /\ raw_operation e = 0 /\
  0 < raw_captured_len e <= MAX_CAPTURE_BYTES /\ raw_captured_len e <= capture_bytes config /\
  raw_captured_len e <= raw_bytes e /\ (raw_direction e = DIRECTION_INBOUND \/ raw_direction e = DIRECTION_OUTBOUND).
Definition is_measurement (e : KernelEvent) : Prop :=
  (raw_event_type e, raw_operation e) ∈ measured /\ raw_captured_len e = 0.

(** A record of a process of [G] *)
Definition good_record (G : list Z) (bs : bytes) : Prop :=
  exists e, bs = ring_bytes e /\ typed_event e /\ raw_tgid e ∈ G /\ (is_chunk e \/ is_measurement e).

(** Entries of threads are under the number of a thread of a process of [G]. *)
Definition thread_of (G : list Z) (key : Z) : Prop := Z.shiftr key 32 ∈ G.
Record typed_read (p : pending_read) : Prop := {
  tr_requested : is_u64 (pr_requested p);
  tr_key : is_u64 (pr_connection_key p);
  tr_fd : is_s32 (pr_fd p);
  tr_source : pr_source p = SOURCE_SYSCALL \/ pr_source p = SOURCE_OPENSSL;
  tr_direction : pr_direction p = DIRECTION_INBOUND \/ pr_direction p = DIRECTION_OUTBOUND
}.
Record typed_start (start : syscall_start) : Prop := {
  ts_requested : is_u64 (ss_requested start);
  ts_fd : is_s32 (ss_fd start);
  ts_operation : (EVENT_SYSCALL_LATENCY, ss_operation start) ∈ measured
}.
Record owned_by (G : list Z) (owner : socket_owner) : Prop := {
  ob_key : is_u64 (owner_connection_key owner);
  ob_tgid : owner_tgid owner ∈ G;
  ob_fd : is_s32 (owner_fd owner)
}.
Definition entry_ok (G : list Z) {V : Set} (m : bpf_map V) (key : Z) : V -> Prop :=
  match m in bpf_map V return V -> Prop with
  | target_tgids => fun _ => key ∈ G
  | target_threads => fun tgid => tgid ∈ G
  | pending_reads => fun p => thread_of G key /\ typed_read p
  | syscall_starts => fun start => thread_of G key /\ typed_start start
  | lock_starts | fault_starts => fun _ => thread_of G key
  | tracked_sockets => fun owner => owned_by G owner
  | completed_handshakes => fun duration => is_u64 duration
  | ssl_fds => fun fd => is_s32 fd
  | offcpu_starts | rtt_last_emit | handshake_starts | peer_resets_seen | tls_depth => fun _ => True
  end.
Record sound (G : list Z) (s : Maps) : Prop := {
  so_entries : forall (V : Set) (m : bpf_map V), map_Forall (entry_ok G m) (entries m s);
  so_ring : Forall (good_record G) (ring s)
}.

Lemma sound_no_maps : sound [] no_maps.
Proof. split; [|constructor]. intros V []; apply map_Forall_empty. Qed.
Lemma sound_set {V} (m : bpf_map V) l s G : sound G s -> map_Forall (entry_ok G m) l -> sound G (set_entries m l s).
Proof.
  intros [E R] Hl. split; [|by rewrite ring_set]. intros W m'.
  apply (entries_set (fun V m l => map_Forall (entry_ok G m) l)); auto.
Qed.
Lemma sound_updated {V} (m : bpf_map V) key v s G : sound G s -> entry_ok G m key v -> sound G (updated m key v s).
Proof.
  intros S Hv. unfold updated. destruct (has_room _ _ _); [|done]. apply sound_set; [done|].
  apply map_Forall_insert_2; [done|]. apply S.
Qed.
Lemma sound_deleted {V} (m : bpf_map V) key s G : sound G s -> sound G (deleted m key s).
Proof. intros S. apply sound_set; [done|]. apply map_Forall_delete, S. Qed.
Lemma sound_modify {V} (m : bpf_map V) key f s G :
  sound G s -> (forall v, entry_ok G m key v -> entry_ok G m key (f v)) ->
  sound G (set_entries m (alter f key (entries m s)) s).
Proof.
  intros S Hf. apply sound_set; [done|]. intros k v Hv. apply lookup_alter_Some in Hv as [(-> & v' & Hv & ->)|[_ Hv]].
  - apply Hf. by apply (so_entries _ _ S _ m).
  - by apply (so_entries _ _ S _ m).
Qed.
Lemma sound_drop n s G : sound G s -> sound G (set_dropped_events n s).
Proof. intros [E R]. split; [|done]. intros V m. rewrite entries_drop. apply E. Qed.
Lemma sound_submit e s G :
  sound G s -> typed_event e -> raw_tgid e ∈ G -> is_chunk e \/ is_measurement e -> sound G (submit_event (ring_bytes e) s).
Proof.
  intros [E R] T Hg Hk. split; [intros V m; rewrite entries_submit; apply E|].
  apply Forall_app. split; [done|]. constructor; [|done]. by exists e.
Qed.
Lemma sound_lookup {V} (m : bpf_map V) key v s G : sound G s -> entries m s !! key = Some v -> entry_ok G m key v.
Proof. intros S Hl. apply (so_entries _ _ S _ m _ _ Hl). Qed.

(** [G] may grow. *)
Lemma entry_ok_mono G G' {V : Set} (m : bpf_map V) key (v : V) : G ⊆ G' -> entry_ok G m key v -> entry_ok G' m key v.
Proof. intros Hs. destruct m; cbn; unfold thread_of; try solve [auto | intros []; auto]. intros []. split; auto. Qed.
Lemma sound_mono G G' s : G ⊆ G' -> sound G s -> sound G' s.
Proof.
  intros Hs [E R]. split.
  - intros V m k v Hv. eapply entry_ok_mono; [exact Hs|]. by apply E.
  - eapply Forall_impl; [exact R|]. intros bs (e & ? & ? & ? & ?). exists e. auto.
Qed.

(** ** Tasks and probes within their types *)
Record typed_task (task : Task) : Prop := {
  tt_pid_tgid : is_u64 (pid_tgid task);
  tt_uid_gid : is_u64 (uid_gid task);
  tt_cgroup : is_u64 (cgroup_id task);
  tt_comm : forall c, comm task = Some c -> length c = 16%nat
}.
Lemma tgid_of_range task : typed_task task -> is_u32 (tgid_of task).
Proof. intros T. apply shiftr_32_range, T. Qed.
Lemma pid_of_range task : is_u32 (pid_of task).
Proof. apply to_u32_range. Qed.
Lemma current_comm_length task : typed_task task -> length (current_comm task) = 16%nat.
Proof. intros T. unfold current_comm. destruct (comm task) eqn:Hc; [by apply (tt_comm _ T)|done]. Qed.

(** What a reserved event says before it is filled in *)
Record fresh (task : Task) (e : KernelEvent) : Prop := {
  fr_typed : typed_event e;
  fr_tgid : raw_tgid e = tgid_of task;
  fr_captured : raw_captured_len e = 0;
  fr_operation : raw_operation e = 0
}.
Lemma mwp_reserve task s (Q : option KernelEvent -> Maps -> Prop) :
  typed_task task ->
  Q None (set_dropped_events (to_u64 (dropped_events s + 1)) s) ->
  (forall e, fresh task e -> Q (Some e) s) ->
  mwp (World := World) (reserve_event task) s Q.
Proof.
  intros T Hn He. unfold reserve_event. apply mwp_bind.
  eapply mwp_host_law with (P := fun o => forall bs, o = Some bs -> len bs = KERNEL_EVENT_SIZE).
  { intros w bs. apply typed_memory. }
  intros [memory|] Hm; [|by apply mwp_bind, mwp_update, mwp_ret].
  apply mwp_bind. apply mwp_host_law with (P := is_u64); [apply typed_ktime|]. intros now Hnow.
  apply mwp_ret, He. specialize (Hm _ eq_refl). destruct T as [Tp Tu Tc Tm] eqn:HT.
  split; [|done..]. split; cbn [raw_timestamp_ns raw_connection_key raw_cgroup_id raw_duration_ns raw_bytes raw_result
    raw_pid raw_tgid raw_uid raw_gid raw_fd raw_original_len raw_captured_len raw_event_type raw_direction raw_source
    raw_operation raw_comm raw_data]; auto with ebpfdb; try lia.
  - apply to_u32_range.
  - by apply tgid_of_range.
  - by apply current_comm_length.
  - rewrite length_drop. unfold len, KERNEL_EVENT_SIZE in Hm. lia.
Qed.

Lemma typed_with_kind t source op e :
  typed_event e -> 0 <= t < 256 -> 0 <= source < 256 -> 0 <= op < 256 -> typed_event (with_kind t source op e).
Proof. intros []. by split. Qed.
Lemma typed_with_duration d e : typed_event e -> is_u64 d -> typed_event (with_duration d e).
Proof. intros []. by split. Qed.
Lemma typed_with_result r e : typed_event e -> is_s64 r -> typed_event (with_result r e).
Proof. intros []. by split. Qed.
Lemma typed_with_file fd n e : typed_event e -> is_s32 fd -> is_u64 n -> typed_event (with_file fd n e).
Proof. intros []. by split. Qed.
Lemma typed_with_owner o e :
  typed_event e -> is_u64 (owner_connection_key o) -> is_u32 (owner_tgid o) -> is_s32 (owner_fd o) ->
  typed_event (with_owner o e).
Proof. intros []. by split. Qed.
Lemma typed_with_thread pid tgid c e :
  typed_event e -> is_u32 pid -> is_u32 tgid -> length c = 16%nat -> typed_event (with_thread pid tgid c e).
Proof. intros []. by split. Qed.
Hint Resolve typed_with_kind typed_with_duration typed_with_result typed_with_file typed_with_owner typed_with_thread
  : ebpfdb.

(** ** Chunks *)
Lemma captured_of_min copy_limit actual :
  0 <= copy_limit -> 0 <= actual -> captured_of copy_limit actual = Z.min actual (Z.min copy_limit MAX_CAPTURE_BYTES).
Proof.
  intros Hc Ha. unfold captured_of, MAX_CAPTURE_BYTES.
  destruct (1024 <? copy_limit) eqn:E1; destruct (actual <? _) eqn:E2; try lia.
  - rewrite to_u32_id by (unfold is_u32; lia). lia.
  - destruct (decide (actual <= u32_max)); [rewrite to_u32_id by (unfold is_u32; lia)|]; lia.
Qed.

(** Runs a program up to the calls that have a lemma of their own. *)
Ltac prog_step :=
  lazymatch goal with
  | |- mwp (host ktime_get_ns) _ _ => apply (mwp_host_law _ is_u64); [apply typed_ktime|intros ? ?]
  | |- mwp (reserve_event _) _ _ => apply mwp_reserve; [assumption| |intros ? ?]
  | _ => map_step
  end.

Section kept.
Context (G : list Z) (G_typed : Forall is_u32 G).
Abbreviation keeps m s := (mwp (World := World) m s (fun _ s' => sound G s')).

Lemma typed_member tgid : tgid ∈ G -> is_u32 tgid.
Proof. intros H'. by eapply (proj1 (Forall_forall _ _) G_typed). Qed.
Lemma target_member s tgid : sound G s -> is_some (target_tgids_map s !! tgid) = true -> tgid ∈ G.
Proof. intros S Ht. destruct (_ !! tgid) eqn:Hl; [|done]. by apply (sound_lookup target_tgids _ _ _ _ S Hl). Qed.

(** The guard most programs begin with *)
Lemma keeps_guarded tgid m s :
  sound G s -> (tgid ∈ G -> keeps m s) ->
  keeps (let! target := is_target_tgid tgid in if negb target then mret tt else m) s.
Proof.
  intros S Hm. apply mwp_bind, mwp_target. destruct (is_some _) eqn:Ht; [|by apply mwp_ret].
  by apply Hm, (target_member s).
Qed.

Lemma keeps_submit_chunk_limited task buffer requested actual fd direction source key event_type limit s :
  sound G s -> typed_task task -> tgid_of task ∈ G -> is_u64 requested -> is_s64 actual -> is_s32 fd ->
  direction = DIRECTION_INBOUND \/ direction = DIRECTION_OUTBOUND -> source = SOURCE_SYSCALL \/ source = SOURCE_OPENSSL ->
  is_u64 key -> event_type = EVENT_IO_CHUNK \/ event_type = EVENT_DNS_CHUNK -> 0 <= limit <= capture_bytes config ->
  keeps (submit_chunk_limited task buffer requested actual fd direction source key event_type limit) s.
Proof.
  intros S T Hg Hr Ha Hf Hd Hs Hk Ht Hl. unfold submit_chunk_limited.
  destruct ((actual <=? 0) || (buffer =? 0) || (limit =? 0)) eqn:Hguard; [by apply mwp_ret|].
  assert (0 < actual /\ 0 < limit) as [Ha0 Hl0] by lia.
  assert (to_u64 actual = actual) as Hu by (apply to_u64_id; unfold is_u64, is_s64 in *; lia).
  prog_step. prog_step.
  { apply mwp_ret. by apply sound_drop. }
  prog_step. rewrite Hu, captured_of_min by lia. set (captured := Z.min actual _).
  assert (0 < captured <= 1024) by (unfold captured, MAX_CAPTURE_BYTES; lia).
  apply (mwp_host_law _ (fun o => forall bs, o = Some bs -> len bs = captured)); [intros w bs; apply typed_user|].
  intros [data|] Hdata; [|by prog_step]. prog_step. specialize (Hdata _ eq_refl).
  match goal with He : fresh _ _ |- _ => destruct He as [He1 He2 He3 He4]; destruct He1 end.
  unfold is_s64 in *. apply sound_submit; [done| | |left].
  - split; cbn [with_chunk raw_timestamp_ns raw_connection_key raw_cgroup_id raw_duration_ns raw_bytes raw_result raw_pid
      raw_tgid raw_uid raw_gid raw_fd raw_original_len raw_captured_len raw_event_type raw_direction raw_source
      raw_operation raw_comm raw_data]; auto with ebpfdb.
    + destruct (u32_max <? requested); [unfold is_u32; lia|auto with ebpfdb].
    + by destruct Ht as [-> | ->].
    + by destruct Hd as [-> | ->].
    + by destruct Hs as [-> | ->].
    + rewrite length_app, length_drop. unfold len in Hdata. lia.
  - cbn. by rewrite He2.
  - unfold is_chunk, MAX_CAPTURE_BYTES. cbn. rewrite Hu. split; [done|]. split; [done|]. split; [lia|].
    split; [unfold captured; lia|]. split; [unfold captured; lia|done].
Qed.

Lemma keeps_vector_loop todo task user_iov iov_count index remaining budget fd direction source key event_type s :
  sound G s -> typed_task task -> tgid_of task ∈ G -> is_s32 fd -> 0 <= remaining -> 0 <= budget <= capture_bytes config ->
  direction = DIRECTION_INBOUND \/ direction = DIRECTION_OUTBOUND -> source = SOURCE_SYSCALL \/ source = SOURCE_OPENSSL ->
  is_u64 key -> event_type = EVENT_IO_CHUNK \/ event_type = EVENT_DNS_CHUNK ->
  keeps (vector_loop todo task user_iov iov_count index remaining budget fd direction source key event_type) s.
Proof.
  revert index remaining budget s. induction todo as [|todo IH]; intros index remaining budget s S T Hg Hf Hr Hb Hd Hs Hk Ht.
  { by apply mwp_ret. }
  cbn [vector_loop]. destruct ((iov_count <=? index) || (remaining =? 0) || (budget =? 0)) eqn:Hguard; [by apply mwp_ret|].
  prog_step. prog_step. destruct a as [iov|]; [|by apply mwp_ret]. unfold iovec_of.
  set (iov_base := le_val (field iov 0 8)). set (iov_len := le_val (field iov 8 8)).
  assert (is_u64 iov_len) as Hlen.
  { pose proof (le_val_field iov 8 8) as Hv. change (2 ^ (8 * Z.of_nat 8)) with 18446744073709551616 in Hv.
    unfold is_u64, iov_len. lia. }
  cbv zeta. destruct (segment_of remaining iov_len =? 0); [by apply IH|].
  set (segment := segment_of remaining iov_len).
  assert (0 <= segment <= remaining) as Hseg.
  { unfold segment, segment_of, is_u64 in *. destruct (_ <? _) eqn:E; lia. }
  assert (0 <= copied_of segment budget <= budget) as Hc.
  { unfold copied_of. destruct (segment <? budget) eqn:E; [|lia]. unfold to_u32.
    pose proof (Z.mod_le segment 4294967296). pose proof (Z.mod_pos_bound segment 4294967296). lia. }
  prog_step. eapply mwp_mono.
  { apply (keeps_submit_chunk_limited task iov_base iov_len); auto with ebpfdb; lia. }
  intros ? s' S'. destruct (_ <? _); [by apply mwp_ret|]. apply IH; auto; lia.
Qed.

Lemma keeps_submit_read task pending ret s :
  sound G s -> typed_task task -> tgid_of task ∈ G -> typed_read pending -> is_s64 ret ->
  keeps (submit_read config task pending ret) s.
Proof.
  intros S T Hg [Hr Hk Hf Hs Hd] Hret. unfold is_u32 in config_typed.
  assert (chunk_type pending = EVENT_IO_CHUNK \/ chunk_type pending = EVENT_DNS_CHUNK) as Ht.
  { unfold chunk_type. destruct (_ =? _); auto. }
  assert (is_s64 (actual_of (pr_requested pending) ret)) as Ha.
  { unfold actual_of. destruct (_ && _); auto with ebpfdb. }
  unfold submit_read. prog_step; [by apply mwp_ret|]. prog_step.
  { apply keeps_submit_chunk_limited; auto; lia. }
  unfold submit_vector_chunks. destruct ((ret <=? 0) || (pr_buffer pending =? 0)) eqn:Hguard; [by apply mwp_ret|].
  assert (0 <= (if MAX_CAPTURE_BYTES <? capture_bytes config then MAX_CAPTURE_BYTES else capture_bytes config)
    <= capture_bytes config) as Hb by (unfold MAX_CAPTURE_BYTES; destruct (_ <? _) eqn:?; lia).
  cbv zeta. prog_step; [|apply keeps_vector_loop; auto; lia].
  prog_step. prog_step. destruct a as [message|]; [|by apply mwp_ret].
  unfold msghdr_of. prog_step; [by apply mwp_ret|]. apply keeps_vector_loop; auto; lia.
Qed.

Lemma keeps_submit_latency task start ret s :
  sound G s -> typed_task task -> tgid_of task ∈ G -> typed_start start -> is_s64 ret ->
  keeps (submit_latency task start ret) s.
Proof.
  intros S T Hg [Hr Hf Ho] Hret. unfold submit_latency. prog_step. prog_step; [by apply mwp_ret, sound_drop|].
  repeat prog_step. match goal with He : fresh _ _ |- _ => destruct He as [He1 He2 He3 _] end.
  pose proof (measured_range _ _ Ho) as [_ Hop].
  apply sound_submit; [done| |cbn; by rewrite He2|right; by split].
  auto 10 with ebpfdb.
Qed.

Lemma keeps_sys_enter task id arg0 arg1 arg2 s :
  sound G s -> typed_task task -> is_u64 arg2 -> keeps (handle_sys_enter arch task id arg0 arg1 arg2) s.
Proof.
  intros S T Ha. apply keeps_guarded; [done|]. intros Hg. prog_step. prog_step.
  assert (sound G (updated target_threads (pid_of task) (tgid_of task) s)) as S' by (by apply sound_updated).
  unfold remember_read, start_latency. repeat prog_step; try done.
  - apply sound_updated; [done|]. split; [done|].
    match goal with Hc : data_call ?call = Some _ |- _ => destruct call; try discriminate Hc; injection Hc as <- <- end;
      split; cbn; auto with ebpfdb.
  - apply sound_updated; [done|]. split; [done|].
    match goal with Hc : timed_call ?call = Some _ |- _ => destruct call; try discriminate Hc; injection Hc as <- end;
      split; cbn; auto with ebpfdb; listed.
Qed.

Lemma keeps_exit_data task call ret s :
  sound G s -> typed_task task -> is_s64 ret -> keeps (exit_data config task call ret) s.
Proof.
  intros S T Hr. unfold exit_data. repeat prog_step; try done.
  match goal with Hl : _ !! _ = Some _ |- _ => destruct (sound_lookup _ _ _ _ _ S Hl) as [Hg Hp] end.
  apply keeps_submit_read; auto. by apply sound_deleted.
Qed.
Lemma keeps_exit_timed task call ret s :
  sound G s -> typed_task task -> is_s64 ret -> keeps (exit_timed task call ret) s.
Proof.
  intros S T Hr. unfold exit_timed. repeat prog_step; try done.
  match goal with Hl : _ !! _ = Some _ |- _ => destruct (sound_lookup _ _ _ _ _ S Hl) as [Hg Hp] end.
  apply keeps_submit_latency; auto. by apply sound_deleted.
Qed.
Lemma keeps_sys_exit task id ret s :
  sound G s -> typed_task task -> is_s64 ret -> keeps (handle_sys_exit arch config task id ret) s.
Proof.
  intros S T Hr. apply keeps_guarded; [done|]. intros Hg. prog_step. prog_step. prog_step; [by apply mwp_ret|]. prog_step.
  eapply mwp_mono; [by apply keeps_exit_data|]. intros ? s' S'. by apply keeps_exit_timed.
Qed.

Record typed_regs (ctx : pt_regs) : Prop := {
  tp_parm1 : is_u64 (parm1 ctx);
  tp_parm3 : is_u64 (parm3 ctx)
}.
Lemma keeps_ssl_enter task ctx direction is_ex s :
  sound G s -> typed_task task -> typed_regs ctx -> direction = DIRECTION_INBOUND \/ direction = DIRECTION_OUTBOUND ->
  keeps (ssl_enter task ctx direction is_ex) s.
Proof.
  intros S T [R1 R3] Hd. apply keeps_guarded; [done|]. intros Hg. unfold remember_read.
  assert (sound G (updated tls_depth (pid_tgid task) 1 s)) as S1 by (by apply sound_updated).
  repeat prog_step. apply sound_updated; [done|]. split; [done|].
  assert (is_s32 (default (-1) (entries ssl_fds (updated tls_depth (pid_tgid task) 1 s) !! parm1 ctx))) as Hfd.
  { destruct (entries ssl_fds _ !! _) eqn:Hl; cbn [default]; [|unfold is_s32; cbn; lia].
    by apply (sound_lookup ssl_fds _ _ _ _ S1 Hl). }
  split; cbn [pr_requested pr_connection_key pr_fd pr_source pr_direction]; auto.
  destruct (_ <=? _); auto with ebpfdb.
Qed.
Lemma keeps_ssl_exit task ctx direction s :
  sound G s -> typed_task task -> direction = DIRECTION_INBOUND \/ direction = DIRECTION_OUTBOUND ->
  keeps (ssl_exit config task ctx direction) s.
Proof.
  intros S T Hd. unfold is_u32 in config_typed. unfold ssl_exit. repeat prog_step; try by apply sound_deleted.
  all: match goal with Hl : _ !! _ = Some _ |- _ => destruct (sound_lookup _ _ _ _ _ S Hl) as [Hg [Hp1 Hp2 Hp3 Hp4 Hp5]] end.
  all: unfold submit_chunk, reported_length; repeat prog_step.
  all: apply keeps_submit_chunk_limited; auto with ebpfdb; try lia; try by repeat apply sound_deleted.
  all: first [exact Hg|destruct a; auto with ebpfdb].
Qed.

Lemma keeps_start_timer m task s :
  sound G s -> typed_task task -> m = lock_starts \/ m = fault_starts -> keeps (start_timer m task) s.
Proof.
  intros S T Hm. apply keeps_guarded; [done|]. intros Hg. repeat prog_step.
  apply sound_updated; [done|]. destruct Hm; by subst.
Qed.
Lemma keeps_stop_timer m threshold event_type source operation task ctx s :
  sound G s -> typed_task task -> m = lock_starts \/ m = fault_starts -> (event_type, operation) ∈ measured ->
  0 <= source < 256 -> keeps (stop_timer m threshold event_type source operation task ctx) s.
Proof.
  intros S T Hm Hk Hs. unfold stop_timer. repeat prog_step; try by repeat apply sound_drop || apply sound_deleted.
  match goal with Hl : _ !! _ = Some _ |- _ => pose proof (sound_lookup _ _ _ _ _ S Hl) as Hg end.
  match goal with He : fresh _ _ |- _ => destruct He as [He1 He2 He3 _] end.
  pose proof (measured_range _ _ Hk) as [Ht Ho].
  apply sound_submit; [by apply sound_deleted|auto 10 with ebpfdb| |right; by split].
  cbn. rewrite He2. destruct Hm; by subst.
Qed.

(** ** Sockets *)
Lemma mix_range hash value : is_u64 (mix_socket_word hash value).
Proof. apply to_u64_range. Qed.
Lemma socket_key_range sk : is_u64 (socket_connection_key sk).
Proof. unfold socket_connection_key. cbv zeta. destruct (_ =? 0); [unfold is_u64; lia|]. apply mix_range. Qed.
Lemma with_socket_typed key dns p :
  typed_read p -> (forall k, key = Some k -> is_u64 k) -> typed_read (with_socket key dns p).
Proof. intros [] Hk. split; cbn; auto. destruct key; cbn; auto. Qed.

Lemma keeps_mark_dns_socket task sk s : sound G s -> typed_task task -> keeps (mark_dns_socket task sk) s.
Proof.
  intros S T. apply keeps_guarded; [done|]. intros Hg. repeat prog_step; try done.
  apply sound_modify; [done|]. intros v [Ht Hv]. split; [done|]. apply with_socket_typed; [done|].
  intros k [= <-]. apply socket_key_range.
Qed.

Lemma keeps_track_socket task sk s : sound G s -> typed_task task -> keeps (track_socket task sk) s.
Proof.
  intros S T. apply keeps_guarded; [done|]. intros Hg. cbv zeta. do 4 prog_step.
  set (pending := entries pending_reads s !! pid_tgid task). set (existing := entries tracked_sockets s !! socket_handle sk).
  assert (is_s32 (owner_file pending existing)) as Hfd.
  { unfold owner_file. destruct existing as [o|] eqn:He; destruct pending as [p|] eqn:Hp;
      try pose proof (tr_fd _ (proj2 (sound_lookup pending_reads _ _ _ _ S Hp)));
      try pose proof (ob_fd _ _ (sound_lookup tracked_sockets _ _ _ _ S He)); repeat case_match; auto; unfold is_s32; lia. }
  prog_step. apply mwp_mono with (Q := fun key s' => is_u64 key /\ s' = s).
  { destruct existing as [o|] eqn:He.
    - apply mwp_ret. split; [|done]. apply (sound_lookup tracked_sockets _ _ _ _ S He).
    - unfold fresh_key. repeat prog_step. split; [apply mix_range|done]. }
  intros key s' [Hk ->]. prog_step.
  apply mwp_mono with (Q := fun _ s' => sound G s').
  { repeat prog_step; [done|]. by apply sound_updated. }
  intros _ s' S'. prog_step; [|by apply mwp_ret]. prog_step.
  apply sound_modify; [done|]. intros v [Ht Hv]. split; [done|]. apply with_socket_typed; [done|].
  intros k Hsome. destruct (_ =? 0); [done|]. by injection Hsome as <-.
Qed.

Lemma keeps_submit_connection task sk operation duration s :
  sound G s -> typed_task task -> (EVENT_CONNECTION, operation) ∈ measured -> is_u64 duration ->
  keeps (submit_connection task sk operation duration) s.
Proof.
  intros S T Hk Hd. unfold submit_connection. repeat prog_step; try done; [by apply sound_drop|].
  match goal with Hl : _ !! _ = Some _ |- _ => destruct (sound_lookup _ _ _ _ _ S Hl) as [Ho1 Ho2 Ho3] end.
  match goal with He : fresh _ _ |- _ => destruct He as [He1 He2 He3 _] end.
  pose proof (measured_range _ _ Hk) as [Ht Ho].
  apply sound_submit; [done| |done|right; by split].
  apply typed_with_owner; auto 10 using typed_member with ebpfdb.
Qed.

(** Goes over a report of a connection. *)
Tactic Notation "reported" ident(s) ident(S) :=
  eapply mwp_mono; [apply keeps_submit_connection; [first [by apply sound_updated|by auto with ebpfdb]|assumption|listed|auto with ebpfdb]|];
  intros ? s S.
Lemma elapsed_range now started : is_u64 (elapsed now started).
Proof. unfold elapsed. destruct started; [apply to_u64_range|unfold is_u64; lia]. Qed.
Hint Resolve elapsed_range sound_updated sound_deleted : ebpfdb.

Lemma keeps_tcp_connect task sk s : sound G s -> typed_task task -> keeps (handle_tcp_connect task sk) s.
Proof.
  intros S T. apply keeps_guarded; [done|]. intros Hg. prog_step.
  eapply mwp_mono; [by apply keeps_track_socket|]. intros ? s1 S1. repeat prog_step.
  apply keeps_submit_connection; auto with ebpfdb; [by apply sound_updated|listed].
Qed.
Lemma keeps_tcp_state task sk newstate s : sound G s -> typed_task task -> keeps (handle_tcp_state config task sk newstate) s.
Proof.
  intros S T. unfold handle_tcp_state. prog_step. prog_step. prog_step; [by apply mwp_ret|]. prog_step. prog_step.
  prog_step; [prog_step; by apply sound_updated|]. prog_step. prog_step. prog_step.
  { unfold connection_established. cbv zeta. prog_step. eapply mwp_mono with (Q := fun _ s' => sound G s').
    - prog_step; [apply keeps_submit_connection; auto with ebpfdb; listed|].
      prog_step. apply sound_updated; [done|apply elapsed_range].
    - intros ? s1 S1. repeat prog_step; auto with ebpfdb. }
  prog_step; [|by apply mwp_ret].
  unfold connection_closed. cbv zeta. prog_step. prog_step. prog_step. eapply mwp_mono with (Q := fun _ s' => sound G s').
  { prog_step; [apply keeps_submit_connection; auto with ebpfdb; listed|by apply mwp_ret]. }
  intros ? s1 S1. prog_step. eapply mwp_mono with (Q := fun _ s' => sound G s').
  { prog_step; [apply keeps_submit_connection; auto with ebpfdb; listed|by apply mwp_ret]. }
  intros ? s2 S2. repeat prog_step; auto with ebpfdb.
Qed.
Lemma keeps_tcp_accept task sk s : sound G s -> typed_task task -> keeps (handle_tcp_accept task sk) s.
Proof.
  intros S T. destruct sk as [sk|]; [|by apply mwp_ret]. apply keeps_guarded; [done|]. intros Hg. prog_step.
  eapply mwp_mono; [by apply keeps_track_socket|]. intros ? s1 S1. prog_step. reported s2 S2. prog_step. prog_step. prog_step.
  - prog_step. eapply mwp_mono.
    { apply keeps_submit_connection; [done..|listed|].
      match goal with Hl : _ = Some _ |- _ => by apply (sound_lookup completed_handshakes _ _ _ _ S2 Hl) end. }
    intros ? s3 S3. prog_step. by apply sound_deleted.
  - apply keeps_submit_connection; auto with ebpfdb; listed.
Qed.
Lemma keeps_tcp_close task sk s : sound G s -> typed_task task -> keeps (handle_tcp_close task sk) s.
Proof.
  intros S T. unfold handle_tcp_close. do 6 prog_step. prog_step; [apply mwp_ret; auto with ebpfdb|].
  prog_step. reported s1 S1. repeat prog_step. auto with ebpfdb.
Qed.
Lemma keeps_tcp_rtt task sk s : sound G s -> typed_task task -> keeps (handle_tcp_rtt config task sk) s.
Proof.
  intros S T. unfold handle_tcp_rtt. cbv zeta. prog_step. prog_step. prog_step; [by apply mwp_ret|]. do 4 prog_step.
  prog_step; [by apply mwp_ret|]. prog_step. prog_step. prog_step. reported s1 S1.
  prog_step; [apply keeps_submit_connection; auto with ebpfdb; listed|by apply mwp_ret].
Qed.
Lemma keeps_if_tracked sk m s : sound G s -> keeps m s -> keeps (if_tracked sk m) s.
Proof. intros S Hm. unfold if_tracked. prog_step. prog_step. prog_step; [done|by apply mwp_ret]. Qed.


(** ** Scheduler and processes *)
Lemma keeps_sched_switch task prev next c s :
  sound G s -> typed_task task -> length c = 16%nat -> keeps (handle_sched_switch config task prev next c) s.
Proof.
  intros S T Hc. unfold handle_sched_switch. cbv zeta. do 4 prog_step. prog_step.
  eapply mwp_mono with (Q := fun _ s' => sound G s').
  { prog_step; [prog_step; by apply sound_updated|by apply mwp_ret]. }
  intros ? s1 S1. repeat prog_step; auto with ebpfdb; [by apply sound_drop, sound_deleted|].
  match goal with Ht : entries target_threads _ !! _ = Some _ |- _ => pose proof (sound_lookup target_threads _ _ _ _ S1 Ht) as Hg end.
  match goal with He : fresh _ _ |- _ => destruct He as [He1 He2 He3 _] end.
  apply sound_submit; [auto with ebpfdb| |done|right; split; [listed|done]].
  apply typed_with_thread; auto 10 using typed_member with ebpfdb.
Qed.
Lemma keeps_submit_process task operation s :
  sound G s -> typed_task task -> tgid_of task ∈ G -> (EVENT_PROCESS, operation) ∈ measured ->
  keeps (submit_process task operation) s.
Proof.
  intros S T Hg Hk. unfold submit_process. repeat prog_step; [by apply sound_drop|].
  match goal with He : fresh _ _ |- _ => destruct He as [He1 He2 He3 _] end.
  pose proof (measured_range _ _ Hk) as [Ht Ho].
  apply sound_submit; [done|auto with ebpfdb|cbn; by rewrite He2|right; by split].
Qed.
Lemma keeps_process_exec task s :
  sound G s -> typed_task task -> (forall c, comm task = Some c -> is_mongodb_comm c = true -> tgid_of task ∈ G) ->
  keeps (handle_process_exec task) s.
Proof.
  intros S T Hc. unfold handle_process_exec. destruct (comm task) as [c|] eqn:Hcomm; [|by apply mwp_ret].
  destruct (is_mongodb_comm c) eqn:Hm; [|by apply mwp_ret]. specialize (Hc _ eq_refl Hm). cbn [negb].
  do 4 prog_step. apply keeps_submit_process; [|done|done|listed]. by repeat apply sound_updated.
Qed.
Lemma keeps_process_exit task s : sound G s -> typed_task task -> keeps (handle_process_exit task) s.
Proof.
  intros S T. unfold handle_process_exit. do 4 prog_step. prog_step; [apply mwp_ret; auto with ebpfdb|].
  match goal with Hb : _ || negb _ = false |- _ => apply orb_false_iff in Hb as [_ Ht%negb_false_iff] end.
  prog_step. eapply mwp_mono.
  { apply keeps_submit_process; [auto with ebpfdb|done| |listed]. eapply target_member; [exact S|exact Ht]. }
  intros ? s1 S1. prog_step. by apply sound_deleted.
Qed.
Lemma keeps_cpu_sample task s : sound G s -> typed_task task -> keeps (handle_cpu_sample task) s.
Proof.
  intros S T. apply keeps_guarded; [done|]. intros Hg. do 2 prog_step; [by apply mwp_ret, sound_drop|].
  prog_step. apply (mwp_host_law _ is_s64); [apply typed_stackid|]. intros user Hu.
  prog_step. apply (mwp_host_law _ is_s64); [apply typed_stackid|]. intros kernel _. prog_step.
  match goal with He : fresh _ _ |- _ => destruct He as [He1 He2 He3 _] end.
  apply sound_submit; [done| |cbn; by rewrite He2|right; split; [listed|done]].
  apply typed_with_file; auto 10 with ebpfdb.
Qed.
End kept.


(** * Runs *)

(** The processes a probe marks *)
Definition marks (task : Task) (probe : Probe) : list Z :=
  match probe with
  | mark_target tgid => [tgid]
  | sched_process_exec =>
      match comm task with
      | Some c => if is_mongodb_comm c then [tgid_of task] else []
      | None => []
      end
  | _ => []
  end.
Definition marked (l : list (Task * Probe)) : list Z := l ≫= fun '(task, probe) => marks task probe.
Definition typed_probe (probe : Probe) : Prop :=
  match probe with
  | sys_enter _ _ _ arg2 => is_u64 arg2
  | sys_exit _ ret => is_s64 ret
  | ssl_call _ _ ctx => typed_regs ctx
  | sched_switch _ _ c => length c = 16%nat
  | mark_target tgid => is_u32 tgid
  | _ => True
  end.
Definition typed_run (l : list (Task * Probe)) : Prop := Forall (fun '(task, probe) => typed_task task /\ typed_probe probe) l.

Lemma marks_typed task probe : typed_task task -> typed_probe probe -> Forall is_u32 (marks task probe).
Proof.
  intros T P. destruct probe; cbn in *; try by constructor.
  - destruct (comm task) as [c|]; [|by constructor]. destruct (is_mongodb_comm c); [|by constructor].
    constructor; [by apply tgid_of_range|by constructor].
Qed.

Lemma fire_sound G task probe s :
  Forall is_u32 G -> sound G s -> typed_task task -> typed_probe probe -> marks task probe ⊆ G ->
  mwp (World := World) (fire arch config task probe) s (fun _ s' => sound G s').
Proof.
  intros HG S T P Hm. destruct probe; cbn [fire typed_probe marks] in *.
  - by apply keeps_sys_enter.
  - by apply keeps_sys_exit.
  - destruct writing, is_ex; apply keeps_ssl_enter; auto.
  - destruct writing, is_ex; apply keeps_ssl_exit; auto.
  - unfold handle_ssl_set_fd. apply keeps_guarded; [done|]. intros Hg. prog_step. apply sound_updated; auto with ebpfdb.
    apply to_s32_range.
  - unfold handle_ssl_free. prog_step. by apply sound_deleted.
  - apply keeps_start_timer; auto.
  - apply keeps_stop_timer; auto; listed.
  - destruct sending, v6; by apply keeps_mark_dns_socket.
  - destruct sending; by apply keeps_track_socket.
  - by apply keeps_tcp_connect.
  - by apply keeps_tcp_state.
  - by apply keeps_tcp_accept.
  - by apply keeps_tcp_close.
  - by apply keeps_tcp_rtt.
  - apply keeps_if_tracked; [done|]. apply keeps_submit_connection; auto with ebpfdb; listed.
  - apply keeps_if_tracked; [done|]. prog_step. eapply mwp_mono.
    { apply keeps_submit_connection; [done..|listed|auto with ebpfdb]. }
    intros ? s1 S1. prog_step. by apply sound_updated.
  - apply keeps_if_tracked; [done|]. apply keeps_submit_connection; auto with ebpfdb; listed.
  - by apply keeps_sched_switch.
  - apply keeps_process_exec; [done..|]. intros c Hc Hmongo. rewrite Hc, Hmongo in Hm. apply Hm. by left.
  - by apply keeps_process_exit.
  - apply keeps_start_timer; auto.
  - apply keeps_stop_timer; auto; listed.
  - by apply keeps_cpu_sample.
  - prog_step. apply sound_updated; [done|]. apply Hm. by left.
Qed.

Lemma run_sound G l s :
  Forall is_u32 G -> sound G s -> typed_run l ->
  mwp (World := World) (run arch config l) s (fun _ s' => sound (marked l ++ G) s').
Proof.
  revert G s. induction l as [|[task probe] l IH]; intros G s HG S Hl; [by apply mwp_ret|].
  apply Forall_cons_1 in Hl as [HTP Hl']. destruct HTP as [T P]. cbn [run]. apply mwp_bind.
  assert (Forall is_u32 (marks task probe ++ G)) as HG' by (apply Forall_app; auto using marks_typed).
  eapply mwp_mono.
  { apply (fire_sound (marks task probe ++ G)); [done| |done|done|set_solver]. eapply sound_mono; [|exact S]. set_solver. }
  intros ? s' S'. eapply mwp_mono; [by apply IH|]. intros ? s'' S''. eapply sound_mono; [|exact S''].
  unfold marked. cbn. set_solver.
Qed.

Lemma records_kept l w :
  typed_run l -> Forall (good_record (marked l)) (ring (fst (snd (run arch config l (no_maps, w))))).
Proof.
  intros Hl. assert (sound (marked l ++ []) (fst (snd (run arch config l (no_maps, w))))) as [_ R].
  { apply (run_sound [] l no_maps (Forall_nil_2 _) sound_no_maps Hl w). }
  by rewrite app_nil_r in R.
Qed.

(** C6: Whatever the probes are called with and the kernel answers, every record the
    programs submit is read back by the observer: it names a process that was marked
    as MongoDB, by its name or by user space, before the record was submitted (runs
    may be cut off anywhere); and it is either one of the measurements, with no data
    of the process, or a chunk of captured data of at most 1024 bytes, at most
    [capture_bytes], and at most what the call moved. *)
Theorem records_confined l w :
  typed_run l ->
  let s := fst (snd (run arch config l (no_maps, w))) in
  Forall (fun bs => exists e, from_ring_bytes bs = Some e /\ raw_tgid e ∈ marked l /\ (is_chunk e \/ is_measurement e)) (ring s).
Proof.
  intros Hl. cbv zeta. eapply Forall_impl; [by apply records_kept|].
  intros bs (e & -> & T & Hg & Hk). exists e. by rewrite (from_ring_bytes_spec _ T).
Qed.
End sound.
