(* ===== verification/EbpfCalls.v ===== *)
(** System calls of many threads at once: what the eBPF programs send for the call of
    one thread does not depend on what the others do, and a socket keeps its key. *)
From Stdlib Require Import ZArith Lia ZifyBool Strings.Byte.
From stdpp Require Import base list gmap.
From S2P Require Import Prelude Methods Kernel Ebpf EbpfSpec.

Local Open Scope Z_scope.

(** * What a firing leaves alone *)

(** The maps, told apart *)
Definition tag {V} (m : bpf_map V) : nat :=
  match m with
  | target_tgids => 0 | target_threads => 1 | pending_reads => 2 | syscall_starts => 3 | lock_starts => 4
  | fault_starts => 5 | offcpu_starts => 6 | tracked_sockets => 7 | rtt_last_emit => 8 | handshake_starts => 9
  | completed_handshakes => 10 | peer_resets_seen => 11 | tls_depth => 12 | ssl_fds => 13
  end%nat.
(** The maps that are keyed by thread *)
Definition of_threads {V} (m : bpf_map V) : bool :=
  match m with
  | pending_reads | syscall_starts | lock_starts | fault_starts | tls_depth => true
  | _ => false
  end.

(** The entry of a map under a key is what it was. *)
Definition same_entry {V} (m : bpf_map V) (key : Z) (s s' : Maps) : Prop := entries m s' !! key = entries m s !! key.
#[export] Instance same_entry_refl {V} (m : bpf_map V) key : Reflexive (same_entry m key).
Proof. done. Qed.
#[export] Instance same_entry_trans {V} (m : bpf_map V) key : Transitive (same_entry m key).
Proof. intros s s' s'' H H'. unfold same_entry in *. congruence. Qed.

Lemma same_entry_set {V W} (m : bpf_map V) (m' : bpf_map W) key l s :
  (tag m' = tag m -> forall k, k = key -> l !! k = entries m' s !! k) -> same_entry m key s (set_entries m' l s).
Proof. unfold same_entry. intros Hl. destruct m, m'; try done; by apply (Hl eq_refl key). Qed.
Lemma same_entry_updated {V W} (m : bpf_map V) (m' : bpf_map W) key k v s :
  (tag m' = tag m -> k <> key) -> same_entry m key s (updated m' k v s).
Proof.
  intros Hk. unfold updated. destruct (has_room _ _ _); [|done]. apply same_entry_set. intros Ht ? ->.
  by apply lookup_insert_ne, Hk.
Qed.
Lemma same_entry_deleted {V W} (m : bpf_map V) (m' : bpf_map W) key k s :
  (tag m' = tag m -> k <> key) -> same_entry m key s (deleted m' k s).
Proof. intros Hk. apply same_entry_set. intros Ht ? ->. by apply lookup_delete_ne, Hk. Qed.
Lemma same_entry_modified {V W} (m : bpf_map V) (m' : bpf_map W) key k f s :
  (tag m' = tag m -> k <> key) -> same_entry m key s (set_entries m' (alter f k (entries m' s)) s).
Proof. intros Hk. apply same_entry_set. intros Ht ? ->. by apply lookup_alter_ne, Hk. Qed.
Lemma same_entry_drop {V} (m : bpf_map V) key n s : same_entry m key s (set_dropped_events n s).
Proof. unfold same_entry. by rewrite entries_drop. Qed.
Lemma same_entry_submit {V} (m : bpf_map V) key bs s : same_entry m key s (submit_event bs s).
Proof. unfold same_entry. by rewrite entries_submit. Qed.
#[export] Hint Resolve same_entry_drop same_entry_submit : ebpfdb.

(** Unfolds the helpers and follows every branch; what is left are writes. *)
Ltac stay :=
  repeat first
    [ within_step
    | progress unfold reserve_event, count_drop, ringbuf_submit, ringbuf_discard, map_lookup, is_target_tgid, map_update,
        map_delete, map_modify, submit_chunk, submit_chunk_limited, remember_read, start_latency, submit_read,
        submit_latency, reported_length, submit_connection, submit_process, fresh_key, start_timer, stop_timer, if_tracked,
        exit_data, exit_timed, mark_dns_socket, ssl_enter, ssl_exit, connection_established,
        connection_closed
    | progress cbv zeta ].

Ltac open_program :=
  cbn [fire];
  unfold handle_sys_enter, handle_sys_exit, handle_ssl_read_enter, handle_ssl_write_enter, handle_ssl_read_ex_enter,
    handle_ssl_write_ex_enter, handle_ssl_read_exit, handle_ssl_write_exit, handle_ssl_read_ex_exit,
    handle_ssl_write_ex_exit, handle_ssl_set_fd, handle_ssl_free, handle_mutex_lock_enter, handle_mutex_lock_exit,
    handle_udp_sendmsg, handle_udp_recvmsg, handle_udpv6_sendmsg, handle_udpv6_recvmsg, handle_tcp_sendmsg,
    handle_tcp_recvmsg, handle_tcp_connect, handle_tcp_state, handle_tcp_accept, handle_tcp_close, handle_tcp_rtt,
    handle_tcp_retransmit, handle_tcp_reset, handle_tcp_active_reset, handle_sched_switch, handle_process_exec,
    handle_process_exit, handle_page_fault_enter, handle_page_fault_exit, handle_cpu_sample.

Section calls.
Context {World : Type} `{Machine World}.
Context (arch : Arch) (config : rodata).

(** Chunks of a vector write nothing but records and the count of the lost ones. *)
Section vectors.
Context (R : Maps -> Maps -> Prop) `{!Reflexive R} `{!Transitive R}.
Context (R_drop : forall n s, R s (set_dropped_events n s)) (R_submit : forall bs s, R s (submit_event bs s)).

Lemma within_vector_loop todo task user_iov iov_count index remaining budget fd direction source connection_key event_type :
  within (World := World) R
    (vector_loop todo task user_iov iov_count index remaining budget fd direction source connection_key event_type).
Proof.
  revert index remaining budget. induction todo as [|todo IH]; intros index remaining budget; cbn [vector_loop]; stay; auto.
Qed.
Lemma within_vector_chunks task pointer count is_msghdr actual fd direction source connection_key event_type :
  within (World := World) R
    (submit_vector_chunks config task pointer count is_msghdr actual fd direction source connection_key event_type).
Proof. unfold submit_vector_chunks. stay; auto using within_vector_loop. Qed.
End vectors.

(** ** Threads: what a thread has pending is changed by its own probes only. *)
Lemma fire_other_thread {V : Set} (m : bpf_map V) t task probe :
  of_threads m = true -> pid_tgid task <> t ->
  within (World := World) (same_entry m t) (fire arch config task probe).
Proof.
  intros Hm Ht. destruct probe; open_program; unfold track_socket; stay.
  all: try (apply (within_vector_chunks _); auto with ebpfdb).
  all: auto with ebpfdb.
  all: first [apply same_entry_updated | apply same_entry_deleted | apply same_entry_modified];
    intros Htag; first [done | by destruct m].
Qed.

(** ** Processes and sockets *)
Definition targeted (tgid : Z) (s : Maps) : Prop := is_Some (target_tgids_map s !! tgid).
Definition keyed (handle key : Z) (s : Maps) : Prop :=
  exists owner, tracked_sockets_map s !! handle = Some owner /\ owner_connection_key owner = key.

(** A write to another map, or under another key *)
Lemma stable_same_entry {V : Set} (m : bpf_map V) key (P : option V -> Prop) s s' :
  same_entry m key s s' -> stable (fun s => P (entries m s !! key)) s s'.
Proof. intros He. unfold stable. by rewrite He. Qed.
Lemma targeted_same tgid s s' : same_entry target_tgids tgid s s' -> stable (targeted tgid) s s'.
Proof. apply (stable_same_entry target_tgids tgid is_Some). Qed.
Lemma keyed_same handle key s s' : same_entry tracked_sockets handle s s' -> stable (keyed handle key) s s'.
Proof.
  apply (stable_same_entry tracked_sockets handle (fun o => exists owner, o = Some owner /\ owner_connection_key owner = key)).
Qed.

(** [updated] never takes an entry away. *)
Lemma updated_target tgid k v s : stable (targeted tgid) s (updated target_tgids k v s).
Proof.
  unfold updated. destruct (has_room _ _ _); [|done]. intros Hs. unfold targeted. cbn.
  destruct (decide (k = tgid)) as [->|Hne]; [rewrite lookup_insert_eq; by eexists|by rewrite lookup_insert_ne].
Qed.
Lemma updated_known {V : Set} (m : bpf_map V) k v s :
  is_Some (entries m s !! k) -> entries m (updated m k v s) = <[k := v]> (entries m s).
Proof.
  intros [o Ho]. unfold updated, has_room. rewrite Ho. cbn [is_some orb]. by rewrite entries_set_same.
Qed.

(** A probe of its own process that ends it, and one that closes the socket *)
Definition ends_process (tgid : Z) (task : Task) (probe : Probe) : Prop :=
  probe = sched_process_exit /\ pid_of task = tgid_of task /\ tgid_of task = tgid.
Definition closes (handle : Z) (probe : Probe) : Prop := exists sk, probe = tcp_close sk /\ sk_address sk = handle.

(** What is left after [stay]: writes elsewhere *)
Ltac elsewhere same :=
  first
    [ apply within_vector_chunks; [exact _|exact _|intros; apply same, same_entry_drop|intros; apply same, same_entry_submit]
    | apply same; first [apply same_entry_updated; by intros | apply same_entry_deleted; by intros
        | apply same_entry_modified; by intros | apply same_entry_drop | apply same_entry_submit] ].

Lemma fire_targeted tgid task probe :
  ~ ends_process tgid task probe -> within (World := World) (stable (targeted tgid)) (fire arch config task probe).
Proof.
  intros Hn. destruct probe; open_program; unfold track_socket.
  21: destruct (pid_of task =? tgid_of task) eqn:Hpid; cbn [negb orb].
  all: stay; try elsewhere targeted_same; try apply updated_target.
  apply targeted_same, same_entry_deleted. intros _ <-. apply Hn. split; [done|]. split; [lia|done].
Qed.

(** A socket that is known keeps its key when it is seen again, by any thread. *)
Lemma keyed_track_socket handle key task sk :
  within (World := World) (stable (keyed handle key)) (track_socket task sk).
Proof.
  unfold track_socket. destruct (decide (socket_handle sk = handle)) as [Heq|Hne]; cycle 1.
  { stay; elsewhere keyed_same. }
  intros s. map_step. map_step. map_step; [by apply mwp_ret|]. cbv zeta. rewrite Heq. do 5 map_step.
  apply mwp_mono with (Q := fun connection_key s' => s' = s /\ (keyed handle key s -> connection_key = key)).
  { destruct (entries tracked_sockets s !! handle) as [o|] eqn:Ho.
    - apply mwp_ret. split; [done|]. intros (o' & Ho' & <-). cbn in Ho. congruence.
    - unfold fresh_key. map_step. apply mwp_host. intros now. apply mwp_ret. split; [done|].
      intros (o' & Ho' & _). cbn in Ho. congruence. }
  intros connection_key s1 [-> Hkey]. map_step.
  apply mwp_mono with (Q := fun _ s' => stable (keyed handle key) s s').
  { map_step; [by apply mwp_ret|]. map_step. intros Hs. pose proof (Hkey Hs) as ->. destruct Hs as (o & Ho & <-).
    eexists. change tracked_sockets_map with (entries tracked_sockets).
    rewrite updated_known by (by exists o). by rewrite lookup_insert_eq. }
  intros ? s2 Hs. map_step; [|by apply mwp_ret]. map_step. etransitivity; [exact Hs|].
  by apply keyed_same, same_entry_modified.
Qed.
Lemma fire_keyed handle key task probe :
  ~ closes handle probe -> within (World := World) (stable (keyed handle key)) (fire arch config task probe).
Proof.
  intros Hn. destruct probe; open_program; try apply keyed_track_socket; stay; try apply keyed_track_socket;
    try elsewhere keyed_same.
  all: apply keyed_same, same_entry_deleted; intros _ <-; apply Hn; by eexists.
Qed.

(** * A call that moves data *)

(** A probe that does not touch the call of thread [t] on the socket [handle]: it
    fires on another thread, does not end the process, and does not close the socket. *)
Definition other (t handle : Z) '((task, probe) : Task * Probe) : Prop :=
  pid_tgid task <> t /\ ~ ends_process (Z.shiftr t 32) task probe /\ ~ closes handle probe.
(** A thread of a marked process is in a call on a known socket, inside a call of
    OpenSSL if [depth] says so. *)
Record in_call (t handle key : Z) (depth : option Z) (p : pending_read) (s : Maps) : Prop := {
  ic_pending : pending_reads_map s !! t = Some p;
  ic_depth : tls_depth_map s !! t = depth;
  ic_target : targeted (Z.shiftr t 32) s;
  ic_socket : keyed handle key s
}.

Lemma fire_other t handle key depth p task probe :
  other t handle (task, probe) -> within (World := World) (stable (in_call t handle key depth p)) (fire arch config task probe).
Proof.
  intros (Ht & Hends & Hcloses) s.
  eapply mwp_mono.
  { apply mwp_and; [apply (fire_other_thread pending_reads t); [done|exact Ht]|].
    apply mwp_and; [apply (fire_other_thread tls_depth t); [done|exact Ht]|].
    apply mwp_and; [by apply (fire_targeted (Z.shiftr t 32))|by apply (fire_keyed handle key)]. }
  intros ? s' (Hp & Hd & Htarget & Hkey) [H1 H2 H3 H4]. unfold same_entry in *. cbn in Hp, Hd.
  split; [congruence|congruence|auto..].
Qed.
Lemma run_other t handle key depth p l :
  Forall (other t handle) l -> within (World := World) (stable (in_call t handle key depth p)) (run arch config l).
Proof.
  induction 1 as [|[task probe] l Ho _ IH]; cbn [run]; [by apply (within_ret _)|].
  refine (within_bind _ _ _ _ _); [by apply fire_other|by intros _].
Qed.

Lemma run_app l1 l2 c : run arch config (l1 ++ l2) c = (let! _ := run arch config l1 in run arch config l2) c.
Proof.
  revert c. induction l1 as [|[task probe] l1 IH]; intros c; [done|]. cbn [run app]. unfold mbind, state_bind in *.
  destruct (fire arch config task probe c) as [[] c']. by rewrite IH.
Qed.
Lemma mwp_run_app l1 l2 s (Q : unit -> Maps -> Prop) :
  mwp (run arch config l1) s (fun _ s' => mwp (World := World) (run arch config l2) s' Q) ->
  mwp (World := World) (run arch config (l1 ++ l2)) s Q.
Proof.
  intros Hl w. rewrite run_app. by apply mwp_bind.
Qed.

(** What the entry of a call leaves, and what the kernel's use of the socket makes of it *)
Definition entered (fd direction : Z) (buffer requested : Z) : pending_read := {|
  pr_buffer := buffer; pr_length_pointer := 0; pr_requested := requested; pr_connection_key := to_u32 fd; pr_fd := fd;
  pr_source := SOURCE_SYSCALL; pr_vector_kind := 0; pr_is_ex := 0; pr_direction := direction; pr_is_network := 0;
  pr_protocol := 0
|}.
Lemma call_entered t handle key task id call direction arg0 arg1 arg2 s :
  pid_tgid task = t -> syscall_of arch id = Some call -> data_call call = Some (0, direction) ->
  targeted (Z.shiftr t 32) s -> tls_depth_map s !! t = None -> has_room pending_reads t s = true -> keyed handle key s ->
  mwp (World := World) (fire arch config task (sys_enter id arg0 arg1 arg2)) s
    (fun _ s' => in_call t handle key None (entered (to_s32 arg0) direction arg1 arg2) s').
Proof.
  intros Ht Hid Hcall Htarget Hclear Hroom Hkey. cbn [fire]. unfold handle_sys_enter. rewrite Hid, Hcall.
  assert (tgid_of task = Z.shiftr t 32) as Htgid by (unfold tgid_of; by rewrite Ht).
  map_step. map_step. rewrite Htgid. destruct Htarget as [o Ho]. rewrite Ho. cbn [is_some negb].
  map_step. map_step. map_step. map_step.
  rewrite Ht.
  set (s1 := updated target_threads (pid_of task) (Z.shiftr t 32) s).
  assert (forall (V : Set) (m : bpf_map V) k, tag target_threads <> tag m -> same_entry m k s s1) as Hsame.
  { intros V m k Htag. by apply same_entry_updated. }
  assert (tls_depth_map s1 !! t = None) as Hclear1 by (rewrite <-Hclear; by apply (Hsame _ tls_depth)).
  cbn [entries]. rewrite Hclear1. cbn [is_some]. unfold remember_read. map_step. rewrite Ht.
  assert (has_room pending_reads t s1 = true) as Hroom1.
  { unfold s1, updated. by destruct (has_room target_threads _ _). }
  unfold updated. rewrite Hroom1. split.
  - cbn. by rewrite lookup_insert_eq.
  - done.
  - unfold targeted. exists o. rewrite <-Ho. by apply (Hsame _ target_tgids).
  - eapply keyed_same; [|exact Hkey]. etransitivity; [by apply (Hsame _ tracked_sockets)|]. by apply same_entry_set.
Qed.
Lemma call_on_socket t handle key depth task sending sk p s :
  pid_tgid task = t -> sk_address sk = handle -> handle <> 0 -> in_call t handle key depth p s ->
  mwp (World := World) (fire arch config task (tcp_message sending sk)) s
    (fun _ s' => in_call t handle key depth (with_socket (Some key) false p) s').
Proof.
  intros Ht Hsk Hh [Hp Hclear Htarget (owner & Howner & Hkey)].
  assert (fire arch config task (tcp_message sending sk) = track_socket (World := World) task sk) as -> by (by destruct sending).
  assert (tgid_of task = Z.shiftr t 32) as Htgid by (unfold tgid_of; by rewrite Ht).
  unfold track_socket. map_step. map_step. rewrite Htgid, Ht.
  pose proof Htarget as [o Ho]. rewrite Ho. cbn [is_some negb]. cbv zeta.
  do 4 map_step. unfold socket_handle. rewrite Hsk. cbn [entries]. rewrite Hp, Howner.
  map_step. map_step. rewrite Hkey. replace (handle =? 0) with false by lia. map_step. map_step. map_step.
  set (s1 := updated tracked_sockets handle _ s).
  assert (pending_reads_map s1 !! t = Some p) as Hp1.
  { rewrite <-Hp. by apply (same_entry_updated pending_reads tracked_sockets). }
  split.
  - cbn. rewrite lookup_alter_eq. by rewrite Hp1.
  - cbn. rewrite <-Hclear. by apply (same_entry_updated tls_depth tracked_sockets).
  - unfold targeted. cbn. exists o. rewrite <-Ho. by apply (same_entry_updated target_tgids tracked_sockets).
  - eexists. cbn. change tracked_sockets_map with (entries tracked_sockets).
    unfold s1. rewrite updated_known by (by exists owner). by rewrite lookup_insert_eq.
Qed.

(** What becomes of a chunk: the ring buffer is full, and the loss counted; or the
    memory cannot be read; or the record of the bytes at [buffer] is submitted. *)
Record chunk (task : Task) (fd direction source key event_type actual captured : Z) (data : bytes) (e : KernelEvent) : Prop := {
  ch_type : raw_event_type e = event_type;
  ch_direction : raw_direction e = direction;
  ch_source : raw_source e = source;
  ch_key : raw_connection_key e = key;
  ch_fd : raw_fd e = fd;
  ch_pid : raw_pid e = pid_of task;
  ch_tgid : raw_tgid e = tgid_of task;
  ch_bytes : raw_bytes e = actual;
  ch_captured : raw_captured_len e = captured;
  ch_data : take (Z.to_nat captured) (raw_data e) = data
}.
Definition sent (task : Task) (buffer fd direction source key event_type actual captured : Z) (s s' : Maps) : Prop :=
  (ring s' = ring s /\ dropped_events s' = to_u64 (dropped_events s + 1) /\ exists w, fst (ringbuf_reserve w) = None) \/
  (ring s' = ring s /\ dropped_events s' = dropped_events s /\ exists w, fst (probe_read_user buffer captured w) = None) \/
  (dropped_events s' = dropped_events s /\ exists e data w, ring s' = ring s ++ [ring_bytes e] /\
    fst (probe_read_user buffer captured w) = Some data /\
    chunk task fd direction source key event_type actual captured data e).

Lemma submit_chunk_sent `{!TypedMachine} task buffer requested actual fd direction source key event_type limit s :
  0 < actual <= i64_max -> buffer <> 0 -> 0 < limit ->
  mwp (World := World)
    (submit_chunk_limited task buffer requested actual fd direction source key event_type limit) s
    (fun _ s' => sent task buffer fd direction source key event_type actual (Z.min actual (Z.min limit MAX_CAPTURE_BYTES)) s s'
      /\ forall (V : Set) (m : bpf_map V), entries m s' = entries m s).
Proof.
  intros Ha Hb Hl. unfold submit_chunk_limited, reserve_event.
  replace ((actual <=? 0) || (buffer =? 0) || (limit =? 0)) with false by lia.
  rewrite to_u64_id by (unfold is_u64; lia). rewrite captured_of_min by lia. set (captured := Z.min actual _).
  assert (0 < captured) by (unfold captured, MAX_CAPTURE_BYTES; lia).
  map_step. map_step. apply (mwp_host_law _ (fun o => exists w, fst (ringbuf_reserve w) = o)); [by eexists|].
  intros [memory|] Hmemory.
  2: { unfold count_drop. do 3 map_step. map_step. split; [left; split; [done|]; split; [done|exact Hmemory]|].
       intros V m. apply entries_drop. }
  do 4 map_step. apply (mwp_host_law _ (fun o => exists w, fst (probe_read_user buffer captured w) = o)); [by eexists|].
  intros [data|] [w Hdata]; map_step.
  - split; [right; right|intros V m; apply entries_submit]. split; [done|].
    eexists _, data, w. split; [done|]. split; [done|]. split; try done.
    + cbn. by rewrite to_u64_id by (unfold is_u64; lia).
    + cbn. pose proof (typed_user _ _ _ _ Hdata) as Hlen. rewrite <-Hlen. unfold len. rewrite Nat2Z.id. apply take_app_length.
  - split; [right; left|done]. split; [done|]. split; [done|]. by exists w.
Qed.

Lemma call_returned `{!TypedMachine} t handle key task id call vector fd direction buffer requested ret s :
  pid_tgid task = t -> syscall_of arch id = Some call -> data_call call = Some vector ->
  0 < ret <= i64_max -> 0 < requested <= u64_max -> buffer <> 0 -> 0 < capture_bytes config ->
  in_call t handle key None (with_socket (Some key) false (entered fd direction buffer requested)) s ->
  mwp (World := World) (fire arch config task (sys_exit id ret)) s (fun _ s' =>
    sent task buffer fd direction SOURCE_SYSCALL key EVENT_IO_CHUNK (Z.min ret requested)
      (Z.min (Z.min ret requested) (Z.min (capture_bytes config) MAX_CAPTURE_BYTES)) s s' /\
    pending_reads_map s' !! t = None).
Proof.
  intros Ht Hid Hcall Hret Hreq Hbuf Hcap [Hp Hclear [o Ho] Hkey].
  assert (tgid_of task = Z.shiftr t 32) as Htgid by (unfold tgid_of; by rewrite Ht).
  cbn [fire]. unfold handle_sys_exit, exit_data, exit_timed. rewrite Hid. cbn [mbind option_bind]. rewrite Hcall.
  map_step. map_step. rewrite Htgid, Ho. cbn [is_some negb]. map_step. map_step. rewrite Ht. cbn [entries]. rewrite Hclear.
  cbn [is_some]. map_step. map_step. map_step. cbn [entries]. rewrite Hp. map_step. map_step.
  unfold submit_read, submit_chunk. cbn [with_socket entered pr_is_network pr_vector_kind pr_buffer pr_requested pr_fd
    pr_direction pr_source pr_connection_key default]. cbn [Z.eqb].
  assert (actual_of requested ret = Z.min ret requested) as ->.
  { unfold actual_of. rewrite to_u64_id by (unfold is_u64; lia). destruct (_ && _) eqn:E; [|lia].
    unfold to_s64. rewrite to_u64_id by (unfold is_u64; lia). unfold signed. change (2 ^ (64 - 1)) with 9223372036854775808.
    case_match; lia. }
  eapply mwp_mono; [apply submit_chunk_sent; lia|]. intros ? s1 [Hsent Hentries].
  map_step. map_step. assert (timed_call call = None) as -> by (by destruct call).
  destruct (entries syscall_starts s1 !! pid_tgid task); map_step; (split; [exact Hsent|]);
    change pending_reads_map with (entries pending_reads); rewrite Hentries; unfold deleted; rewrite entries_set_same;
    by rewrite lookup_delete_eq.
Qed.

(** C8: A call of one buffer, captured.  A thread of a marked process enters a system
    call that reads or writes one buffer, on a socket that the programs know; the
    thread is not inside a call of OpenSSL (whose system calls are skipped, since
    [tls_call_captured] takes their plaintext), and the table of calls under way has
    room for it (or the entry is not kept, and nothing is sent or counted).
    Whatever other threads do between the entry, the kernel's use of the socket and
    the return, short of ending the process or closing the socket, and with capture
    switched on, the return of a positive number sends one chunk, under the key that
    the socket has had since it became known, with the direction of the call and the
    number of bytes it moved, and with the bytes that the thread's buffer then holds,
    as many as the limits allow; or nothing, if the buffer cannot be read, or the
    ring buffer is full, which is counted.  Nothing is left pending. *)
Theorem call_captured `{!TypedMachine} t handle key task0 task1 task2 id call direction arg0 arg1 arg2 sending sk ret l1 l2 s :
  pid_tgid task0 = t -> pid_tgid task1 = t -> pid_tgid task2 = t ->
  syscall_of arch id = Some call -> data_call call = Some (0, direction) ->
  targeted (Z.shiftr t 32) s -> tls_depth_map s !! t = None -> has_room pending_reads t s = true ->
  keyed handle key s -> sk_address sk = handle -> handle <> 0 ->
  0 < ret <= i64_max -> 0 < arg2 <= u64_max -> arg1 <> 0 -> 0 < capture_bytes config ->
  Forall (other t handle) l1 -> Forall (other t handle) l2 ->
  mwp (World := World)
    (run arch config ((task0, sys_enter id arg0 arg1 arg2) :: l1 ++ (task1, tcp_message sending sk) :: l2)) s (fun _ s1 =>
  mwp (World := World) (fire arch config task2 (sys_exit id ret)) s1 (fun _ s2 =>
    sent task2 arg1 (to_s32 arg0) direction SOURCE_SYSCALL key EVENT_IO_CHUNK (Z.min ret arg2)
      (Z.min (Z.min ret arg2) (Z.min (capture_bytes config) MAX_CAPTURE_BYTES)) s1 s2 /\
    pending_reads_map s2 !! t = None)).
Proof.
  intros Ht0 Ht1 Ht2 Hid Hcall Htarget Hclear Hroom Hkey Hsk Hh Hret Hreq Hbuf Hcap Hl1 Hl2.
  cbn [run]. apply mwp_bind. eapply mwp_mono; [by eapply (call_entered t handle key)|]. intros ? s1 H1. apply mwp_run_app.
  eapply mwp_mono; [by apply (run_other t handle key)|]. intros ? s2 H2. specialize (H2 H1). cbn [run]. apply mwp_bind.
  eapply mwp_mono; [by eapply (call_on_socket t handle key)|]. intros ? s3 H3.
  eapply mwp_mono; [by apply (run_other t handle key)|]. intros ? s4 H4. specialize (H4 H3).
  by eapply call_returned.
Qed.

(** * Calls of OpenSSL *)

(** What may happen while a thread is in [SSL_read] or [SSL_write]: the probes of the
    others, and its own system calls and uses of the socket, which move encrypted
    bytes *)
Inductive inner (t handle : Z) : Task * Probe -> Prop :=
  | inner_other step : other t handle step -> inner t handle step
  | inner_enter task id arg0 arg1 arg2 : pid_tgid task = t -> inner t handle (task, sys_enter id arg0 arg1 arg2)
  | inner_exit task id ret : pid_tgid task = t -> inner t handle (task, sys_exit id ret)
  | inner_message task sending sk : pid_tgid task = t -> sk_address sk = handle ->
      inner t handle (task, tcp_message sending sk).
Definition own_message (t : Z) '((task, probe) : Task * Probe) : bool :=
  match probe with
  | tcp_message _ _ => pid_tgid task =? t
  | _ => false
  end.
Definition seen (key : Z) (used : bool) (p : pending_read) : pending_read := if used then with_socket (Some key) false p else p.

(** The own system calls of the thread send nothing and leave its call alone. *)
Lemma inner_call_silent t handle key d p task probe s :
  pid_tgid task = t -> (exists id arg0 arg1 arg2, probe = sys_enter id arg0 arg1 arg2) \/ (exists id ret, probe = sys_exit id ret) ->
  in_call t handle key (Some d) p s ->
  mwp (World := World) (fire arch config task probe) s
    (fun _ s' => in_call t handle key (Some d) p s' /\ ring s' = ring s /\ dropped_events s' = dropped_events s).
Proof.
  intros Ht Hprobe I. pose proof I as [Hp Hdepth [o Ho] Hkey].
  assert (tgid_of task = Z.shiftr t 32) as Htgid by (unfold tgid_of; by rewrite Ht).
  destruct Hprobe as [(id & arg0 & arg1 & arg2 & ->)|(id & ret & ->)]; cbn [fire];
    unfold handle_sys_enter, handle_sys_exit; map_step; map_step; rewrite Htgid, Ho; cbn [is_some negb].
  - map_step. map_step. rewrite Ht. map_step. map_step.
    assert (forall (V : Set) (m : bpf_map V) k, tag target_threads <> tag m ->
      same_entry m k s (updated target_threads (pid_of task) (Z.shiftr t 32) s)) as Hsame.
    { intros V m k Htag. by apply same_entry_updated. }
    rewrite (Hsame _ tls_depth t) by done. cbn [entries]. rewrite Hdepth. cbn [is_some]. map_step.
    split; [split|].
    + rewrite <-Hp. by apply (Hsame _ pending_reads).
    + rewrite <-Hdepth. by apply (Hsame _ tls_depth).
    + exists o. rewrite <-Ho. by apply (Hsame _ target_tgids).
    + by apply (keyed_same _ _ _ _ (Hsame _ tracked_sockets handle ltac:(done))).
    + unfold updated. destruct (has_room _ _ _); [|done]. by rewrite ring_set, dropped_set.
  - map_step. map_step. rewrite Ht. cbn [entries]. rewrite Hdepth. cbn [is_some]. by map_step.
Qed.

Lemma run_inner t handle key d p l :
  handle <> 0 -> Forall (inner t handle) l -> forall used s, in_call t handle key (Some d) (seen key used p) s ->
  mwp (World := World) (run arch config l) s
    (fun _ s' => in_call t handle key (Some d) (seen key (used || existsb (own_message t) l) p) s').
Proof.
  intros Hh. induction 1 as [|[task probe] l Hi _ IH]; intros used s I; cbn [run existsb].
  { rewrite orb_false_r. by apply mwp_ret. }
  apply mwp_bind. rewrite orb_assoc. eapply mwp_mono with
    (Q := fun _ s' => in_call t handle key (Some d) (seen key (used || own_message t (task, probe)) p) s');
    [|intros ? s' I'; by apply IH].
  inversion Hi as [? Ho|? id arg0 arg1 arg2 Ht|? id ret Ht|? sending sk Ht Hsk]; subst.
  - replace (own_message t (task, probe)) with false.
    + rewrite orb_false_r. eapply mwp_mono; [by apply (fire_other t handle key (Some d))|]. intros ? s' Hs. by apply Hs.
    + destruct Ho as [Hne _]. destruct probe; cbn; [..|lia]; try done. cbn in Hne. lia.
  - cbn [own_message]. rewrite orb_false_r. eapply mwp_mono; [eapply inner_call_silent; eauto 10|]. by intros ? s' [].
  - cbn [own_message]. rewrite orb_false_r. eapply mwp_mono; [eapply inner_call_silent; eauto 10|]. by intros ? s' [].
  - cbn [own_message]. rewrite Z.eqb_refl, orb_true_r. eapply mwp_mono; [by eapply call_on_socket|].
    intros ? s' I'. by destruct used.
Qed.

(** The direction of a call of OpenSSL, and what its entry leaves *)
Definition ssl_direction (writing : bool) : Z := if writing then DIRECTION_OUTBOUND else DIRECTION_INBOUND.
Definition ssl_entered (ssl fd direction buffer requested : Z) : pending_read := {|
  pr_buffer := buffer; pr_length_pointer := 0; pr_requested := requested;
  pr_connection_key := if 0 <=? fd then to_u32 fd else ssl; pr_fd := fd; pr_source := SOURCE_OPENSSL;
  pr_vector_kind := 0; pr_is_ex := 0; pr_direction := direction; pr_is_network := 1; pr_protocol := 0
|}.
Lemma ssl_call_entered t handle key task writing ctx s :
  pid_tgid task = t -> targeted (Z.shiftr t 32) s -> has_room pending_reads t s = true -> has_room tls_depth t s = true ->
  keyed handle key s ->
  mwp (World := World) (fire arch config task (ssl_call writing false ctx)) s (fun _ s' =>
    in_call t handle key (Some 1)
      (ssl_entered (parm1 ctx) (default (-1) (ssl_fds_map s !! parm1 ctx)) (ssl_direction writing) (parm2 ctx) (parm3 ctx)) s').
Proof.
  intros Ht [o Ho] Hroom Htls Hkey.
  assert (tgid_of task = Z.shiftr t 32) as Htgid by (unfold tgid_of; by rewrite Ht).
  assert (fire arch config task (ssl_call writing false ctx)
    = ssl_enter (World := World) task ctx (ssl_direction writing) false) as -> by (by destruct writing).
  unfold ssl_enter, remember_read. map_step. map_step. rewrite Htgid, Ho. cbn [is_some negb].
  map_step. map_step. rewrite Ht. cbv zeta. map_step. map_step. map_step.
  set (s1 := updated tls_depth t 1 s).
  assert (s1 = set_entries tls_depth (<[t := 1]> (tls_depth_map s)) s) as Hs1 by (unfold s1, updated; by rewrite Htls).
  assert (entries ssl_fds s1 = ssl_fds_map s) as -> by (by rewrite Hs1).
  unfold updated. replace (has_room pending_reads t s1) with true by (by rewrite Hs1). split.
  - cbn. by rewrite lookup_insert_eq.
  - cbn. rewrite Hs1. cbn. by rewrite lookup_insert_eq.
  - exists o. cbn. by rewrite Hs1.
  - destruct Hkey as (owner & Howner & Hkey). exists owner. cbn. by rewrite Hs1.
Qed.

Lemma ssl_call_returned `{!TypedMachine} t handle key p task writing ctx s :
  pid_tgid task = t -> pr_is_ex p = 0 -> 0 < to_s64 (regs_rc ctx) -> pr_buffer p <> 0 -> 0 < capture_bytes config ->
  in_call t handle key (Some 1) p s ->
  mwp (World := World) (fire arch config task (ssl_return writing false ctx)) s (fun _ s' =>
    sent task (pr_buffer p) (pr_fd p) (ssl_direction writing) SOURCE_OPENSSL (pr_connection_key p) EVENT_IO_CHUNK
      (to_s64 (regs_rc ctx)) (Z.min (to_s64 (regs_rc ctx)) (Z.min (capture_bytes config) MAX_CAPTURE_BYTES)) s s' /\
    pending_reads_map s' !! t = None /\ tls_depth_map s' !! t = None).
Proof.
  intros Ht Hex Hrc Hbuf Hcap [Hp Hdepth _ _].
  assert (fire arch config task (ssl_return writing false ctx)
    = ssl_exit (World := World) config task ctx (ssl_direction writing)) as -> by (by destruct writing).
  unfold ssl_exit, submit_chunk. map_step. map_step. map_step. map_step. rewrite Ht. cbn [entries]. rewrite Hp.
  map_step. map_step. cbv zeta. rewrite Hex. cbn [Z.eqb]. map_step. map_step.
  pose proof (to_s64_range (regs_rc ctx)) as Hrange. unfold is_s64 in Hrange.
  eapply mwp_mono; [apply submit_chunk_sent; lia|]. intros ? s1 [Hsent Hentries]. split; [exact Hsent|].
  change pending_reads_map with (entries pending_reads). change tls_depth_map with (entries tls_depth). rewrite !Hentries.
  cbn. by rewrite !lookup_delete_eq.
Qed.

(** C17: The plaintext of [SSL_read] and [SSL_write] (not of their [_ex] forms).  A
    thread of a marked process enters one of the two while both tables of calls have
    room for it, with capture switched on.  Meanwhile other threads do what they
    like, short of ending the process or closing the socket, and this one makes any
    system calls, and uses one socket, that the programs know, or none ([inner]).
    Then the return of a positive number sends one chunk of the bytes in the
    caller's buffer; or nothing, if the buffer cannot be read, or the ring buffer is
    full, which is counted.  The key of the chunk is the socket's, if the library
    used the socket during the call; but of a call that OpenSSL serves from its own
    buffer it is the number of the descriptor, or the address of the SSL object:
    then one connection has two keys.  Nothing is left pending. *)
Theorem tls_call_captured `{!TypedMachine} t handle key task0 task2 writing ctx0 ctx2 l s :
  let fd := default (-1) (ssl_fds_map s !! parm1 ctx0) in
  let result := to_s64 (regs_rc ctx2) in
  pid_tgid task0 = t -> pid_tgid task2 = t ->
  targeted (Z.shiftr t 32) s -> has_room pending_reads t s = true -> has_room tls_depth t s = true ->
  keyed handle key s -> handle <> 0 -> Forall (inner t handle) l ->
  0 < result -> parm2 ctx0 <> 0 -> 0 < capture_bytes config ->
  mwp (World := World) (run arch config ((task0, ssl_call writing false ctx0) :: l)) s (fun _ s1 =>
  mwp (World := World) (fire arch config task2 (ssl_return writing false ctx2)) s1 (fun _ s2 =>
    sent task2 (parm2 ctx0) fd (ssl_direction writing) SOURCE_OPENSSL
      (if existsb (own_message t) l then key else if 0 <=? fd then to_u32 fd else parm1 ctx0)
      EVENT_IO_CHUNK result (Z.min result (Z.min (capture_bytes config) MAX_CAPTURE_BYTES)) s1 s2 /\
    pending_reads_map s2 !! t = None /\ tls_depth_map s2 !! t = None)).
Proof.
  cbv zeta. intros Ht0 Ht2 Htarget Hroom Htls Hkey Hh Hl Hrc Hbuf Hcap. cbn [run]. apply mwp_bind.
  eapply mwp_mono; [by apply (ssl_call_entered t handle key)|]. intros ? s1 H1.
  eapply mwp_mono; [eapply (run_inner t handle key 1 _ l Hh Hl false); exact H1|]. intros ? s2 H2. cbn [orb] in H2.
  eapply mwp_mono; [eapply ssl_call_returned; try exact H2; try done; by destruct (existsb _ l)|].
  intros ? s3. by destruct (existsb _ l).
Qed.
End calls.
