(* ===== verification/EbpfSockets.v ===== *)
(** Sockets in the eBPF programs: the tables that are keyed by socket stay within the
    table of known sockets, so that none of them overflows first and nothing of a
    socket survives it; and what follows for the samples of round trip times. *)
From Stdlib Require Import ZArith Lia ZifyBool Strings.Byte.
From stdpp Require Import base list gmap.
From S2P Require Import Prelude Methods Kernel Ebpf EbpfSpec EbpfCalls.

Local Open Scope Z_scope.

(** Samples and seen resets are of known sockets, which are bounded in number. *)
Record tabled (s : Maps) : Prop := {
  ta_samples : forall h, is_Some (rtt_last_emit_map s !! h) -> is_Some (tracked_sockets_map s !! h);
  ta_resets : forall h, is_Some (peer_resets_seen_map s !! h) -> is_Some (tracked_sockets_map s !! h);
  ta_sockets : Z.of_nat (size (tracked_sockets_map s)) <= max_entries tracked_sockets
}.
Lemma tabled_no_maps : tabled no_maps.
Proof. split; cbn; [intros h [? Hh]..|done]; by rewrite lookup_empty in Hh. Qed.

(** The tables have the same number of entries, so one that is within the other has
    room. *)
Lemma within_has_room {V W : Set} (m : bpf_map V) (m' : bpf_map W) h s :
  max_entries m = max_entries m' -> (forall k, is_Some (entries m s !! k) -> is_Some (entries m' s !! k)) ->
  Z.of_nat (size (entries m' s)) <= max_entries m' -> is_Some (entries m' s !! h) -> has_room m h s = true.
Proof.
  intros Hmax Hsub Hsize Hh. unfold has_room. destruct (entries m s !! h) eqn:Hm; [done|]. cbn [is_some orb].
  rewrite Hmax. enough (size (entries m s) < size (entries m' s))%nat by lia.
  rewrite <-!(size_dom (D := gset Z)). apply subset_size. split.
  - intros k. rewrite !elem_of_dom. apply Hsub.
  - intros Hback. apply (proj2 (elem_of_dom (D := gset Z) _ _)), Hback, elem_of_dom in Hh as [v Hv]. congruence.
Qed.
Lemma samples_have_room h s : tabled s -> is_Some (tracked_sockets_map s !! h) -> has_room rtt_last_emit h s = true.
Proof. intros T. apply (within_has_room rtt_last_emit tracked_sockets); [done|apply T|apply T]. Qed.

(** Writes that keep the tables in order *)
Lemma tabled_same s s' :
  (forall (V : Set) (m : bpf_map V), tag m ∈ [7; 8; 11]%nat -> entries m s' = entries m s) -> stable tabled s s'.
Proof.
  intros He [T1 T2 T3]. pose proof (He _ tracked_sockets ltac:(listed)) as H1. pose proof (He _ rtt_last_emit ltac:(listed)) as H2.
  pose proof (He _ peer_resets_seen ltac:(listed)) as H3. cbn in *. split; rewrite ?H1, ?H2, ?H3; auto.
Qed.
Lemma set_other {V W : Set} (m : bpf_map V) (m' : bpf_map W) l s : tag m <> tag m' -> entries m' (set_entries m l s) = entries m' s.
Proof. by destruct m, m'. Qed.
Lemma tabled_updated {V : Set} (m : bpf_map V) k v s : tag m ∉ [7; 8; 11]%nat -> stable tabled s (updated m k v s).
Proof.
  intros Ht. apply tabled_same. intros W m' Hm'. unfold updated. destruct (has_room _ _ _); [|done].
  apply set_other. congruence.
Qed.
Lemma tabled_deleted {V : Set} (m : bpf_map V) k s : tag m ∉ [7; 8; 11]%nat -> stable tabled s (deleted m k s).
Proof. intros Ht. apply tabled_same. intros W m' Hm'. apply set_other. congruence. Qed.
Lemma tabled_modified {V : Set} (m : bpf_map V) k f s :
  tag m ∉ [7; 8; 11]%nat -> stable tabled s (set_entries m (alter f k (entries m s)) s).
Proof. intros Ht. apply tabled_same. intros W m' Hm'. apply set_other. congruence. Qed.
Lemma tabled_drop n s : stable tabled s (set_dropped_events n s).
Proof. apply tabled_same. intros W m _. apply entries_drop. Qed.
Lemma tabled_submit bs s : stable tabled s (submit_event bs s).
Proof. apply tabled_same. intros W m _. apply entries_submit. Qed.
Lemma tabled_track h owner s : stable tabled s (updated tracked_sockets h owner s).
Proof.
  intros T. unfold updated, has_room. destruct (_ || _) eqn:Hroom; [|done]. destruct T as [T1 T2 T3].
  split; cbn in *.
  - intros k Hk. apply T1 in Hk. destruct (decide (h = k)) as [->|]; [rewrite lookup_insert_eq; by eexists|by rewrite lookup_insert_ne].
  - intros k Hk. apply T2 in Hk. destruct (decide (h = k)) as [->|]; [rewrite lookup_insert_eq; by eexists|by rewrite lookup_insert_ne].
  - rewrite map_size_insert. destruct (tracked_sockets_map s !! h) eqn:Hh; cbn in *; lia.
Qed.
Lemma tabled_forget_reset h s : stable tabled s (deleted peer_resets_seen h s).
Proof.
  intros [T1 T2 T3]. split; cbn; auto. intros k Hk. apply T2. by apply lookup_delete_is_Some in Hk as [_ Hk].
Qed.
#[export] Hint Resolve tabled_drop tabled_submit tabled_track tabled_forget_reset : ebpfdb.

Section sockets.
Context {World : Type} `{Machine World}.
Context (arch : Arch) (config : rodata).

(** A report of a connection writes to no map. *)
Definition same_maps (s s' : Maps) : Prop := forall (V : Set) (m : bpf_map V), entries m s' = entries m s.
#[local] Instance same_maps_refl : Reflexive same_maps.
Proof. done. Qed.
#[local] Instance same_maps_trans : Transitive same_maps.
Proof. intros s s' s'' H1 H2 V m. by rewrite H2. Qed.
Lemma submit_connection_maps task sk operation duration :
  within (World := World) same_maps (submit_connection task sk operation duration).
Proof. stay; intros V m; auto using entries_drop, entries_submit. Qed.

Lemma same_maps_tabled s s' : same_maps s s' -> stable tabled s s'.
Proof. intros Hs. apply tabled_same. intros V m _. apply Hs. Qed.

(** ** The end of a socket *)
Definition forgotten (handle : Z) (s : Maps) : Prop :=
  tracked_sockets_map s !! handle = None /\ rtt_last_emit_map s !! handle = None /\
  handshake_starts_map s !! handle = None /\ completed_handshakes_map s !! handle = None /\
  peer_resets_seen_map s !! handle = None.

Lemma tcp_close_forgets task sk s :
  tabled s -> mwp (World := World) (handle_tcp_close task sk) s (fun _ s' => tabled s' /\ forgotten (sk_address sk) s').
Proof.
  intros T. pose proof T as [T1 T2 T3]. unfold handle_tcp_close, socket_handle. cbv zeta. set (h := sk_address sk).
  do 6 map_step. cbn [entries]. set (s1 := deleted completed_handshakes h (deleted handshake_starts h s)).
  destruct (tracked_sockets_map s !! h) as [owner|] eqn:Howner; cbn [is_some negb]; cycle 1.
  { map_step. split; [by do 2 (apply tabled_deleted; [listed|])|]. unfold forgotten. cbn. rewrite !lookup_delete_eq.
    split; [done|]. repeat split; try done.
    - apply eq_None_not_Some. intros Hs%T1. rewrite Howner in Hs. by destruct Hs.
    - apply eq_None_not_Some. intros Hs%T2. rewrite Howner in Hs. by destruct Hs. }
  map_step. eapply mwp_mono; [apply submit_connection_maps|]. intros ? s2 Hs. do 5 map_step.
  pose proof (Hs _ tracked_sockets) as E1. pose proof (Hs _ rtt_last_emit) as E2. pose proof (Hs _ peer_resets_seen) as E3.
  pose proof (Hs _ handshake_starts) as E4. pose proof (Hs _ completed_handshakes) as E5. cbn in *. split; [split|]; cbn.
  - intros k [Hk Hs1]%lookup_delete_is_Some. apply lookup_delete_is_Some. split; [done|]. rewrite E1. apply T1. by rewrite <-E2.
  - intros k [Hk Hs1]%lookup_delete_is_Some. apply lookup_delete_is_Some. split; [done|]. rewrite E1. apply T2. by rewrite <-E3.
  - rewrite E1, map_size_delete. cbn in *. rewrite Howner. cbn. lia.
  - unfold forgotten. cbn. rewrite E4, E5. cbn. by rewrite !lookup_delete_eq.
Qed.

Lemma fire_tabled task probe : within (World := World) (stable tabled) (fire arch config task probe).
Proof.
  destruct probe.
  14: { apply within_stable. intros s T. cbn [fire]. eapply mwp_mono; [by apply tcp_close_forgets|]. by intros ? s' []. }
  14: {
    apply within_stable. intros s T. cbn [fire]. unfold handle_tcp_rtt. cbv zeta. do 2 map_step. map_step; [by apply mwp_ret|]. do 4 map_step.
    map_step; [by apply mwp_ret|]. map_step. map_step. map_step.
    match goal with Hb : negb _ = false |- _ => apply negb_false_iff in Hb as Howner end. unfold socket_handle in *.
    destruct (entries tracked_sockets s !! sk_address sk) as [owner|] eqn:Hl; [|done].
    assert (tabled (updated rtt_last_emit (sk_address sk) a s)) as T1.
    { unfold updated. destruct (has_room _ _ _); [|done]. destruct T as [T1 T2 T3]. split; cbn in *; auto.
      intros k. destruct (decide (sk_address sk = k)) as [<-|]; [by rewrite Hl|rewrite lookup_insert_ne by done; apply T1]. }
    eapply mwp_mono; [apply submit_connection_maps|]. intros ? s2 Hs. apply (same_maps_tabled _ _ Hs) in T1.
    map_step; [|by apply mwp_ret]. eapply mwp_mono; [apply submit_connection_maps|]. intros ? s3 Hs3.
    by apply (same_maps_tabled _ _ Hs3). }
  15: {
    apply within_stable. intros s T. cbn [fire]. unfold handle_tcp_reset, if_tracked. do 2 map_step. map_step; [|by apply mwp_ret]. map_step.
    eapply mwp_mono; [apply submit_connection_maps|]. intros ? s2 Hs. map_step. unfold socket_handle in *.
    destruct (entries tracked_sockets s !! sk_address sk) as [owner|] eqn:Hl; [|done].
    pose proof (Hs _ tracked_sockets) as E1. apply (same_maps_tabled _ _ Hs) in T.
    unfold updated. destruct (has_room _ _ _); [|done]. destruct T as [T1 T2 T3]. split; cbn in *; auto.
    intros k. destruct (decide (sk_address sk = k)) as [<-|]; [by rewrite E1, Hl|rewrite lookup_insert_ne by done; apply T2]. }
  all: open_program; unfold track_socket; stay.
  all: try (apply (within_vector_chunks _); [exact _|exact _|auto with ebpfdb..]).
  all: auto with ebpfdb.
  all: first [apply tabled_updated | apply tabled_deleted | apply tabled_modified]; listed.
Qed.

Lemma run_within (R : Maps -> Maps -> Prop) `{!Reflexive R} `{!Transitive R} l :
  Forall (fun '(task, probe) => within (World := World) R (fire arch config task probe)) l ->
  within (World := World) R (run arch config l).
Proof.
  induction 1 as [|[task probe] l Hp _ IH]; cbn [run]; [exact (within_ret _ _)|].
  refine (within_bind _ _ _ _ _); [done|by intros _].
Qed.
Lemma run_tabled l : within (World := World) (stable tabled) (run arch config l).
Proof. apply (run_within _). apply Forall_true. intros [task probe]. apply fire_tabled. Qed.
Lemma reached_tabled l w : tabled (fst (snd (run arch config l (no_maps, w)))).
Proof. apply (run_tabled l no_maps w), tabled_no_maps. Qed.

(** C16: Whatever happened before, when a socket is closed nothing that is kept by
    socket remembers it, neither its owner and key, nor its handshake, its samples or
    its resets: a later socket at the same address starts anew. *)
Theorem socket_forgotten l task sk w w' :
  forgotten (sk_address sk)
    (fst (snd (fire arch config task (tcp_close sk) (fst (snd (run (World := World) arch config l (no_maps, w))), w')))).
Proof. exact (proj2 (tcp_close_forgets task sk _ (reached_tabled l w) w')). Qed.

(** ** Samples *)
Definition samples (handle : Z) (probe : Probe) : Prop := exists sk, probe = tcp_rcv_established sk /\ sk_address sk = handle.

Lemma fire_sample_kept h task probe :
  ~ closes h probe -> ~ samples h probe -> within (World := World) (same_entry rtt_last_emit h) (fire arch config task probe).
Proof.
  intros Hc Hs. destruct probe; open_program; unfold track_socket; stay.
  all: try (apply (within_vector_chunks _); [exact _|exact _|auto with ebpfdb..]).
  all: auto with ebpfdb.
  all: first [apply same_entry_updated | apply same_entry_deleted | apply same_entry_modified]; intros Htag; try done.
  - intros <-. apply Hc. by eexists.
  - intros <-. apply Hs. by eexists.
Qed.

(** The sample of a known socket is recorded, since its table has room for it. *)
Lemma tcp_rtt_sampled task sk s :
  tabled s ->
  mwp (World := World) (fire arch config task (tcp_rcv_established sk)) s (fun _ s' =>
    ring s' = ring s \/
    exists w, rtt_last_emit_map s' !! sk_address sk = Some (fst (ktime_get_ns w)) /\
      forall last, rtt_last_emit_map s !! sk_address sk = Some last ->
        rtt_sample_interval_ns config <= to_u64 (fst (ktime_get_ns w) - last)).
Proof.
  intros T. cbn [fire]. unfold handle_tcp_rtt, socket_handle. cbv zeta. set (h := sk_address sk). do 2 map_step.
  destruct (entries tracked_sockets s !! h) as [owner|] eqn:Hl; cbn [is_some negb]; [|apply mwp_ret; by left].
  map_step. apply (mwp_host_law _ (fun now => exists w, fst (ktime_get_ns w) = now)); [by eexists|]. intros now [w Hnow].
  map_step. map_step. map_step; [apply mwp_ret; by left|]. map_step. map_step.
  pose proof (samples_have_room h s T (ex_intro _ owner Hl)) as Hroom. unfold updated. rewrite Hroom. cbn [entries set_entries].
  map_step. eapply mwp_mono; [apply submit_connection_maps|]. intros ? s2 H2.
  apply mwp_mono with (Q := fun _ s3 => same_maps s2 s3).
  { map_step; [apply submit_connection_maps|by apply mwp_ret]. }
  intros ? s3 H3. right. exists w. rewrite Hnow. pose proof (H3 _ rtt_last_emit) as E3. pose proof (H2 _ rtt_last_emit) as E2.
  cbn in E2, E3. rewrite E3, E2, lookup_insert_eq. split; [done|]. intros last Hlast.
  match goal with Hb : match _ with Some _ => _ | None => _ end = false |- _ => cbn in Hb; rewrite Hlast in Hb; lia end.
Qed.

(** Two round trip times of a socket are never reported within less than the
    sample interval, whatever happens between: the time of the last sample of a known
    socket is kept until the socket is closed, since the table of samples cannot be
    full before the table of sockets. *)
Theorem rtt_rate l1 l2 task1 task2 sk1 sk2 w :
  sk_address sk1 = sk_address sk2 ->
  Forall (fun '(_, probe) => ~ closes (sk_address sk2) probe /\ ~ samples (sk_address sk2) probe) l2 ->
  let s0 := fst (snd (run arch config l1 (no_maps, w))) in
  mwp (World := World) (fire arch config task1 (tcp_rcv_established sk1)) s0 (fun _ s1 => ring s1 = ring s0 \/ exists w1,
    mwp (World := World) (run arch config l2) s1 (fun _ s2 =>
    mwp (World := World) (fire arch config task2 (tcp_rcv_established sk2)) s2 (fun _ s3 => ring s3 = ring s2 \/ exists w2,
      rtt_sample_interval_ns config <= to_u64 (fst (ktime_get_ns w2) - fst (ktime_get_ns w1))))).
Proof.
  intros Hsk Hl2 s0. pose proof (reached_tabled l1 w) as T0. fold s0 in T0.
  eapply mwp_mono.
  { apply mwp_and; [by apply tcp_rtt_sampled|apply (fire_tabled task1 (tcp_rcv_established sk1))]. }
  intros ? s1 [[Hring|(w1 & Hlast & _)] T1]; [by left|right; exists w1]. specialize (T1 T0). rewrite Hsk in Hlast.
  eapply mwp_mono.
  { apply mwp_and; [|exact (run_tabled l2 s1)].
    refine (run_within (same_entry rtt_last_emit (sk_address sk2)) l2 _ s1).
    eapply Forall_impl; [exact Hl2|]. intros [task probe] [Hc Hs]. by apply fire_sample_kept. }
  intros ? s2 [Hkept T2]. specialize (T2 T1). unfold same_entry in Hkept. cbn in Hkept.
  eapply mwp_mono; [by apply tcp_rtt_sampled|]. intros ? s3 [Hring|(w2 & _ & Hinterval)]; [by left|right; exists w2].
  apply Hinterval. by rewrite Hkept.
Qed.
End sockets.
