(* ===== verification/EbpfVectors.v ===== *)
(** Calls with several buffers: which of their bytes the eBPF programs send, and what
    the records say of the rest.  The memory of the process does not change during
    the call; reading it may fail, and the ring buffer may be full. *)
From Stdlib Require Import ZArith Lia ZifyBool Strings.Byte.
From stdpp Require Import base list list_numbers gmap.
From S2P Require Import Prelude Methods Kernel Ebpf EbpfSpec EbpfCalls.

Local Open Scope Z_scope.

Lemma to_s64_id z : is_s64 z -> to_s64 z = z.
Proof. intros Hz. unfold to_s64, to_u64. apply (signed_mod 64); [done|]. unfold is_s64 in Hz. cbn. lia. Qed.

Section vectors.
Context {World : Type} `{Machine World} `{!TypedMachine}.
Context (config : rodata).
Context (memory : Z -> byte).
Definition bytes_at (address n : Z) : bytes := memory <$> seqZ address n.
(** A read of the memory that succeeds returns what is there. *)
Context (faithful : forall address n w bs, 0 <= n ->
  fst (probe_read_user address n w) = Some bs -> bs = bytes_at address n).
Definition fails (address n : Z) : Prop := exists w, fst (probe_read_user address n w) = None.
Definition ring_full : Prop := exists w, fst (ringbuf_reserve w) = None.

Lemma mwp_read {A} address n (k : option bytes -> State (Maps * World) A) s (Q : A -> Maps -> Prop) :
  0 <= n -> (fails address n -> mwp (World := World) (k None) s Q) ->
  mwp (World := World) (k (Some (bytes_at address n))) s Q ->
  mwp (World := World) (let! data := host (probe_read_user address n) in k data) s Q.
Proof.
  intros Hn Hnone Hsome. map_step.
  apply (mwp_host_law _ (fun o => exists w, fst (probe_read_user address n w) = o)); [by eexists|].
  intros [data|] [w Hw]; [|apply Hnone; by exists w]. by rewrite (faithful _ _ _ _ Hn Hw).
Qed.

Lemma len_bytes_at address n : 0 <= n -> len (bytes_at address n) = n.
Proof. intros Hn. unfold bytes_at, len. rewrite length_fmap, length_seqZ. lia. Qed.
Lemma bytes_at_app address n m : 0 <= n -> 0 <= m -> bytes_at address (n + m) = bytes_at address n ++ bytes_at (address + n) m.
Proof. intros Hn Hm. unfold bytes_at. by rewrite seqZ_app, fmap_app. Qed.
Lemma bytes_at_zero address : bytes_at address 0 = [].
Proof. done. Qed.

(** The vectors in memory, and the bytes that a call of [n] vectors moves *)
Definition iov_at (pointer index : Z) : Z * Z := iovec_of (bytes_at (to_u64 (pointer + IOVEC_SIZE * index)) IOVEC_SIZE).
Fixpoint moved (pointer : Z) (n : nat) (index remaining : Z) : bytes :=
  match n with
  | O => []
  | S n =>
      let '(base, length) := iov_at pointer index in
      let segment := Z.min remaining length in
      bytes_at base segment ++ moved pointer n (index + 1) (remaining - segment)
  end.
Lemma iov_length pointer index : is_u64 (snd (iov_at pointer index)).
Proof.
  unfold iov_at, iovec_of, is_u64. cbn [snd].
  match goal with |- context [field ?bs 8 8] => pose proof (le_val_field bs 8 8) as Hv end.
  change (2 ^ (8 * Z.of_nat 8)) with 18446744073709551616 in Hv. lia.
Qed.
Lemma moved_none pointer n index : moved pointer n index 0 = [].
Proof.
  revert index. induction n as [|n IH]; intros index; [done|]. cbn [moved]. pose proof (iov_length pointer index) as Hl.
  destruct (iov_at pointer index) as [base length]. cbn [snd] in Hl. unfold is_u64 in Hl.
  rewrite Z.min_l by lia. by rewrite bytes_at_zero, Z.sub_diag, IH.
Qed.

(** What a record shows, and whether it says that this is all *)
Definition captured_data (e : KernelEvent) : bytes := take (Z.to_nat (raw_captured_len e)) (raw_data e).
Definition complete (e : KernelEvent) : Prop := raw_bytes e <= raw_captured_len e.
(** A chunk of the call *)
Record chunk_of (task : Task) (fd direction source key event_type : Z) (e : KernelEvent) : Prop := {
  co_type : raw_event_type e = event_type;
  co_direction : raw_direction e = direction;
  co_source : raw_source e = source;
  co_key : raw_connection_key e = key;
  co_fd : raw_fd e = fd;
  co_tgid : raw_tgid e = tgid_of task
}.

(** A chunk that is not sent: the ring buffer is full, and that is counted, or the
    bytes cannot be read. *)
Definition unsent (buffer n : Z) (s s' : Maps) : Prop :=
  ring s' = ring s /\
  (dropped_events s' = to_u64 (dropped_events s + 1) /\ ring_full \/
   dropped_events s' = dropped_events s /\ fails buffer n).

Lemma submit_shown task buffer requested actual fd direction source key event_type limit s :
  0 < actual <= i64_max -> buffer <> 0 -> 0 < limit <= MAX_CAPTURE_BYTES ->
  mwp (World := World)
    (submit_chunk_limited task buffer requested actual fd direction source key event_type limit) s
    (fun _ s' => unsent buffer (Z.min actual limit) s s' \/
      exists e, ring s' = ring s ++ [ring_bytes e] /\ dropped_events s' = dropped_events s /\
      chunk_of task fd direction source key event_type e /\
      raw_bytes e = actual /\ raw_captured_len e = Z.min actual limit /\
      captured_data e = bytes_at buffer (Z.min actual limit)).
Proof.
  intros Ha Hb Hl. eapply mwp_mono; [by apply submit_chunk_sent; lia|].
  replace (Z.min limit MAX_CAPTURE_BYTES) with limit by lia.
  intros ? s' [[(Hr & Hd & Hw)|[(Hr & Hd & Hw)|(Hd & e & data & w & Hring & Hdata & C)]] _].
  - left. split; [done|]. by left.
  - left. split; [done|]. by right.
  - right. apply faithful in Hdata as ->; [|lia]. destruct C.
    exists e. split; [done|]. split; [done|]. split; [by split|]. split; [done|]. split; [done|].
    unfold captured_data. by rewrite ch_captured.
Qed.

(** What the chunks of a call show of the bytes it moved: their beginning, and all of
    them unless a record says that there is more. *)
Definition shows (all : bytes) (es : list KernelEvent) : Prop :=
  concat (captured_data <$> es) `prefix_of` all /\
  (Forall complete es -> concat (captured_data <$> es) = all).

Lemma shows_part base segment copied rest e :
  0 <= copied <= segment -> raw_captured_len e = copied -> copied < raw_bytes e ->
  captured_data e = bytes_at base copied -> shows (bytes_at base segment ++ rest) [e].
Proof.
  intros Hc Hlen Hmark Hdata. unfold shows. cbn [fmap list_fmap concat]. rewrite app_nil_r, Hdata. split.
  - replace segment with (copied + (segment - copied)) by lia. rewrite bytes_at_app by lia. rewrite <-app_assoc.
    by apply prefix_app_r.
  - intros [Hcomplete _]%Forall_cons. unfold complete in Hcomplete. lia.
Qed.
Lemma shows_whole base segment rest e es :
  captured_data e = bytes_at base segment -> shows rest es -> shows (bytes_at base segment ++ rest) (e :: es).
Proof.
  intros Hdata (Hp & Hall). unfold shows. rewrite fmap_cons. cbn [concat]. rewrite Hdata. split.
  - by apply prefix_app.
  - intros [_ Hc]%Forall_cons. f_equal. by apply Hall.
Qed.

(** ** What is told of a call

    The records of the chunks, the number of chunks that met a full ring buffer,
    which is counted, and what the records show, if no chunk was lost and [unread],
    that some memory could not be read, is false. *)
Section told.
Context (task : Task) (fd direction source key event_type : Z).
Abbreviation chunk_of := (chunk_of task fd direction source key event_type).

Record told_by (unread : Prop) (budget : Z) (all : bytes) (s s' : Maps) (es : list KernelEvent) (lost : nat) : Prop := {
  told_ring : ring s' = ring s ++ (ring_bytes <$> es);
  told_chunks : Forall chunk_of es;
  told_lost : dropped_events s' = Nat.iter lost (fun n => to_u64 (n + 1)) (dropped_events s);
  told_full : lost <> O -> ring_full;
  told_order : concat (captured_data <$> es) `sublist_of` all;
  told_budget : len (concat (captured_data <$> es)) <= budget;
  told_shows : lost = O -> unread \/ shows all es
}.
Definition told (unread : Prop) (budget : Z) (all : bytes) (s s' : Maps) : Prop :=
  exists es lost, told_by unread budget all s s' es lost.

(** Nothing is sent, of nothing or for want of a read. *)
Lemma told_nothing (unread : Prop) budget all s : 0 <= budget -> all = [] \/ unread -> told unread budget all s s.
Proof.
  intros Hb Hall. exists [], O. split; [by rewrite app_nil_r|done|done|done|apply sublist_nil_l|done|].
  intros _. destruct Hall as [->|Hu]; [by right|by left].
Qed.

(** A chunk that is sent cut ends the call; one that is sent whole goes on. *)
Lemma told_part (unread : Prop) budget base segment copied rest e s s1 :
  ring s1 = ring s ++ [ring_bytes e] -> dropped_events s1 = dropped_events s -> chunk_of e ->
  0 <= copied <= segment -> copied <= budget -> raw_captured_len e = copied -> copied < raw_bytes e ->
  captured_data e = bytes_at base copied -> told unread budget (bytes_at base segment ++ rest) s s1.
Proof.
  intros Hr Hd He Hc Hb Hlen Hmark Hdata. pose proof (shows_part base segment copied rest e Hc Hlen Hmark Hdata) as Hs.
  exists [e], O. split; [done|by constructor|done|done| | |by right].
  - destruct Hs as [[tail ->] _]. by apply sublist_inserts_r.
  - cbn. rewrite app_nil_r, Hdata, len_bytes_at; lia.
Qed.
Lemma told_whole (unread : Prop) budget base segment rest e s s1 s2 :
  ring s1 = ring s ++ [ring_bytes e] -> dropped_events s1 = dropped_events s -> chunk_of e ->
  0 <= segment <= budget -> captured_data e = bytes_at base segment ->
  told unread (budget - segment) rest s1 s2 -> told unread budget (bytes_at base segment ++ rest) s s2.
Proof.
  intros Hr Hd He Hb Hdata (es & lost & []). exists (e :: es), lost. split.
  - by rewrite told_ring0, Hr, <-app_assoc.
  - by constructor.
  - by rewrite told_lost0, Hd.
  - done.
  - cbn. rewrite Hdata. by apply sublist_app.
  - cbn. rewrite len_app, Hdata, len_bytes_at; lia.
  - intros Hl. destruct (told_shows0 Hl); [by left|right]. by apply shows_whole.
Qed.

(** A chunk that is not sent ends the call, or goes on. *)
Lemma told_unsent_end (unread : Prop) budget all base n s s1 :
  unsent base n s s1 -> (fails base n -> unread) -> 0 <= budget -> told unread budget all s s1.
Proof.
  intros [Hr [[Hd Hf]|[Hd Hf]]] Hu Hb; [exists [], 1%nat|exists [], O].
  - split; [by rewrite app_nil_r|done|done|done|apply sublist_nil_l|done|done].
  - split; [by rewrite app_nil_r|done|done|done|apply sublist_nil_l|done|left; auto].
Qed.
Lemma told_unsent (unread : Prop) budget budget' segment rest base n s s1 s2 :
  unsent base n s s1 -> (fails base n -> unread) -> budget' <= budget ->
  told unread budget' rest s1 s2 -> told unread budget (segment ++ rest) s s2.
Proof.
  intros [Hr Hd] Hu Hb (es & lost & []).
  assert (concat (captured_data <$> es) `sublist_of` segment ++ rest) as Horder by (by apply sublist_inserts_l).
  assert (ring s2 = ring s ++ (ring_bytes <$> es)) as Hring by (by rewrite <-Hr).
  destruct Hd as [[Hd Hf]|[Hd Hf]]; [exists es, (S lost)|exists es, lost]; split; try done; try lia.
  - by rewrite told_lost0, Hd, Nat.iter_succ_r.
  - by rewrite told_lost0, Hd.
  - left. auto.
Qed.
(** What cannot be read: one of the first two entries of the vectors at [pointer], or
    the buffer it names *)
Definition unreadable (pointer : Z) : Prop :=
  exists i, 0 <= i < 2 /\
    (fails (to_u64 (pointer + IOVEC_SIZE * i)) IOVEC_SIZE \/
     exists n, 0 < n <= snd (iov_at pointer i) /\ fails (fst (iov_at pointer i)) n).

Lemma vector_loop_told todo pointer iov_count index remaining budget s :
  0 <= index -> index + Z.of_nat todo = Z.of_nat MAX_VECTOR_CHUNKS ->
  (forall i, index <= i < Z.of_nat MAX_VECTOR_CHUNKS -> i < iov_count -> fst (iov_at pointer i) <> 0 /\ 0 < snd (iov_at pointer i)) ->
  0 <= remaining <= i64_max -> 0 <= budget <= MAX_CAPTURE_BYTES ->
  remaining = 0 \/ (0 < budget /\ (0 < todo)%nat) ->
  len (moved pointer (Z.to_nat (iov_count - index)) index remaining) = remaining ->
  mwp (World := World)
    (vector_loop todo task pointer iov_count index remaining budget fd direction source key event_type) s
    (fun _ s' => told (unreadable pointer) budget (moved pointer (Z.to_nat (iov_count - index)) index remaining) s s').
Proof.
  change (Z.of_nat MAX_VECTOR_CHUNKS) with 2.
  revert index remaining budget s.
  induction todo as [|todo IH]; intros index remaining budget s Hi0 Hi Hfull Hr Hb Hgo Hall.
  { destruct Hgo as [->|[_ Htodo]]; [|lia]. apply mwp_ret. rewrite moved_none. apply told_nothing; [lia|by left]. }
  cbn [vector_loop]. destruct (decide (remaining = 0)) as [->|Hr0].
  { rewrite orb_true_r. cbn [orb]. apply mwp_ret. rewrite moved_none. apply told_nothing; [lia|by left]. }
  destruct (decide (iov_count <= index)) as [Hcount|Hcount].
  { replace (Z.to_nat (iov_count - index)) with O in Hall by lia. unfold len in Hall. cbn in Hall. lia. }
  destruct Hgo as [|[Hb0 _]]; [lia|]. replace ((iov_count <=? index) || (remaining =? 0) || (budget =? 0)) with false by lia.
  apply mwp_read; [done|..].
  { intros Hf. apply mwp_ret, told_nothing; [lia|right]. exists index. split; [lia|by left]. }
  fold (iov_at pointer index).
  assert (forall n, 0 < n <= snd (iov_at pointer index) -> fails (fst (iov_at pointer index)) n -> unreadable pointer) as Hun.
  { intros n Hn Hf. exists index. split; [lia|]. right. by exists n. }
  replace (Z.to_nat (iov_count - index)) with (S (Z.to_nat (iov_count - (index + 1)))) in * by lia. cbn [moved] in *.
  destruct (Hfull index) as [Hbase Hlen]; [lia..|]. destruct (iov_at pointer index) as [base length]. cbn [fst snd] in *.
  assert (segment_of remaining length = Z.min remaining length) as Hsegment.
  { unfold segment_of. destruct (remaining <? length) eqn:E; lia. }
  rewrite Hsegment. set (segment := Z.min remaining length) in *. assert (0 < segment <= remaining) by lia.
  replace (segment =? 0) with false by lia. cbv zeta.
  unfold MAX_CAPTURE_BYTES in *.
  assert (copied_of segment budget = Z.min segment budget) as Hcopied.
  { unfold copied_of. destruct (segment <? budget) eqn:E; [rewrite to_u32_id by (unfold is_u32; lia)|]; lia. }
  rewrite Hcopied. set (copied := Z.min segment budget).
  change (Z.of_nat MAX_VECTOR_CHUNKS) with 2. set (reported := reported_of _ _ _ _ _).
  assert (copied <= reported <= i64_max /\ (reported = copied -> segment = copied /\
    (remaining - segment = 0 \/ (0 < budget - copied /\ (0 < todo)%nat)))) as [Hreported Hmark].
  { unfold reported, reported_of. destruct (_ && _) eqn:E; [lia|]. split; [lia|]. intros Hs.
    assert (segment = copied) by lia. split; [done|]. destruct todo; lia. }
  rewrite to_s64_id by (unfold is_s64; lia).
  rewrite len_app, len_bytes_at in Hall by lia.
  map_step. eapply mwp_mono; [apply submit_shown; unfold MAX_CAPTURE_BYTES; lia|].
  replace (Z.min reported copied) with copied by lia. intros ? s1 Hs1.
  assert (0 < copied <= length) as Hcl by lia.
  destruct (copied <? reported) eqn:Hcut.
  { apply mwp_ret. destruct Hs1 as [Hs1|(e & Hring & Hdrop & Hchunk & Hbytes & Hcap & Hdata)].
    - apply (told_unsent_end _ _ _ base copied); [done|by apply Hun|lia].
    - apply (told_part _ _ _ _ copied _ e); lia || done. }
  destruct Hmark as [Hwhole Hnext]; [lia|].
  eapply mwp_mono.
  { apply IH; try lia. intros i Hi1 Hi2. apply Hfull; lia. }
  intros ? s2 Hs2. destruct Hs1 as [Hs1|(e & Hring & Hdrop & Hchunk & Hbytes & Hcap & Hdata)].
  - apply (told_unsent _ _ (budget - copied) _ _ base copied _ s1); [done|by apply Hun|lia|done].
  - rewrite Hwhole in *. apply (told_whole _ _ _ _ _ e _ s1); lia || done.
Qed.
End told.
(** Where the vectors of a call are, and how many *)
Definition vectors_of (is_msghdr : bool) (pointer count : Z) : Z * Z :=
  if is_msghdr then msghdr_of (bytes_at pointer MSGHDR_SIZE) else (pointer, count).

(** The call up to its loop *)
Lemma vector_chunks_loop task pointer count is_msghdr actual fd direction source key event_type s (Q : unit -> Maps -> Prop) :
  let '(user_iov, iov_count) := vectors_of is_msghdr pointer count in
  0 < actual -> pointer <> 0 -> user_iov <> 0 -> iov_count <> 0 ->
  (is_msghdr = true -> fails pointer MSGHDR_SIZE -> Q tt s) ->
  mwp (World := World)
    (vector_loop MAX_VECTOR_CHUNKS task user_iov iov_count 0 actual (Z.min (capture_bytes config) MAX_CAPTURE_BYTES) fd
      direction source key event_type) s Q ->
  mwp (World := World)
    (submit_vector_chunks config task pointer count is_msghdr actual fd direction source key event_type) s Q.
Proof.
  unfold vectors_of, submit_vector_chunks.
  assert ((if MAX_CAPTURE_BYTES <? capture_bytes config then MAX_CAPTURE_BYTES else capture_bytes config)
    = Z.min (capture_bytes config) MAX_CAPTURE_BYTES) as ->.
  { destruct (_ <? _) eqn:E; lia. }
  destruct is_msghdr.
  - destruct (msghdr_of (bytes_at pointer MSGHDR_SIZE)) as [user_iov iov_count] eqn:Hheader. intros Ha Hp Hu Hc Hfail Hloop.
    replace ((actual <=? 0) || (pointer =? 0)) with false by lia. cbv zeta. apply mwp_read; [done|..].
    { intros Hf. by apply mwp_ret, Hfail. }
    rewrite Hheader. by replace ((iov_count =? 0) || (user_iov =? 0)) with false by lia.
  - intros Ha Hp Hu Hc _ Hloop. by replace ((actual <=? 0) || (pointer =? 0)) with false by lia.
Qed.

(** C15: Calls with several buffers.  The records show bytes that the call moved, in
    order, each once, and at most as many as the limits allow; a chunk that meets a
    full ring buffer is counted.  When none did, either some memory could not be read
    (the message header, one of the first two vectors or the buffer it names), or the
    records show the beginning of the bytes, and all of them if none of the records
    says that its bytes are cut: the reader of a connection is told of every gap.
    This is of calls whose first two buffers are not empty ([empty_vector_hides] is
    the other case), on a memory that does not change meanwhile. *)
Theorem vector_captured task pointer count is_msghdr actual fd direction source key event_type s :
  let '(user_iov, iov_count) := vectors_of is_msghdr pointer count in
  let all := moved user_iov (Z.to_nat iov_count) 0 actual in
  0 < actual <= i64_max -> pointer <> 0 -> user_iov <> 0 -> 0 < capture_bytes config -> len all = actual ->
  (forall i, 0 <= i < 2 -> i < iov_count -> fst (iov_at user_iov i) <> 0 /\ 0 < snd (iov_at user_iov i)) ->
  mwp (World := World)
    (submit_vector_chunks config task pointer count is_msghdr actual fd direction source key event_type) s
    (fun _ s' => exists es lost,
      ring s' = ring s ++ (ring_bytes <$> es) /\ Forall (chunk_of task fd direction source key event_type) es /\
      dropped_events s' = Nat.iter lost (fun n => to_u64 (n + 1)) (dropped_events s) /\ (lost <> O -> ring_full) /\
      concat (captured_data <$> es) `sublist_of` all /\
      len (concat (captured_data <$> es)) <= Z.min (capture_bytes config) MAX_CAPTURE_BYTES /\
      (lost = O ->
        (is_msghdr = true /\ fails pointer MSGHDR_SIZE) \/ unreadable user_iov \/
        concat (captured_data <$> es) `prefix_of` all /\
        (Forall complete es -> concat (captured_data <$> es) = all))).
Proof.
  pose proof (vector_chunks_loop task pointer count is_msghdr actual fd direction source key event_type s) as Hloop.
  destruct (vectors_of is_msghdr pointer count) as [user_iov iov_count]. intros all Ha Hp Hu Hcap Hall Hfull.
  assert (0 < iov_count) as Hcount.
  { destruct (decide (iov_count <= 0)); [|lia]. unfold all in Hall. replace (Z.to_nat iov_count) with O in Hall by lia.
    unfold len in Hall. cbn in Hall. lia. }
  apply Hloop; [lia..| |].
  { intros Hm Hf. exists [], O. rewrite app_nil_r. split_and!; try done; [apply sublist_nil_l| |by left].
    change (0 <= Z.min (capture_bytes config) MAX_CAPTURE_BYTES). unfold MAX_CAPTURE_BYTES. lia. }
  unfold MAX_CAPTURE_BYTES, all in *.
  assert (Z.to_nat (iov_count - 0) = Z.to_nat iov_count) as Hn by (f_equal; lia).
  eapply mwp_mono; [apply vector_loop_told; unfold MAX_CAPTURE_BYTES, MAX_VECTOR_CHUNKS; rewrite ?Hn; try lia; exact Hfull|].
  rewrite Hn. intros ? s' (es & lost & []). exists es, lost. split_and!; try done. intros Hl. right. by apply told_shows0.
Qed.

(** An empty buffer hides what follows: of a call whose second buffer is empty,
    only the bytes of the first are sent, in a record that says that they are all,
    whatever the later buffers hold.  The reader of the connection takes the next
    bytes it gets for the continuation. *)
Theorem empty_vector_hides task pointer count is_msghdr actual fd direction source key event_type s :
  (forall address n, 0 <= n -> ~ fails address n) -> ~ ring_full ->
  let '(user_iov, iov_count) := vectors_of is_msghdr pointer count in
  let '(base, length) := iov_at user_iov 0 in
  actual <= i64_max -> pointer <> 0 -> user_iov <> 0 -> 1 < iov_count -> base <> 0 ->
  0 < length < actual -> length < Z.min (capture_bytes config) MAX_CAPTURE_BYTES -> snd (iov_at user_iov 1) = 0 ->
  mwp (World := World)
    (submit_vector_chunks config task pointer count is_msghdr actual fd direction source key event_type) s
    (fun _ s' => exists e, ring s' = ring s ++ [ring_bytes e] /\
      chunk_of task fd direction source key event_type e /\ captured_data e = bytes_at base length /\ complete e).
Proof.
  intros Hreads Hroom.
  pose proof (vector_chunks_loop task pointer count is_msghdr actual fd direction source key event_type s) as Hloop.
  destruct (vectors_of is_msghdr pointer count) as [user_iov iov_count]. destruct (iov_at user_iov 0) as [base length] eqn:Hfirst.
  intros Ha Hp Hu Hc Hbase Hlen Hbudget Hempty. apply Hloop; [lia..|by intros _ []%Hreads|]. unfold MAX_VECTOR_CHUNKS. cbn [vector_loop].
  set (budget := Z.min _ MAX_CAPTURE_BYTES) in *. assert (budget <= 1024) by (unfold budget, MAX_CAPTURE_BYTES; lia).
  replace ((iov_count <=? 0) || (actual =? 0) || (budget =? 0)) with false by lia.
  apply mwp_read; [done|by intros []%Hreads|]. fold (iov_at user_iov 0). rewrite Hfirst. unfold segment_of, copied_of, reported_of.
  replace (actual <? length) with false by lia. replace (length =? 0) with false by lia. cbv zeta.
  replace (length <? budget) with true by lia. rewrite to_u32_id by (unfold is_u32; lia).
  change (0 =? Z.of_nat 2 - 1) with false. replace (budget - length =? 0) with false by lia. rewrite andb_false_r. cbn [andb orb].
  rewrite to_s64_id by (unfold is_s64; lia). map_step.
  eapply mwp_mono; [apply submit_shown; unfold MAX_CAPTURE_BYTES; lia|].
  intros ? s1 [[_ [[_ Hf]|[_ Hf]]]|(e & Hring & _ & Hchunk & Hbytes & Hcap & Hdata)];
    [done|exfalso; revert Hf; apply Hreads; lia|]. rewrite Z.ltb_irrefl. rewrite Z.min_id in *.
  cbv iota. change (0 + 1) with 1.
  replace ((iov_count <=? 1) || (actual - length =? 0) || false) with false by lia. cbv iota.
  apply mwp_read; [done|by intros []%Hreads|]. fold (iov_at user_iov 1). destruct (iov_at user_iov 1) as [base1 length1]. cbn [snd] in Hempty. subst length1.
  replace (actual - length <? 0) with false by lia. cbn [Z.eqb]. apply mwp_ret. exists e.
  split; [done|]. split; [done|]. split; [done|]. unfold complete. lia.
Qed.
End vectors.
