(* ===== verification/EbpfSample.v ===== *)
(** The eBPF programs on concrete inputs: a machine whose clock goes on by a
    microsecond per reading, a process with a memory, and a server that accepts a
    connection and is asked and answers over it. *)
From Stdlib Require Import ZArith Lia ZifyBool Strings.Byte Strings.String.
From stdpp Require Import base list gmap.
From S2P Require Import Prelude Text Schema Methods Kernel Ebpf EbpfSpec EbpfCalls EbpfSockets EbpfVectors.

Local Open Scope Z_scope.

(** The memory of the process: at 4096 the bytes of a request, at 8192 three vectors
    of 5, 0 and 6 bytes of it, and at 12288 two vectors of 5 and 6 bytes. *)
Definition sample_text : bytes := bytes_of "hello, world".
Definition vector (base n : Z) : bytes := le_bytes 8 base ++ le_bytes 8 n.
Definition sample_vectors : bytes := vector 4096 5 ++ vector 4200 0 ++ vector 4102 6.
Definition full_vectors : bytes := vector 4096 5 ++ vector 4102 6.
Definition byte_in (l : bytes) (i : Z) : byte := if i <? 0 then x00 else nth (Z.to_nat i) l x00.
Definition sample_memory (address : Z) : byte :=
  if address <? 8192 then byte_in sample_text (address - 4096)
  else if address <? 12288 then byte_in sample_vectors (address - 8192)
  else byte_in full_vectors (address - 12288).
#[export] Instance sample_machine : Machine Z := {|
  ktime_get_ns := fun now => (now mod 18446744073709551616, now + 1000);
  ringbuf_reserve := fun now => (Some (replicate 1120 x00), now);
  probe_read_user := fun address n now => (if n <? 0 then None else Some (bytes_at sample_memory address n), now);
  get_stackid := fun _ now => (7, now)
|}.
#[export] Instance sample_machine_typed : TypedMachine (World := Z).
Proof.
  split; cbn [ktime_get_ns ringbuf_reserve probe_read_user get_stackid sample_machine fst].
  - intros w. apply to_u64_range.
  - intros w bs [= <-]. done.
  - intros a n w bs. destruct (n <? 0) eqn:E; [done|]. intros [= <-]. apply len_bytes_at. lia.
  - intros _ w. done.
Qed.
Lemma sample_faithful address n (w : Z) bs :
  0 <= n -> fst (probe_read_user address n w) = Some bs -> bs = bytes_at sample_memory address n.
Proof. intros Hn. cbn. replace (n <? 0) with false by lia. by intros [= <-]. Qed.
Lemma sample_reads address n : 0 <= n -> ~ fails (World := Z) address n.
Proof. intros Hn [w Hw]. cbn in Hw. by replace (n <? 0) with false in Hw by lia. Qed.
Lemma sample_room : ~ ring_full (World := Z).
Proof. by intros [w Hw]. Qed.
Lemma sample_readable pointer : ~ unreadable (World := Z) sample_memory pointer.
Proof. intros (i & _ & [Hf|(n & Hn & Hf)]); revert Hf; apply sample_reads; [done|lia]. Qed.

(** Thread 101 of process 100, and thread 102 *)
Definition thread (tgid pid : Z) (name : string) : Task := {|
  pid_tgid := tgid * 4294967296 + pid; uid_gid := 1000; cgroup_id := 9;
  comm := Some (bytes_of name ++ replicate (16 - String.length name) x00)
|}.
Definition main_thread : Task := thread 100 100 "mongod".
Definition worker : Task := thread 100 101 "conn1".
Definition second : Task := thread 100 102 "conn2".
Definition bash : Task := thread 200 200 "bash".
Definition connection : sock := {|
  sk_address := 65536; skc_daddr := 16777343; skc_rcv_saddr := 16777343; skc_dport := 4321; skc_num := 27017;
  skc_family := 2; skc_v6_daddr := []; skc_v6_rcv_saddr := []; sk_err := 0; srtt_us := 800; snd_wnd := 64
|}.
Definition regs (a b c rc : Z) : pt_regs := {| parm1 := a; parm2 := b; parm3 := c; parm4 := 0; regs_rc := rc |}.

(** The process starts and accepts the connection. *)
Definition start_up : list (Task * Probe) :=
  [(bash, sched_process_exec); (main_thread, sched_process_exec); (worker, inet_csk_accept (Some connection))].
(** A request of 5 bytes is read while another thread syncs a file, and of a foreign
    process nothing is seen. *)
Definition request : list (Task * Probe) :=
  [(worker, sys_enter 0 7 4096 512); (second, sys_enter 74 3 0 0); (bash, sys_enter 0 5 4096 10);
   (worker, tcp_message false connection); (second, sys_exit 74 0); (bash, sys_exit 0 10); (worker, sys_exit 0 5)].
Definition sample_run : list (Task * Probe) := start_up ++ request ++ [(worker, tcp_close connection)].
Definition after (l : list (Task * Probe)) : Maps := fst (snd (run x86 initial_rodata l (no_maps, 0))).

(** What the observer reads: operation, event type, thread, captured bytes *)
Definition seen_of (bs : bytes) : option (Z * Z * Z * bytes) :=
  (fun e => (raw_event_type e, raw_operation e, raw_pid e, captured_data e)) <$> from_ring_bytes bs.
Example sample_records :
  seen_of <$> ring (after sample_run) =
    [Some (EVENT_PROCESS, OP_PROCESS_EXEC, 100, []);
     Some (EVENT_CONNECTION, OP_TCP_ACCEPT, 100, []); Some (EVENT_CONNECTION, OP_TCP_HANDSHAKE, 100, []);
     Some (EVENT_SYSCALL_LATENCY, OP_FSYNC, 102, []); Some (EVENT_IO_CHUNK, 0, 101, bytes_of "hello");
     Some (EVENT_CONNECTION, OP_TCP_CLOSE, 100, [])].
Proof. vm_compute. reflexivity. Qed.

(** A write of three buffers whose second is empty: the record of the first says
    that nothing is missing. *)
Definition vector_write (pointer count ret : Z) : list (Task * Probe) :=
  [(worker, sys_enter 20 7 pointer count); (worker, tcp_message true connection); (worker, sys_exit 20 ret)].
Definition shown (bs : bytes) : option (bytes * bool) :=
  (fun e => (captured_data e, raw_captured_len e <? raw_bytes e)) <$> from_ring_bytes bs.
Example hidden_vector :
  shown <$> drop 3 (ring (after (start_up ++ vector_write 8192 3 11))) = [Some (bytes_of "hello", false)].
Proof. vm_compute. reflexivity. Qed.
Example shown_vectors :
  shown <$> drop 3 (ring (after (start_up ++ vector_write 12288 2 11))) =
    [Some (bytes_of "hello", false); Some (bytes_of " world", false)].
Proof. vm_compute. reflexivity. Qed.

(** Two reads of one connection through OpenSSL, with the descriptor known: the first
    uses the socket, the second is served from the library's buffer. *)
Definition tls_reads : list (Task * Probe) :=
  [(worker, ssl_set_fd (regs 777 7 0 0));
   (worker, ssl_call false false (regs 777 4096 5 0)); (worker, sys_enter 0 7 5000 4096);
   (worker, tcp_message false connection); (worker, sys_exit 0 100); (worker, ssl_return false false (regs 0 0 0 5));
   (worker, ssl_call false false (regs 777 4102 6 0)); (worker, ssl_return false false (regs 0 0 0 6))].
Definition keys_of (bs : bytes) : option (bytes * bool) :=
  (fun e => (captured_data e, raw_connection_key e =? 7)) <$> from_ring_bytes bs.
Example split_connection :
  keys_of <$> drop 3 (ring (after (start_up ++ tls_reads))) = [Some (bytes_of "hello", false); Some (bytes_of " world", true)].
Proof. vm_compute. reflexivity. Qed.

(** * Concrete instances of the theorems *)
Lemma typed_thread tgid pid name :
  is_u64 (tgid * 4294967296 + pid) -> (String.length name <= 16)%nat -> length (bytes_of name) = String.length name ->
  typed_task (thread tgid pid name).
Proof.
  intros Ht Hn Hl. split; cbn [thread pid_tgid uid_gid cgroup_id comm]; [done|unfold is_u64; lia..|].
  intros c [= <-]. rewrite length_app, length_replicate. lia.
Qed.
Lemma sample_run_typed : typed_run sample_run.
Proof.
  unfold sample_run, start_up, request. cbn [app].
  repeat (apply Forall_cons_2; [split; [apply typed_thread; [unfold is_u64; lia|cbn; lia|done]|cbn; unfold is_u64, is_s64; lia]|]).
  by apply Forall_nil_2.
Qed.
Lemma initial_typed : is_u32 (capture_bytes initial_rodata).
Proof. done. Qed.

Lemma records_confined_witness :
  Forall (fun bs => exists e, from_ring_bytes bs = Some e /\ raw_tgid e ∈ marked sample_run /\
    (is_chunk initial_rodata e \/ is_measurement e)) (ring (after sample_run)).
Proof. exact (records_confined x86 initial_rodata initial_typed sample_run 0 sample_run_typed). Defined.

Definition accepted : Maps := after start_up.
Definition sample_key : Z := default 0 (owner_connection_key <$> tracked_sockets_map accepted !! 65536).
Definition meanwhile : list (Task * Probe) := [(second, sys_enter 74 3 0 0); (bash, sys_enter 0 5 4096 10)].
Lemma sample_keyed : keyed 65536 sample_key accepted.
Proof.
  assert (is_Some (tracked_sockets_map accepted !! 65536)) as [owner Ho] by (vm_compute; by eexists).
  exists owner. split; [done|]. unfold sample_key. by rewrite Ho.
Qed.
Lemma sample_targeted : targeted (Z.shiftr (pid_tgid worker) 32) accepted.
Proof. vm_compute. by eexists. Qed.
Lemma meanwhile_other : Forall (other (pid_tgid worker) 65536) meanwhile.
Proof.
  repeat constructor; try (vm_compute; congruence); try by intros (? & _). all: by intros (? & ? & _).
Qed.

Lemma call_captured_witness :
  mwp (World := Z) (run x86 initial_rodata ((worker, sys_enter 0 7 4096 512) :: meanwhile ++
    (worker, tcp_message false connection) :: meanwhile)) accepted (fun _ s1 =>
  mwp (World := Z) (fire x86 initial_rodata worker (sys_exit 0 5)) s1 (fun _ s2 =>
    sent (World := Z) worker 4096 (to_s32 7) DIRECTION_INBOUND SOURCE_SYSCALL sample_key EVENT_IO_CHUNK (Z.min 5 512)
      (Z.min (Z.min 5 512) (Z.min (capture_bytes initial_rodata) MAX_CAPTURE_BYTES)) s1 s2 /\
    pending_reads_map s2 !! pid_tgid worker = None)).
Proof.
  apply (call_captured x86 initial_rodata (pid_tgid worker) 65536 sample_key worker worker worker 0 SYS_READ DIRECTION_INBOUND);
    try done; [exact sample_targeted|exact sample_keyed|exact meanwhile_other|exact meanwhile_other].
Defined.

Lemma tls_call_captured_witness :
  mwp (World := Z) (run x86 initial_rodata ((worker, ssl_call false false (regs 777 4096 5 0)) :: meanwhile)) accepted (fun _ s1 =>
  mwp (World := Z) (fire x86 initial_rodata worker (ssl_return false false (regs 0 0 0 5))) s1 (fun _ s2 =>
    sent (World := Z) worker 4096 (-1) DIRECTION_INBOUND SOURCE_OPENSSL 777 EVENT_IO_CHUNK 5 5 s1 s2 /\
    pending_reads_map s2 !! pid_tgid worker = None /\ tls_depth_map s2 !! pid_tgid worker = None)).
Proof.
  apply (tls_call_captured x86 initial_rodata (pid_tgid worker) 65536 sample_key worker worker false
    (regs 777 4096 5 0) (regs 0 0 0 5) meanwhile accepted); try done; [exact sample_targeted|exact sample_keyed|].
  eapply Forall_impl; [exact meanwhile_other|]. apply inner_other.
Defined.

Lemma rtt_rate_witness :
  mwp (World := Z) (fire x86 initial_rodata worker (tcp_rcv_established connection)) accepted (fun _ s1 =>
    ring s1 = ring accepted \/ exists w1 : Z,
    mwp (World := Z) (run x86 initial_rodata request) s1 (fun _ s2 =>
    mwp (World := Z) (fire x86 initial_rodata second (tcp_rcv_established connection)) s2 (fun _ s3 =>
      ring s3 = ring s2 \/ exists w2 : Z,
      1000000000 <= to_u64 (fst (ktime_get_ns w2) - fst (ktime_get_ns w1))))).
Proof.
  apply (rtt_rate x86 initial_rodata start_up request worker second connection connection 0); [done|].
  repeat (apply Forall_cons_2; [split; intros (? & ? & _); discriminate|]). by apply Forall_nil_2.
Defined.

Lemma vector_captured_witness :
  mwp (World := Z) (submit_vector_chunks initial_rodata worker 12288 2 false 11 7 DIRECTION_OUTBOUND SOURCE_SYSCALL 9
      EVENT_IO_CHUNK) no_maps
    (fun _ s' => exists es, ring s' = [] ++ (ring_bytes <$> es) /\
      Forall (chunk_of worker 7 DIRECTION_OUTBOUND SOURCE_SYSCALL 9 EVENT_IO_CHUNK) es /\
      concat (captured_data <$> es) `prefix_of` moved sample_memory 12288 2 0 11 /\
      len (concat (captured_data <$> es)) <= Z.min 1024 MAX_CAPTURE_BYTES /\
      (Forall complete es -> concat (captured_data <$> es) = moved sample_memory 12288 2 0 11)) /\
  moved sample_memory 12288 2 0 11 = bytes_of "hello world".
Proof.
  split; [|by vm_compute]. eapply mwp_mono.
  - apply (vector_captured initial_rodata sample_memory sample_faithful worker 12288 2 false 11); try done.
    intros i Hi1 Hi2. assert (i = 0 \/ i = 1) as [-> | ->] by lia; by vm_compute.
  - intros _ s' (es & lost & Hring & Hchunks & _ & Hfull & _ & Hbudget & Hall). exists es.
    destruct lost; [|destruct sample_room; by apply Hfull].
    destruct (Hall eq_refl) as [[? _]|[[]%sample_readable|[Hprefix Hwhole]]]; [done|].
    split; [exact Hring|]. split; [exact Hchunks|]. split; [exact Hprefix|]. split; [exact Hbudget|exact Hwhole].
Defined.

Lemma empty_vector_hides_witness :
  mwp (World := Z) (submit_vector_chunks initial_rodata worker 8192 3 false 11 7 DIRECTION_OUTBOUND SOURCE_SYSCALL 9
      EVENT_IO_CHUNK) no_maps
    (fun _ s' => exists e, ring s' = [] ++ [ring_bytes e] /\
      chunk_of worker 7 DIRECTION_OUTBOUND SOURCE_SYSCALL 9 EVENT_IO_CHUNK e /\
      captured_data e = bytes_at sample_memory 4096 5 /\ complete e) /\
  moved sample_memory 8192 3 0 11 = bytes_of "hello world".
Proof.
  split; [|by vm_compute].
  apply (empty_vector_hides initial_rodata sample_memory sample_faithful worker 8192 3 false 11); try done;
    [apply sample_reads|apply sample_room].
Defined.
