(* ===== verification/Observer.v ===== *)
(** The event processor, [EventProcessor] of crates/observer/src/lib.rs: kernel
    events go in, DAM events come out; the state correlates requests with their
    responses, DNS queries with their answers, and connections with the principal
    that authenticated on them.  A method is a state transformer over the
    processor and the machine it reads. *)
From Stdlib Require Import ZArith Lia ZifyBool Strings.Byte Strings.Ascii Strings.String.
From stdpp Require Import base list strings gmap pretty.
From S2P Require Import Prelude Text Float64 Json Dns Bson BsonJson Summary Wire Stream Schema.
From S2P Require Import Methods Proc Kernel.

Local Open Scope string_scope.
Local Open Scope list_scope.
Local Open Scope Z_scope.

Definition MAX_PENDING_REQUESTS : Z := 32768.
Definition PENDING_REQUEST_TTL_NS : Z := 300000000000.
Definition MAX_PENDING_DNS : Z := 4096.
Definition PENDING_DNS_TTL_NS : Z := 30000000000.

(** SHA-256, and [HashMap::iter]: in an order of its own. *)
Class Sha256 : Type := {
  sha256 : bytes -> bytes;
  len_sha256 bs : len (sha256 bs) = 32
}.

Record ProcessorConfig : Set := {
  cfg_customer_id : string;
  cfg_tenant_id : string;
  cfg_source_id : string;
  cfg_regional_cell_id : string;
  cfg_sensor_id : string;
  cfg_node_name : string;
  cfg_cluster_name : string;
  cfg_host_proc : string;
  cfg_max_message_bytes : Z;
  cfg_cpu_profile_hz : Z;
  cfg_principal_hash_salt : option string;
  cfg_capture_query_content : bool
}.

(** * Names of errors, commands and scopes *)

(** [Display] of [DecodeError] *)
Definition decode_error_text (e : DecodeError) : string :=
  match e with
  | InvalidFrameLength n => "MongoDB frame length " ++ pretty n ++ " is invalid"
  | FrameTooLarge => "MongoDB frame exceeds configured limit"
  | BufferTooLarge => "MongoDB stream buffer exceeds configured limit"
  | Truncated => "truncated MongoDB message"
  | UnsupportedOpcode n => "unsupported MongoDB opcode " ++ pretty n
  | UnsupportedSection n => "unsupported OP_MSG section kind " ++ pretty n
  | InvalidBson => "invalid BSON document"
  | InvalidCompressed => "invalid OP_COMPRESSED payload"
  | UnsupportedCompressor n => "unsupported MongoDB compressor " ++ pretty n
  | Decompression text => "MongoDB decompression failed: " ++ text
  end%string.

Definition is_session_auth_command (command : string) : bool :=
  one_of (to_ascii_lowercase command) ["saslstart"; "saslcontinue"; "authenticate"; "getnonce"].
Definition is_user_management_command (command : string) : bool :=
  one_of (to_ascii_lowercase command)
    ["createuser"; "dropuser"; "grantrolestouser"; "revokerolesfromuser"; "updateuser"; "usersinfo"].
Definition is_auth_command (command : string) : bool :=
  is_session_auth_command command || is_user_management_command command.
Definition command_carries_authentication (command : MongoCommand) : bool :=
  speculative_auth command || is_session_auth_command (name command).
Definition authentication_exchange_completed (command : MongoCommand) (auth_done : option bool) : bool :=
  let done := match auth_done with Some true => true | _ => false end in
  if speculative_auth command then done
  else if one_of (to_ascii_lowercase (name command)) ["saslstart"; "saslcontinue"] then done
  else String.eqb (to_ascii_lowercase (name command)) "authenticate".
Definition delete_scope_name (scope : DeleteScope) : string :=
  match scope with
  | Single => "single"
  | Multi => "multi"
  | Mixed => "mixed"
  end.

(** [command.principal.take()] *)
Definition without_principal (c : MongoCommand) : MongoCommand := {|
  name := name c; database := database c; collection := collection c; auth_mechanism := auth_mechanism c;
  principal := None; speculative_auth := speculative_auth c; delete_scope := delete_scope c;
  delete_statements := delete_statements c; query := query c
|}.

(** * State *)
Record EventSeed {OffsetDateTime : Type} : Type := {
  seed_observed_at : OffsetDateTime;
  seed_monotonic_timestamp_ns : Z;
  seed_capture : CaptureMetadata;
  seed_kubernetes : option KubernetesMetadata;
  seed_process : option ProcessMetadata
}.
Arguments EventSeed : clear implicits.

Record PendingRequest {OffsetDateTime : Type} : Type := {
  req_command : MongoCommand;
  req_target_principal_hash : option string;
  req_actor_principal_hash : option string;
  req_connection_state_key : Z * Z;
  req_request_id : Z;
  req_request_bytes : Z;
  req_compressed : bool;
  req_expects_response : bool;
  req_seed : EventSeed OffsetDateTime;
  req_connection : ConnectionMetadata
}.
Arguments PendingRequest : clear implicits.

Record PendingDnsQuery : Set := {
  dnsq_timestamp_ns : Z;
  dnsq_name : option string;
  dnsq_record_type : option string
}.

Record ConnectionState : Set := {
  cs_tcp_srtt_us : option Z;
  cs_retransmits : Z;
  cs_authenticated_principal_hash : option string;
  cs_pending_auth_principal_hash : option string
}.
(** [ConnectionState::default()] *)
Definition no_connection : ConnectionState :=
  {| cs_tcp_srtt_us := None; cs_retransmits := 0; cs_authenticated_principal_hash := None;
     cs_pending_auth_principal_hash := None |}.
Definition with_srtt (v : option Z) (s : ConnectionState) : ConnectionState :=
  {| cs_tcp_srtt_us := v; cs_retransmits := cs_retransmits s;
     cs_authenticated_principal_hash := cs_authenticated_principal_hash s;
     cs_pending_auth_principal_hash := cs_pending_auth_principal_hash s |}.
Definition with_retransmits (n : Z) (s : ConnectionState) : ConnectionState :=
  {| cs_tcp_srtt_us := cs_tcp_srtt_us s; cs_retransmits := n;
     cs_authenticated_principal_hash := cs_authenticated_principal_hash s;
     cs_pending_auth_principal_hash := cs_pending_auth_principal_hash s |}.
Definition with_principals (authenticated pending : option string) (s : ConnectionState) : ConnectionState :=
  {| cs_tcp_srtt_us := cs_tcp_srtt_us s; cs_retransmits := cs_retransmits s;
     cs_authenticated_principal_hash := authenticated; cs_pending_auth_principal_hash := pending |}.

Record EndpointCacheEntry : Set := {
  cache_inserted_at : Z;
  cache_local : NetworkEndpoint;
  cache_remote : NetworkEndpoint
}.

Record EventProcessor {OffsetDateTime : Type} : Type := {
  processor_config : ProcessorConfig;
  streams : gmap (Z * Z * Z) StreamDecoder;
  pending : gmap (Z * Z * Z) (PendingRequest OffsetDateTime);
  pending_dns : gmap (Z * Z * Z) PendingDnsQuery;
  connections : gmap (Z * Z) ConnectionState;
  endpoint_cache : gmap (Z * Z) EndpointCacheEntry;
  sequence : Z
}.
Arguments EventProcessor : clear implicits.

Section processor.
Context {OffsetDateTime World : Type} `{Host OffsetDateTime World} `{Sha256} `{Decompressors}.
Abbreviation EventProcessor := (EventProcessor OffsetDateTime).
Abbreviation PendingRequest := (PendingRequest OffsetDateTime).
Abbreviation EventSeed := (EventSeed OffsetDateTime).
Abbreviation DamEvent := (DamEvent OffsetDateTime).
(** The order in which [HashMap::iter] visits the pending requests *)
Context (iteration : gmap (Z * Z * Z) PendingRequest -> list ((Z * Z * Z) * PendingRequest)).

Definition new_processor (config : ProcessorConfig) : EventProcessor :=
  {| processor_config := config; streams := ∅; pending := ∅; pending_dns := ∅; connections := ∅;
     endpoint_cache := ∅; sequence := 0 |}.

Definition set_streams (v : gmap (Z * Z * Z) StreamDecoder) (p : EventProcessor) : EventProcessor :=
  {| processor_config := processor_config p; streams := v; pending := pending p; pending_dns := pending_dns p;
     connections := connections p; endpoint_cache := endpoint_cache p; sequence := sequence p |}.
Definition set_pending (v : gmap (Z * Z * Z) PendingRequest) (p : EventProcessor) : EventProcessor :=
  {| processor_config := processor_config p; streams := streams p; pending := v; pending_dns := pending_dns p;
     connections := connections p; endpoint_cache := endpoint_cache p; sequence := sequence p |}.
Definition set_pending_dns (v : gmap (Z * Z * Z) PendingDnsQuery) (p : EventProcessor) : EventProcessor :=
  {| processor_config := processor_config p; streams := streams p; pending := pending p; pending_dns := v;
     connections := connections p; endpoint_cache := endpoint_cache p; sequence := sequence p |}.
Definition set_connections (v : gmap (Z * Z) ConnectionState) (p : EventProcessor) : EventProcessor :=
  {| processor_config := processor_config p; streams := streams p; pending := pending p;
     pending_dns := pending_dns p; connections := v; endpoint_cache := endpoint_cache p; sequence := sequence p |}.
Definition set_endpoint_cache (v : gmap (Z * Z) EndpointCacheEntry) (p : EventProcessor) : EventProcessor :=
  {| processor_config := processor_config p; streams := streams p; pending := pending p;
     pending_dns := pending_dns p; connections := connections p; endpoint_cache := v; sequence := sequence p |}.
Definition set_sequence (v : Z) (p : EventProcessor) : EventProcessor :=
  {| processor_config := processor_config p; streams := streams p; pending := pending p;
     pending_dns := pending_dns p; connections := connections p; endpoint_cache := endpoint_cache p; sequence := v |}.

(** A method of the processor *)
Definition Method (A : Type) : Type := State (EventProcessor * World) A.
#[local] Instance method_ret : MRet Method := @state_ret (EventProcessor * World).
#[local] Instance method_bind : MBind Method := @state_bind (EventProcessor * World).

(** [connections.entry(key).or_default()], changed by [f] *)
Definition connection_entry (key : Z * Z) (f : ConnectionState -> ConnectionState) : Method ConnectionState :=
  let! p := this in
  let state := f (default no_connection (connections p !! key)) in
  let! _ := update (set_connections (<[key := state]> (connections p))) in
  mret state.

(** * Events *)
Definition hash_principal (salt principal : string) : string :=
  String.append "sha256:" (encode_hex (sha256 (bytes_of salt ++ x00 :: bytes_of principal))).
Definition take_hashed_principal (command : MongoCommand) (salt : option string) : MongoCommand * option string :=
  (without_principal command,
   match principal command, salt with
   | Some principal, Some salt => Some (hash_principal salt principal)
   | _, _ => None
   end).

Definition seed (raw : KernelEvent) (truncated : bool) : Method EventSeed :=
  let! p := this in
  let config := processor_config p in
  let scheduler_handoff := (raw_event_type raw =? EVENT_SYSCALL_LATENCY) && (raw_operation raw =? OP_OFFCPU) in
  let foreign_kernel_context := scheduler_handoff || (raw_event_type raw =? EVENT_CONNECTION) in
  let! credentials :=
    (if foreign_kernel_context then host (process_credentials (cfg_host_proc config) (raw_tgid raw))
     else mret (Some (raw_uid raw, raw_gid raw))) in
  let! command :=
    (if foreign_kernel_context then
       let! command := host (process_command (cfg_host_proc config) (raw_tgid raw)) in
       mret (default (raw_command raw) command)
     else mret (raw_command raw)) in
  let! now := host now_utc in
  let! pod := host (pod_metadata (cfg_host_proc config) (raw_tgid raw) (cfg_cluster_name config)) in
  let! exe := host (process_executable (cfg_host_proc config) (raw_tgid raw)) in
  mret {|
    seed_observed_at := now;
    seed_monotonic_timestamp_ns := raw_timestamp_ns raw;
    seed_capture := {|
      sensor_id := cfg_sensor_id config;
      node_name := cfg_node_name config;
      source := capture_source (raw_source raw);
      confidence := if truncated then Partial
                    else if raw_event_type raw =? EVENT_IO_CHUNK then Complete else Inferred;
      metadata_only := true;
      truncated := truncated
    |};
    seed_kubernetes := pod;
    seed_process := Some {|
      pid := raw_pid raw;
      tgid := raw_tgid raw;
      uid := fst <$> credentials;
      gid := snd <$> credentials;
      cgroup_id := if foreign_kernel_context then None else Some (raw_cgroup_id raw);
      Schema.process_command := command;
      executable := exe
    |}
  |}.

Definition event_from_seed (seed : EventSeed) (payload : EventPayload) : Method DamEvent :=
  let! _ := update (fun p => set_sequence ((sequence p + 1) mod 18446744073709551616) p) in
  let! p := this in
  let config := processor_config p in
  let digest := sha256 (bytes_of (cfg_sensor_id config) ++ le_bytes 8 (seed_monotonic_timestamp_ns seed)
                        ++ le_bytes 8 (sequence p)) in
  mret {|
    event_version := EVENT_SCHEMA_VERSION;
    event_id := String.append "evt-" (encode_hex (take 16 digest));
    observed_at := seed_observed_at seed;
    monotonic_timestamp_ns := seed_monotonic_timestamp_ns seed;
    event_customer_id := cfg_customer_id config;
    event_tenant_id := cfg_tenant_id config;
    event_source_id := cfg_source_id config;
    event_regional_cell_id := cfg_regional_cell_id config;
    capture := seed_capture seed;
    kubernetes := seed_kubernetes seed;
    process := seed_process seed;
    identity := None;
    payload := payload
  |}.

Definition event (raw : KernelEvent) (truncated : bool) (payload : EventPayload) : Method DamEvent :=
  let! seed := seed raw truncated in event_from_seed seed payload.

(** * Connections *)

(** [Duration::from_secs(5)], in nanoseconds *)
Definition ENDPOINT_TTL_NS : Z := 5000000000.

Definition socket_endpoints (tgid fd : Z) : Method (option endpoints) :=
  let key := (tgid, fd) in
  let! p := this in
  let resolve : Method (option endpoints) :=
    let! found := host (resolve_socket_endpoints (cfg_host_proc (processor_config p)) tgid fd) in
    match found with
    | None => mret None
    | Some (local, remote) =>
        let! now := host instant_now in
        let! _ := update (fun p => set_endpoint_cache
          (<[key := {| cache_inserted_at := now; cache_local := local; cache_remote := remote |}]> (endpoint_cache p)) p) in
        mret (Some (local, remote))
    end in
  match endpoint_cache p !! key with
  | Some cached =>
      let! now := host instant_now in
      if saturating_sub now (cache_inserted_at cached) <? ENDPOINT_TTL_NS
      then mret (Some (cache_local cached, cache_remote cached))
      else resolve
  | None => resolve
  end.

Definition connection_id_of (node_name : string) (raw : KernelEvent) : string :=
  (node_name ++ ":" ++ pretty (raw_tgid raw) ++ ":" ++ fmt_x_padded 16 (raw_connection_key raw))%string.

Definition connection_metadata (raw : KernelEvent) : Method ConnectionMetadata :=
  let! state := connection_entry (raw_tgid raw, raw_connection_key raw) (fun s => s) in
  let! endpoints :=
    (if 0 <=? raw_fd raw then socket_endpoints (raw_tgid raw) (raw_fd raw) else mret None) in
  let! p := this in
  mret {|
    connection_id := connection_id_of (cfg_node_name (processor_config p)) raw;
    fd := raw_fd raw;
    local := fst <$> endpoints;
    remote := snd <$> endpoints;
    tcp_srtt_us := cs_tcp_srtt_us state;
    retransmits := if 0 <? cs_retransmits state then Some (cs_retransmits state) else None;
    tls := match raw_source raw with 2 => Some true | 1 => Some false | _ => None end
  |}.

(** * Requests and responses *)

(** [min_by_key]: the first of the least *)
Fixpoint min_by_timestamp (l : list ((Z * Z * Z) * PendingRequest)) : option ((Z * Z * Z) * PendingRequest) :=
  match l with
  | [] => None
  | x :: l =>
      match min_by_timestamp l with
      | None => Some x
      | Some y =>
          if seed_monotonic_timestamp_ns (req_seed (snd y)) <? seed_monotonic_timestamp_ns (req_seed (snd x))
          then Some y else Some x
      end
  end.

Definition prune_pending (now_ns : Z) (m : gmap (Z * Z * Z) PendingRequest) : gmap (Z * Z * Z) PendingRequest :=
  if Z.of_nat (size m) <? MAX_PENDING_REQUESTS then m else
  let cutoff := saturating_sub now_ns PENDING_REQUEST_TTL_NS in
  let m := filter (fun '(_, request) => cutoff <= seed_monotonic_timestamp_ns (req_seed request)) m in
  if MAX_PENDING_REQUESTS <=? Z.of_nat (size m) then
    match min_by_timestamp (iteration m) with
    | Some (oldest, _) => delete oldest m
    | None => m
    end
  else m.
Definition prune_pending_requests (now_ns : Z) : Method unit :=
  update (fun p => set_pending (prune_pending now_ns (pending p)) p).

(** The part of [events_for_completed_request] that follows the session: the
    principal of the exchange, and the connection after it. *)
Definition session_after (request : PendingRequest) (succeeded auth_done : option bool) (state : ConnectionState)
    : option string * ConnectionState :=
  let principal := opt_or (req_target_principal_hash request) (cs_pending_auth_principal_hash state) in
  (principal,
   match succeeded with
   | Some false => with_principals (cs_authenticated_principal_hash state) None state
   | Some true =>
       if authentication_exchange_completed (req_command request) auth_done
       then with_principals principal None state else state
   | None => state
   end).

Definition set_metadata_only (v : bool) (c : CaptureMetadata) : CaptureMetadata :=
  {| sensor_id := sensor_id c; node_name := node_name c; source := source c; confidence := confidence c;
     metadata_only := v; truncated := truncated c |}.
Definition with_content (seed : EventSeed) : EventSeed :=
  {| seed_observed_at := seed_observed_at seed; seed_monotonic_timestamp_ns := seed_monotonic_timestamp_ns seed;
     seed_capture := set_metadata_only false (seed_capture seed); seed_kubernetes := seed_kubernetes seed;
     seed_process := seed_process seed |}.

Definition events_for_completed_request (request : PendingRequest) (response : option (DecodedMessage * Z))
    (response_id response_bytes : option Z) : Method (list DamEvent) :=
  let of_status {B} (f : ResponseStatus -> option B) : option B :=
    match response with
    | Some (message, _) => status message ≫= f
    | None => None
    end in
  let duration_us := snd <$> response in
  let succeeded := of_status status_ok in
  let error_code := of_status code in
  let error_name := of_status code_name in
  let affected_documents := of_status affected_count in
  let auth_done := of_status auth_done in
  let command := req_command request in
  let! session_auth_principal :=
    (if command_carries_authentication command then
       let! p := this in
       let state := default no_connection (connections p !! req_connection_state_key request) in
       let '(principal, state) := session_after request succeeded auth_done state in
       let! _ := update (set_connections (<[req_connection_state_key request := state]> (connections p))) in
       mret principal
     else mret None) in
  let! p := this in
  let query := if cfg_capture_query_content (processor_config p) then query command else None in
  let activity_seed := if is_some query then with_content (req_seed request) else req_seed request in
  let! activity := event_from_seed activity_seed (PMongodbActivity {|
    activity_command := name command;
    activity_database := database command;
    activity_collection := collection command;
    activity_principal := req_actor_principal_hash request;
    activity_principal_hashed := is_some (req_actor_principal_hash request);
    activity_delete_scope := delete_scope_name <$> delete_scope command;
    activity_delete_statements := delete_statements command;
    activity_affected_documents := affected_documents;
    activity_query := query;
    activity_request_id := req_request_id request;
    activity_response_id := response_id;
    activity_request_bytes := req_request_bytes request;
    activity_response_bytes := response_bytes;
    activity_duration_us := duration_us;
    activity_succeeded := succeeded;
    activity_error_code := error_code;
    activity_error_name := error_name;
    activity_expects_response := req_expects_response request;
    activity_compressed := req_compressed request;
    activity_connection := req_connection request
  |}) in
  if is_auth_command (name command) || speculative_auth command then
    let default_mechanism := if is_user_management_command (name command) then "user_management" else "unknown" in
    let! auth := event_from_seed (req_seed request) (PMongodbAuth {|
      auth_event_mechanism := default default_mechanism (auth_mechanism command);
      auth_event_principal :=
        if command_carries_authentication command then session_auth_principal
        else req_target_principal_hash request;
      auth_event_principal_hashed := true;
      auth_event_succeeded := succeeded;
      auth_event_connection_id := connection_id (req_connection request)
    |}) in
    mret [activity; auth]
  else mret [activity].

(** [process_message], for a request and for a response *)
Definition process_request (raw : KernelEvent) (truncated : bool) (message : DecodedMessage) (command : MongoCommand)
    : Method (list DamEvent) :=
  let connection_key := (raw_tgid raw, raw_connection_key raw) in
  let! p := this in
  let '(command, target_principal_hash) :=
    take_hashed_principal command (cfg_principal_hash_salt (processor_config p)) in
  let! state := connection_entry connection_key (fun state =>
    match command_carries_authentication command, target_principal_hash with
    | true, Some principal => with_principals (cs_authenticated_principal_hash state) (Some principal) state
    | _, _ => state
    end) in
  let! seed := seed raw truncated in
  let! connection := connection_metadata raw in
  let request := {|
    req_command := command;
    req_target_principal_hash := target_principal_hash;
    req_actor_principal_hash := cs_authenticated_principal_hash state;
    req_connection_state_key := connection_key;
    req_request_id := request_id message;
    req_request_bytes := wire_bytes message;
    req_compressed := compressed message;
    req_expects_response := negb (more_to_come message);
    req_seed := seed;
    req_connection := connection
  |} in
  if req_expects_response request then
    let! _ := prune_pending_requests (raw_timestamp_ns raw) in
    let! _ := update (fun p => set_pending
      (<[(raw_tgid raw, raw_connection_key raw, req_request_id request) := request]> (pending p)) p) in
    mret []
  else events_for_completed_request request None None None.

Definition process_response (raw : KernelEvent) (message : DecodedMessage) : Method (list DamEvent) :=
  let key := (raw_tgid raw, raw_connection_key raw, response_to message) in
  let! p := this in
  match pending p !! key with
  | None => mret []
  | Some request =>
      let! _ := update (fun p => set_pending (delete key (pending p)) p) in
      let duration_us :=
        saturating_sub (raw_timestamp_ns raw) (seed_monotonic_timestamp_ns (req_seed request)) / 1000 in
      events_for_completed_request request (Some (message, duration_us)) (Some (request_id message))
        (Some (wire_bytes message))
  end.

Definition process_message (raw : KernelEvent) (truncated : bool) (message : DecodedMessage)
    : Method (list DamEvent) :=
  if response_to message =? 0 then
    match command message with
    | None => mret []
    | Some command => process_request raw truncated message command
    end
  else process_response raw message.

Fixpoint process_messages (raw : KernelEvent) (truncated : bool) (l : list DecodedMessage) : Method (list DamEvent) :=
  match l with
  | [] => mret []
  | message :: l =>
      let! events := process_message raw truncated message in
      let! rest := process_messages raw truncated l in
      mret (events ++ rest)
  end.

(** * Handlers of the event types *)
Definition decode_io_chunk (raw : KernelEvent) (captured_len : Z) : Method (res string (list DecodedMessage)) :=
  let key := (raw_tgid raw, raw_connection_key raw, raw_direction raw) in
  let! p := this in
  let decoder_config := {|
    max_message_bytes := cfg_max_message_bytes (processor_config p);
    max_buffer_bytes := Z.min usize_max (MAX_CAPTURE_BYTES * 2)
  |} in
  let decoder := default (new decoder_config) (streams p !! key) in
  if raw_captured_len raw <? raw_bytes raw then
    let remaining := saturating_sub MAX_CAPTURE_BYTES (buffered_bytes decoder) in
    match slice (E := DecodeError) (raw_data raw) 0 (Z.min captured_len remaining) with
    | Ok data =>
        let '(_, result) := push_truncated decoder data in
        let! _ := update (set_streams (delete key (streams p))) in
        mret (map_err decode_error_text ((fun message => [message]) <$> result))
    | _ => mret (Fault Panic)
    end
  else
    match slice (E := DecodeError) (raw_data raw) 0 captured_len with
    | Ok data =>
        let '(decoder, result) := push_bounded_prefix decoder data MAX_CAPTURE_BYTES in
        match result with
        | Err error =>
            let! _ := update (set_streams (delete key (streams p))) in mret (Err (decode_error_text error))
        | Ok decoded =>
            let! _ := update (set_streams (<[key := decoder]> (streams p))) in mret (Ok decoded)
        | Fault f => mret (Fault f)
        end
    | _ => mret (Fault Panic)
    end.

Definition process_io_chunk (captured : CapturedKernelEvent) : Method (res string (list DamEvent)) :=
  let raw := raw captured in
  let captured_len := Z.min (raw_captured_len raw) MAX_CAPTURE_BYTES in
  if captured_len =? 0 then mret (Ok []) else
  let truncated := raw_captured_len raw <? raw_bytes raw in
  let! decoded := decode_io_chunk raw captured_len in
  match decoded with
  | Ok decoded => let! events := process_messages raw truncated decoded in mret (Ok events)
  | Err error => mret (Err error)
  | Fault f => mret (Fault f)
  end.

Definition prune_dns (now_ns : Z) (m : gmap (Z * Z * Z) PendingDnsQuery) : gmap (Z * Z * Z) PendingDnsQuery :=
  if MAX_PENDING_DNS <=? Z.of_nat (size m) then
    let cutoff := saturating_sub now_ns PENDING_DNS_TTL_NS in
    let m := filter (fun '(_, pending) => cutoff <= dnsq_timestamp_ns pending) m in
    if MAX_PENDING_DNS <=? Z.of_nat (size m) then ∅ else m
  else m.

Definition process_dns (captured : CapturedKernelEvent) : Method (res string (list DamEvent)) :=
  let raw := raw captured in
  let captured_len := Z.min (raw_captured_len raw) MAX_CAPTURE_BYTES in
  match slice (E := string) (raw_data raw) 0 captured_len ≫= decode_dns_message with
  | Err error => mret (Err error)
  | Fault f => mret (Fault f)
  | Ok message =>
      let key := (raw_tgid raw, raw_connection_key raw, Dns.query_id message) in
      let truncated := raw_captured_len raw <? raw_bytes raw in
      let! p := this in
      let! (operation, name, record_type, duration_us) :=
        (if Dns.response message then
           let pending := pending_dns p !! key in
           let! _ := update (set_pending_dns (delete key (pending_dns p))) in
           mret ("response",
                 opt_or (Dns.name message) (pending ≫= dnsq_name),
                 opt_or (Dns.record_type message) (pending ≫= dnsq_record_type),
                 (fun pending => saturating_sub (raw_timestamp_ns raw) (dnsq_timestamp_ns pending) / 1000) <$> pending)
         else
           let query := {| dnsq_timestamp_ns := raw_timestamp_ns raw; dnsq_name := Dns.name message;
                           dnsq_record_type := Dns.record_type message |} in
           let! _ := update (set_pending_dns
             (<[key := query]> (prune_dns (raw_timestamp_ns raw) (pending_dns p)))) in
           mret ("query", Dns.name message, Dns.record_type message, None)) in
      let! connection := connection_metadata raw in
      let! event := event raw truncated (PDnsActivity {|
        dns_operation := operation;
        dns_transport := "udp";
        dns_query_id := Dns.query_id message;
        dns_name := name;
        dns_record_type := record_type;
        dns_response_code := if Dns.response message then Some (Dns.response_code message) else None;
        dns_answer_count := if Dns.response message then Some (Dns.answer_count message) else None;
        dns_duration_us := duration_us;
        dns_connection := connection
      |}) in
      mret (Ok [event])
  end.

Definition latency_operation (operation : Z) : option string :=
  if operation =? OP_PREAD then Some "pread"
  else if operation =? OP_PWRITE then Some "pwrite"
  else if operation =? OP_FSYNC then Some "fsync"
  else if operation =? OP_FDATASYNC then Some "fdatasync"
  else if operation =? OP_OPENAT then Some "openat"
  else if operation =? OP_PAGE_FAULT then Some "page_fault"
  else None.

Definition process_latency (captured : CapturedKernelEvent) : Method (list DamEvent) :=
  let raw := raw captured in
  if raw_operation raw =? OP_OFFCPU then
    let! event := event raw false (PProfile {|
      profile_type := "off_cpu"; profile_period_hz := 0; profile_count := 1; profile_user_stack_id := -1;
      profile_kernel_stack_id := -1; profile_duration_us := Some (raw_duration_ns raw / 1000);
      profile_user_stack_addresses := []; profile_kernel_stack_addresses := []
    |}) in
    mret [event]
  else
    match latency_operation (raw_operation raw) with
    | None => mret []
    | Some operation =>
        let! event := event raw false (PHostIo {|
          io_operation := operation;
          io_duration_us := raw_duration_ns raw / 1000;
          io_bytes := if 0 <? raw_bytes raw then Some (raw_bytes raw) else None;
          io_fd := if 0 <=? raw_fd raw then Some (raw_fd raw) else None;
          io_result := raw_result raw
        |}) in
        mret [event]
    end.

(** What a TCP operation is reported as, and what it does to the connection *)
Definition connection_operation (raw : KernelEvent) (state : ConnectionState)
    : option ((string * option Z * option string) * ConnectionState) :=
  let operation := raw_operation raw in
  let duration := raw_duration_ns raw / 1000 in
  let measured := if 0 <? raw_duration_ns raw then Some duration else None in
  if operation =? OP_TCP_CONNECT then Some (("connect_started", None, None), state)
  else if operation =? OP_TCP_ACCEPT then Some (("accepted", None, None), state)
  else if operation =? OP_TCP_CLOSE then Some (("closed", None, None), state)
  else if operation =? OP_TCP_RTT
  then Some (("rtt_sample", Some duration, None), with_srtt (Some (Z.min duration u32_max)) state)
  else if operation =? OP_TCP_RETRANSMIT
  then Some (("retransmit", None, None), with_retransmits (saturating_add u32_max (cs_retransmits state) 1) state)
  else if operation =? OP_TCP_HANDSHAKE then Some (("handshake_established", measured, None), state)
  else if operation =? OP_TCP_RESET_RECEIVED then Some (("reset", None, Some "peer_reset"), state)
  else if operation =? OP_TCP_RESET_SENT then Some (("reset", None, Some "active_reset"), state)
  else if operation =? OP_TCP_ZERO_WINDOW
  then Some (("zero_window", None, Some "peer_advertised_zero_window"), state)
  else if operation =? OP_TCP_TIMEOUT
  then Some (("timeout", measured, Some "connect_or_retransmission_timeout"), state)
  else None.

Definition drop_connection {V} (key : Z * Z) (m : gmap (Z * Z * Z) V) : gmap (Z * Z * Z) V :=
  filter (fun '(k, _) => k.1 <> key) m.
Definition forget_connection (key : Z * Z) (p : EventProcessor) : EventProcessor :=
  {| processor_config := processor_config p; streams := drop_connection key (streams p);
     pending := drop_connection key (pending p); pending_dns := drop_connection key (pending_dns p);
     connections := delete key (connections p); endpoint_cache := endpoint_cache p; sequence := sequence p |}.

Definition process_connection (captured : CapturedKernelEvent) : Method (list DamEvent) :=
  let raw := raw captured in
  let key := (raw_tgid raw, raw_connection_key raw) in
  let! state := connection_entry key (fun s => s) in
  match connection_operation raw state with
  | None => mret []
  | Some ((name, duration_us, reason), state) =>
      let! _ := update (fun p => set_connections (<[key := state]> (connections p)) p) in
      let! connection := connection_metadata raw in
      let! _ := update (if raw_operation raw =? OP_TCP_CLOSE then forget_connection key else fun p => p) in
      let! event := event raw false (PMongodbConnection {|
        conn_state := name; conn_connection := connection; conn_duration_us := duration_us; conn_reason := reason
      |}) in
      mret [event]
  end.

Definition process_profile (captured : CapturedKernelEvent) : Method (list DamEvent) :=
  let raw := raw captured in
  let sample :=
    if raw_operation raw =? OP_CPU_SAMPLE then
      Some ("on_cpu", None,
            (if (i32_min <=? raw_result raw) && (raw_result raw <=? i32_max) then raw_result raw else -1), raw_fd raw)
    else if raw_operation raw =? OP_LOCK_WAIT
    then Some ("pthread_mutex_wait", Some (raw_duration_ns raw / 1000), -1, -1)
    else None in
  match sample with
  | None => mret []
  | Some (kind, duration_us, user_stack_id, kernel_stack_id) =>
      let! p := this in
      let! event := event raw false (PProfile {|
        profile_type := kind;
        profile_period_hz :=
          if raw_operation raw =? OP_CPU_SAMPLE then cfg_cpu_profile_hz (processor_config p) else 0;
        profile_count := 1;
        profile_user_stack_id := user_stack_id;
        profile_kernel_stack_id := kernel_stack_id;
        profile_duration_us := duration_us;
        profile_user_stack_addresses := user_stack_addresses captured;
        profile_kernel_stack_addresses := kernel_stack_addresses captured
      |}) in
      mret [event]
  end.

Definition forget_process (tgid : Z) (p : EventProcessor) : EventProcessor :=
  {| processor_config := processor_config p;
     streams := filter (fun '(k, _) => k.1.1 <> tgid) (streams p);
     pending := filter (fun '(k, _) => k.1.1 <> tgid) (pending p);
     pending_dns := filter (fun '(k, _) => k.1.1 <> tgid) (pending_dns p);
     connections := filter (fun '(k, _) => k.1 <> tgid) (connections p);
     endpoint_cache := filter (fun '(k, _) => k.1 <> tgid) (endpoint_cache p);
     sequence := sequence p |}.

Definition process_lifecycle (captured : CapturedKernelEvent) : Method (list DamEvent) :=
  let raw := raw captured in
  let state :=
    if raw_operation raw =? OP_PROCESS_EXEC then Some "exec"
    else if raw_operation raw =? OP_PROCESS_EXIT then Some "exit" else None in
  match state with
  | None => mret []
  | Some state =>
      let! _ := update (if raw_operation raw =? OP_PROCESS_EXIT then forget_process (raw_tgid raw) else fun p => p) in
      let! p := this in
      let! executable := host (process_executable (cfg_host_proc (processor_config p)) (raw_tgid raw)) in
      let! event := event raw false (PProcessLifecycle {|
        lifecycle_state := state; lifecycle_executable := executable
      |}) in
      mret [event]
  end.

Definition process (captured : CapturedKernelEvent) : Method (res string (list DamEvent)) :=
  let ok (m : Method (list DamEvent)) : Method (res string (list DamEvent)) :=
    let! events := m in mret (Ok events) in
  let event_type := raw_event_type (raw captured) in
  if event_type =? EVENT_IO_CHUNK then process_io_chunk captured
  else if event_type =? EVENT_SYSCALL_LATENCY then ok (process_latency captured)
  else if event_type =? EVENT_CONNECTION then ok (process_connection captured)
  else if event_type =? EVENT_PROFILE then ok (process_profile captured)
  else if event_type =? EVENT_PROCESS then ok (process_lifecycle captured)
  else if event_type =? EVENT_DNS_CHUNK then process_dns captured
  else mret (Err (String.append "unsupported kernel event type " (pretty event_type))).
End processor.
