(* ===== verification/ObserverSpec.v ===== *)
(** What the event processor keeps true: the invariant of its state, and
    the theorems on the events it emits, whatever the machine answers. *)
From Stdlib Require Import ZArith Lia ZifyBool Strings.Byte Strings.Ascii Strings.String.
From stdpp Require Import base list strings gmap fin_maps pretty.
From S2P Require Import Prelude Text Float64 Json Dns Bson BsonJson Summary Wire Stream Schema.
From S2P Require Import Methods Proc Kernel Observer.

Local Open Scope string_scope.
Local Open Scope list_scope.
Local Open Scope Z_scope.

(** * The invariant *)

(** A text is absent, or the salted hash of some principal. *)
Definition hashed_by `{Sha256} (salt : option string) (o : option string) : Prop :=
  forall h, o = Some h -> exists s x, salt = Some s /\ h = hash_principal s x.

Section invariant.
Context {OffsetDateTime World : Type} `{Host OffsetDateTime World} `{Sha256} `{Decompressors}.
Abbreviation EventProcessor := (EventProcessor OffsetDateTime).
Abbreviation PendingRequest := (PendingRequest OffsetDateTime).
Abbreviation EventSeed := (EventSeed OffsetDateTime).
Abbreviation DamEvent := (DamEvent OffsetDateTime).
Abbreviation Method := (@Method OffsetDateTime World).
Context (iteration : gmap (Z * Z * Z) PendingRequest -> list ((Z * Z * Z) * PendingRequest)).
Context (iteration_permutes : forall m, iteration m ≡ₚ map_to_list m).
Context (config : ProcessorConfig).

Abbreviation salt := (cfg_principal_hash_salt config).

Record sensor_capture (c : CaptureMetadata) : Prop := {
  sc_sensor : sensor_id c = cfg_sensor_id config;
  sc_node : node_name c = cfg_node_name config
}.
Definition wf_seed (s : EventSeed) : Prop :=
  sensor_capture (seed_capture s) /\ metadata_only (seed_capture s) = true.

Record wf_request (r : PendingRequest) : Prop := {
  wr_seed : wf_seed (req_seed r);
  wr_clear : principal (req_command r) = None;
  wr_target : hashed_by salt (req_target_principal_hash r);
  wr_actor : hashed_by salt (req_actor_principal_hash r)
}.
(** A request is filed under its connection and id. *)
Definition filed (key : Z * Z * Z) (r : PendingRequest) : Prop :=
  key = (req_connection_state_key r, req_request_id r) /\ req_expects_response r = true.

Definition wf_connection (s : ConnectionState) : Prop :=
  hashed_by salt (cs_authenticated_principal_hash s) /\ hashed_by salt (cs_pending_auth_principal_hash s).

Definition decoder_config : DecoderConfig := {|
  max_message_bytes := cfg_max_message_bytes config;
  max_buffer_bytes := Z.min usize_max (MAX_CAPTURE_BYTES * 2)
|}.

Record sound (p : EventProcessor) : Prop := {
  so_config : processor_config p = config;
  so_streams : map_Forall (fun _ d => bounded decoder_config MAX_CAPTURE_BYTES d) (streams p);
  so_pending : map_Forall (fun key r => wf_request r /\ filed key r) (pending p);
  so_pending_size : Z.of_nat (size (pending p)) <= MAX_PENDING_REQUESTS;
  so_dns_size : Z.of_nat (size (pending_dns p)) <= MAX_PENDING_DNS;
  so_connections : map_Forall (fun _ s => wf_connection s) (connections p);
  so_sequence : 0 <= sequence p <= u64_max
}.

(** * Good events *)

(** The principals an event names *)
Definition event_principals (e : EventPayload) : list (option string) :=
  match e with
  | PMongodbActivity a => [activity_principal a]
  | PMongodbAuth a => [auth_event_principal a]
  | _ => []
  end.

Record good_payload (e : EventPayload) : Prop := {
  gp_principals : Forall (hashed_by salt) (event_principals e);
  gp_marked : match e with
              | PMongodbActivity a => activity_principal_hashed a = is_some (activity_principal a)
              | PMongodbAuth a => auth_event_principal_hashed a = true
              | _ => True
              end
}.

Record good_event (e : DamEvent) : Prop := {
  ge_version : event_version e = EVENT_SCHEMA_VERSION;
  ge_id : exists digest, event_id e = String.append "evt-" (encode_hex digest);
  ge_customer : event_customer_id e = cfg_customer_id config;
  ge_tenant : event_tenant_id e = cfg_tenant_id config;
  ge_source : event_source_id e = cfg_source_id config;
  ge_cell : event_regional_cell_id e = cfg_regional_cell_id config;
  ge_capture : sensor_capture (capture e);
  ge_identity : identity e = None;
  ge_content : metadata_only (capture e) = true <-> query_content e = None;
  ge_opt_in : query_content e <> None -> cfg_capture_query_content config = true;
  ge_payload : good_payload (payload e)
}.

(** What every method keeps: a sound processor, and good events. *)
Definition keeps {A} (Q : A -> Prop) (m : Method A) : Prop :=
  forall p, sound p -> mwp m p (fun a p' => sound p' /\ Q a).

Lemma keeps_mwp {A} (Q : A -> Prop) (m : Method A) p (Q' : A -> EventProcessor -> Prop) :
  keeps Q m -> sound p -> (forall a p', sound p' -> Q a -> Q' a p') -> mwp m p Q'.
Proof. intros Hm Hp HQ. eapply mwp_mono; [by apply Hm|]. intros a p' [? ?]. by apply HQ. Qed.

(** ** One component at a time *)
Lemma sound_set_streams p v :
  sound p -> map_Forall (fun _ d => bounded decoder_config MAX_CAPTURE_BYTES d) v -> sound (set_streams v p).
Proof. intros [] ?. by split. Qed.
Lemma sound_set_pending p v :
  sound p -> map_Forall (fun key r => wf_request r /\ filed key r) v ->
  Z.of_nat (size v) <= MAX_PENDING_REQUESTS -> sound (set_pending v p).
Proof. intros [] ? ?. by split. Qed.
Lemma sound_set_pending_dns p v :
  sound p -> Z.of_nat (size v) <= MAX_PENDING_DNS -> sound (set_pending_dns v p).
Proof. intros [] ?. by split. Qed.
Lemma sound_set_connections p v :
  sound p -> map_Forall (fun _ s => wf_connection s) v -> sound (set_connections v p).
Proof. intros [] ?. by split. Qed.
Lemma sound_set_endpoint_cache p v : sound p -> sound (set_endpoint_cache v p).
Proof. intros []. by split. Qed.
Lemma sound_set_sequence p v : sound p -> 0 <= v <= u64_max -> sound (set_sequence v p).
Proof. intros [] ?. by split. Qed.

Lemma hashed_none : hashed_by salt None.
Proof. by intros h. Qed.

Lemma wf_no_connection : wf_connection no_connection.
Proof. split; apply hashed_none. Qed.

Lemma connection_default p key : sound p -> wf_connection (default no_connection (connections p !! key)).
Proof.
  intros Hp. destruct (connections p !! key) as [s|] eqn:Hs; simpl; [|apply wf_no_connection].
  by eapply (so_connections p Hp).
Qed.

Lemma size_filter {K V} `{Countable K} (P : K * V -> Prop) `{forall x, Decision (P x)} (m : gmap K V) :
  (size (filter P m) <= size m)%nat.
Proof. apply map_size_filter. Qed.

Lemma map_Forall_weaken {K V} `{Countable K} (P : K -> V -> Prop) (m m' : gmap K V) :
  m' ⊆ m -> map_Forall P m -> map_Forall P m'.
Proof. intros Hsub Hm k v Hk. eapply Hm, lookup_weaken; done. Qed.

(** ** Seeds and events *)
Lemma keeps_connection_entry key f :
  (forall s, wf_connection s -> wf_connection (f s)) -> keeps wf_connection (connection_entry key f).
Proof.
  intros Hf p Hp. unfold connection_entry. repeat mwp_step.
  assert (wf_connection (f (default no_connection (connections p !! key)))) as Hs by (by apply Hf, connection_default).
  split; [|done]. apply sound_set_connections; [done|]. by apply map_Forall_insert_2; [|apply Hp].
Qed.

Lemma seed_exact raw truncated p :
  mwp (seed raw truncated) p (fun s p' => p' = p /\
    seed_monotonic_timestamp_ns s = raw_timestamp_ns raw /\
    sensor_id (seed_capture s) = cfg_sensor_id (processor_config p) /\
    node_name (seed_capture s) = cfg_node_name (processor_config p) /\
    metadata_only (seed_capture s) = true /\ Schema.truncated (seed_capture s) = truncated).
Proof. unfold seed. repeat (mwp_step || done). Qed.

Lemma keeps_seed raw truncated : keeps wf_seed (seed raw truncated).
Proof.
  intros p Hp. eapply mwp_mono; [apply seed_exact|]. intros s p' (-> & _ & Hs & Hn & Hm & _).
  rewrite (so_config p Hp) in Hs, Hn. split; [done|]. by split; [split|].
Qed.

Lemma keeps_event_from_seed s e :
  sensor_capture (seed_capture s) ->
  (metadata_only (seed_capture s) = true <->
     match e with PMongodbActivity a => activity_query a = None | _ => True end) ->
  match e with
  | PMongodbActivity a => activity_query a <> None -> cfg_capture_query_content config = true
  | _ => True
  end ->
  good_payload e -> keeps good_event (event_from_seed (World := World) s e).
Proof.
  intros Hs Hm Ho He p Hp. unfold event_from_seed. repeat mwp_step. cbn [processor_config set_sequence].
  rewrite (so_config p Hp). split; [apply sound_set_sequence; [done|]|].
  { pose proof (Z.mod_pos_bound (sequence p + 1) 18446744073709551616 eq_refl). lia. }
  split; simpl; try done; [by eexists|..]; unfold query_content; simpl; destruct e; intuition congruence.
Qed.

(** A seed's event whose payload is not an activity *)
Lemma keeps_event raw truncated e :
  match e with PMongodbActivity _ => False | _ => True end -> good_payload e ->
  keeps good_event (event (World := World) raw truncated e).
Proof.
  intros He Hg p Hp. unfold event. apply mwp_bind. eapply keeps_mwp; [apply keeps_seed|done|].
  intros s p' Hp' [Hs Hm]. by apply keeps_event_from_seed; [done|destruct e; done|destruct e|..].
Qed.

Lemma plain_payload e :
  match e with PMongodbActivity _ | PMongodbAuth _ => False | _ => True end -> good_payload e.
Proof. intros He. split; destruct e; (done || constructor). Qed.

(** ** Connections *)
Lemma keeps_socket_endpoints tgid fd : keeps (fun _ => True) (socket_endpoints tgid fd).
Proof.
  intros p Hp. unfold socket_endpoints. repeat mwp_step; (split; [by repeat apply sound_set_endpoint_cache|done]).
Qed.

Lemma keeps_connection_metadata raw : keeps (fun _ => True) (connection_metadata raw).
Proof.
  intros p Hp. unfold connection_metadata. apply mwp_bind.
  eapply keeps_mwp; [by apply keeps_connection_entry|done|]. intros s p1 Hp1 _. apply mwp_bind.
  destruct (0 <=? raw_fd raw).
  - eapply keeps_mwp; [apply keeps_socket_endpoints|done|]. intros e p2 Hp2 _. by repeat mwp_step.
  - by repeat mwp_step.
Qed.

(** ** Requests and responses *)
Lemma hashed_or o o' : hashed_by salt o -> hashed_by salt o' -> hashed_by salt (opt_or o o').
Proof. by destruct o. Qed.

Lemma session_after_wf r succeeded auth_done s :
  wf_request r -> wf_connection s ->
  hashed_by salt (fst (session_after r succeeded auth_done s)) /\
  wf_connection (snd (session_after r succeeded auth_done s)).
Proof.
  intros Hr [Ha Hp]. unfold session_after. simpl. split; [apply hashed_or; [apply Hr|done]|].
  destruct succeeded as [[]|]; [destruct (authentication_exchange_completed _ _)| |]; (split; simpl; [|]);
    try done; try apply hashed_none. apply hashed_or; [apply Hr|done].
Qed.

Lemma keeps_completed r response response_id response_bytes :
  wf_request r -> keeps (Forall good_event) (events_for_completed_request (World := World) r response response_id response_bytes).
Proof.
  intros Hr p Hp. unfold events_for_completed_request. cbv zeta. apply mwp_bind.
  set (succeeded := match response with Some (message, _) => status message ≫= status_ok | None => None end).
  set (done_ := match response with Some (message, _) => status message ≫= auth_done | None => None end).
  apply mwp_mono with (Q := fun o p' => sound p' /\ hashed_by salt o).
  { destruct (command_carries_authentication (req_command r)); [|by repeat mwp_step; split; [|apply hashed_none]].
    apply mwp_bind, mwp_this. destruct (session_after_wf r succeeded done_ (default no_connection (connections p !! req_connection_state_key r)))
      as [Hpr Hs]; [done|by apply connection_default|].
    destruct (session_after _ _ _ _) as [pr s]. repeat mwp_step. split; [|done].
    apply sound_set_connections; [done|]. by apply map_Forall_insert_2; [|apply Hp]. }
  intros principal p1 [Hp1 Hprincipal]. apply mwp_bind, mwp_this. rewrite (so_config p1 Hp1).
  set (q := if cfg_capture_query_content config then query (req_command r) else None).
  destruct (wr_seed r Hr) as [Hsc Hm].
  apply mwp_bind. eapply keeps_mwp; [apply keeps_event_from_seed|done|].
  - destruct (is_some q); [destruct Hsc; by split|done].
  - simpl. unfold is_some. destruct q; simpl; [done|]. rewrite Hm. done.
  - simpl. intros Hq. unfold q in Hq. by destruct (cfg_capture_query_content config).
  - split; simpl; [|done]. apply Forall_singleton, Hr.
  - intros activity p2 Hp2 Ha. mwp_step; [|by mwp_step; split; [|apply Forall_singleton]].
    apply mwp_bind. eapply keeps_mwp; [apply keeps_event_from_seed|done|]; [done|done|done|..].
    + split; simpl; [|done]. apply Forall_singleton. destruct (command_carries_authentication _); [done|apply Hr].
    + intros auth p3 Hp3 Hauth. mwp_step. split; [done|]. by rewrite Forall_cons, Forall_singleton.
Qed.

Lemma min_by_timestamp_elem l x : min_by_timestamp (OffsetDateTime := OffsetDateTime) l = Some x -> x ∈ l.
Proof.
  revert x. induction l as [|y l IH]; intros x; [done|]. simpl. destruct (min_by_timestamp l) as [z|].
  - destruct (_ <? _); intros [= <-]; [right; by apply IH|left].
  - intros [= <-]. left.
Qed.
Lemma min_by_timestamp_none l : min_by_timestamp (OffsetDateTime := OffsetDateTime) l = None -> l = [].
Proof. destruct l as [|x l]; [done|]. simpl. destruct (min_by_timestamp l); [by case_match|done]. Qed.

(** Pruning only removes, and leaves room for one more request. *)
Lemma prune_pending_subseteq now m : prune_pending iteration now m ⊆ m.
Proof.
  unfold prune_pending. destruct (_ <? _); [done|]. cbv zeta. set (m' := filter _ m).
  assert (m' ⊆ m) by apply map_filter_subseteq. destruct (_ <=? _); [|done].
  destruct (min_by_timestamp _) as [[oldest r]|]; [|done]. etrans; [apply delete_subseteq|done].
Qed.

Lemma prune_pending_size now m :
  Z.of_nat (size m) <= MAX_PENDING_REQUESTS ->
  Z.of_nat (size (prune_pending iteration now m)) < MAX_PENDING_REQUESTS.
Proof using iteration_permutes.
  intros Hm. unfold prune_pending. destruct (Z.of_nat (size m) <? MAX_PENDING_REQUESTS) eqn:Hs; [lia|]. cbv zeta.
  set (m' := filter _ m). assert (size m' <= size m)%nat as Hf by apply size_filter.
  destruct (MAX_PENDING_REQUESTS <=? Z.of_nat (size m')) eqn:Hs'; [|lia].
  destruct (min_by_timestamp (iteration m')) as [[oldest r]|] eqn:Hmin.
  - apply min_by_timestamp_elem in Hmin. rewrite iteration_permutes in Hmin. apply elem_of_map_to_list in Hmin.
    rewrite map_size_delete, Hmin. simpl. unfold MAX_PENDING_REQUESTS in *. lia.
  - apply min_by_timestamp_none in Hmin. pose proof (iteration_permutes m') as Hperm. rewrite Hmin in Hperm.
    apply Permutation_nil in Hperm. apply map_to_list_empty_iff in Hperm. rewrite Hperm, map_size_empty in Hs'.
    unfold MAX_PENDING_REQUESTS in Hs'. lia.
Qed.

Lemma hashed_take command c o :
  take_hashed_principal command salt = (c, o) -> principal c = None /\ hashed_by salt o.
Proof.
  unfold take_hashed_principal. intros [= <- <-]. split; [done|].
  intros h Hh. destruct (principal command) as [x|], salt as [s|]; try done. injection Hh as <-. eauto.
Qed.

Lemma keeps_process_request raw truncated message command :
  keeps (Forall good_event) (process_request iteration raw truncated message command).
Proof using iteration_permutes.
  intros p Hp. unfold process_request. apply mwp_bind, mwp_this. rewrite (so_config p Hp).
  destruct (take_hashed_principal command salt) as [c target] eqn:Ht. apply hashed_take in Ht as [Hclear Htarget].
  apply mwp_bind. eapply keeps_mwp; [apply keeps_connection_entry|done|].
  { intros s [Ha Hpd]. destruct (command_carries_authentication c), target; done. }
  intros state p1 Hp1 [Hactor _]. apply mwp_bind. eapply keeps_mwp; [apply keeps_seed|done|].
  intros seed p2 Hp2 Hseed. apply mwp_bind. eapply keeps_mwp; [apply keeps_connection_metadata|done|].
  intros connection p3 Hp3 _. cbv zeta. set (request := Build_PendingRequest _ _ _ _ _ _ _ _ _ _ _).
  assert (wf_request request) as Hr by done.
  destruct (req_expects_response request) eqn:He; [|by apply keeps_completed].
  unfold prune_pending_requests. repeat mwp_step. cbn [pending set_pending]. split; [|done].
  pose proof (prune_pending_size (raw_timestamp_ns raw) (pending p3) (so_pending_size p3 Hp3)).
  apply sound_set_pending; [|apply map_Forall_insert_2|].
  - apply sound_set_pending; [done| |lia].
    eapply map_Forall_weaken; [apply prune_pending_subseteq|apply Hp3].
  - done.
  - eapply map_Forall_weaken; [apply prune_pending_subseteq|apply Hp3].
  - rewrite map_size_insert. destruct (_ !! _); unfold id; lia.
Qed.

Lemma keeps_process_response raw message :
  keeps (Forall good_event) (process_response (World := World) raw message).
Proof.
  intros p Hp. unfold process_response. apply mwp_bind, mwp_this.
  destruct (pending p !! _) as [request|] eqn:Hr; [|by mwp_step].
  apply mwp_bind, mwp_update. apply keeps_completed; [by apply (so_pending p Hp) in Hr as []|].
  apply sound_set_pending; [done| |].
  - eapply map_Forall_weaken; [apply delete_subseteq|apply Hp].
  - pose proof (so_pending_size p Hp). rewrite map_size_delete, Hr. simpl. lia.
Qed.

Lemma keeps_process_message raw truncated message :
  keeps (Forall good_event) (process_message iteration raw truncated message).
Proof using iteration_permutes.
  unfold process_message. destruct (response_to message =? 0); [|apply keeps_process_response].
  destruct (command message); [apply keeps_process_request|]. intros p Hp. by mwp_step.
Qed.

Lemma keeps_process_messages raw truncated l :
  keeps (Forall good_event) (process_messages iteration raw truncated l).
Proof using iteration_permutes.
  induction l as [|message l IH]; intros p Hp; simpl; [by mwp_step|].
  apply mwp_bind. eapply keeps_mwp; [apply keeps_process_message|done|]. intros es p1 Hp1 Hes.
  apply mwp_bind. eapply keeps_mwp; [apply IH|done|]. intros rest p2 Hp2 Hrest.
  mwp_step. split; [done|]. by apply Forall_app.
Qed.

(** ** Results: no method panics *)
Definition good_result (r : res string (list DamEvent)) : Prop := returns r /\ ensures (Forall good_event) r.

Lemma good_Ok es : Forall good_event es -> good_result (Ok es).
Proof. intros He. split; [left; eauto|]. by apply ensures_Ok. Qed.
Lemma good_Err e : good_result (Err e).
Proof. split; [right; eauto|apply ensures_Err]. Qed.

Lemma slice_captured raw n :
  well_typed raw -> 0 <= n <= MAX_CAPTURE_BYTES ->
  exists data, len data = n /\ forall E, slice (E := E) (raw_data raw) 0 n = Ok data.
Proof.
  intros Hw Hn. pose proof (wt_data raw Hw) as Hd. unfold slice. rewrite get_range_in by lia.
  eexists. split; [|by intros E]. unfold len in *. rewrite length_take, length_drop. lia.
Qed.

Lemma stream_default p key :
  sound p -> bounded decoder_config MAX_CAPTURE_BYTES (default (new decoder_config) (streams p !! key)).
Proof.
  intros Hp. destruct (streams p !! key) as [d|] eqn:Hd; simpl; [by eapply (so_streams p Hp)|].
  by apply reachable_bounded; [..|apply reachable_new].
Qed.

Lemma keeps_decode_io_chunk raw captured_len :
  well_typed raw -> 0 <= captured_len <= MAX_CAPTURE_BYTES ->
  keeps returns (decode_io_chunk (World := World) (OffsetDateTime := OffsetDateTime) raw captured_len).
Proof.
  intros Hw Hc p Hp. unfold decode_io_chunk. apply mwp_bind, mwp_this. rewrite (so_config p Hp). fold decoder_config.
  pose proof (stream_default p (raw_tgid raw, raw_connection_key raw, raw_direction raw) Hp) as Hb.
  cbv zeta. set (d := default _ _) in *.
  assert (forall key, sound (set_streams (delete key (streams p)) p)) as Hdelete.
  { intros key. apply sound_set_streams; [done|].
    eapply map_Forall_weaken; [apply delete_subseteq|apply Hp]. }
  destruct (raw_captured_len raw <? raw_bytes raw).
  - destruct (slice_captured raw (Z.min captured_len (saturating_sub MAX_CAPTURE_BYTES (buffered_bytes d))))
      as (data & Hlen & Hslice); [done|unfold saturating_sub; lia|]. rewrite Hslice.
    destruct (push_truncated d data) as [d' result] eqn:Hpush. repeat mwp_step. split; [apply Hdelete|].
    unfold push_truncated in Hpush. destruct (_ <? _); injection Hpush as _ <-; [right; simpl; eauto|].
    assert (safe (fun _ => True) (decode_frame_prefix (buffer d ++ data) (max_message_bytes (Stream.config d)))) as Hs.
    { apply safe_decode_frame_prefix. destruct Hb as (_ & _ & Hb). rewrite len_app.
      unfold saturating_sub, MAX_CAPTURE_BYTES in *. lia. }
    destruct (decode_frame_prefix _ _); [left|right|done]; simpl; eauto.
  - destruct (slice_captured raw captured_len) as (data & Hlen & Hslice); [done..|]. rewrite Hslice.
    pose proof (push_bounded_prefix_step decoder_config MAX_CAPTURE_BYTES ltac:(done) ltac:(done) d data Hb ltac:(lia)) as Hs.
    destruct (push_bounded_prefix d data MAX_CAPTURE_BYTES) as [d' result]. destruct Hs as (_ & Hret & Hb').
    destruct result as [ms|e|f]; repeat mwp_step.
    + split; [|left; eauto]. apply sound_set_streams; [done|]. apply map_Forall_insert_2; [by eapply Hb'|apply Hp].
    + split; [apply Hdelete|right; eauto].
    + split; [done|]. by destruct Hret as [[]|[]].
Qed.

Lemma keeps_process_io_chunk captured :
  well_typed (raw captured) -> keeps good_result (process_io_chunk iteration captured).
Proof using iteration_permutes.
  intros Hw p Hp. unfold process_io_chunk. cbv zeta. pose proof (wt_captured _ Hw).
  destruct (_ =? 0); [mwp_step; split; [done|by apply good_Ok]|].
  apply mwp_bind. eapply keeps_mwp; [apply keeps_decode_io_chunk; [done|unfold MAX_CAPTURE_BYTES; lia]|done|].
  intros decoded p1 Hp1 Hret. destruct decoded as [ms|e|f].
  - apply mwp_bind. eapply keeps_mwp; [apply keeps_process_messages|done|].
    intros es p2 Hp2 He. mwp_step. split; [done|by apply good_Ok].
  - mwp_step. split; [done|apply good_Err].
  - by destruct Hret as [[]|[]].
Qed.

Lemma prune_dns_size now m :
  Z.of_nat (size m) <= MAX_PENDING_DNS -> Z.of_nat (size (prune_dns now m)) < MAX_PENDING_DNS.
Proof.
  intros Hm. unfold prune_dns. destruct (_ <=? _) eqn:Hs; [|lia]. cbv zeta. set (m' := filter _ m).
  destruct (MAX_PENDING_DNS <=? Z.of_nat (size m')) eqn:Hs'; [|lia]. by rewrite map_size_empty.
Qed.

Lemma keeps_process_dns captured :
  well_typed (raw captured) -> keeps good_result (process_dns (World := World) captured).
Proof.
  intros Hw p Hp. unfold process_dns. cbv zeta. pose proof (wt_captured _ Hw).
  destruct (slice_captured (raw captured) (Z.min (raw_captured_len (raw captured)) MAX_CAPTURE_BYTES))
    as (data & Hlen & Hslice); [done|unfold MAX_CAPTURE_BYTES; lia|]. rewrite Hslice. simpl.
  pose proof (decode_dns_total data) as Ht. destruct (decode_dns_message data) as [m|e|f].
  - apply mwp_bind, mwp_this, mwp_bind.
    apply mwp_mono with (Q := fun _ p' => sound p').
    { destruct (Dns.response m); repeat mwp_step; apply sound_set_pending_dns; try done.
      - rewrite map_size_delete. pose proof (so_dns_size p Hp). destruct (_ !! _); unfold id; lia.
      - pose proof (prune_dns_size (raw_timestamp_ns (raw captured)) (pending_dns p) (so_dns_size p Hp)).
        rewrite map_size_insert. destruct (_ !! _); unfold id; lia. }
    intros [[[op nm] rt] du] p1 Hp1. apply mwp_bind.
    eapply keeps_mwp; [apply keeps_connection_metadata|done|]. intros c p2 Hp2 _. apply mwp_bind.
    eapply keeps_mwp; [by apply keeps_event; [|apply plain_payload]|done|]. intros e p3 Hp3 He.
    mwp_step. split; [done|]. apply good_Ok. by apply Forall_singleton.
  - mwp_step. split; [done|apply good_Err].
  - destruct Ht as [[]|[]]; [unfold MAX_CAPTURE_BYTES in *; lia|done..].
Qed.

(** ** Events that carry no principal *)
Lemma keeps_single raw truncated e :
  match e with PMongodbActivity _ | PMongodbAuth _ => False | _ => True end ->
  keeps (Forall good_event) (event (World := World) raw truncated e ≫= fun event => mret [event]).
Proof.
  intros He p Hp. apply mwp_bind. eapply keeps_mwp; [apply keeps_event; [by destruct e|by apply plain_payload]|done|].
  intros ev p1 Hp1 Hev. mwp_step. split; [done|]. by apply Forall_singleton.
Qed.

Lemma keeps_process_latency captured : keeps (Forall good_event) (process_latency (World := World) captured).
Proof.
  unfold process_latency. cbv zeta. destruct (_ =? _); [by apply keeps_single|].
  destruct (latency_operation _); [by apply keeps_single|]. intros p Hp. by mwp_step.
Qed.

Lemma keeps_process_profile captured : keeps (Forall good_event) (process_profile (World := World) captured).
Proof.
  intros p Hp. unfold process_profile. cbv zeta.
  destruct (if raw_operation (raw captured) =? OP_CPU_SAMPLE then _ else _) as [[[[kind d] u] k]|]; [|by mwp_step].
  apply mwp_bind, mwp_this. by apply keeps_single.
Qed.

Lemma sound_forget_process tgid p : sound p -> sound (forget_process tgid p).
Proof.
  intros []. split; simpl; try done; try (eapply map_Forall_weaken; [apply map_filter_subseteq|done]).
  - pose proof (size_filter (fun '(k, _) => k.1.1 <> tgid) (pending p)). lia.
  - pose proof (size_filter (fun '(k, _) => k.1.1 <> tgid) (pending_dns p)). lia.
Qed.
Lemma sound_forget_connection key p : sound p -> sound (forget_connection key p).
Proof.
  intros []. split; simpl; try done; try (eapply map_Forall_weaken; [apply map_filter_subseteq|done]).
  - pose proof (size_filter (fun '(k, _) => k.1 <> key) (pending p)). unfold drop_connection. lia.
  - pose proof (size_filter (fun '(k, _) => k.1 <> key) (pending_dns p)). unfold drop_connection. lia.
  - eapply map_Forall_weaken; [apply delete_subseteq|done].
Qed.

Lemma keeps_process_lifecycle captured : keeps (Forall good_event) (process_lifecycle (World := World) captured).
Proof.
  intros p Hp. unfold process_lifecycle. cbv zeta.
  destruct (if raw_operation (raw captured) =? OP_PROCESS_EXEC then _ else _) as [state|]; [|by mwp_step].
  apply mwp_bind, mwp_update, mwp_bind, mwp_this, mwp_bind, mwp_host. intros exe.
  apply keeps_single; [done|]. destruct (_ =? _); [by apply sound_forget_process|done].
Qed.

Lemma keeps_process_connection captured : keeps (Forall good_event) (process_connection (World := World) captured).
Proof.
  intros p Hp. unfold process_connection. cbv zeta. apply mwp_bind.
  eapply keeps_mwp; [by apply keeps_connection_entry|done|]. intros state p1 Hp1 Hs.
  destruct (connection_operation (raw captured) state) as [[[[nm du] reason] state']|] eqn:Hop; [|by mwp_step].
  assert (wf_connection state') as Hs'.
  { unfold connection_operation in Hop. repeat case_match; by simplify_eq. }
  apply mwp_bind, mwp_update, mwp_bind.
  eapply keeps_mwp; [apply keeps_connection_metadata| |].
  { apply sound_set_connections; [done|]. by apply map_Forall_insert_2; [|apply Hp1]. }
  intros c p2 Hp2 _. apply mwp_bind, mwp_update. apply keeps_single; [done|].
  destruct (_ =? _); [by apply sound_forget_connection|done].
Qed.

Lemma keeps_process captured :
  well_typed (raw captured) -> keeps good_result (process iteration captured).
Proof using iteration_permutes.
  intros Hw. assert (forall m : Method (list DamEvent), keeps (Forall good_event) m ->
    keeps good_result (let! events := m in mret (Ok events))) as Hok.
  { intros m Hm p Hp. apply mwp_bind. eapply keeps_mwp; [apply Hm|done|]. intros es p1 Hp1 He.
    mwp_step. split; [done|by apply good_Ok]. }
  unfold process. cbv zeta. destruct (_ =? EVENT_IO_CHUNK); [by apply keeps_process_io_chunk|].
  destruct (_ =? EVENT_SYSCALL_LATENCY); [apply Hok, keeps_process_latency|].
  destruct (_ =? EVENT_CONNECTION); [apply Hok, keeps_process_connection|].
  destruct (_ =? EVENT_PROFILE); [apply Hok, keeps_process_profile|].
  destruct (_ =? EVENT_PROCESS); [apply Hok, keeps_process_lifecycle|].
  destruct (_ =? EVENT_DNS_CHUNK); [by apply keeps_process_dns|].
  intros p Hp. mwp_step. split; [done|apply good_Err].
Qed.
End invariant.
