(* ===== verification/ObserverLife.v ===== *)
(** The life of the event processor: what holds of its state and of all the
    events it has emitted, after any kernel events and whatever the machine
    answered, and what becomes of one request. *)
From Stdlib Require Import ZArith Lia ZifyBool Strings.Byte Strings.Ascii Strings.String.
From stdpp Require Import base list strings gmap fin_maps pretty.
From S2P Require Import Prelude Text Float64 Json Dns Bson BsonJson Summary Wire Stream Schema.
From S2P Require Import Methods Proc Kernel Observer ObserverSpec.

Local Open Scope string_scope.
Local Open Scope list_scope.
Local Open Scope Z_scope.

(** * ASCII texts *)
Lemma encode_hex_ascii bs : forallb (fun b => u8 b <? 128) (bytes_of (encode_hex bs)) = true.
Proof.
  unfold encode_hex. rewrite bytes_of_string_of, forallb_forall. intros x Hx. apply in_concat in Hx as (l & Hl & Hx).
  apply list_elem_of_In, list_elem_of_fmap in Hl as (b & -> & _).
  assert (forallb (fun b => u8 b <? 128) [hex_digit (Z.shiftr (u8 b) 4); hex_digit (Z.land (u8 b) 0x0f)] = true) as H
    by (by destruct b).
  rewrite forallb_forall in H. by apply H.
Qed.

(** A prefix of letters makes any hexadecimal id visible. *)
Lemma hex_id_visible b prefix digest :
  is_whitespace (u8 b) = false -> forallb (fun b => u8 b <? 128) (b :: bytes_of prefix) = true ->
  visible_text (String.append (string_of [b] ++ prefix)%string (encode_hex digest)).
Proof.
  intros Hb Ha. exists (u8 b). split; [|done]. unfold chars.
  assert (bytes_of (String.append (string_of [b] ++ prefix)%string (encode_hex digest)) =
    (b :: bytes_of prefix) ++ bytes_of (encode_hex digest)) as ->.
  { rewrite !bytes_of_app, bytes_of_string_of. done. }
  rewrite utf8_decode_ascii; [by left|]. by rewrite forallb_app, Ha, encode_hex_ascii.
Qed.

Lemma event_id_visible digest : visible_text (String.append "evt-" (encode_hex digest)).
Proof. by apply (hex_id_visible x65 "vt-"). Qed.

Section life.
Context {OffsetDateTime World : Type} `{Host OffsetDateTime World} `{Sha256} `{Decompressors}.
Abbreviation EventProcessor := (EventProcessor OffsetDateTime).
Abbreviation PendingRequest := (PendingRequest OffsetDateTime).
Abbreviation DamEvent := (DamEvent OffsetDateTime).
Context (iteration : gmap (Z * Z * Z) PendingRequest -> list ((Z * Z * Z) * PendingRequest)).
Context (iteration_permutes : forall m, iteration m ≡ₚ map_to_list m).
Context (config : ProcessorConfig).

(** The results of the calls so far, and the processor after them. *)
Inductive history : list (res string (list DamEvent)) -> EventProcessor -> Prop :=
| history_new : history [] (new_processor config)
| history_step rs p w captured r p' w' :
    history rs p -> well_typed (raw captured) -> process iteration captured (p, w) = (r, (p', w')) ->
    history (rs ++ [r]) p'.

Lemma sound_new : sound config (new_processor config : EventProcessor).
Proof. split; simpl; try done; try apply map_Forall_empty; by rewrite map_size_empty. Qed.

Lemma history_sound rs p : history rs p -> sound config p /\ Forall (good_result config) rs.
Proof using iteration_permutes.
  induction 1 as [|rs p w captured r p' w' Hh [IH1 IH2] Hw Hp]; [split; [apply sound_new|done]|].
  pose proof (keeps_process iteration iteration_permutes config captured Hw p IH1 w) as [Hs Hg].
  rewrite Hp in *. simpl in *. split; [done|]. by rewrite Forall_app, Forall_singleton.
Qed.

(** The events the processor has emitted *)
Definition emitted (rs : list (res string (list DamEvent))) (e : DamEvent) : Prop :=
  exists es, Ok es ∈ rs /\ e ∈ es.

Lemma history_good rs p e : history rs p -> emitted rs e -> good_event config e.
Proof using iteration_permutes.
  intros Hh (es & Hes & He). apply history_sound in Hh as [_ Hr]. rewrite Forall_forall in Hr.
  destruct (Hr _ Hes) as [_ Hg]. specialize (Hg es eq_refl). rewrite Forall_forall in Hg. by apply Hg.
Qed.

(** C21: Bounded tables and buffers.  Whatever the kernel reports, the processor never
    panics, it waits for at most 32768 responses and 4096 DNS answers, the buffer of
    each stream is shorter than 1 KiB, and the event counter stays in 64 bits.  The
    numbers of streams, connections and cached addresses are not bounded: their
    entries go only with the close of a connection or the exit of its process, or
    never. *)
Theorem processor_bounded rs p :
  history rs p ->
  Forall returns rs /\
  Z.of_nat (size (pending p)) <= MAX_PENDING_REQUESTS /\
  Z.of_nat (size (pending_dns p)) <= MAX_PENDING_DNS /\
  (forall key d, streams p !! key = Some d -> len (buffer d) < MAX_CAPTURE_BYTES) /\
  0 <= sequence p <= u64_max.
Proof using iteration_permutes.
  intros Hh. apply history_sound in Hh as [Hp Hr]. split_and!; try apply Hp.
  eapply Forall_impl; [exact Hr|]. by intros r [].
Qed.

(** An event the processor emits is one of its sensor. *)
Lemma good_event_valid (b : DamBatch OffsetDateTime) e :
  good_event config e ->
  customer_id b = cfg_customer_id config /\ tenant_id b = cfg_tenant_id config /\
  source_id b = cfg_source_id config /\ regional_cell_id b = cfg_regional_cell_id config ->
  visible_text (cfg_sensor_id config) /\ visible_text (cfg_node_name config) ->
  valid_event b e.
Proof.
  intros [? [digest Hdigest] ? ? ? ? [Hsensor Hnode] ? ? ?] (Hc & Ht & Hs & Hr) [Vsensor Vnode]. split; [done| | |done].
  - rewrite Hdigest, Hsensor, Hnode. split_and!; [apply event_id_visible|done..].
  - split_and!; congruence.
Qed.

(** C24: Valid output.  When the ids of the assignment, the sensor's id and the node's
    name in the configuration are not blank, any events the processor has emitted
    make up a batch that [DamBatch::validate] accepts, under these ids.  (Blank ones
    can be configured: [validate_cli] does not look at the sensor's id, and with a
    blank one every batch is refused.) *)
Theorem emitted_batch_valid rs p b :
  history rs p -> events b <> [] -> Forall (emitted rs) (events b) ->
  batch_version b = BATCH_SCHEMA_VERSION -> visible_text (batch_id b) ->
  customer_id b = cfg_customer_id config /\ tenant_id b = cfg_tenant_id config /\
  source_id b = cfg_source_id config /\ regional_cell_id b = cfg_regional_cell_id config ->
  visible_text (cfg_customer_id config) /\ visible_text (cfg_tenant_id config) /\
  visible_text (cfg_source_id config) /\ visible_text (cfg_regional_cell_id config) /\
  visible_text (cfg_sensor_id config) /\ visible_text (cfg_node_name config) ->
  validate b = Ok tt.
Proof using iteration_permutes.
  intros Hh Hne Hes Hv Hid (Hc & Ht & Hs & Hr) (Vc & Vt & Vs & Vr & Vsensor & Vnode).
  apply valid_validate. split; [done|by rewrite Hc, Ht, Hs, Hr|done|].
  eapply Forall_impl; [exact Hes|]. intros e He. by eapply good_event_valid; [eapply history_good|..].
Qed.

(** C11: Exposure.  No event names a principal in clear: a principal is absent or
    the hash of one under the configured salt, and without a salt there is none.
    Query content leaves only when it was asked for, in events that say so, and
    no event claims an external identity. *)
Theorem principals_hashed rs p e :
  history rs p -> emitted rs e ->
  (forall o h, o ∈ event_principals (payload e) -> o = Some h ->
     exists s x, cfg_principal_hash_salt config = Some s /\ h = hash_principal s x) /\
  (query_content e <> None -> cfg_capture_query_content config = true /\ metadata_only (capture e) = false) /\
  identity e = None.
Proof using iteration_permutes.
  intros Hh He. apply (history_good _ _ _ Hh) in He as []. split_and!; [|intros Hq; split; [tauto|]|done].
  - intros o h Ho ->. destruct ge_payload as [Hg _]. rewrite Forall_forall in Hg. by apply (Hg _ Ho).
  - destruct (metadata_only (capture e)); tauto.
Qed.
End life.
