(* ===== verification/Session.v ===== *)
(** Connections do not mix: an event of one connection leaves what the processor
    holds of any other as it is, closing a connection leaves nothing of it, and a
    response is reported with the facts of the request it answers. *)
From Stdlib Require Import ZArith Lia ZifyBool Strings.Byte Strings.Ascii Strings.String.
From stdpp Require Import base list strings gmap fin_maps pretty.
From S2P Require Import Prelude Text Float64 Json Dns Bson BsonJson Summary Wire Stream Schema.
From S2P Require Import Methods Proc Kernel Observer ObserverSpec ObserverLife.

Local Open Scope string_scope.
Local Open Scope list_scope.
Local Open Scope Z_scope.

(** * How many messages a chunk holds *)
Section counting.
Context `{Decompressors}.

(** A frame takes at least 16 bytes. *)
Lemma push_loop_count fuel d acc d' ms :
  push_loop fuel d acc = (d', Ok ms) -> 16 * (len ms - len acc) <= len (buffer d).
Proof.
  revert d acc. induction fuel as [|fuel IH]; intros d acc; [done|]. simpl. pose proof (len_nonneg (buffer d)).
  destruct (len (buffer d) <? 4); [intros [= _ <-]; lia|].
  destruct (slice (buffer d) 0 4) as [head| |] eqn:Hh; [|done..].
  destruct (i32_from_le_bytes head <? 16) eqn:Hs; [done|]. destruct (_ <? as_usize _); [done|].
  destruct (len (buffer d) <? as_usize _); [intros [= _ <-]; lia|].
  destruct (slice (buffer d) 0 (as_usize _)) as [frame| |]; [|done..].
  destruct (slice (buffer d) (as_usize _) _) as [rest| |] eqn:Hr; [|done..].
  destruct (decode_frame frame _) as [m| |]; [|done..]. intros Hp. apply IH in Hp.
  rewrite len_app in Hp. cbn [buffer with_buffer] in Hp. unfold slice in Hr.
  destruct (get_range (buffer d) (as_usize (i32_from_le_bytes head)) _) eqn:Hg; [|done]. injection Hr as <-.
  apply get_range_Some in Hg as (Hb1 & _ & Hg & _).
  assert (16 <= as_usize (i32_from_le_bytes head)) as H16.
  { unfold as_usize. rewrite Z.mod_small; [lia|]. split; [lia|]. unfold i32_from_le_bytes, signed in *.
    assert (len head <= 4) as Hl.
    { unfold slice in Hh. destruct (get_range (buffer d) 0 4) eqn:Hg4; [|done]. injection Hh as <-.
      apply get_range_Some in Hg4 as (_ & _ & Hl & _). lia. }
    pose proof (le_val_range head) as Hrange.
    assert (2 ^ (8 * len head) <= 2 ^ 32) by (apply Z.pow_le_mono_r; lia). case_match; lia. }
  change (len [m]) with 1 in Hp. lia.
Qed.

Lemma push_bounded_count cfg d data d' ms :
  bounded cfg MAX_CAPTURE_BYTES d -> len data <= MAX_CAPTURE_BYTES ->
  push_bounded_prefix d data MAX_CAPTURE_BYTES = (d', Ok ms) -> len ms <= 127.
Proof.
  intros (_ & _ & Hb) Hd. unfold push_bounded_prefix. destruct (_ || _); [done|].
  assert (forall d' ms, push d data = (d', Ok ms) -> len ms <= 127) as Hpush.
  { intros d2 ms2. unfold push. destruct (_ <? _); [done|]. intros H2. apply push_loop_count in H2.
    cbn [buffer with_buffer] in H2. rewrite len_app in H2. unfold MAX_CAPTURE_BYTES in *. change (len []) with 0 in H2. lia. }
  destruct (next_frame_length d data) as [[n|]| |]; [|by apply Hpush|done..].
  destruct (_ || _); [by apply Hpush|]. destruct (slice _ _ _) as [head| |]; [|done..].
  destruct (push_truncated d head) as [d2 [m| |]]; [|done..]. intros [= _ <-]. change (len [m]) with 1. lia.
Qed.
End counting.

(** * Isolation *)
Section isolation.
Context {OffsetDateTime World : Type} `{Host OffsetDateTime World} `{Sha256} `{Decompressors}.
Abbreviation EventProcessor := (EventProcessor OffsetDateTime).
Abbreviation PendingRequest := (PendingRequest OffsetDateTime).
Abbreviation DamEvent := (DamEvent OffsetDateTime).
Abbreviation Method := (@Method OffsetDateTime World).
Context (iteration : gmap (Z * Z * Z) PendingRequest -> list ((Z * Z * Z) * PendingRequest)).
Context (iteration_permutes : forall m, iteration m ≡ₚ map_to_list m).
Context (config : ProcessorConfig).

Abbreviation conn_of raw := (raw_tgid raw, raw_connection_key raw).

(** What the processor files under the connection [c]: the principal, the two
    streams, the waiting requests and DNS queries.  (The cache of addresses is filed
    by process and descriptor, for a few seconds; it is no part of this.) *)
Record same_on (c : Z * Z) (p p' : EventProcessor) : Prop := {
  same_state : connections p' !! c = connections p !! c;
  same_streams direction : streams p' !! (c, direction) = streams p !! (c, direction);
  same_pending id : pending p' !! (c, id) = pending p !! (c, id);
  same_dns id : pending_dns p' !! (c, id) = pending_dns p !! (c, id)
}.

#[export] Instance same_on_preorder c : PreOrder (same_on c).
Proof.
  split; [by split|]. intros p1 p2 p3 [A1 A2 A3 A4] [B1 B2 B3 B4].
  split; intros; [by rewrite B1|by rewrite B2|by rewrite B3|by rewrite B4].
Qed.

(** There is room for the requests of one chunk and for a DNS query.  In a table
    that is full a new entry displaces old ones, of any connection. *)
Definition roomy (n : Z) (p : EventProcessor) : Prop :=
  Z.of_nat (size (pending p)) + n <= MAX_PENDING_REQUESTS /\ Z.of_nat (size (pending_dns p)) < MAX_PENDING_DNS.

(** A method keeps the processor sound, leaves the connection [c] alone, and adds
    at most [n] requests. *)
Definition leaves {A} (c : Z * Z) (n : Z) (m : Method A) (p : EventProcessor) : Prop :=
  mwp m p (fun _ p' => sound config p' /\ same_on c p p' /\
    Z.of_nat (size (pending p')) <= Z.of_nat (size (pending p)) + n).

Lemma leaves_ret {A} c n (a : A) p : sound config p -> 0 <= n -> leaves c n (mret a) p.
Proof. intros Hp Hn. apply mwp_ret. split; [done|]. split; [done|lia]. Qed.

Lemma leaves_bind {A B} c n n' (m : Method A) (k : A -> Method B) p :
  leaves c n m p ->
  (forall a p', sound config p' -> same_on c p p' -> Z.of_nat (size (pending p')) <= Z.of_nat (size (pending p)) + n ->
     leaves c n' (k a) p') ->
  leaves c (n + n') (m ≫= k) p.
Proof.
  intros Hm Hk. apply mwp_bind. eapply mwp_mono; [apply Hm|]. intros a p' (Hs & Hsame & Hsize).
  eapply mwp_mono; [by apply Hk|]. intros b p2 (Hs2 & Hsame2 & Hsize2). split; [done|].
  split; [by etrans|lia].
Qed.

(** A call that adds no request, followed by the rest *)
Lemma leaves_then {A B} c n (m : Method A) (k : A -> Method B) p :
  leaves c 0 m p -> (forall a p', sound config p' -> same_on c p p' ->
    Z.of_nat (size (pending p')) <= Z.of_nat (size (pending p)) -> leaves c n (k a) p') ->
  leaves c n (m ≫= k) p.
Proof.
  intros Hm Hk. replace n with (0 + n) by lia. apply leaves_bind; [done|]. intros a p' ? ? ?.
  apply Hk; [done..|lia].
Qed.
Lemma leaves_this {B} c n (k : EventProcessor -> Method B) p :
  sound config p -> leaves c n (k p) p -> leaves c n (this ≫= k) p.
Proof. intros Hp Hk. by apply mwp_bind, mwp_this. Qed.

(** Of an update, a change of some component where it does not concern [c] *)
Lemma leaves_update c n f p :
  sound config (f p) -> same_on c p (f p) -> Z.of_nat (size (pending (f p))) <= Z.of_nat (size (pending p)) + n ->
  leaves c n (update f) p.
Proof. intros ? ? ?. by apply mwp_update. Qed.
Lemma leaves_host {A} c (m : State World A) p : sound config p -> leaves c 0 (host m) p.
Proof. intros Hp. apply mwp_host. intros a. split; [done|]. split; [done|lia]. Qed.

(** A method that keeps the processor sound, and changes nothing else. *)
Lemma leaves_of {A} c (Q : A -> Prop) (m : Method A) p :
  keeps config Q m -> sound config p ->
  mwp m p (fun _ p' => same_on c p p' /\ pending p' = pending p) -> leaves c 0 m p.
Proof.
  intros Hk Hp Hm w. destruct (Hk p Hp w) as [Hs _]. destruct (Hm w) as [Hsame Hpend].
  split; [done|]. split; [done|]. rewrite Hpend. lia.
Qed.

Lemma same_set_connections c key v p : key <> c -> same_on c p (set_connections (<[key := v]> (connections p)) p).
Proof. intros Hk. split; try done. simpl. by rewrite lookup_insert_ne. Qed.

Lemma leaves_connection_entry c key f p :
  sound config p -> key <> c -> (forall s, wf_connection config s -> wf_connection config (f s)) ->
  leaves c 0 (connection_entry key f) p.
Proof.
  intros Hp Hk Hf. eapply leaves_of; [by apply keeps_connection_entry|done|].
  unfold connection_entry. repeat mwp_step. by split; [apply same_set_connections|].
Qed.

Lemma leaves_seed c raw truncated p : sound config p -> leaves c 0 (seed raw truncated) p.
Proof.
  intros Hp. eapply leaves_of; [apply keeps_seed|done|]. eapply mwp_mono; [apply seed_exact|].
  by intros s p' (-> & _).
Qed.

Lemma leaves_event_from_seed c s e p : sound config p -> leaves c 0 (event_from_seed s e) p.
Proof.
  intros Hp. unfold event_from_seed, leaves. repeat mwp_step. split; [|split; [by split|simpl; lia]].
  apply sound_set_sequence; [done|]. pose proof (Z.mod_pos_bound (sequence p + 1) 18446744073709551616 eq_refl). lia.
Qed.

Lemma leaves_event c raw truncated e p : sound config p -> leaves c 0 (event raw truncated e) p.
Proof.
  intros Hp. apply leaves_then; [by apply leaves_seed|]. intros s p' Hp' _ _. by apply leaves_event_from_seed.
Qed.

Lemma leaves_single c raw truncated e p :
  sound config p -> leaves c 0 (event raw truncated e ≫= fun event => mret [event]) p.
Proof. intros Hp. apply leaves_then; [by apply leaves_event|]. intros ev p' Hp' _ _. by apply leaves_ret. Qed.

Lemma leaves_connection_metadata c raw p :
  sound config p -> conn_of raw <> c -> leaves c 0 (connection_metadata raw) p.
Proof.
  intros Hp Hk. eapply leaves_of; [apply keeps_connection_metadata|done|].
  unfold connection_metadata, connection_entry, socket_endpoints.
  repeat mwp_step; (split; [|done]); (split; simpl; [by rewrite lookup_insert_ne|done..]).
Qed.

Lemma leaves_completed c r response rid rbytes p :
  sound config p -> wf_request config r -> req_connection_state_key r <> c ->
  leaves c 0 (events_for_completed_request r response rid rbytes) p.
Proof.
  intros Hp Hr Hk. eapply leaves_of; [by apply keeps_completed|done|].
  unfold events_for_completed_request. cbv zeta. unfold event_from_seed.
  repeat mwp_step; (split; [|done]);
    (split; simpl; [first [done | by rewrite lookup_insert_ne]|done..]).
Qed.

Lemma prune_pending_roomy now m : Z.of_nat (size m) < MAX_PENDING_REQUESTS -> prune_pending iteration now m = m.
Proof. intros Hm. unfold prune_pending. by destruct (_ <? _) eqn:?; [|lia]. Qed.
Lemma prune_dns_roomy now m : Z.of_nat (size m) < MAX_PENDING_DNS -> prune_dns now m = m.
Proof. intros Hm. unfold prune_dns. destruct (_ <=? _) eqn:?; [lia|done]. Qed.

(** A call with a specification of its own, followed by the rest *)
Lemma leaves_call {A B} c n (Q : A -> Prop) (m : Method A) (k : A -> Method B) p :
  keeps config Q m -> leaves c 0 m p -> sound config p ->
  (forall a p', sound config p' -> same_on c p p' -> Z.of_nat (size (pending p')) <= Z.of_nat (size (pending p)) ->
     Q a -> leaves c n (k a) p') ->
  leaves c n (m ≫= k) p.
Proof.
  intros Hkeep Hm Hp Hk. apply mwp_bind. eapply mwp_mono; [apply mwp_and; [exact (Hkeep p Hp)|exact Hm]|].
  intros a p' [[Hs HQ] (_ & Hsame & Hsize)]. eapply mwp_mono; [apply Hk; [done|done|lia|done]|].
  intros b p2 (Hs2 & Hsame2 & Hsize2). split; [done|]. split; [by etrans|lia].
Qed.

Lemma leaves_file c key r p :
  sound config p -> wf_request config r -> filed key r -> key.1 <> c ->
  Z.of_nat (size (pending p)) < MAX_PENDING_REQUESTS ->
  leaves c 1 (update (fun p => set_pending (<[key := r]> (pending p)) p)) p.
Proof.
  intros Hp Hr Hfiled Hk Hroom.
  assert (Z.of_nat (size (<[key := r]> (pending p))) <= Z.of_nat (size (pending p)) + 1) as Hz
    by (rewrite map_size_insert; destruct (_ !! _); unfold id; lia).
  apply leaves_update; [| |done].
  - apply sound_set_pending; [done| |lia]. by apply map_Forall_insert_2; [|apply Hp].
  - split; try done. intros id. simpl. rewrite lookup_insert_ne; [done|]. by intros ->.
Qed.

Lemma leaves_process_request c raw truncated message command p :
  sound config p -> conn_of raw <> c -> Z.of_nat (size (pending p)) < MAX_PENDING_REQUESTS ->
  leaves c 1 (process_request iteration raw truncated message command) p.
Proof.
  intros Hp Hk Hroom. unfold process_request. apply leaves_this; [done|]. rewrite (so_config config p Hp).
  destruct (take_hashed_principal command _) as [cmd target] eqn:Ht. apply hashed_take in Ht as [Hclear Htarget].
  assert (forall s, wf_connection config s -> wf_connection config (match command_carries_authentication cmd, target with
    | true, Some principal => with_principals (cs_authenticated_principal_hash s) (Some principal) s
    | _, _ => s end)) as Hf by (intros s []; by destruct (command_carries_authentication cmd), target).
  eapply leaves_call; [by apply keeps_connection_entry|by apply leaves_connection_entry|done|].
  intros state p1 Hp1 _ Hz1 [Hactor _].
  eapply leaves_call; [apply keeps_seed|by apply leaves_seed|done|]. intros seed p2 Hp2 _ Hz2 Hseed.
  apply leaves_then; [by apply leaves_connection_metadata|]. intros connection p3 Hp3 _ Hz3. cbv zeta.
  set (request := Build_PendingRequest _ _ _ _ _ _ _ _ _ _ _). assert (wf_request config request) as Hr by done.
  destruct (req_expects_response request) eqn:He.
  - apply leaves_then.
    + apply leaves_update; simpl; rewrite ?prune_pending_roomy by lia; [|by split|lia].
      apply sound_set_pending; [done|apply Hp3|lia].
    + intros _ p4 Hp4 _ Hz4. replace 1 with (1 + 0) by done.
      apply leaves_bind; [by apply leaves_file; [..|lia]|]. intros _ p5 Hp5 _ _. by apply leaves_ret.
  - eapply mwp_mono; [by apply leaves_completed|]. intros es p4 (Hp4 & Hs4 & Hz4). split; [done|]. split; [done|lia].
Qed.

Lemma leaves_process_response c raw message p :
  sound config p -> conn_of raw <> c -> leaves c 0 (process_response raw message) p.
Proof.
  intros Hp Hk. unfold process_response. apply leaves_this; [done|].
  destruct (pending p !! _) as [request|] eqn:Hr; [|by apply leaves_ret].
  apply leaves_then.
  - apply leaves_update.
    + apply sound_set_pending; [done|eapply map_Forall_weaken; [apply delete_subseteq|apply Hp]|].
      pose proof (so_pending_size config p Hp). rewrite map_size_delete, Hr. simpl. lia.
    + split; try done. intros id. simpl. rewrite lookup_delete_ne; [done|]. by intros [=].
    + simpl. rewrite map_size_delete, Hr. simpl. lia.
  - intros _ p' Hp' _ _. apply (so_pending config p Hp) in Hr as [Hwf [Hkey _]].
    apply (leaves_completed c request); [done|done|]. injection Hkey as Hkey _. by rewrite <- Hkey.
Qed.

Lemma leaves_process_message c raw truncated message p :
  sound config p -> conn_of raw <> c -> Z.of_nat (size (pending p)) < MAX_PENDING_REQUESTS ->
  leaves c 1 (process_message iteration raw truncated message) p.
Proof.
  intros Hp Hk Hroom. unfold process_message. destruct (response_to message =? 0).
  - destruct (command message) as [command|]; [by apply leaves_process_request|by apply leaves_ret; [|lia]].
  - eapply mwp_mono; [by apply leaves_process_response|]. intros es p' (Hp' & Hs' & Hz'). split; [done|].
    split; [done|lia].
Qed.

Lemma leaves_process_messages c raw truncated l p :
  sound config p -> conn_of raw <> c -> Z.of_nat (size (pending p)) + len l <= MAX_PENDING_REQUESTS ->
  leaves c (len l) (process_messages iteration raw truncated l) p.
Proof.
  intros Hp Hk. revert p Hp. induction l as [|message l IH]; intros p Hp Hroom; simpl; [by apply leaves_ret|].
  rewrite len_cons in *. pose proof (len_nonneg l). apply leaves_bind; [by apply leaves_process_message; [..|lia]|].
  intros es p1 Hp1 _ Hz1. replace (len l) with (len l + 0) by lia.
  apply leaves_bind; [apply IH; [done|lia]|]. intros rest p2 Hp2 _ _. by apply leaves_ret.
Qed.

(** The messages of one chunk are at most 127. *)
Lemma decode_io_chunk_leaves c raw captured_len p :
  sound config p -> well_typed raw -> 0 <= captured_len <= MAX_CAPTURE_BYTES -> conn_of raw <> c ->
  mwp (decode_io_chunk (World := World) raw captured_len) p (fun decoded p' =>
    (same_on c p p' /\ pending p' = pending p /\ pending_dns p' = pending_dns p) /\
    forall ms, decoded = Ok ms -> len ms <= 127).
Proof.
  intros Hp Hw Hc Hk. unfold decode_io_chunk. apply mwp_bind, mwp_this. rewrite (so_config config p Hp).
  fold (decoder_config config).
  pose proof (stream_default config p (raw_tgid raw, raw_connection_key raw, raw_direction raw) Hp) as Hb.
  cbv zeta. set (d := default _ _) in *.
  destruct (raw_captured_len raw <? raw_bytes raw).
  - destruct (slice_captured raw (Z.min captured_len (saturating_sub MAX_CAPTURE_BYTES (buffered_bytes d))))
      as (data & Hlen & Hslice); [done|unfold saturating_sub; lia|]. rewrite Hslice.
    destruct (push_truncated d data) as [d' result]. repeat mwp_step. split.
    + split; [|done]. split; try done. intros direction. simpl. rewrite lookup_delete_ne; [done|]. by intros [=].
    + intros ms. destruct result as [m| |]; intros [= <-]. done.
  - destruct (slice_captured raw captured_len) as (data & Hlen & Hslice); [done..|]. rewrite Hslice.
    destruct (push_bounded_prefix d data MAX_CAPTURE_BYTES) as [d' result] eqn:Hpush.
    destruct result as [ms|e|f]; repeat mwp_step.
    + split; [split; [|done]|].
      * split; try done. intros direction. simpl. rewrite lookup_insert_ne; [done|]. by intros [=].
      * intros ms' [= <-]. eapply push_bounded_count; [done| |done]. lia.
    + split; [|done]. split; [|done]. split; try done. intros direction. simpl.
      rewrite lookup_delete_ne; [done|]. by intros [=].
    + done.
Qed.

Lemma leaves_process_io_chunk c captured p :
  sound config p -> well_typed (raw captured) -> conn_of (raw captured) <> c -> roomy 127 p ->
  leaves c 127 (process_io_chunk iteration captured) p.
Proof.
  intros Hp Hw Hk [Hroom _]. unfold process_io_chunk. cbv zeta. pose proof (wt_captured _ Hw).
  destruct (_ =? 0); [by apply leaves_ret|].
  assert (0 <= Z.min (raw_captured_len (raw captured)) MAX_CAPTURE_BYTES <= MAX_CAPTURE_BYTES) as Hc
    by (unfold MAX_CAPTURE_BYTES; lia).
  apply mwp_bind. eapply mwp_mono; [apply mwp_and; [by apply (keeps_decode_io_chunk config _ _ Hw Hc)|
    by apply (decode_io_chunk_leaves c _ _ p Hp Hw Hc)]|].
  intros decoded p1 [[Hp1 _] [(Hs1 & Hpend & _) Hcount]]. destruct decoded as [ms|e|f].
  - specialize (Hcount ms eq_refl). apply mwp_bind.
    eapply mwp_mono; [apply leaves_process_messages; [done|done|rewrite Hpend; lia]|].
    intros es p2 (Hp2 & Hs2 & Hz2). apply mwp_ret. split; [done|]. split; [by etrans|rewrite Hpend in Hz2; lia].
  - apply mwp_ret. split; [done|]. split; [done|rewrite Hpend; lia].
  - apply mwp_ret. split; [done|]. split; [done|rewrite Hpend; lia].
Qed.

Lemma leaves_process_dns c captured p :
  sound config p -> conn_of (raw captured) <> c -> roomy 127 p -> leaves c 0 (process_dns captured) p.
Proof.
  intros Hp Hk [_ Hroom]. unfold process_dns. cbv zeta.
  destruct (slice _ _ _ ≫= decode_dns_message) as [m|e|f]; try by apply leaves_ret.
  apply leaves_this; [done|]. apply leaves_then.
  - assert (forall v, (forall id, v !! (c, id) = pending_dns p !! (c, id)) -> Z.of_nat (size v) <= MAX_PENDING_DNS ->
      sound config (set_pending_dns v p) /\ same_on c p (set_pending_dns v p) /\
      Z.of_nat (size (pending p)) <= Z.of_nat (size (pending p)) + 0) as Hv.
    { intros v Hv Hz. split; [by apply sound_set_pending_dns|]. split; [by split|lia]. }
    unfold leaves. destruct (Dns.response m); repeat mwp_step; cbn [pending set_pending_dns]; apply Hv.
    + intros id. rewrite lookup_delete_ne; [done|]. by intros [=].
    + rewrite map_size_delete. destruct (_ !! _); simpl; lia.
    + intros id. rewrite prune_dns_roomy, lookup_insert_ne by first [done | by intros [=]]. done.
    + rewrite prune_dns_roomy, map_size_insert by done. destruct (_ !! _); unfold id; lia.
  - intros [[[op nm] rt] du] p1 Hp1 _ _. apply leaves_then; [by apply leaves_connection_metadata|].
    intros cm p2 Hp2 _ _. apply leaves_then; [by apply leaves_event|]. intros ev p3 Hp3 _ _. by apply leaves_ret.
Qed.

Lemma leaves_process_latency c captured p : sound config p -> leaves c 0 (process_latency captured) p.
Proof.
  intros Hp. unfold process_latency. cbv zeta. destruct (_ =? _); [by apply leaves_single|].
  destruct (latency_operation _); [by apply leaves_single|by apply leaves_ret].
Qed.

Lemma leaves_process_profile c captured p : sound config p -> leaves c 0 (process_profile captured) p.
Proof.
  intros Hp. unfold process_profile. cbv zeta.
  destruct (if raw_operation (raw captured) =? OP_CPU_SAMPLE then _ else _) as [[[[kind d] u] k]|]; [|by apply leaves_ret].
  apply leaves_this; [done|]. by apply leaves_single.
Qed.

Lemma lookup_filter_keep {K V} `{Countable K} (P : K -> Prop) `{forall k, Decision (P k)} (m : gmap K V) k :
  P k -> filter (fun '(k, _) => P k) m !! k = m !! k.
Proof. intros Hk. rewrite map_lookup_filter. destruct (m !! k); simpl; [by rewrite option_guard_True|done]. Qed.

Lemma lookup_filter_drop {K V} `{Countable K} (P : K -> Prop) `{forall k, Decision (P k)} (m : gmap K V) k :
  ~ P k -> filter (fun '(k, _) => P k) m !! k = None.
Proof. intros Hk. rewrite map_lookup_filter. destruct (m !! k); simpl; [by rewrite option_guard_False|done]. Qed.

Lemma same_forget_connection c key p : key <> c -> same_on c p (forget_connection key p).
Proof.
  intros Hk. split; simpl.
  - by rewrite lookup_delete_ne.
  - intros direction. by apply (lookup_filter_keep (fun k => k.1 <> key)).
  - intros id. by apply (lookup_filter_keep (fun k => k.1 <> key)).
  - intros id. by apply (lookup_filter_keep (fun k => k.1 <> key)).
Qed.
Lemma same_forget_process c tgid p : c.1 <> tgid -> same_on c p (forget_process tgid p).
Proof.
  intros Hk. split; simpl.
  - by apply (lookup_filter_keep (fun k => k.1 <> tgid)).
  - intros direction. by apply (lookup_filter_keep (fun k => k.1.1 <> tgid)).
  - intros id. by apply (lookup_filter_keep (fun k => k.1.1 <> tgid)).
  - intros id. by apply (lookup_filter_keep (fun k => k.1.1 <> tgid)).
Qed.

Lemma leaves_process_connection c captured p :
  sound config p -> conn_of (raw captured) <> c -> leaves c 0 (process_connection captured) p.
Proof.
  intros Hp Hk. unfold process_connection. cbv zeta.
  eapply leaves_call; [by apply keeps_connection_entry|by apply leaves_connection_entry|done|].
  intros state p1 Hp1 _ _ Hs.
  destruct (connection_operation (raw captured) state) as [[[[nm du] reason] state']|] eqn:Hop; [|by apply leaves_ret].
  assert (wf_connection config state') as Hs'.
  { unfold connection_operation in Hop. repeat case_match; by simplify_eq. }
  apply leaves_then.
  { apply leaves_update; [|by apply same_set_connections|simpl; lia].
    apply sound_set_connections; [done|]. by apply map_Forall_insert_2; [|apply Hp1]. }
  intros _ p2 Hp2 _ _. apply leaves_then; [by apply leaves_connection_metadata|]. intros cm p3 Hp3 _ _.
  apply leaves_then; [|intros _ p4 Hp4 _ _; by apply leaves_single].
  destruct (_ =? _); [|by apply leaves_update; [..|lia]].
  apply leaves_update; [by apply sound_forget_connection|by apply same_forget_connection|].
  pose proof (size_filter (fun '(k, _) => k.1 <> conn_of (raw captured)) (pending p3)).
  simpl. unfold drop_connection. lia.
Qed.

Lemma leaves_process_lifecycle c captured p :
  sound config p -> (raw_operation (raw captured) = OP_PROCESS_EXIT -> c.1 <> raw_tgid (raw captured)) ->
  leaves c 0 (process_lifecycle captured) p.
Proof.
  intros Hp Hk. unfold process_lifecycle. cbv zeta.
  destruct (if raw_operation (raw captured) =? OP_PROCESS_EXEC then _ else _) as [state|]; [|by apply leaves_ret].
  apply leaves_then.
  - destruct (_ =? OP_PROCESS_EXIT) eqn:Hop; [|by apply leaves_update; [..|lia]].
    apply leaves_update; [by apply sound_forget_process|apply same_forget_process, Hk; lia|].
    pose proof (size_filter (fun '(k, _) => k.1.1 <> raw_tgid (raw captured)) (pending p)). simpl. lia.
  - intros _ p1 Hp1 _ _. apply leaves_this; [done|]. apply leaves_then; [by apply leaves_host|].
    intros exe p2 Hp2 _ _. by apply leaves_single.
Qed.

(** The event is of another connection, and not the exit of the process of [c]. *)
Definition apart (c : Z * Z) (captured : CapturedKernelEvent) : Prop :=
  conn_of (raw captured) <> c /\
  (raw_event_type (raw captured) = EVENT_PROCESS -> raw_operation (raw captured) = OP_PROCESS_EXIT ->
   c.1 <> raw_tgid (raw captured)).

Lemma leaves_weaken {A} c n n' (m : Method A) p : leaves c n m p -> n <= n' -> leaves c n' m p.
Proof. intros Hm Hn. eapply mwp_mono; [exact Hm|]. intros a p' (H1' & H2' & H3'). split; [done|]. split; [done|lia]. Qed.

Lemma leaves_process c captured p :
  sound config p -> well_typed (raw captured) -> apart c captured -> roomy 127 p ->
  leaves c 127 (process iteration captured) p.
Proof.
  intros Hp Hw [Hk Hexit] Hroom.
  assert (forall m : Method (list DamEvent), leaves c 0 m p ->
    leaves c 127 (let! events := m in mret (Ok (E := string) events)) p) as Hok.
  { intros m Hm. apply leaves_then; [done|]. intros es p' Hp' _ _. by apply leaves_ret. }
  unfold process. cbv zeta. destruct (_ =? EVENT_IO_CHUNK); [by apply leaves_process_io_chunk|].
  destruct (_ =? EVENT_SYSCALL_LATENCY); [by apply Hok, leaves_process_latency|].
  destruct (_ =? EVENT_CONNECTION); [by apply Hok, leaves_process_connection|].
  destruct (_ =? EVENT_PROFILE); [by apply Hok, leaves_process_profile|].
  destruct (_ =? EVENT_PROCESS) eqn:Ht.
  { apply Hok, leaves_process_lifecycle; [done|]. intros Hop. apply Hexit; [lia|done]. }
  destruct (_ =? EVENT_DNS_CHUNK); [by eapply leaves_weaken; [by apply leaves_process_dns|]|].
  by apply leaves_ret.
Qed.

(** ** The end of a connection *)
Definition ends (c : Z * Z) (captured : CapturedKernelEvent) : Prop :=
  (raw_event_type (raw captured) = EVENT_CONNECTION /\ raw_operation (raw captured) = OP_TCP_CLOSE /\
   conn_of (raw captured) = c) \/
  (raw_event_type (raw captured) = EVENT_PROCESS /\ raw_operation (raw captured) = OP_PROCESS_EXIT /\
   raw_tgid (raw captured) = c.1).

(** Nothing is filed under [c] (as in [same_on]; an address in the cache may stay). *)
Record nothing_of (c : Z * Z) (p : EventProcessor) : Prop := {
  no_state : connections p !! c = None;
  no_streams direction : streams p !! (c, direction) = None;
  no_pending id : pending p !! (c, id) = None;
  no_dns id : pending_dns p !! (c, id) = None
}.

Lemma nothing_same c p p' : nothing_of c p -> same_on c p p' -> nothing_of c p'.
Proof. intros [] []. split; intros; congruence. Qed.

Lemma nothing_forget_connection c p : nothing_of c (forget_connection c p).
Proof.
  split; simpl; [by rewrite lookup_delete_eq|..]; intros x; apply (lookup_filter_drop (fun k => k.1 <> c)); tauto.
Qed.
Lemma nothing_forget_process c p : nothing_of c (forget_process c.1 p).
Proof.
  split; simpl; [by apply (lookup_filter_drop (fun k => k.1 <> c.1)); tauto|..];
    intros x; apply (lookup_filter_drop (fun k => k.1.1 <> c.1)); tauto.
Qed.

Lemma ends_forgets c captured p :
  sound config p -> ends c captured ->
  mwp (process iteration captured) p (fun _ p' => nothing_of c p').
Proof.
  intros Hp [(Ht & Hop & Hk)|(Ht & Hop & Hk)]; unfold process; cbv zeta; rewrite Ht; simpl.
  - apply mwp_bind, mwp_bind. rewrite Hk.
    eapply mwp_mono; [by apply keeps_connection_entry|]. intros state p1 [Hp1 Hs].
    unfold connection_operation. rewrite Hop. simpl. apply mwp_bind, mwp_update, mwp_bind.
    eapply mwp_mono; [apply keeps_connection_metadata|].
    { apply sound_set_connections; [done|]. by apply map_Forall_insert_2; [|apply Hp1]. }
    intros cm p2 [Hp2 _]. apply mwp_bind, mwp_update.
    eapply mwp_mono; [by apply leaves_single, sound_forget_connection|]. intros es p3 (_ & Hsame & _).
    apply mwp_ret. eapply nothing_same; [|done]. apply nothing_forget_connection.
  - apply mwp_bind. unfold process_lifecycle. rewrite Hop, Hk. simpl.
    apply mwp_bind, mwp_update, mwp_bind, mwp_this, mwp_bind, mwp_host. intros exe.
    eapply mwp_mono; [by apply leaves_single, sound_forget_process|]. intros es p3 (_ & Hsame & _).
    apply mwp_ret. eapply nothing_same; [|done]. apply nothing_forget_process.
Qed.

(** C18: Isolation of connections.  An event of another connection that is not the
    exit of this one's process leaves the principal, the streams, the waiting
    requests and the DNS queries of a connection as they are, provided the tables
    have room: of 32,768 requests 127 places are free, of 4,096 queries one (a
    full table evicts entries, of any connection).  The close of a connection and
    the exit of its process leave none of these four.  The cache of addresses, by
    process and descriptor, is not among them: nothing clears it at a close. *)
Theorem connection_isolation rs p w captured r p' w' :
  history iteration config rs p -> well_typed (raw captured) ->
  process iteration captured (p, w) = (r, (p', w')) ->
  (forall c, apart c captured -> roomy 127 p -> same_on c p p') /\
  (forall c, ends c captured -> nothing_of c p').
Proof using iteration_permutes.
  intros Hh Hw Hp. apply history_sound in Hh as [Hsound _]; [|done]. split.
  - intros c Ha Hroom. destruct (leaves_process c captured p Hsound Hw Ha Hroom w) as (_ & Hs & _).
    by rewrite Hp in Hs.
  - intros c Hc. pose proof (ends_forgets c captured p Hsound Hc w) as Hn. by rewrite Hp in Hn.
Qed.

(** * A request and its response *)

(** Events of other connections only, each with room for its requests: 127 of the
    places for waiting requests are free, and one of those for DNS queries, or an
    entry of [c] might be evicted *)
Inductive passes (c : Z * Z) (p : EventProcessor) : EventProcessor -> Prop :=
| passes_none : passes c p p
| passes_event p1 w captured r p2 w2 :
    passes c p p1 -> roomy 127 p1 -> well_typed (raw captured) -> apart c captured ->
    process iteration captured (p1, w) = (r, (p2, w2)) -> passes c p p2.

Lemma passes_same c p p' : sound config p -> passes c p p' -> sound config p' /\ same_on c p p'.
Proof.
  intros Hp. induction 1 as [|p1 w captured r p2 w2 _ [IH1 IH2] Hroom Hw Ha Hs]; [done|].
  destruct (leaves_process c captured p1 IH1 Hw Ha Hroom w) as (Hp2 & Hsame & _). rewrite Hs in *.
  split; [done|by etrans].
Qed.

(** What is kept of a request until it is answered *)
Record stored (p : EventProcessor) (raw : KernelEvent) (message : DecodedMessage) (command : MongoCommand)
    (r : PendingRequest) : Prop := {
  st_command : req_command r = without_principal command;
  st_actor : req_actor_principal_hash r =
    cs_authenticated_principal_hash (default no_connection (connections p !! conn_of raw));
  st_id : req_request_id r = request_id message;
  st_bytes : req_request_bytes r = wire_bytes message;
  st_compressed : req_compressed r = compressed message;
  st_time : seed_monotonic_timestamp_ns (req_seed r) = raw_timestamp_ns raw
}.

Lemma request_stored p raw truncated message command :
  response_to message = 0 -> Wire.command message = Some command -> more_to_come message = false ->
  mwp (process_message iteration raw truncated message) p (fun es p' => es = [] /\
    exists r, pending p' !! (conn_of raw, request_id message) = Some r /\ stored p raw message command r).
Proof.
  intros H0' Hc Hm. unfold process_message. rewrite H0', Hc. simpl. unfold process_request.
  apply mwp_bind, mwp_this. set (state0 := default no_connection (connections p !! conn_of raw)).
  unfold take_hashed_principal. cbv zeta beta iota. apply mwp_bind.
  apply mwp_mono with (Q := fun state _ =>
    cs_authenticated_principal_hash state = cs_authenticated_principal_hash state0).
  { unfold connection_entry. repeat mwp_step; fold state0; by repeat case_match. }
  intros state p1 Hstate. apply mwp_bind. eapply mwp_mono; [apply seed_exact|].
  intros seed p2 (_ & Hts & _). apply mwp_bind.
  apply mwp_mono with (Q := fun _ _ => True); [by intros w|]. intros connection p3 _. rewrite Hm. simpl.
  apply mwp_bind, mwp_update, mwp_bind, mwp_update, mwp_ret. split; [done|]. simpl.
  rewrite lookup_insert_eq. by eexists.
Qed.

(** What is reported of a request and its response *)
Record answers (p : EventProcessor) (raw : KernelEvent) (message : DecodedMessage) (command : MongoCommand)
    (raw' : KernelEvent) (response : DecodedMessage) (a : MongodbActivity) : Prop := {
  an_command : activity_command a = name command /\ activity_database a = database command /\
    activity_collection a = collection command;
  an_principal : activity_principal a =
    cs_authenticated_principal_hash (default no_connection (connections p !! conn_of raw));
  an_deletes : activity_delete_scope a = delete_scope_name <$> delete_scope command /\
    activity_delete_statements a = delete_statements command;
  an_query : activity_query a = if cfg_capture_query_content config then query command else None;
  an_request : activity_request_id a = request_id message /\ activity_request_bytes a = wire_bytes message /\
    activity_compressed a = compressed message /\ activity_expects_response a = true;
  an_response : activity_response_id a = Some (request_id response) /\
    activity_response_bytes a = Some (wire_bytes response);
  an_duration : activity_duration_us a =
    Some (saturating_sub (raw_timestamp_ns raw') (raw_timestamp_ns raw) / 1000);
  an_outcome : activity_succeeded a = status response ≫= status_ok /\ activity_error_code a = status response ≫= code /\
    activity_error_name a = status response ≫= code_name /\
    activity_affected_documents a = status response ≫= affected_count
}.

Lemma completed_first (r : PendingRequest) response rid rbytes p :
  sound config p -> wf_request config r ->
  mwp (events_for_completed_request (World := World) r response rid rbytes) p (fun es p' => pending p' = pending p /\
    exists e rest a, es = e :: rest /\ payload e = PMongodbActivity a /\
      activity_command a = name (req_command r) /\ activity_database a = database (req_command r) /\
      activity_collection a = collection (req_command r) /\ activity_principal a = req_actor_principal_hash r /\
      activity_delete_scope a = delete_scope_name <$> delete_scope (req_command r) /\
      activity_delete_statements a = delete_statements (req_command r) /\
      activity_query a = (if cfg_capture_query_content config then query (req_command r) else None) /\
      activity_request_id a = req_request_id r /\ activity_request_bytes a = req_request_bytes r /\
      activity_compressed a = req_compressed r /\ activity_expects_response a = req_expects_response r /\
      activity_response_id a = rid /\ activity_response_bytes a = rbytes /\ activity_duration_us a = snd <$> response /\
      activity_succeeded a = (response ≫= fun x => status x.1 ≫= status_ok) /\
      activity_error_code a = (response ≫= fun x => status x.1 ≫= code) /\
      activity_error_name a = (response ≫= fun x => status x.1 ≫= code_name) /\
      activity_affected_documents a = (response ≫= fun x => status x.1 ≫= affected_count)).
Proof.
  intros Hp Hr. unfold events_for_completed_request. cbv zeta. unfold event_from_seed.
  repeat mwp_step; cbn [processor_config set_connections]; rewrite ?(so_config config p Hp); (split; [done|]);
    (do 3 eexists; split; [done|]; split; [done|]; simpl; by destruct response as [[]|]).
Qed.

(** A response to a request that is still waiting *)
Lemma answered p raw truncated message command w es p1 w1 p2 raw' truncated' response w2 es' p3 w3 :
  sound config p ->
  response_to message = 0 -> Wire.command message = Some command -> more_to_come message = false ->
  process_message iteration raw truncated message (p, w) = (es, (p1, w1)) ->
  sound config p2 -> pending p2 !! (conn_of raw, request_id message) = pending p1 !! (conn_of raw, request_id message) ->
  conn_of raw' = conn_of raw -> response_to response = request_id message -> request_id message <> 0 ->
  process_message iteration raw' truncated' response (p2, w2) = (es', (p3, w3)) ->
  es = [] /\
  (exists e rest a, es' = e :: rest /\ payload e = PMongodbActivity a /\
     answers p raw message command raw' response a) /\
  forall w4, fst (process_message iteration raw' truncated' response (p3, w4)) = [].
Proof.
  intros Hp H0' Hc Hm Hreq Hp2 Hsame Hk Hid Hnz Hresp.
  destruct (request_stored p raw truncated message command H0' Hc Hm w) as [He (r & Hr & Hst)].
  rewrite Hreq in *. cbn [fst snd] in *. split; [done|]. rewrite <- Hsame in Hr. destruct Hst as [Sc Sa Si Sb Sz St].
  assert (forall p w, process_message iteration raw' truncated' response (p, w) =
    process_response raw' response (p, w)) as Hproc.
  { intros q v. unfold process_message. by replace (response_to response =? 0) with false by lia. }
  assert (mwp (process_response (World := World) raw' response) p2 (fun es' p3 =>
    (exists e rest a, es' = e :: rest /\ payload e = PMongodbActivity a /\ answers p raw message command raw' response a) /\
    pending p3 !! (conn_of raw', response_to response) = None)) as Hm'.
  { unfold process_response. apply mwp_bind, mwp_this. rewrite Hk, Hid, Hr.
    pose proof Hr as Hlookup. apply (so_pending config p2 Hp2) in Hr as [Hwf [_ Hexp]]. apply mwp_bind, mwp_update.
    eapply mwp_mono; [apply completed_first; [|done]|].
    { apply sound_set_pending; [done|eapply map_Forall_weaken; [apply delete_subseteq|apply Hp2]|].
      pose proof (so_pending_size config p2 Hp2). rewrite map_size_delete, Hlookup. simpl. lia. }
    intros es2 p4 (Hpend & e & rest & a & -> & Hpay & Ha). split; [|by rewrite Hpend; simpl; rewrite lookup_delete_eq].
    exists e, rest, a. split; [done|]. split; [done|]. rewrite Sc, Sa, Si, Sb, Sz, St, Hexp in Ha. simpl in Ha.
    by destruct_and!; split. }
  specialize (Hm' w2). rewrite <- Hproc, Hresp in Hm'. destruct Hm' as [Hans Hnone]. split; [done|].
  intros w4. rewrite Hproc. unfold process_response. cbn [mbind method_bind state_bind this fst snd] in *.
  unfold mbind, method_bind, state_bind, this. by rewrite Hnone.
Qed.

(** C7: A request and its response.  After a request that expects a response,
    whatever the other connections do while there is room for it ([passes]), the response
    with its id on the same connection is reported as one activity with the
    request's command, content and size, the principal authenticated on the
    connection when the request was sent, the time between the two and the
    response's outcome; a second response with that id is not reported. *)
Theorem request_answered rs p raw truncated message command w es p1 w1 p2 raw' truncated' response w2 es' p3 w3 :
  history iteration config rs p ->
  response_to message = 0 -> Wire.command message = Some command -> more_to_come message = false ->
  process_message iteration raw truncated message (p, w) = (es, (p1, w1)) ->
  passes (conn_of raw) p1 p2 ->
  conn_of raw' = conn_of raw -> response_to response = request_id message -> request_id message <> 0 ->
  process_message iteration raw' truncated' response (p2, w2) = (es', (p3, w3)) ->
  es = [] /\
  (exists e rest a, es' = e :: rest /\ payload e = PMongodbActivity a /\
     answers p raw message command raw' response a) /\
  forall w4, fst (process_message iteration raw' truncated' response (p3, w4)) = [].
Proof using iteration_permutes.
  intros Hh H0' Hc Hm Hreq Hpass. apply history_sound in Hh as [Hp _]; [|done].
  pose proof (keeps_process_message iteration iteration_permutes config raw truncated message p Hp w) as [Hp1 _].
  rewrite Hreq in Hp1. destruct (passes_same _ _ _ Hp1 Hpass) as [Hp2 Hsame].
  apply (answered p raw truncated message command w es p1 w1); try done. apply Hsame.
Qed.
End isolation.
