(* ===== verification/ObserverSample.v ===== *)
(** Concrete kernel events: the inputs at which the theorems on the event
    processor hold, and two inputs it reports wrongly. *)
From Stdlib Require Import ZArith Lia ZifyBool Strings.Byte Strings.Ascii Strings.String.
From stdpp Require Import base list strings gmap fin_maps pretty.
From S2P Require Import Prelude Text Float64 Json Dns Bson BsonJson Summary Wire Stream Encode BsonRef WireRef Schema.
From S2P Require Import Proc Kernel Observer ObserverSpec ObserverLife Session.

Local Open Scope string_scope.
Local Open Scope list_scope.
Local Open Scope Z_scope.

(** * A machine, a digest, a configuration *)

(** The machine: its clock, and the inode and table of the one socket it has. *)
Record machine : Set := {
  clock : Z;
  socket : string;
  table : string
}.
#[export] Instance machine_host : Host unit machine := {
  read_link path w := (if String.eqb path "/proc/42/fd/9" then Some (bytes_of ("socket:[" ++ socket w ++ "]")%string)
                       else None, w);
  read_to_string path w := (if String.eqb path "/proc/42/net/tcp" then Some (table w) else None, w);
  now_utc w := (tt, w);
  instant_now w := (clock w, w)
}.

(** Not SHA-256, but a function of the type: the first 32 bytes, padded. *)
Definition padded (bs : bytes) : bytes := take 32 (bs ++ repeat x00 32).
Lemma len_padded bs : len (padded bs) = 32.
Proof. unfold padded, len. rewrite length_take, length_app, repeat_length. lia. Qed.
#[export] Instance sample_sha256 : Sha256 := {| sha256 := padded; len_sha256 := len_padded |}.
#[export] Existing Instance Encode.stored.

Definition sample_config : ProcessorConfig := {|
  cfg_customer_id := "customer"; cfg_tenant_id := "tenant"; cfg_source_id := "source";
  cfg_regional_cell_id := "cell"; cfg_sensor_id := "sensor"; cfg_node_name := "node";
  cfg_cluster_name := "cluster"; cfg_host_proc := "/proc"; cfg_max_message_bytes := 1048576;
  cfg_cpu_profile_hz := 0; cfg_principal_hash_salt := Some "customer-salt"; cfg_capture_query_content := true
|}.
Definition quiet : machine := {| clock := 0; socket := "1"; table := "" |}.

(** A kernel event of process 42 *)
Definition kernel_event (kind operation ts key direction : Z) (fd : Z) (data : bytes) : CapturedKernelEvent := {|
  raw := {|
    raw_timestamp_ns := ts; raw_connection_key := key; raw_cgroup_id := 88; raw_duration_ns := 0;
    raw_bytes := len data; raw_result := 0; raw_pid := 42; raw_tgid := 42; raw_uid := 999; raw_gid := 999;
    raw_fd := fd; raw_original_len := len data; raw_captured_len := len data; raw_event_type := kind;
    raw_direction := direction; raw_source := 1; raw_operation := operation;
    raw_comm := bytes_of "mongod" ++ repeat x00 10; raw_data := take 1024 (data ++ repeat x00 1024)
  |};
  user_stack_addresses := [];
  kernel_stack_addresses := []
|}.
Definition io_event (ts key direction : Z) (data : bytes) : CapturedKernelEvent :=
  kernel_event EVENT_IO_CHUNK 0 ts key direction (-1) data.

Lemma kernel_event_typed kind operation ts key direction fd data :
  0 <= ts <= u64_max -> len data <= u32_max ->
  well_typed (raw (kernel_event kind operation ts key direction fd data)).
Proof.
  intros Ht Hd. pose proof (len_nonneg data).
  assert (len (take 1024 (data ++ repeat x00 1024)) = MAX_CAPTURE_BYTES) as Hlen.
  { unfold len. rewrite length_take, length_app, repeat_length. unfold MAX_CAPTURE_BYTES. lia. }
  split; cbn [raw kernel_event raw_timestamp_ns raw_tgid raw_captured_len raw_comm raw_data]; done || lia.
Qed.

(** * A run *)
Abbreviation state := (EventProcessor unit * machine)%type.
Abbreviation sample_process := (process (World := machine) (fun m => map_to_list m)).
Fixpoint run (l : list CapturedKernelEvent) (s : state) : list (res string (list (DamEvent unit))) * state :=
  match l with
  | [] => ([], s)
  | captured :: l =>
      let '(r, s) := sample_process captured s in
      let '(rs, s) := run l s in (r :: rs, s)
  end.

Abbreviation sample_history := (history (World := machine) (fun m => map_to_list m) sample_config).
Lemma run_history l rs p w :
  sample_history rs p -> Forall (fun c => well_typed (raw c)) l ->
  sample_history (rs ++ fst (run l (p, w))) (fst (snd (run l (p, w)))).
Proof.
  revert rs p w. induction l as [|c l IH]; intros rs p w Hh Hl; [by rewrite app_nil_r|].
  apply Forall_cons in Hl as [Hc Hl]. simpl. destruct (sample_process c (p, w)) as [r [p1 w1]] eqn:Hp.
  specialize (IH (rs ++ [r]) p1 w1 (history_step _ _ _ _ _ _ _ _ _ Hh Hc Hp) Hl).
  destruct (run l (p1, w1)) as [rs' s']. by rewrite <- app_assoc in IH.
Qed.

Lemma run_history_new l w :
  Forall (fun c => well_typed (raw c)) l ->
  sample_history (fst (run l (new_processor sample_config, w))) (fst (snd (run l (new_processor sample_config, w)))).
Proof. intros Hl. by apply (run_history l [] _ w); [apply history_new|]. Qed.

Definition ok_reply_frame (request_id response_to : Z) : bytes :=
  frame OP_MSG request_id response_to (msg_payload 0 [Body [("ok", BDouble 4607182418800017408)]] []).
Definition users_info_frame : bytes :=
  frame OP_MSG 7 0 (msg_payload 0 [Body [("usersInfo", BString "alice"); ("$db", BString "admin")]] []).
Definition find_frame : bytes :=
  frame OP_MSG 8 0 (msg_payload 0 [Body [("find", BString "orders"); ("$db", BString "sales")]] []).

Definition sample_events : list CapturedKernelEvent :=
  [io_event 1000 77 0 users_info_frame; io_event 2000 77 0 find_frame; io_event 5000 77 1 (ok_reply_frame 9 7)].
Definition sample_run := run sample_events (new_processor sample_config, quiet).
Definition sample_processor : EventProcessor unit := fst (snd sample_run).

Lemma sample_events_typed : Forall (fun c => well_typed (raw c)) sample_events.
Proof. repeat (apply Forall_cons; split; [apply kernel_event_typed; by vm_compute|]). apply Forall_nil. done. Qed.
Lemma sample_history_run : sample_history (fst sample_run) sample_processor.
Proof. unfold sample_processor, sample_run. apply run_history_new, sample_events_typed. Qed.

(** The reply to [usersInfo]: an activity, and an authentication event with the
    hash of "alice". *)
Definition reply_events : list (DamEvent unit) :=
  match last (fst sample_run) with Some (Ok es) => es | _ => [] end.
Example reply_payloads :
  (fun e => event_principals (payload e)) <$> reply_events = [[None]; [Some (hash_principal "customer-salt" "alice")]].
Proof. vm_compute. reflexivity. Qed.

Lemma reply_emitted : Forall (emitted (fst sample_run)) reply_events.
Proof.
  apply Forall_forall. intros e He. exists reply_events. split; [|done].
  assert (fst sample_run = [Ok []; Ok []] ++ [Ok reply_events]) as -> by (vm_compute; reflexivity).
  apply elem_of_app. right. by apply list_elem_of_singleton.
Qed.

Lemma processor_bounded_witness :
  Forall returns (fst sample_run) /\ Z.of_nat (size (pending sample_processor)) <= MAX_PENDING_REQUESTS.
Proof.
  destruct (processor_bounded (fun m => map_to_list m) (fun m => reflexivity _) sample_config _ _ sample_history_run)
    as (Hr & Hp & _). split; [exact Hr|exact Hp].
Defined.

Definition sample_batch : DamBatch unit := {|
  batch_version := 1; batch_id := "batch-1"; customer_id := "customer"; tenant_id := "tenant";
  source_id := "source"; regional_cell_id := "cell"; created_at := tt; events := reply_events
|}.

(** A text that starts with a lower-case letter *)
Lemma visible_letter c s :
  is_ascii_alphabetic (byte_of_ascii c) = true -> utf8 (String c s) = true -> visible_text (String c s).
Proof.
  intros Hc Hs. unfold utf8 in Hs. unfold visible_text, chars.
  assert ((u8 (byte_of_ascii c) <? 128) = true) as Hlt.
  { unfold is_ascii_alphabetic in Hc. lia. }
  rewrite bytes_of_cons in *. simpl in *. change 0x80 with 128 in *. rewrite Hlt in *.
  destruct (utf8_decode (bytes_of s)); [|done]. exists (u8 (byte_of_ascii c)). split; [by left|].
  unfold is_ascii_alphabetic, is_whitespace in *. lia.
Qed.

Lemma emitted_batch_valid_witness : validate sample_batch = Ok tt.
Proof.
  apply (emitted_batch_valid (fun m => map_to_list m) (fun m => reflexivity _) sample_config _ _ sample_batch
    sample_history_run).
  - intros H. apply (f_equal length) in H. vm_compute in H. discriminate H.
  - exact reply_emitted.
  - reflexivity.
  - by apply visible_letter.
  - repeat split.
  - repeat split; by apply visible_letter.
Defined.

Lemma principals_hashed_witness :
  exists e, e ∈ reply_events /\ forall o h, o ∈ event_principals (payload e) -> o = Some h ->
    exists s x, cfg_principal_hash_salt sample_config = Some s /\ h = hash_principal s x.
Proof.
  assert (exists e, e ∈ reply_events) as [e He].
  { destruct reply_events as [|e l] eqn:Hl; [|exists e; left].
    apply (f_equal length) in Hl. vm_compute in Hl. discriminate Hl. }
  exists e. split; [exact He|].
  apply (principals_hashed (fun m => map_to_list m) (fun m => reflexivity _) sample_config _ _ e sample_history_run).
  exact (proj1 (Forall_forall _ _) reply_emitted e He).
Defined.

(** * Isolation *)
Definition other_close : CapturedKernelEvent := kernel_event EVENT_CONNECTION OP_TCP_CLOSE 9000 78 0 (-1) [].

Lemma connection_isolation_witness :
  same_on (42, 77) sample_processor (fst (snd (sample_process other_close (sample_processor, quiet)))) /\
  nothing_of (42, 78) (fst (snd (sample_process other_close (sample_processor, quiet)))).
Proof.
  destruct (connection_isolation (fun m => map_to_list m) (fun m => reflexivity _) sample_config _ _ quiet other_close
    (fst (sample_process other_close (sample_processor, quiet)))
    (fst (snd (sample_process other_close (sample_processor, quiet))))
    (snd (snd (sample_process other_close (sample_processor, quiet)))) sample_history_run) as [Hapart Hends].
  - apply kernel_event_typed; by vm_compute.
  - by rewrite <- !surjective_pairing.
  - split.
    + apply Hapart; [split; [by intros [=]|by intros [=]]|].
      split; vm_compute; (done || by intros [=]).
    + apply Hends. left. repeat split.
Defined.

(** * A request and its response *)
Definition find_command : MongoCommand := {|
  name := "find"; database := Some "sales"; collection := Some "orders"; auth_mechanism := None; principal := None;
  speculative_auth := false; delete_scope := None; delete_statements := None; query := Some (JObject [])
|}.
Definition request_message : DecodedMessage := {|
  request_id := 20; response_to := 0; wire_bytes := 128; flags := 0; more_to_come := false; compressed := false;
  Wire.command := Some find_command; status := None
|}.
Definition response_message : DecodedMessage := {|
  request_id := 21; response_to := 20; wire_bytes := 96; flags := 0; more_to_come := false; compressed := false;
  Wire.command := None;
  status := Some {| status_ok := Some true; code := None; code_name := None; affected_count := Some 35; auth_done := None |}
|}.
Abbreviation sample_message := (process_message (World := machine) (fun m => map_to_list m)).
Definition request_event : KernelEvent := raw (io_event 5000 77 0 []).
Definition response_event : KernelEvent := raw (io_event 10005000 77 1 []).
Definition requested : EventProcessor unit :=
  fst (snd (sample_message request_event false request_message (sample_processor, quiet))).
Definition passed : EventProcessor unit := fst (snd (sample_process other_close (requested, quiet))).
Definition answered := sample_message response_event false response_message (passed, quiet).

Lemma triple_eta {A B C} (x : A * (B * C)) : x = (fst x, (fst (snd x), snd (snd x))).
Proof. by destruct x as [a [b c]]. Qed.

Lemma requested_eq :
  sample_message request_event false request_message (sample_processor, quiet) =
  (fst (sample_message request_event false request_message (sample_processor, quiet)),
   (requested, snd (snd (sample_message request_event false request_message (sample_processor, quiet))))).
Proof. exact (triple_eta (sample_message request_event false request_message (sample_processor, quiet))). Qed.

Lemma sample_passes :
  passes (World := machine) (fun m => map_to_list m) (raw_tgid request_event, raw_connection_key request_event)
    requested passed.
Proof.
  eapply (passes_event _ _ _ requested quiet other_close (fst (sample_process other_close (requested, quiet)))
    passed (snd (snd (sample_process other_close (requested, quiet))))); [apply passes_none|..].
  - split; vm_compute; (done || by intros [=]).
  - apply kernel_event_typed; by vm_compute.
  - split; by intros [=].
  - exact (triple_eta (sample_process other_close (requested, quiet))).
Qed.

Lemma answered_eq :
  sample_message response_event false response_message (passed, quiet) =
  (fst answered, (fst (snd answered), snd (snd answered))).
Proof. exact (triple_eta answered). Qed.

Lemma request_answered_witness :
  exists e rest a, fst answered = e :: rest /\ payload e = PMongodbActivity a /\
    answers sample_config sample_processor request_event request_message find_command response_event response_message a.
Proof.
  apply (request_answered (fun m => map_to_list m) (fun m => reflexivity _) sample_config (fst sample_run)
    sample_processor request_event false request_message find_command quiet
    (fst (sample_message request_event false request_message (sample_processor, quiet)))
    requested (snd (snd (sample_message request_event false request_message (sample_processor, quiet))))
    passed response_event false response_message quiet (fst answered) (fst (snd answered)) (snd (snd answered))
    sample_history_run eq_refl eq_refl eq_refl requested_eq sample_passes eq_refl eq_refl ltac:(done) answered_eq).
Defined.

(** * Two events reported wrongly *)

(** The decoder gives up a large frame after its first 1024 bytes and forgets
    how long the frame was: a later chunk of the same frame is read as a frame of
    its own.  One [insert], delivered in three chunks, whose third starts inside
    its binary field: the field's content is reported as a [dropDatabase]. *)
Definition forged_frame : bytes :=
  frame OP_MSG 99 0 (msg_payload 2 [Body [("dropDatabase", BInt32 1); ("$db", BString "sales")]] []).
Definition insert_frame : bytes :=
  frame OP_MSG 30 0 (msg_payload 0
    [Body [("$db", BString "sales"); ("insert", BString "orders");
           ("note", BBinary x00 (repeat x00 1130 ++ forged_frame))]] []).
Definition insert_chunks : list CapturedKernelEvent :=
  [io_event 1000 77 0 (take 600 insert_frame); io_event 2000 77 0 (take 600 (drop 600 insert_frame));
   io_event 3000 77 0 (drop 1200 insert_frame)].
Definition reported_commands (l : list CapturedKernelEvent) : list (list string) :=
  (fun r => match r with
            | Ok es => omap (fun e => match payload e with PMongodbActivity a => Some (activity_command a) | _ => None end) es
            | _ => []
            end) <$> fst (run l (new_processor sample_config, quiet)).
Lemma forged_continuation :
  drop 1200 insert_frame = forged_frame ++ [x00] /\
  reported_commands insert_chunks = [[]; []; ["dropDatabase"]].
Proof. split; vm_compute; reflexivity. Qed.

(** The endpoints of a descriptor are kept for 5 seconds, and closing the
    connection does not drop them: a connection accepted on the same descriptor a
    second later is reported with the remote address of the closed one. *)
Definition socket_table (remote inode : string) : string :=
  ("  sl  local_address rem_address   st tx_queue rx_queue tr tm->when retrnsmt   uid  timeout inode" ++ string_of [x0a]
   ++ "   0: 0100007F:6989 " ++ remote ++ " 01 00000000:00000000 00:00000000 00000000 999 0 " ++ inode ++ string_of [x0a])%string.
Definition first_socket : machine := {| clock := 0; socket := "111"; table := socket_table "0200007F:C001" "111" |}.
Definition second_socket : machine :=
  {| clock := 1000000000; socket := "222"; table := socket_table "0300007F:C002" "222" |}.
Definition remote_of (r : res string (list (DamEvent unit))) : option string :=
  match r with
  | Ok [e] => match payload e with PMongodbConnection c => remote (conn_connection c) ≫= address | _ => None end
  | _ => None
  end.
Definition accepted (key : Z) : CapturedKernelEvent := kernel_event EVENT_CONNECTION OP_TCP_ACCEPT 1000 key 0 9 [].
Definition closed (key : Z) : CapturedKernelEvent := kernel_event EVENT_CONNECTION OP_TCP_CLOSE 2000 key 0 9 [].
Definition first_life := run [accepted 77; closed 77] (new_processor sample_config, first_socket).
Lemma stale_endpoints :
  remote_of (fst (sample_process (accepted 78) (fst (snd first_life), second_socket))) = Some "127.0.0.2" /\
  remote_of (fst (sample_process (accepted 78) (new_processor sample_config, second_socket))) = Some "127.0.0.3".
Proof. split; vm_compute; reflexivity. Qed.
