(* ===== verification/Agent.v ===== *)
(** The observer's agent, crates/observer/src/main.rs: the command line, the
    selection of events, the ring buffer callback, the batcher over the local
    spool, the exporter to Outpost, and the health page.  The atomics of
    [RuntimeMetrics] are a record of counters, which wrap around at 64 bits;
    loading eBPF programs and attaching probes is libbpf. *)
From Stdlib Require Import ZArith Lia ZifyBool Strings.Byte Strings.Ascii Strings.String.
From stdpp Require Import base list strings gmap pretty.
From S2P Require Import Prelude Text Float64 Json Bson Schema Proc Kernel Observer Spool Enrich Destination.

Local Open Scope string_scope.
Local Open Scope list_scope.
Local Open Scope Z_scope.
Local Open Scope dam_scope.

(** * The command line *)
Inductive TlsUprobeMode : Set := Auto | Required | Off.

Record Cli : Set := {
  cli_customer_id : string;
  cli_tenant_id : string;
  cli_source_id : string;
  cli_regional_cell_id : string;
  cli_cluster_name : string;
  cli_node_name : string;
  cli_sensor_id : option string;
  cli_outpost_url : string;
  cli_internal_token_file : option string;
  cli_principal_hash_salt_file : option string;
  cli_host_proc : string;
  cli_spool_dir : string;
  cli_spool_max_bytes : Z;
  cli_batch_max_events : Z;
  cli_enabled_event_types : string;
  cli_enabled_mongodb_commands : string;
  cli_capture_query_content : bool;
  cli_batch_flush_milliseconds : Z;
  cli_export_interval_seconds : Z;
  cli_rescan_seconds : Z;
  cli_max_message_bytes : Z;
  cli_cpu_profile_hz : Z;
  cli_mongodb_port : Z;
  cli_tls_uprobes : TlsUprobeMode;
  cli_lock_profiling : bool;
  cli_listen_addr : string
}.

Definition validate_cli (cli : Cli) : res string unit :=
  let! _ := check_names [("customer_id", cli_customer_id cli); ("tenant_id", cli_tenant_id cli);
    ("source_id", cli_source_id cli); ("regional_cell_id", cli_regional_cell_id cli);
    ("cluster_name", cli_cluster_name cli); ("node_name", cli_node_name cli); ("outpost_url", cli_outpost_url cli)] in
  let! _ := ensure (0 <? cli_batch_max_events cli) "batch_max_events must be positive" in
  let! _ := ensure (cli_cpu_profile_hz cli <=? 999) "cpu_profile_hz must be at most 999" in
  ensure (0 <? cli_mongodb_port cli) "mongodb_port must be positive".

Record Assignment : Set := {
  as_customer_id : string;
  as_tenant_id : string;
  as_source_id : string;
  as_regional_cell_id : string;
  as_sensor_id : string;
  as_node_name : string
}.
Definition sensor_id_of (cli : Cli) : string :=
  default (String.append "mongodb-dam-observer-" (cli_node_name cli)) (cli_sensor_id cli).
Definition assignment_of (cli : Cli) : Assignment := {|
  as_customer_id := cli_customer_id cli;
  as_tenant_id := cli_tenant_id cli;
  as_source_id := cli_source_id cli;
  as_regional_cell_id := cli_regional_cell_id cli;
  as_sensor_id := sensor_id_of cli;
  as_node_name := cli_node_name cli
|}.
Definition processor_config_of (cli : Cli) (principal_hash_salt : option string) : ProcessorConfig := {|
  cfg_customer_id := cli_customer_id cli;
  cfg_tenant_id := cli_tenant_id cli;
  cfg_source_id := cli_source_id cli;
  cfg_regional_cell_id := cli_regional_cell_id cli;
  cfg_sensor_id := sensor_id_of cli;
  cfg_node_name := cli_node_name cli;
  cfg_cluster_name := cli_cluster_name cli;
  cfg_host_proc := cli_host_proc cli;
  cfg_max_message_bytes := cli_max_message_bytes cli;
  cfg_cpu_profile_hz := cli_cpu_profile_hz cli;
  cfg_principal_hash_salt := principal_hash_salt;
  cfg_capture_query_content := cli_capture_query_content cli
|}.

(** [read_secret], on what reading the file gives *)
Definition read_secret (path : string) (content : option string) : res string string :=
  match content with
  | None => Err ("reading secret " ++ path)%string
  | Some content =>
      let value := trim content in
      let! _ := ensure (negb (String.eqb value "")) ("secret " ++ path ++ " is empty") in Ok value
  end.

(** * The selection of events *)
Definition SUPPORTED_EVENT_TYPES : list string :=
  ["mongodb_activity"; "mongodb_connection"; "mongodb_auth"; "dns_activity"; "host_io"; "profile";
   "process_lifecycle"; "sensor_health"].

Section selection.
(** [HashSet::iter]: in an order of its own *)
Context (iteration : gset string -> list string).

(** [raw.split(',').map(str::trim).filter(|value| !value.is_empty())] *)
Definition selected_names (raw : string) : list string :=
  filter (fun value => value <> "") (trim <$> split ","%char raw).

(** The checks both lists share: something is selected, and [all] stands alone. *)
Definition all_or_names (selected : gset string) (empty_error mixed_error : string)
    (check : res string unit) : res string (option (gset string)) :=
  let! _ := ensure (negb (bool_decide (selected = ∅))) empty_error in
  if bool_decide ("all" ∈ selected) then
    let! _ := ensure (bool_decide (size selected = 1%nat)) mixed_error in Ok None
  else let! _ := check in Ok (Some selected).

Fixpoint check_supported (l : list string) : res string unit :=
  match l with
  | [] => Ok tt
  | event_type :: l =>
      let! _ := ensure (one_of event_type SUPPORTED_EVENT_TYPES)
                  (String.append "unsupported enabled event type: " event_type) in
      check_supported l
  end.
Definition parse_enabled_event_types (raw : string) : res string (option (gset string)) :=
  let selected := list_to_set (selected_names raw) in
  all_or_names selected "enabled_event_types must contain all or at least one event type"
    "enabled_event_types cannot combine all with named event types" (check_supported (iteration selected)).

Definition command_name (command : string) : bool :=
  forallb (fun b => is_ascii_alphanumeric b || (u8 b =? 95)) (bytes_of command).
Definition parse_enabled_mongodb_commands (raw : string) : res string (option (gset string)) :=
  let selected := list_to_set (to_ascii_lowercase <$> selected_names raw) in
  all_or_names selected "enabled_mongodb_commands must contain all or at least one command"
    "enabled_mongodb_commands cannot combine all with named commands"
    (ensure (forallb command_name (iteration selected)) "enabled_mongodb_commands contains an invalid command name").

Definition event_type_name (payload : EventPayload) : string :=
  match payload with
  | PMongodbActivity _ => "mongodb_activity"
  | PMongodbConnection _ => "mongodb_connection"
  | PMongodbAuth _ => "mongodb_auth"
  | PDnsActivity _ => "dns_activity"
  | PHostIo _ => "host_io"
  | PProfile _ => "profile"
  | PProcessLifecycle _ => "process_lifecycle"
  | PSensorHealth _ => "sensor_health"
  end.
(** [enabled.as_ref().is_none_or(|set| set.contains(name))] *)
Definition enabled_name (enabled : option (gset string)) (name : string) : bool :=
  match enabled with
  | None => true
  | Some names => bool_decide (name ∈ names)
  end.
Definition event_type_is_enabled (enabled : option (gset string)) (event_type : string) : bool :=
  enabled_name enabled event_type.
Definition event_is_enabled (enabled_event_types enabled_mongodb_commands : option (gset string))
    (payload : EventPayload) : bool :=
  if negb (event_type_is_enabled enabled_event_types (event_type_name payload)) then false
  else match payload with
       | PMongodbActivity activity =>
           enabled_name enabled_mongodb_commands (to_ascii_lowercase (activity_command activity))
       | _ => true
       end.
End selection.

(** * Counters *)
Record RuntimeMetrics : Set := {
  bpf_ready : bool;
  ring_events : Z;
  malformed_ring_events : Z;
  userspace_dropped_events : Z;
  parse_errors : Z;
  metadata_events : Z;
  batches_spooled : Z;
  spool_dropped_events : Z;
  batches_delivered : Z;
  delivery_failures : Z;
  quarantined_batches : Z;
  bpf_dropped_events : Z;
  target_processes : Z;
  tls_uprobe_processes : Z
}.
(** [RuntimeMetrics::default()] *)
Definition no_metrics : RuntimeMetrics := Build_RuntimeMetrics false 0 0 0 0 0 0 0 0 0 0 0 0 0.

(** [fetch_add] of an [AtomicU64] *)
Definition fetch_add (a n : Z) : Z := (a + n) mod 18446744073709551616.
Definition count_ring (ring malformed dropped : Z) (m : RuntimeMetrics) : RuntimeMetrics := {|
  bpf_ready := bpf_ready m; ring_events := fetch_add (ring_events m) ring;
  malformed_ring_events := fetch_add (malformed_ring_events m) malformed;
  userspace_dropped_events := fetch_add (userspace_dropped_events m) dropped;
  parse_errors := parse_errors m; metadata_events := metadata_events m; batches_spooled := batches_spooled m;
  spool_dropped_events := spool_dropped_events m; batches_delivered := batches_delivered m;
  delivery_failures := delivery_failures m; quarantined_batches := quarantined_batches m;
  bpf_dropped_events := bpf_dropped_events m; target_processes := target_processes m;
  tls_uprobe_processes := tls_uprobe_processes m
|}.
Definition count_events (errors events spooled dropped : Z) (m : RuntimeMetrics) : RuntimeMetrics := {|
  bpf_ready := bpf_ready m; ring_events := ring_events m; malformed_ring_events := malformed_ring_events m;
  userspace_dropped_events := userspace_dropped_events m;
  parse_errors := fetch_add (parse_errors m) errors; metadata_events := fetch_add (metadata_events m) events;
  batches_spooled := fetch_add (batches_spooled m) spooled;
  spool_dropped_events := fetch_add (spool_dropped_events m) dropped;
  batches_delivered := batches_delivered m; delivery_failures := delivery_failures m;
  quarantined_batches := quarantined_batches m; bpf_dropped_events := bpf_dropped_events m;
  target_processes := target_processes m; tls_uprobe_processes := tls_uprobe_processes m
|}.
Definition count_delivery (delivered failures quarantined : Z) (m : RuntimeMetrics) : RuntimeMetrics := {|
  bpf_ready := bpf_ready m; ring_events := ring_events m; malformed_ring_events := malformed_ring_events m;
  userspace_dropped_events := userspace_dropped_events m; parse_errors := parse_errors m;
  metadata_events := metadata_events m; batches_spooled := batches_spooled m;
  spool_dropped_events := spool_dropped_events m;
  batches_delivered := fetch_add (batches_delivered m) delivered;
  delivery_failures := fetch_add (delivery_failures m) failures;
  quarantined_batches := fetch_add (quarantined_batches m) quarantined;
  bpf_dropped_events := bpf_dropped_events m; target_processes := target_processes m;
  tls_uprobe_processes := tls_uprobe_processes m
|}.

(** * The ring buffer callback *)

(** [read_stack]: the addresses before the first zero, of what the stack map
    holds under the id *)
Fixpoint addresses (n : nat) (bs : bytes) : list Z :=
  match n with
  | O => []
  | S n =>
      if len bs <? 8 then [] else
      let address := u64_from_le_bytes (take 8 bs) in
      if address =? 0 then [] else address :: addresses n (drop 8 bs)
  end.
Definition read_stack (map : Z -> option bytes) (stack_id : Z) : list Z :=
  if stack_id <? 0 then [] else
  match map stack_id with
  | Some bs => addresses (S (length bs)) bs
  | None => []
  end.

(** [try_send] on the channel to the processor *)
Inductive Slot : Set := Free | Full | Closed.
(** The callback: what is sent, the value it returns, the counters *)
Definition on_ring_record (map : Z -> option bytes) (slot : Slot) (bs : bytes) (m : RuntimeMetrics)
    : option CapturedKernelEvent * Z * RuntimeMetrics :=
  match from_ring_bytes bs with
  | None => (None, 0, count_ring 1 1 0 m)
  | Some raw =>
      let sample := raw_operation raw =? OP_CPU_SAMPLE in
      let captured := {|
        Kernel.raw := raw;
        user_stack_addresses :=
          if sample then read_stack map
            (if (i32_min <=? raw_result raw) && (raw_result raw <=? i32_max) then raw_result raw else -1)
          else [];
        kernel_stack_addresses := if sample then read_stack map (raw_fd raw) else []
      |} in
      match slot with
      | Free => (Some captured, 0, count_ring 1 0 0 m)
      | Full => (None, 0, count_ring 1 0 1 m)
      | Closed => (None, -1, count_ring 1 0 0 m)
      end
  end.

(** [name.parse::<i32>()] *)
Definition parse_i32 (name : string) : option Z :=
  match bytes_of name with
  | x2d :: digits =>
      match digits with
      | [] => None
      | _ => digits_value 10 0 digits ≫= (fun v => if v <=? 2147483648 then Some (- v) else None)
      end
  | _ => from_str_radix i32_max 10 name
  end.
Fixpoint insert_sorted (x : Z) (l : list Z) : list Z :=
  match l with
  | [] => [x]
  | y :: l' => if x <=? y then x :: l else y :: insert_sorted x l'
  end.
(** [slice::sort_unstable] of integers *)
Definition sort_unstable (l : list Z) : list Z := foldr insert_sorted [] l.

(** [mongodb_pids]: [entries] is what reading the directory gives, a name for
    each entry that can be read and is text; [comm] the content of an entry's
    file comm. *)
Definition mongodb_pid (comm : string -> option string) (entry : option string) : option Z :=
  match entry with
  | Some name =>
      match parse_i32 name with
      | Some pid => if one_of (trim (default "" (comm name))) ["mongod"; "mongos"] then Some pid else None
      | None => None
      end
  | None => None
  end.
Definition mongodb_pids (host_proc : string) (comm : string -> option string)
    (entries : option (list (option string))) : res string (list Z) :=
  match entries with
  | None => Err ("reading host procfs at " ++ host_proc)%string
  | Some entries => Ok (sort_unstable (omap (mongodb_pid comm) entries))
  end.

Section agent.
Context {OffsetDateTime : Type} `{Sha256}.
Abbreviation DamEvent := (DamEvent OffsetDateTime).
Abbreviation DamBatch := (DamBatch OffsetDateTime).
(** [unix_timestamp_nanos().to_le_bytes()] of a timestamp *)
Context (nanos : OffsetDateTime -> bytes).
(** [serde_json] on batches; an error is its text *)
Context (from_slice : bytes -> string + DamBatch) (to_vec : DamBatch -> string + bytes).
(** The texts an HTTP header can carry.  A request that cannot be built for
    another reason (its URL, its token) has no answer, like one that fails. *)
Context (header_value : string -> bool).

(** * The processor task: the events of one call that are selected *)
Definition publish (enabled_event_types enabled_mongodb_commands : option (gset string))
    (result : res string (list DamEvent)) (m : RuntimeMetrics) : list DamEvent * RuntimeMetrics :=
  match result with
  | Ok events =>
      let selected := filter (fun event =>
        event_is_enabled enabled_event_types enabled_mongodb_commands (payload event)) events in
      (selected, count_events 0 (len selected) 0 0 m)
  | Err _ => ([], count_events 1 0 0 0 m)
  | Fault _ => ([], m)
  end.

(** * The batcher *)

(** Digests are SHA-256; the spool's id of a body is its digest in hexadecimal. *)
Definition short_digest (bs : bytes) : string := encode_hex (take 16 (sha256 bs)).
Definition spool_digest (bs : bytes) : string := encode_hex (sha256 bs).

Definition health_event (assignment : Assignment) (m : RuntimeMetrics) (now : OffsetDateTime) (spool_bytes : Z)
    : DamEvent := {|
  event_version := EVENT_SCHEMA_VERSION;
  event_id := String.append "health-" (short_digest (bytes_of (as_sensor_id assignment) ++ nanos now));
  observed_at := now;
  monotonic_timestamp_ns := 0;
  event_customer_id := as_customer_id assignment;
  event_tenant_id := as_tenant_id assignment;
  event_source_id := as_source_id assignment;
  event_regional_cell_id := as_regional_cell_id assignment;
  capture := {|
    sensor_id := as_sensor_id assignment;
    node_name := as_node_name assignment;
    source := Sensor;
    confidence := Complete;
    metadata_only := true;
    truncated := false
  |};
  kubernetes := None;
  Schema.process := None;
  identity := None;
  payload := PSensorHealth {|
    health_status := if bpf_ready m then "ok" else "degraded";
    health_component := "observer";
    health_reason := "periodic sensor status";
    health_dropped_events := saturating_add u64_max
      (saturating_add u64_max (bpf_dropped_events m) (userspace_dropped_events m)) (spool_dropped_events m);
    health_parse_errors := parse_errors m;
    health_spool_bytes := spool_bytes
  |}
|}.
Definition sensor_health_event (assignment : Assignment) (m : RuntimeMetrics) (now : OffsetDateTime)
    : prog DamEvent :=
  bind_prog stats (fun stats =>
    Ret (health_event assignment m now (match stats with inr stats => stat_bytes stats | inl _ => 0 end))).

Definition batch_of (assignment : Assignment) (events : list DamEvent) (now : OffsetDateTime) : DamBatch := {|
  batch_version := BATCH_SCHEMA_VERSION;
  batch_id := String.append "batch-" (short_digest
    (bytes_of (as_sensor_id assignment) ++ nanos now ++ concat ((fun event => bytes_of (event_id event)) <$> events)));
  customer_id := as_customer_id assignment;
  tenant_id := as_tenant_id assignment;
  source_id := as_source_id assignment;
  regional_cell_id := as_regional_cell_id assignment;
  created_at := now;
  events := events
|}.

(** [flush_batch]: the counters, and whether the exporter was woken.  The events
    are taken out of the buffer whatever happens. *)
Definition flush_batch (max_bytes : Z) (assignment : Assignment) (events : list DamEvent) (now : OffsetDateTime)
    (m : RuntimeMetrics) : prog (RuntimeMetrics * bool) :=
  match events with
  | [] => Ret (m, false)
  | _ =>
      let dropped := (count_events 0 0 0 (len events) m, false) in
      match to_vec (batch_of assignment events now) with
      | inl _ => Ret dropped
      | inr body =>
          bind_prog (enqueue spool_digest max_bytes body) (fun result =>
            match result with
            | inr _ => Ret (count_events 0 0 1 0 m, true)
            | inl _ => Ret dropped
            end)
      end
  end.

(** What ends a turn of the loop of [run_batcher], with the clocks it reads: the
    [Instant] and the time of a health event, and the time of the flush. *)
Inductive Wake : Type :=
| Received (event : DamEvent) (flush_now : OffsetDateTime)
| Hangup (flush_now : OffsetDateTime)
| Ticked (instant : Z) (health_now flush_now : OffsetDateTime).

Record Batcher : Type := {
  buffered : list DamEvent;
  last_health : Z
}.

(** 60 seconds, in nanoseconds *)
Definition HEALTH_INTERVAL_NS : Z := 60000000000.

Definition flush_if (b : bool) (max_bytes : Z) (assignment : Assignment) (s : Batcher) (now : OffsetDateTime)
    (m : RuntimeMetrics) : prog (Batcher * RuntimeMetrics) :=
  if b then
    bind_prog (flush_batch max_bytes assignment (buffered s) now m) (fun '(m, _) =>
      Ret ({| buffered := []; last_health := last_health s |}, m))
  else Ret (s, m).

(** One turn; the flag says that the loop goes on. *)
Definition batcher_turn (max_bytes : Z) (assignment : Assignment) (max_events : Z) (emit_sensor_health : bool)
    (wake : Wake) (s : Batcher) (m : RuntimeMetrics) : prog (Batcher * RuntimeMetrics * bool) :=
  match wake with
  | Received event now =>
      let s := {| buffered := buffered s ++ [event]; last_health := last_health s |} in
      bind_prog (flush_if (max_events <=? len (buffered s)) max_bytes assignment s now m) (fun '(s, m) => Ret (s, m, true))
  | Hangup now =>
      bind_prog (flush_if true max_bytes assignment s now m) (fun '(s, m) => Ret (s, m, false))
  | Ticked instant health_now now =>
      bind_prog
        (if emit_sensor_health && (HEALTH_INTERVAL_NS <=? saturating_sub instant (last_health s)) then
           bind_prog (sensor_health_event assignment m health_now) (fun event =>
             Ret {| buffered := buffered s ++ [event]; last_health := instant |})
         else Ret s)
        (fun s => bind_prog
           (flush_if ((max_events <=? len (buffered s)) || negb (match buffered s with [] => true | _ => false end))
              max_bytes assignment s now m)
           (fun '(s, m) => Ret (s, m, true)))
  end.

Fixpoint run_batcher (max_bytes : Z) (assignment : Assignment) (max_events : Z) (emit_sensor_health : bool)
    (wakes : list Wake) (s : Batcher) (m : RuntimeMetrics) : prog (Batcher * RuntimeMetrics) :=
  match wakes with
  | [] => Ret (s, m)
  | wake :: wakes =>
      bind_prog (batcher_turn max_bytes assignment max_events emit_sensor_health wake s m) (fun '(s, m, more) =>
        if (more : bool) then run_batcher max_bytes assignment max_events emit_sensor_health wakes s m else Ret (s, m))
  end.

(** * The exporter *)
Inductive ExportError : Set :=
| SpoolFailed (e : SpoolError)
| InvalidBatch (id : string)
| NoAnswer (batch_id : string)
| RetryableStatus (status : Z).

(** What the answer of Outpost means for the batch *)
Inductive Disposition : Set := Delivered | Retry | Rejected.
Definition disposition (status : Z) : Disposition :=
  if ((200 <=? status) && (status <? 300)) || (status =? 409) then Delivered
  else if ((500 <=? status) && (status <? 600)) || (status =? 429) then Retry
  else Rejected.

(** [request.send()], for a request that can be built *)
Definition send (batch : DamBatch) (body : bytes) : prog (option Z) :=
  if negb (header_value (batch_id batch)) then Ret None else Do (Request (batch_id batch) body) Ret.

(** One item: [true] when it was delivered, [false] when it was quarantined *)
Definition deliver_observer_item (item : PendingItem) : task (ExportError + bool) :=
  Method (read item) (fun r =>
    match r with
    | inl e => Finish (inl (SpoolFailed e))
    | inr body =>
        match from_slice body with
        | inl _ => Finish (inl (InvalidBatch (id item)))
        | inr batch =>
            Method (send batch body) (fun answer =>
              match answer with
              | None => Finish (inl (NoAnswer (batch_id batch)))
              | Some status =>
                  match disposition status with
                  | Delivered => settle SpoolFailed acknowledge item true
                  | Retry => Finish (inl (RetryableStatus status))
                  | Rejected => settle SpoolFailed quarantine item false
                  end
              end)
        end
    end).

Definition count_item (delivered : bool) : RuntimeMetrics -> RuntimeMetrics :=
  if delivered then count_delivery 1 0 0 else count_delivery 0 0 1.
Definition deliver_observer_spool (m : RuntimeMetrics) : task (RuntimeMetrics * (ExportError + unit)) :=
  deliver_all deliver_observer_item count_item SpoolFailed m.

(** One turn of the loop of [run_exporter] *)
Definition observer_pass (m : RuntimeMetrics) : task RuntimeMetrics :=
  bind_task (deliver_observer_spool m) (fun '(m, r) =>
    Finish (match r with inl _ => count_delivery 0 1 0 m | inr _ => m end)).
(** The pass it makes before it returns *)
Definition final_pass (m : RuntimeMetrics) : task RuntimeMetrics :=
  bind_task (deliver_observer_spool m) (fun '(m, _) => Finish m).
End agent.

(** * The health page *)
Record HealthResponse : Set := {
  hr_service : string;
  hr_status : string;
  hr_node_name : string;
  hr_target_processes : Z;
  hr_tls_uprobe_processes : Z;
  hr_spool_items : Z;
  hr_spool_bytes : Z;
  hr_quarantine_items : Z;
  hr_quarantine_bytes : Z
}.
Definition health (node_name : string) (m : RuntimeMetrics) : prog (Z * (SpoolError + HealthResponse)) :=
  bind_prog stats (fun stats => bind_prog quarantine_stats (fun quarantine =>
    Ret match stats, quarantine with
        | inr stats, inr quarantine =>
            (if bpf_ready m then 200 else 503,
             inr {| hr_service := "mongodb-dam-observer";
                    hr_status := if bpf_ready m then "ok" else "starting";
                    hr_node_name := node_name;
                    hr_target_processes := target_processes m;
                    hr_tls_uprobe_processes := tls_uprobe_processes m;
                    hr_spool_items := items stats;
                    hr_spool_bytes := stat_bytes stats;
                    hr_quarantine_items := items quarantine;
                    hr_quarantine_bytes := stat_bytes quarantine |})
        | inl error, _ | _, inl error => (503, inl error)
        end)).

(** [prometheus_metrics]: a line for each series; the first three name their type *)
Definition metric_line (name : string) (value : Z) : string :=
  ("mongodb_dam_observer_" ++ name ++ " " ++ pretty value ++ string_of [x0a])%string.
Definition type_line (name kind : string) : string :=
  ("# TYPE mongodb_dam_observer_" ++ name ++ " " ++ kind ++ string_of [x0a])%string.
Definition prometheus_text (m : RuntimeMetrics) (spool quarantine : SpoolStats) : string :=
  foldr String.append "" [
    type_line "ready" "gauge"; metric_line "ready" (if bpf_ready m then 1 else 0);
    type_line "ring_events_total" "counter"; metric_line "ring_events_total" (ring_events m);
    metric_line "malformed_ring_events_total" (malformed_ring_events m);
    metric_line "userspace_dropped_events_total" (userspace_dropped_events m);
    metric_line "parse_errors_total" (parse_errors m);
    metric_line "metadata_events_total" (metadata_events m);
    metric_line "batches_spooled_total" (batches_spooled m);
    metric_line "spool_dropped_events_total" (spool_dropped_events m);
    metric_line "batches_delivered_total" (batches_delivered m);
    metric_line "delivery_failures_total" (delivery_failures m);
    metric_line "quarantined_batches_total" (quarantined_batches m);
    metric_line "bpf_dropped_events_total" (bpf_dropped_events m);
    metric_line "target_processes" (target_processes m);
    metric_line "tls_uprobe_processes" (tls_uprobe_processes m);
    metric_line "spool_items" (items spool); metric_line "spool_bytes" (stat_bytes spool);
    metric_line "quarantine_items" (items quarantine); metric_line "quarantine_bytes" (stat_bytes quarantine)].
Definition prometheus_metrics (m : RuntimeMetrics) : prog string :=
  let or_default (r : SpoolError + SpoolStats) := match r with inr s => s | inl _ => {| items := 0; stat_bytes := 0 |} end in
  bind_prog stats (fun spool => bind_prog quarantine_stats (fun quarantine =>
    Ret (prometheus_text m (or_default spool) (or_default quarantine)))).
