(* ===== verification/Capture.v ===== *)
(** From the kernel to the event processor: what the processor of
    crates/observer/src/lib.rs makes of the records that the programs of
    src/bpf/observer.bpf.c submit. *)
From Stdlib Require Import ZArith Lia ZifyBool Strings.Byte Strings.String.
From stdpp Require Import base list gmap.
From S2P Require Import Prelude Text Dns Wire Stream Schema Methods Proc Kernel Observer.
From S2P Require Import Agent Ebpf EbpfSpec.

Local Open Scope Z_scope.

Section capture.
Context {OffsetDateTime World Kernel : Type} `{Host OffsetDateTime World} `{Sha256} `{Decompressors} `{Machine Kernel}.
Abbreviation EventProcessor := (EventProcessor OffsetDateTime).
Abbreviation PendingRequest := (PendingRequest OffsetDateTime).
Context (iteration : gmap (Z * Z * Z) PendingRequest -> list ((Z * Z * Z) * PendingRequest)).
Context (arch : Arch) (config : rodata) `{!TypedMachine (World := Kernel)} (config_typed : is_u32 (capture_bytes config)).
Abbreviation process := (process (World := World) iteration).

(** Whatever a method returns *)
Lemma mwp_any {S W A} (m : State (S * W) A) s : mwp m s (fun _ _ => True).
Proof. done. Qed.
Ltac any := apply mwp_bind; eapply mwp_mono; [apply mwp_any|]; intros ? ? _.

(** One event of a handler that ends in one *)
Lemma measurement_one captured p :
  is_measurement (raw captured) -> mwp (process captured) p (fun result _ => exists event, result = Ok [event]).
Proof.
  intros [Hin _]. unfold Observer.process.
  assert (Forall (fun '(t, op) => raw_event_type (raw captured) = t -> raw_operation (raw captured) = op ->
    mwp (process captured) p (fun result _ => exists event, result = Ok [event])) measured) as Hall; cycle 1.
  { rewrite Forall_forall in Hall. by apply (Hall _ Hin). }
  unfold measured. repeat constructor; intros Ht Ho; unfold Observer.process; cbv zeta; rewrite Ht; cbn -[mbind];
    apply mwp_bind; unfold process_latency, process_connection, process_profile, process_lifecycle, connection_operation,
      latency_operation; cbv zeta; rewrite ?Ho; cbn -[mbind].
  all: repeat any; apply mwp_ret, mwp_ret; by eexists.
Qed.

(** C9: No record of the eBPF programs is lost between the kernel and the processor
    for what it says: whatever the probes were called with, the callback of the ring
    buffer reads every submitted record, counts none as malformed, and hands it to a
    channel that has room; and the processor, in any state, makes exactly one event of
    every record that is not a chunk of data: each operation that the programs report
    is one it knows. *)
Theorem measurements_reported l w stacks m p :
  typed_run l ->
  Forall (fun bs => exists captured,
      on_ring_record stacks Free bs m = (Some captured, 0, count_ring 1 0 0 m) /\
      (is_chunk config (raw captured) \/
       mwp (process captured) p (fun result _ => exists event, result = Ok [event])))
    (ring (fst (snd (run (World := Kernel) arch config l (no_maps, w))))).
Proof.
  intros Hl. eapply Forall_impl; [apply (records_kept arch config config_typed l w Hl)|].
  intros bs (e & -> & T & _ & Hk). unfold on_ring_record. rewrite (from_ring_bytes_spec _ T).
  eexists. split; [reflexivity|]. cbn [raw]. destruct Hk; [by left|right]. by apply measurement_one.
Qed.
End capture.
