(* ===== verification/Conversation.v ===== *)
(** From two calls of a server to one activity: what the processor of
    crates/observer/src/lib.rs makes of the records in which the programs of
    src/bpf/observer.bpf.c sent a request and its response. *)
From Stdlib Require Import ZArith Lia ZifyBool Strings.Byte Strings.String.
From stdpp Require Import base list gmap fin_maps.
From S2P Require Import Prelude Text Bson BsonJson Summary Wire Stream Schema Methods Proc Kernel Observer.
From S2P Require Import ObserverSpec ObserverLife Session Ebpf EbpfCalls.

Local Open Scope Z_scope.

Section conversation.
Context {OffsetDateTime World : Type} `{Host OffsetDateTime World} `{Sha256} `{Decompressors}.
Abbreviation EventProcessor := (EventProcessor OffsetDateTime).
Abbreviation PendingRequest := (PendingRequest OffsetDateTime).
Abbreviation DamEvent := (DamEvent OffsetDateTime).
Abbreviation Method := (@Method OffsetDateTime World).
Context (iteration : gmap (Z * Z * Z) PendingRequest -> list ((Z * Z * Z) * PendingRequest)).
Context (iteration_permutes : forall m, iteration m ≡ₚ map_to_list m).
Context (config : ProcessorConfig).
Abbreviation limit := (cfg_max_message_bytes config).

(** The streams are the business of the chunks alone. *)
Definition same_streams_as (p p' : EventProcessor) : Prop := streams p' = streams p.
#[export] Instance same_streams_refl : Reflexive same_streams_as.
Proof. done. Qed.
#[export] Instance same_streams_trans : Transitive same_streams_as.
Proof. unfold same_streams_as. by intros ? ? ? -> ->. Qed.

Lemma message_keeps_streams raw truncated message :
  within same_streams_as (process_message (World := World) iteration raw truncated message).
Proof.
  unfold process_message, process_request, process_response, events_for_completed_request, take_hashed_principal,
    connection_entry, seed, connection_metadata, prune_pending_requests, event_from_seed, socket_endpoints.
  cbv zeta. repeat within_step; try done.
Qed.

(** ** A frame in one chunk *)

(** Of the frame before, the decoder of the stream [key] has nothing left. *)
Definition between_frames (key : Z * Z * Z) (p : EventProcessor) : Prop :=
  buffer (default (new (decoder_config config)) (streams p !! key)) = [].

Lemma push_frame d f m :
  Stream.config d = decoder_config config -> buffer d = [] -> len f <= MAX_CAPTURE_BYTES -> decode_frame f limit = Ok m ->
  push_bounded_prefix d f MAX_CAPTURE_BYTES = (with_buffer [] d, Ok [m]).
Proof.
  intros Hd Hb Hf Hm. unfold MAX_CAPTURE_BYTES in *.
  assert (len f <= isize_max) as Hi by lia.
  assert (max_message_bytes (Stream.config d) = limit) as Hl by (by rewrite Hd).
  pose proof (decode_frame_Ok _ _ _ Hi Hm) as (Hlen & _ & Hhead).
  unfold push_bounded_prefix. rewrite Hd. cbn [max_buffer_bytes decoder_config]. unfold MAX_CAPTURE_BYTES.
  replace (_ || _) with false by done. rewrite next_frame_length_eq; rewrite ?Hb; [|by vm_compute|done].
  change (len []) with 0. cbn [app]. cbv zeta. rewrite Hhead, Hl.
  replace (0 + len f <? 4) with false by lia. replace (len f <? 16) with false by lia. replace (limit <? len f) with false by lia.
  replace (len f <=? 1024) with true by lia. cbn [orb].
  rewrite push_drain; rewrite ?Hd, ?Hb; [|change (len []) with 0; cbn; unfold MAX_CAPTURE_BYTES; lia|done].
  pose proof (drain_frames d [f] [m] []) as Hdrain. cbn [concat app] in Hdrain. rewrite !app_nil_r in Hdrain.
  apply Hdrain; [by repeat constructor|repeat constructor; by rewrite Hl|done].
Qed.

(** The processor handles the chunk of a whole frame as the frame's message. *)
Definition after_frame (key : Z * Z * Z) (p : EventProcessor) : EventProcessor :=
  set_streams (<[key := new (decoder_config config)]> (streams p)) p.
Definition as_read (e : KernelEvent) (users kernels : list Z) : CapturedKernelEvent :=
  {| raw := e; user_stack_addresses := users; kernel_stack_addresses := kernels |}.

Lemma frame_decoded task fd direction source key f m e p :
  sound config p -> between_frames (tgid_of task, key, direction) p ->
  decode_frame f limit = Ok m -> len f <= MAX_CAPTURE_BYTES ->
  chunk task fd direction source key EVENT_IO_CHUNK (len f) (len f) f e ->
  mwp (decode_io_chunk (World := World) e (len f)) p
    (fun decoded p' => decoded = Ok [m] /\ p' = after_frame (tgid_of task, key, direction) p).
Proof.
  intros Hp Hbetween Hm Hf [Ct Cd Cs Ck Cf Cp Cg Cb Cc Cdata].
  assert (slice (E := DecodeError) (raw_data e) 0 (len f) = Ok f) as Hslice.
  { unfold slice. rewrite get_range_in; [by rewrite Z.sub_0_r, drop_0, Cdata|split; [done|apply len_nonneg]|].
    rewrite <- Cdata at 1. unfold len. rewrite length_take. lia. }
  pose proof (stream_default config p (tgid_of task, key, direction) Hp) as (Hd & _).
  unfold decode_io_chunk. apply mwp_bind, mwp_this. rewrite (so_config config p Hp). fold (decoder_config config).
  cbv zeta. rewrite Cc, Cb, Cg, Ck, Cd, Z.ltb_irrefl, Hslice, (push_frame _ f m Hd Hbetween Hf Hm).
  repeat mwp_step. split; [done|]. unfold after_frame, with_buffer. by rewrite Hd.
Qed.

Lemma frame_processed task fd direction source key f m users kernels e p :
  sound config p -> between_frames (tgid_of task, key, direction) p ->
  decode_frame f limit = Ok m -> len f <= MAX_CAPTURE_BYTES ->
  chunk task fd direction source key EVENT_IO_CHUNK (len f) (len f) f e ->
  mwp (process (World := World) iteration (as_read e users kernels)) p (fun result p' => exists es w w',
    process_message iteration e false m (after_frame (tgid_of task, key, direction) p, w) = (es, (p', w')) /\ result = Ok es).
Proof.
  intros Hp Hbetween Hm Hf Hc. pose proof Hc as [Ct _ _ _ _ _ _ Cb Cc _].
  assert (len f <= isize_max) as Hi by (unfold MAX_CAPTURE_BYTES in *; lia).
  pose proof (decode_frame_Ok _ _ _ Hi Hm) as (Hlen & _).
  unfold process. cbv zeta. cbn [raw as_read]. rewrite Ct, Z.eqb_refl. unfold process_io_chunk. cbv zeta.
  cbn [raw as_read]. rewrite Cc, Cb, Z.min_l, Z.ltb_irrefl by done. replace (len f =? 0) with false by lia.
  apply mwp_bind. eapply mwp_mono; [by apply (frame_decoded task fd direction source key f m)|].
  intros decoded p1 [-> ->]. cbn [process_messages]. do 2 apply mwp_bind.
  intros w. destruct (process_message iteration e false m _) as [es [p2 w2]] eqn:Hpm. cbn [fst snd].
  repeat mwp_step. do 3 eexists. split; [exact Hpm|]. by rewrite app_nil_r.
Qed.

Lemma sound_after_frame key p : sound config p -> sound config (after_frame key p).
Proof.
  intros Hp. apply sound_set_streams; [done|]. apply map_Forall_insert_2; [|apply Hp].
  apply reachable_bounded; [done..|apply reachable_new].
Qed.

Lemma between_after key key' p p' :
  streams p' = streams (after_frame key p) -> key <> key' -> between_frames key' p -> between_frames key' p'.
Proof. intros Hs Hk. unfold between_frames. rewrite Hs. cbn. by rewrite lookup_insert_ne. Qed.

End conversation.
