(* ===== verification/CaptureSample.v ===== *)
(** The server of [EbpfSample] watched by the processor of [ObserverSample], and a
    server that reads a request and writes the response. *)
From Stdlib Require Import ZArith Lia ZifyBool Strings.Byte Strings.String.
From stdpp Require Import base list gmap fin_maps.
From S2P Require Import Prelude Text Json Summary Wire Stream Encode Schema Methods Proc Kernel Observer ObserverSpec ObserverLife ObserverSample.
From S2P Require Import Session Agent Ebpf EbpfSpec EbpfCalls EbpfVectors EbpfSample Capture Conversation.

Local Open Scope Z_scope.

Abbreviation watched := EbpfSample.sample_run.
Abbreviation watching := (new_processor sample_config : EventProcessor unit).

Lemma measurements_reported_witness :
  Forall (fun bs => exists captured,
      on_ring_record (fun _ => None) Free bs no_metrics = (Some captured, 0, count_ring 1 0 0 no_metrics) /\
      (is_chunk initial_rodata (raw captured) \/
       mwp (sample_process captured) watching (fun result _ => exists event, result = Ok [event])))
    (ring (fst (snd (Ebpf.run x86 initial_rodata watched (no_maps, 0))))).
Proof.
  exact (measurements_reported (fun m => map_to_list m) x86 initial_rodata initial_typed watched 0 (fun _ => None)
    no_metrics watching EbpfSample.sample_run_typed).
Defined.

(** * A conversation *)

(** The frames in the memory of the server, the request at 4096 and the response at
    8192 *)
Definition frames_memory (address : Z) : byte :=
  if address <? 8192 then byte_in find_frame (address - 4096) else byte_in (ok_reply_frame 9 8) (address - 8192).
Definition frames_machine : Machine Z := {|
  ktime_get_ns := fun now => (now mod 18446744073709551616, now + 1000);
  ringbuf_reserve := fun now => (Some (replicate 1120 x00), now);
  probe_read_user := fun address n now => (if n <? 0 then None else Some (bytes_at frames_memory address n), now);
  get_stackid := fun _ now => (7, now)
|}.
Definition exchange : list (Task * Probe) :=
  [(worker, sys_enter 0 7 4096 512); (worker, tcp_message false EbpfSample.connection); (second, sys_enter 74 3 0 0);
   (worker, sys_exit 0 (len find_frame)); (second, sys_exit 74 0);
   (worker, sys_enter 1 7 8192 512); (worker, tcp_message true EbpfSample.connection);
   (worker, sys_exit 1 (len (ok_reply_frame 9 8)))].
Definition exchanged : Maps := fst (snd (Ebpf.run (H := frames_machine) x86 initial_rodata (start_up ++ exchange) (no_maps, 0))).
Definition seen : list KernelEvent := omap from_ring_bytes (ring exchanged).

(** What is reported of the conversation: command, collection and outcome *)
Definition told (r : res string (list (DamEvent unit))) : option (list (string * option string * option bool)) :=
  match r with
  | Ok es => Some (omap (fun e => match payload e with
                                  | PMongodbActivity a => Some (activity_command a, activity_collection a, activity_succeeded a)
                                  | _ => None
                                  end) es)
  | _ => None
  end.
Example exchange_reported :
  told <$> fst (ObserverSample.run ((fun e => as_read e [] []) <$> seen) (watching, quiet)) =
  [Some []; Some []; Some []; Some []; Some []; Some [("find", Some "orders", Some true)]]%string.
Proof. vm_compute. reflexivity. Qed.

(** The states of the processor: before the request, after it, after a record of
    another thread, and after the response *)
Definition event (i : nat) : KernelEvent := nth i seen (raw (io_event 0 0 0 [])).
Abbreviation record i := (as_read (event i) [] []).
Definition before : state := snd (ObserverSample.run ((fun i => record i) <$> seq 0 3) (watching, quiet)).
Abbreviation asked := (snd (sample_process (record 3) before)).
Abbreviation waiting := (snd (sample_process (record 4) asked)).
Definition the_key : Z := raw_connection_key (event 3).
Definition message_of (f : bytes) : DecodedMessage :=
  match decode_frame f 1048576 with
  | Ok m => m
  | _ => {| request_id := 0; response_to := 0; wire_bytes := 0; flags := 0; more_to_come := false; compressed := false;
            command := None; status := None |}
  end.

Lemma record_typed i : (i < 3)%nat \/ i = 4%nat -> well_typed (event i).
Proof.
  intros Hi. assert (i = 0 \/ i = 1 \/ i = 2 \/ i = 4)%nat as Hcases by lia. clear Hi.
  destruct Hcases as [-> | [-> | [-> | ->]]]; split; vm_compute; (done || by split).
Qed.
Lemma before_history : exists rs, sample_history rs (fst before).
Proof.
  eexists. apply (run_history_new ((fun i => record i) <$> seq 0 3) quiet). apply Forall_fmap, Forall_forall.
  intros i Hi. apply record_typed. apply elem_of_seq in Hi. lia.
Qed.
Lemma request_record :
  chunk worker 7 DIRECTION_INBOUND SOURCE_SYSCALL the_key EVENT_IO_CHUNK (len find_frame) (len find_frame) find_frame (event 3).
Proof. split; vm_compute; reflexivity. Qed.
Lemma response_record :
  let f := ok_reply_frame 9 8 in
  chunk worker 7 DIRECTION_OUTBOUND SOURCE_SYSCALL the_key EVENT_IO_CHUNK (len f) (len f) f (event 5).
Proof. split; vm_compute; reflexivity. Qed.
Lemma step_eq c (s : state) :
  sample_process c (fst s, snd s) =
    (fst (sample_process c s), (fst (snd (sample_process c s)), snd (snd (sample_process c s)))).
Proof. destruct s as [p w]. cbn [fst snd]. by destruct (sample_process c (p, w)) as [r [p' w']]. Qed.
Lemma others_pass : passes (World := machine) (fun m => map_to_list m) (tgid_of worker, the_key) (fst asked) (fst waiting).
Proof.
  refine (passes_event _ _ _ _ (snd asked) (record 4) _ _ (snd waiting) (passes_none _ _ _) _ _ _ _).
  - by vm_compute.
  - apply record_typed. lia.
  - split; [vm_compute; congruence|vm_compute; congruence].
  - exact (step_eq (record 4) asked).
Qed.

#[local] Strategy opaque [event].
