(* ===== verification/AgentSpec.v ===== *)
(** What the sensor's agent guarantees: the batcher loses no event silently,
    Outpost refuses none of its batches, and the exporter stops for good at a
    batch it cannot read back. *)
From Stdlib Require Import ZArith Lia ZifyBool Strings.Byte Strings.Ascii Strings.String.
From stdpp Require Import base list strings gmap.
From S2P Require Import Prelude Text Float64 Json Bson Wire Schema Proc Kernel Observer ObserverSpec ObserverLife.
From S2P Require Import Spool SpoolSpec SpoolLife Trace Accounted Interleave Blocked Enrich Destination Outpost OutpostSpec Agent.

Local Open Scope string_scope.
Local Open Scope list_scope.
Local Open Scope Z_scope.

(** * The batcher *)
Section batcher.
Context {OffsetDateTime : Type} `{Sha256}.
Abbreviation DamEvent := (DamEvent OffsetDateTime).
Context (nanos : OffsetDateTime -> bytes) (to_vec : DamBatch OffsetDateTime -> string + bytes).
Context (a : Assignment) (max_bytes max_events : Z) (emit_sensor_health faulty : bool).

Abbreviation Batcher := (Batcher (OffsetDateTime := OffsetDateTime)).
Abbreviation Wake := (Wake (OffsetDateTime := OffsetDateTime)).
Abbreviation flush_batch := (flush_batch nanos to_vec max_bytes a).
Abbreviation flush_if b := (flush_if nanos to_vec b max_bytes a).
Abbreviation batcher_turn := (batcher_turn nanos to_vec max_bytes a max_events emit_sensor_health).
Abbreviation run_batcher := (run_batcher nanos to_vec max_bytes a max_events emit_sensor_health).

Lemma slen_spool_digest bs : slen (spool_digest bs) = 64.
Proof.
  unfold spool_digest. rewrite <- len_bytes_of. unfold encode_hex. rewrite bytes_of_string_of.
  pose proof (len_sha256 bs) as Hl. revert Hl. generalize (sha256 bs). intros l.
  assert (len (concat ((fun byte => [hex_digit (Z.shiftr (u8 byte) 4); hex_digit (Z.land (u8 byte) 0x0f)]) <$> l))
    = 2 * len l) as ->; [|lia].
  induction l as [|x l IH]; [done|]. cbn [fmap list_fmap concat]. rewrite len_app, IH. unfold len. simpl. lia.
Qed.

(** ** The events that reach the buffer *)
Definition due (last instant : Z) : bool := emit_sensor_health && (HEALTH_INTERVAL_NS <=? saturating_sub instant last).

(** [arrivals last wakes es]: in a run over [wakes], the last health event having
    been at [last], [es] are put in the buffer: what was received, and a health
    event of this sensor at the ticks where one was due. *)
Inductive arrivals : Z -> list Wake -> list DamEvent -> Prop :=
| arrivals_nil last : arrivals last [] []
| arrivals_received last event now wakes es :
    arrivals last wakes es -> arrivals last (Received event now :: wakes) (event :: es)
| arrivals_hangup last now wakes : arrivals last (Hangup now :: wakes) []
| arrivals_tick last instant health_now now wakes es :
    due last instant = false -> arrivals last wakes es ->
    arrivals last (Ticked instant health_now now :: wakes) es
| arrivals_health last instant health_now now wakes es m n :
    due last instant = true -> arrivals instant wakes es ->
    arrivals last (Ticked instant health_now now :: wakes) (health_event nanos a m health_now n :: es).

(** ** The flushes *)

(** The events of a flush, and whether it reached the spool *)
Definition flush_record : Type := list DamEvent * bool.

Definition tally (flushes : list flush_record) (m : RuntimeMetrics) : RuntimeMetrics :=
  fold_left (fun m (f : flush_record) => if f.2 then count_events 0 0 1 0 m else count_events 0 0 0 (len f.1) m) flushes m.

(** The batch of the events is on disk. *)
Definition spooled (es : list DamEvent) (w : world) : Prop :=
  exists now body, to_vec (batch_of nanos a es now) = inr body /\ stored (spool_digest body) (visible w).
Definition flush_ok (w : world) (f : flush_record) : Prop :=
  1 <= len f.1 <= max_events /\ (f.2 = true -> spooled f.1 w).

(** A run took the buffer from [s] to [s'] by these flushes. *)
Record batched (arrived : list DamEvent) (s : Batcher) (m : RuntimeMetrics) (w' : world) (s' : Batcher)
    (m' : RuntimeMetrics) (flushes : list flush_record) : Prop := {
  bt_events : buffered s ++ arrived = concat (flushes.*1) ++ buffered s';
  bt_flushes : Forall (flush_ok w') flushes;
  bt_counts : m' = tally flushes m
}.

Lemma batched_trans arrived1 arrived2 s1 s2 s3 m1 m2 m3 w2 w3 flushes1 flushes2 :
  batched arrived1 s1 m1 w2 s2 m2 flushes1 -> batched arrived2 s2 m2 w3 s3 m3 flushes2 ->
  (forall es, spooled es w2 -> spooled es w3) ->
  batched (arrived1 ++ arrived2) s1 m1 w3 s3 m3 (flushes1 ++ flushes2).
Proof.
  intros [E1 F1 ->] [E2 F2 ->] Hw. split.
  - rewrite fmap_app, concat_app, (app_assoc (buffered s1)), E1, <- !app_assoc, E2. done.
  - apply Forall_app. split; [|done]. eapply Forall_impl; [exact F1|]. intros f [Hl Hs]. split; [done|]. auto.
  - unfold tally. by rewrite fold_left_app.
Qed.

Lemma cwp_flush_batch es now m w :
  es <> [] ->
  cwp faulty (fun w' r => r.1 = tally [(es, r.2)] m /\ (r.2 = true -> spooled es w')) (fun _ => True)
    (flush_batch es now m) w.
Proof.
  intros He. unfold Agent.flush_batch. destruct es as [|e es]; [done|].
  destruct (to_vec _) as [error|body] eqn:Hv; [by apply cwp_ret|].
  apply cwp_bind. eapply cwp_mono; [apply cwp_enqueue_visible| |done]. intros w' r Hr.
  destruct r as [error|i]; (apply cwp_ret; [done|]); [done|]. split; [done|]. intros _.
  destruct (Hr i eq_refl) as [-> Hst]. by exists now, body.
Qed.

(** What the flushes of one turn did: there was none, or one run of
    [flush_batch]. *)
Definition flushed (now : OffsetDateTime) (w w' : world) (flushes : list flush_record) : Prop :=
  flushes = [] /\ w' = w \/
  exists es ok m m', es <> [] /\ flushes = [(es, ok)] /\ exec faulty (flush_batch es now m) w (Done w' (m', ok)).

(** Nothing the batcher does takes an item off the disk. *)
Lemma harmless_directory_stats i d : uses (harmless i) (directory_stats d).
Proof. by apply uses_stats_any. Qed.

Lemma harmless_flush_batch i es now m : slen i = 64 -> uses (harmless i) (flush_batch es now m).
Proof.
  intros Hi. unfold Agent.flush_batch. destruct es as [|e es]; [done|]. destruct (to_vec _); [done|].
  apply uses_bind; [by apply harmless_enqueue|]. by intros [].
Qed.

Lemma harmless_flush_if i b s now m : slen i = 64 -> uses (harmless i) (flush_if b s now m).
Proof.
  intros Hi. unfold Agent.flush_if. destruct b; [|done]. apply uses_bind; [by apply harmless_flush_batch|]. by intros [].
Qed.

Lemma harmless_batcher_turn i wake s m : slen i = 64 -> uses (harmless i) (batcher_turn wake s m).
Proof.
  intros Hi. destruct wake as [event now|now|instant hnow now]; cbn [Agent.batcher_turn]; cbv zeta.
  - apply uses_bind; [by apply harmless_flush_if|]. by intros [].
  - apply uses_bind; [by apply harmless_flush_if|]. by intros [].
  - apply uses_bind.
    + destruct (_ && _); [|done]. apply uses_bind; [|done]. apply uses_bind; [apply harmless_directory_stats|done].
    + intros s'. apply uses_bind; [by apply harmless_flush_if|]. by intros [].
Qed.

Lemma harmless_run_batcher i wakes s m : slen i = 64 -> uses (harmless i) (run_batcher wakes s m).
Proof.
  intros Hi. revert s m. induction wakes as [|wake wakes IH]; intros s m; [done|].
  cbn [Agent.run_batcher]. apply uses_bind; [by apply harmless_batcher_turn|]. intros [[s' m'] []]; [apply IH|done].
Qed.

(** ** The accounting *)
Lemma batched_refl s m w : batched [] s m w s m [].
Proof. split; [by rewrite app_nil_r|done|done]. Qed.

(** What was put in the buffer counts as arrived. *)
Lemma batched_push arrived s s1 s' m w' m' flushes :
  buffered s1 = buffered s ++ arrived -> batched [] s1 m w' s' m' flushes -> batched arrived s m w' s' m' flushes.
Proof. intros Hb [E F C]. split; [|done|done]. by rewrite <- E, Hb, app_nil_r. Qed.

Lemma cwp_flush_if (b : bool) s now m w :
  len (buffered s) <= max_events ->
  cwp faulty (fun w' (r : Batcher * RuntimeMetrics) =>
      (exists flushes, batched [] s m w' r.1 r.2 flushes /\ flushed now w w' flushes) /\
      last_health r.1 = last_health s /\ buffered r.1 = if b then [] else buffered s)
    (fun _ => True) (flush_if b s now m) w.
Proof.
  intros Hl. destruct b.
  2:{ apply cwp_ret; [done|]. split_and!; [exists []; split; [apply batched_refl|by left]|done|done]. }
  unfold Agent.flush_if. apply cwp_bind. destruct (decide (buffered s = [])) as [Hs|Hs].
  - rewrite Hs. apply cwp_ret; [done|]. apply cwp_ret; [done|]. split_and!; [exists []; split; [|by left]|done|done].
    split; [by rewrite Hs|done|done].
  - eapply cwp_mono; [by apply cwp_self, cwp_flush_batch| |done]. intros w' [m' sp] [[Hm Hsp] Ho].
    apply cwp_ret; [done|]. split_and!; [exists [(buffered s, sp)]; split|done|done].
    + split; [by simpl; rewrite !app_nil_r| |done].
      apply Forall_singleton. split; [|done]. cbn [fst]. destruct (buffered s); [done|]. rewrite len_cons in *.
      pose proof (len_nonneg l). lia.
    + right. by exists (buffered s), sp, m, m'.
Qed.

(** The wake-ups that leave the buffer empty *)
Definition settling (wake : Wake) : bool := match wake with Received _ _ => false | _ => true end.

(** The time of the flush of a turn *)
Definition flush_time (wake : Wake) : OffsetDateTime :=
  match wake with Received _ now | Hangup now | Ticked _ _ now => now end.

(** One turn *)
Definition turned (wake : Wake) (s : Batcher) (m : RuntimeMetrics) (w w' : world) (s' : Batcher) (m' : RuntimeMetrics)
    (more : bool) : Prop :=
  exists arrived flushes, batched arrived s m w' s' m' flushes /\ flushed (flush_time wake) w w' flushes /\
    len (buffered s') < max_events /\
    (settling wake = true -> buffered s' = []) /\ (settling wake = false -> more = true) /\
    forall wakes es, (more = false -> es = []) -> (more = true -> arrivals (last_health s') wakes es) ->
      arrivals (last_health s) (wake :: wakes) (arrived ++ es).

Lemma cwp_batcher_turn wake s m w :
  0 < max_events -> len (buffered s) < max_events ->
  cwp faulty (fun w' (r : Batcher * RuntimeMetrics * bool) => turned wake s m w w' r.1.1 r.1.2 r.2) (fun _ => True) (batcher_turn wake s m) w.
Proof.
  intros H0 Hl. destruct wake as [event now|now|instant hnow now]; cbn [Agent.batcher_turn]; cbv zeta.
  - apply cwp_bind. eapply cwp_mono; [apply cwp_flush_if| |done].
    + simpl. rewrite len_app. unfold len at 2. simpl. lia.
    + intros w' [s' m'] ((flushes & Hb & Hf) & Hh & Hs'). apply cwp_ret; [done|].
      exists [event], flushes. split; [eapply batched_push; [|exact Hb]; done|]. simpl in *. split; [done|]. split; [|split; [done|split; [done|]]].
      * rewrite Hs'. destruct (_ <=? _) eqn:Hle; [done|]. lia.
      * intros wakes es _ Ha. rewrite <- Hh in *. constructor. by apply Ha.
  - apply cwp_bind. eapply cwp_mono; [apply cwp_flush_if; lia| |done].
    intros w' [s' m'] ((flushes & Hb & Hf) & Hh & Hs'). apply cwp_ret; [done|]. simpl in *.
    exists [], flushes. rewrite Hs'. split_and!; [done|done|done|done|done|].
    intros wakes es He _. rewrite He by done. constructor.
  - fold (due (last_health s) instant). set (b := due (last_health s) instant).
    assert (forall s1 arrived, buffered s1 = buffered s ++ arrived -> len arrived <= 1 ->
      (forall wakes es, arrivals (last_health s1) wakes es ->
         arrivals (last_health s) (Ticked instant hnow now :: wakes) (arrived ++ es)) ->
      cwp faulty (fun w' (r : Batcher * RuntimeMetrics * bool) => turned (Ticked instant hnow now) s m w w' r.1.1 r.1.2 r.2) (fun _ => True)
        (bind_prog (flush_if ((max_events <=? len (buffered s1)) || negb match buffered s1 with [] => true | _ => false end)
           s1 now m) (fun '(s, m) => Ret (s, m, true))) w) as Hflush.
    { intros s1 arrived Hs1 Hlen Harr. apply cwp_bind. eapply cwp_mono; [apply cwp_flush_if| |done].
      - rewrite Hs1, len_app. lia.
      - intros w' [s' m'] ((flushes & Hb & Hf) & Hh & Hs'). apply cwp_ret; [done|]. simpl in *.
        assert (buffered s' = []) as Hnil.
        { rewrite Hs'. destruct (buffered s1); [by destruct (_ || _)|]. by rewrite orb_true_r. }
        exists arrived, flushes. rewrite Hnil. split_and!; [eapply batched_push; [|exact Hb]; done|done|done|done|done|].
        intros wakes es _ Ha. apply Harr. rewrite <- Hh. by apply Ha. }
    apply cwp_bind. destruct b eqn:Hb.
    + apply cwp_bind. apply cwp_bind. eapply cwp_mono; [apply cwp_directory_stats| |done]. intros w1 r [-> _].
      apply cwp_ret; [done|]. apply cwp_ret; [done|].
      eapply Hflush; [done|done|]. intros wakes es Ha. simpl. by constructor.
    + apply cwp_ret; [done|]. apply (Hflush s []); [by rewrite app_nil_r|done|]. intros wakes es Ha. by constructor.
Qed.

(** The whole run *)
Lemma cwp_run_batcher wakes s m w :
  0 < max_events -> len (buffered s) < max_events ->
  cwp faulty (fun w' (r : Batcher * RuntimeMetrics) => exists arrived flushes,
      arrivals (last_health s) wakes arrived /\ batched arrived s m w' r.1 r.2 flushes /\
      (forall wake, last wakes = Some wake -> settling wake = true -> buffered r.1 = []))
    (fun _ => True) (run_batcher wakes s m) w.
Proof.
  intros H0. revert s m w. induction wakes as [|wake wakes IH]; intros s m w Hl.
  - apply cwp_ret; [done|]. exists [], []. split_and!; [constructor|apply batched_refl|done].
  - cbn [Agent.run_batcher]. apply cwp_bind. eapply cwp_mono; [by apply cwp_batcher_turn| |done].
    intros w1 [[s1 m1] more] (arrived & flushes & Hb & _ & Hl1 & Hset & Hmore & Harr). cbn [fst snd] in *. destruct more.
    + intros o Ho. pose proof (IH s1 m1 w1 Hl1 o Ho) as Hr. destruct o as [w2 [s2 m2]|w2]; [|done].
      destruct Hr as (arrived2 & flushes2 & Ha2 & Hb2 & Hset2). cbn [fst snd] in *.
      exists (arrived ++ arrived2), (flushes ++ flushes2). split_and!.
      * by apply Harr.
      * eapply batched_trans; [done|done|]. intros es (now & body & Hv & Hst). exists now, body. split; [done|].
        apply (exec_harmless_visible faulty _ (run_batcher wakes s1 m1) w1 _
          (harmless_run_batcher _ wakes s1 m1 (slen_spool_digest body)) Hst Ho).
      * intros wk Hwk Hsk. destruct wakes as [|wake2 wakes]; [|by eapply Hset2].
        injection Hwk as ->. destruct Ho as [[=]|[= -> -> ->]]. by apply Hset.
    + apply cwp_ret; [done|]. exists arrived, flushes. split_and!; [|done|].
      * rewrite <- (app_nil_r arrived). by apply Harr.
      * intros wk Hwk Hsk. apply Hset. destruct (settling wake) eqn:Hw; [done|]. by specialize (Hmore eq_refl).
Qed.

(** No event is lost silently.  Whatever is received, ticks or fails on disk,
    the events that reached the buffer (those received, in order, and the health
    events where one was due) are exactly the events of the flushes followed by
    those still in the buffer; no flush has more than [max_events] events; each
    flush is either on disk, whole, under the digest of its batch and counted as
    spooled, or counted as dropped with its number of events; and after a tick or
    at the end the buffer is empty. *)
Theorem batcher_accounts wakes s m w w' s' m' :
  0 < max_events -> len (buffered s) < max_events ->
  exec faulty (run_batcher wakes s m) w (Done w' (s', m')) ->
  exists arrived (flushes : list flush_record),
    arrivals (last_health s) wakes arrived /\ buffered s ++ arrived = concat (flushes.*1) ++ buffered s' /\
    Forall (flush_ok w') flushes /\ m' = tally flushes m /\
    (forall wake, last wakes = Some wake -> settling wake = true -> buffered s' = []).
Proof.
  intros H0 Hl Ho. destruct (cwp_run_batcher wakes s m w H0 Hl _ Ho) as (arrived & flushes & Ha & [] & Hs).
  by exists arrived, flushes.
Qed.
End batcher.

(** * The command line *)
Lemma validate_cli_visible cli :
  validate_cli cli = Ok tt ->
  (visible_text (cli_customer_id cli) /\ visible_text (cli_tenant_id cli) /\ visible_text (cli_source_id cli) /\
   visible_text (cli_regional_cell_id cli)) /\ visible_text (cli_node_name cli).
Proof.
  unfold validate_cli. destruct (check_names _) as [[]|e|f] eqn:Hc; [|done..]. intros _.
  apply check_names_spec in Hc. cbn [fmap list_fmap snd] in Hc. rewrite !Forall_cons in Hc. tauto.
Qed.

Lemma chars_append p s :
  forallb (fun b => u8 b <? 128) (bytes_of p) = true -> visible_text s -> visible_text (String.append p s).
Proof.
  intros Hp (c & Hc & Hw). exists c. split; [|done]. unfold chars in *. rewrite bytes_of_app.
  destruct (utf8_decode (bytes_of s)) as [cs|] eqn:Hs; [|done]. simpl in Hc.
  assert (utf8_decode (bytes_of p ++ bytes_of s) = Some ((u8 <$> bytes_of p) ++ cs)) as ->.
  { revert Hp. generalize (bytes_of p). intros l. induction l as [|x l IH]; [done|]. cbn [forallb].
    intros [Hx Hl]%andb_prop. cbn [app utf8_decode]. by rewrite Hx, IH. }
  simpl. apply in_app_iff. by right.
Qed.

Lemma sensor_id_visible cli :
  validate_cli cli = Ok tt -> (forall id, cli_sensor_id cli = Some id -> visible_text id) ->
  visible_text (sensor_id_of cli).
Proof.
  intros [_ Hnode]%validate_cli_visible Hid. unfold sensor_id_of. destruct (cli_sensor_id cli) as [id|]; [by apply Hid|].
  by apply chars_append.
Qed.

(** * Admission *)
Section admission.
Context {OffsetDateTime World : Type} `{Host OffsetDateTime World} `{Sha256} `{Decompressors}.
Abbreviation DamEvent := (DamEvent OffsetDateTime).
Abbreviation DamBatch := (DamBatch OffsetDateTime).
Context (iteration : gmap (Z * Z * Z) (PendingRequest OffsetDateTime) -> list ((Z * Z * Z) * PendingRequest OffsetDateTime)).
Context (iteration_permutes : forall m, iteration m ≡ₚ map_to_list m).
Context (nanos : OffsetDateTime -> bytes) (from_slice : bytes -> string + DamBatch) (to_vec : DamBatch -> string + bytes)
  (io_text : IoError -> string).

(** What the batcher of a sensor can hold: events its processor emitted, and
    its own health events *)
Definition sensor_event (rs : list (res string (list DamEvent))) (a : Assignment) (e : DamEvent) : Prop :=
  emitted rs e \/ exists m now n, e = health_event nanos a m now n.

Lemma health_event_valid (a : Assignment) (b : DamBatch) m now n :
  customer_id b = as_customer_id a /\ tenant_id b = as_tenant_id a /\ source_id b = as_source_id a /\
  regional_cell_id b = as_regional_cell_id a ->
  visible_text (as_sensor_id a) /\ visible_text (as_node_name a) ->
  valid_event b (health_event nanos a m now n).
Proof.
  intros (Hc & Ht & Hs & Hr) [Hsensor Hnode]. split; [done| |done|done].
  split_and!; [by apply (hex_id_visible x68 "ealth-")|done..].
Qed.

Lemma sensor_batch_valid cli salt rs p es now :
  validate_cli cli = Ok tt -> (forall id, cli_sensor_id cli = Some id -> visible_text id) ->
  history iteration (processor_config_of cli salt) rs p ->
  es <> [] -> Forall (sensor_event rs (assignment_of cli)) es -> valid_batch (batch_of nanos (assignment_of cli) es now).
Proof using iteration_permutes.
  intros Hcli Hid Hh Hne Hes. destruct (validate_cli_visible cli Hcli) as [(Vc & Vt & Vs & Vr) Hnode].
  pose proof (sensor_id_visible cli Hcli Hid) as Hsensor. split; [done| |done|].
  - split_and!; [by apply (hex_id_visible x62 "atch-")|done..].
  - eapply Forall_impl; [exact Hes|]. intros e [He|(m & now' & n & ->)]; [|by apply health_event_valid].
    by eapply (good_event_valid (processor_config_of cli salt)); [eapply history_good|..].
Qed.

(** C10: Outpost admits its sensors.  When the sensor's command line passes its
    checks and its id, if one is given, is not blank, and Outpost has the same
    customer, tenant, source and cell and the sensor's token, then no batch the
    sensor makes of the events of its processor and of its health events is
    refused: Outpost takes it (202) and has it on disk, or fails to encode (500)
    or to store it (507), and the exporter tries again.  The one thing asked of
    serde is that it reads the batch back.  This is of the handler, so of bodies
    within the router's limit: a larger one never reaches it. *)
Theorem sensor_batches_admitted cli salt rs p es now body faulty w s identities authorization w' s' r :
  validate_cli cli = Ok tt -> (forall id, cli_sensor_id cli = Some id -> visible_text id) ->
  history iteration (processor_config_of cli salt) rs p ->
  es <> [] -> Forall (sensor_event rs (assignment_of cli)) es ->
  from_slice body = inr (batch_of nanos (assignment_of cli) es now) ->
  config_customer_id (config s) = cli_customer_id cli -> config_tenant_id (config s) = cli_tenant_id cli ->
  config_source_id (config s) = cli_source_id cli -> config_regional_cell_id (config s) = cli_regional_cell_id cli ->
  (forall token, internal_token (config s) = Some token -> authorization = Some ("Bearer " ++ token)%string) ->
  exec faulty (accept_batch from_slice to_vec io_text spool_digest s identities authorization body) w (Done w' (s', r)) ->
  status r = 202 /\ disposition 202 = Delivered /\
    (exists encoded, response_body r = AcceptedResponse (batch_id (batch_of nanos (assignment_of cli) es now)) (spool_digest encoded) /\
       stored (spool_digest encoded) (visible w')) \/
  In (status r) [500; 507] /\ disposition (status r) = Retry.
Proof using iteration_permutes.
  intros Hcli Hid Hh Hne Hes Hread Hc Ht Hs Hr Hauth Ho.
  set (b := batch_of nanos (assignment_of cli) es now) in *.
  assert (valid_batch b) as Hvalid by (by eapply sensor_batch_valid).
  assert (admitted_status (status r)) as Hst.
  { eapply (cwp_admitted from_slice to_vec io_text spool_digest faulty w s identities authorization body b); [|done..|exact Ho].
    apply authorized_spec. intros token Htok. exists ("Bearer " ++ token)%string. split; [by apply Hauth|apply strip_prefix_app]. }
  pose proof (cwp_intake _ _ _ _ _ _ _ _ _ _ slen_spool_digest _ Ho) as Hspec. cbn [fst snd] in Hspec.
  destruct Hspec as (_ & [(b' & encoded & Had & -> & Hstored & _)|(_ & _ & Hno)]); [left|right].
  - assert (b' = b) as -> by (destruct Had; congruence). split; [done|]. split; [done|]. by exists encoded.
  - destruct Hst as [Hst|Hst]; [exfalso|split; [done|by destruct Hst as [<-|[<-|[]]]]].
    destruct Hno as [(_ & Hin & _)|[Hin _]]; rewrite Hst in Hin; [|done].
    by repeat destruct Hin as [Hin|Hin].
Qed.
End admission.

(** * The exporter *)
Section exporter.
Context {OffsetDateTime : Type}.
Context (from_slice : bytes -> string + DamBatch OffsetDateTime) (header_value : string -> bool).
Abbreviation deliver_observer_item := (deliver_observer_item from_slice header_value).
Abbreviation deliver_observer_spool := (deliver_observer_spool from_slice header_value).
Abbreviation observer_pass := (observer_pass from_slice header_value).
Abbreviation final_pass := (final_pass from_slice header_value).

(** The request took the item [i] to Outpost, which answered for it. *)
Definition delivered_observer (digest : bytes -> string) (i : string) (r : sent) : Prop :=
  digest (sent_body r) = i /\
  exists batch status, from_slice (sent_body r) = inr batch /\ sent_key r = batch_id batch /\
    answer r = Some status /\ disposition status = Delivered.

Lemma honours_observer_item digest doubtful faulty item tr :
  proper item -> honours faulty digest doubtful (delivered_observer digest) (fun _ _ => True) (deliver_observer_item item) tr.
Proof.
  intros Hp. apply honours_read; [done|]. intros [e|body] Hb; [done|].
  destruct (from_slice body) as [error|batch] eqn:Hfs; [done|].
  unfold send. destruct (negb (header_value (batch_id batch))).
  { eapply (honours_method _ _ _ _ _ (fun t => t = None)); [done|by intros; apply cwp_ret|by intros t ->]. }
  apply honours_request. intros [status|]; [|done]. destruct (disposition status) eqn:Hd; [|done|].
  - apply honours_settle_acknowledge; [done|]. intros Hl Hdt. apply Exists_app. right. constructor.
    split; [by apply Hb|]. by exists batch, status.
  - by apply honours_settle_quarantine.
Qed.

Lemma honours_observer_pass digest doubtful faulty m tr :
  honours faulty digest doubtful (delivered_observer digest) (fun _ _ => True) (observer_pass m) tr.
Proof.
  apply honours_bind. eapply honours_mono; [|by apply honours_deliver_all; intros; apply honours_observer_item].
  by intros [m' r] tr' _.
Qed.
Lemma honours_final_pass digest doubtful faulty m tr :
  honours faulty digest doubtful (delivered_observer digest) (fun _ _ => True) (final_pass m) tr.
Proof.
  apply honours_bind. eapply honours_mono; [|by apply honours_deliver_all; intros; apply honours_observer_item].
  by intros [m' r] tr' _.
Qed.

Lemma twp_observer_frame item w :
  twp false (fun w' _ _ => frame item w w') (fun _ _ => True) (alone (deliver_observer_item item)) w.
Proof.
  apply twp_bind, twp_silent; [apply silent_read|].
  eapply cwp_mono; [apply cwp_read_same| |done]. intros w1 [e|body] [-> _]; [by apply twp_ret|].
  destruct (from_slice body) as [error|batch]; [by apply twp_ret|].
  apply twp_bind. unfold send. destruct (negb (header_value (batch_id batch))); [by apply twp_ret; [|apply twp_ret]|].
  apply twp_do; [done|]. intros w1 t ->. apply twp_ret; [done|]. destruct t as [status|]; [|by apply twp_ret].
  destruct (disposition status); [apply (twp_frame_acknowledge SpoolFailed)|by apply twp_ret
    |apply (twp_frame_quarantine SpoolFailed)].
Qed.

(** A batch the sensor cannot read back stops its export.  When serde refuses
    the content of a spooled batch (its nesting limit is 128, and a captured query
    can be nested deeper), every pass of the exporter, run alone, ends with an
    error there, whatever Outpost answers: that batch is not moved to quarantine, and no batch
    with a greater id leaves the spool, now or later. *)
Theorem unreadable_blocks w m tr w' m' r name x f error :
  entry_item (visible w) name = Some x -> visible w !! (Root, name) = Some f ->
  from_slice (content f) = inl error ->
  exec_trace false (alone (deliver_observer_spool m)) w tr (Done w' (m', r)) ->
  (exists e, r = inl e) /\
  forall name' y, entry_item (visible w) name' = Some y -> String.leb (id x) (id y) = true ->
    visible w' !! (Root, name') = visible w !! (Root, name').
Proof.
  intros Hx Hf Hfs Ho. eapply deliver_all_blocked; [apply twp_observer_frame|exact Hx|exact Hf| |exact Ho].
  intros w0 f0 Hf0 Hc. apply twp_bind, twp_silent; [apply silent_read|].
  apply cwp_do_false; [done|]. cbn [perform]. rewrite Hf0. cbn [fst snd]. apply cwp_ret; [done|].
  rewrite Hc, Hfs. apply twp_ret; eauto.
Qed.
End exporter.

(** * Selection *)
Section selection.
Context (iteration : gset string -> list string) (iteration_permutes : forall names, iteration names ≡ₚ elements names).

(** A list of names selects: all, alone, or the names, each of which is [ok]. *)
Definition selects (ok : string -> Prop) (names : list string) (enabled : option (gset string)) : Prop :=
  names <> [] /\
  (enabled = None /\ Forall (fun name => name = "all") names \/
   enabled = Some (list_to_set names) /\ ~ "all" ∈ names /\ Forall ok names).

Lemma all_or_names_spec (ok : string -> Prop) names empty_error mixed_error check enabled :
  (check = Ok tt <-> Forall ok names) ->
  all_or_names (list_to_set names) empty_error mixed_error check = Ok enabled <-> selects ok names enabled.
Proof.
  intros Hcheck. unfold all_or_names, ensure, selects. destruct (decide (names = [])) as [->|Hne].
  { rewrite (bool_decide_true (list_to_set [] = ∅)) by done. split; [done|]. by intros []. }
  rewrite (bool_decide_false (list_to_set names = ∅)); cbn.
  2: { intros He. destruct names as [|x names]; [done|].
    assert (x ∈ (list_to_set (x :: names) : gset string)) as Hx by (apply elem_of_list_to_set; by left).
    rewrite He in Hx. by apply elem_of_empty in Hx. }
  case_bool_decide as Hall.
  - apply elem_of_list_to_set in Hall. case_bool_decide as Hsize; cbn.
    + assert (Forall (fun name => name = "all") names) as Hf.
      { apply size_1_elem_of in Hsize as [x Hx]. apply Forall_forall. intros y Hy.
        assert (y ∈ (list_to_set names : gset string)) as Hy' by (by apply elem_of_list_to_set).
        assert ("all" ∈ (list_to_set names : gset string)) as Ha by (by apply elem_of_list_to_set).
        rewrite Hx, elem_of_singleton in Hy', Ha. congruence. }
      split; [intros [= <-]; auto|]. intros [_ [[-> _]|(_ & Hno & _)]]; done.
    + split; [done|]. intros [_ [[_ Hf]|(_ & Hno & _)]]; [|done]. exfalso. apply Hsize.
      assert ((list_to_set names : gset string) ≡ {["all"]}) as ->; [|apply size_singleton].
      rewrite Forall_forall in Hf. intros y. rewrite elem_of_list_to_set, elem_of_singleton. split; [apply Hf|by intros ->].
  - assert (~ "all" ∈ names) as Hno by (by rewrite <- (elem_of_list_to_set (C := gset string))).
    assert (~ Forall (fun name => name = "all") names) as Hnf.
    { intros Hf. destruct names as [|x names]; [done|]. apply Forall_cons in Hf as [-> _]. apply Hno. by left. }
    destruct check as [[]|e|f]; cbn; split; try done.
    + intros [= <-]. split; [done|]. right. split; [done|]. split; [done|]. by apply Hcheck.
    + by intros [_ [[_ ?]|[-> _]]].
    + intros [_ [[_ ?]|(_ & _ & Hf)]]; [done|]. by apply Hcheck in Hf.
    + intros [_ [[_ ?]|(_ & _ & Hf)]]; [done|]. by apply Hcheck in Hf.
Qed.

Lemma check_supported_spec l : check_supported l = Ok tt <-> Forall (fun name => name ∈ SUPPORTED_EVENT_TYPES) l.
Proof.
  induction l as [|x l IH]; [done|]. cbn [check_supported]. rewrite Forall_cons, <- IH. unfold ensure.
  assert (one_of x SUPPORTED_EVENT_TYPES = true <-> x ∈ SUPPORTED_EVENT_TYPES) as Hx.
  { unfold one_of. rewrite existsb_exists, list_elem_of_In. setoid_rewrite String.eqb_eq.
    split; [by intros (y & Hy & ->)|eauto]. }
  destruct (one_of x SUPPORTED_EVENT_TYPES); cbn; [tauto|]. split; [done|]. intros [H _]. by apply Hx in H.
Qed.

Lemma Forallb_true (p : string -> bool) l : forallb p l = true <-> Forall (fun name => p name = true) l.
Proof. rewrite forallb_forall, Forall_forall. by setoid_rewrite list_elem_of_In. Qed.

Lemma iteration_Forall (P : string -> Prop) names : Forall P (iteration (list_to_set names)) <-> Forall P names.
Proof using iteration_permutes.
  rewrite iteration_permutes, !Forall_forall. setoid_rewrite elem_of_elements. by setoid_rewrite elem_of_list_to_set.
Qed.

(** The commands a text selects *)
Definition selected_commands (raw : string) : list string := to_ascii_lowercase <$> selected_names raw.

Definition enabled_by (names : list string) (name : string) : Prop := "all" ∈ names \/ name ∈ names.

Lemma selects_enabled ok names enabled name :
  selects ok names enabled -> enabled_name enabled name = true <-> enabled_by names name.
Proof.
  intros [Hne [[-> Hf]|(-> & Hno & _)]]; unfold enabled_name, enabled_by.
  - split; [|done]. intros _. left. destruct names as [|x names]; [done|]. apply Forall_cons in Hf as [-> _]. by left.
  - rewrite bool_decide_eq_true, elem_of_list_to_set. tauto.
Qed.

(** C34: Selection.  The two lists of the command line are accepted exactly when
    each selects something and is [all] alone, or supported event types,
    respectively command names of letters, digits and underscores; and then the
    processor's task passes on exactly the events whose type is selected and, if
    they report a command, whose command is selected, whatever its case. *)
Theorem selection_exact {OffsetDateTime} raw_types raw_commands (events : list (DamEvent OffsetDateTime)) m :
  (forall types, parse_enabled_event_types iteration raw_types = Ok types <->
     selects (fun name => name ∈ SUPPORTED_EVENT_TYPES) (selected_names raw_types) types) /\
  (forall commands, parse_enabled_mongodb_commands iteration raw_commands = Ok commands <->
     selects (fun name => command_name name = true) (selected_commands raw_commands) commands) /\
  forall types commands,
    parse_enabled_event_types iteration raw_types = Ok types ->
    parse_enabled_mongodb_commands iteration raw_commands = Ok commands ->
    forall e, e ∈ (publish types commands (Ok events) m).1 <->
      e ∈ events /\ enabled_by (selected_names raw_types) (event_type_name (payload e)) /\
      forall activity, payload e = PMongodbActivity activity ->
        enabled_by (selected_commands raw_commands) (to_ascii_lowercase (activity_command activity)).
Proof using iteration_permutes.
  assert (forall types, parse_enabled_event_types iteration raw_types = Ok types <->
     selects (fun name => name ∈ SUPPORTED_EVENT_TYPES) (selected_names raw_types) types) as Htypes.
  { intros types. apply all_or_names_spec. by rewrite check_supported_spec, iteration_Forall. }
  assert (forall commands, parse_enabled_mongodb_commands iteration raw_commands = Ok commands <->
     selects (fun name => command_name name = true) (selected_commands raw_commands) commands) as Hcommands.
  { intros commands. apply all_or_names_spec. unfold ensure.
    rewrite <- (iteration_Forall (fun name => command_name name = true)), <- Forallb_true.
    destruct (forallb command_name _); by split. }
  split; [done|]. split; [done|]. intros types commands Ht Hc e.
  apply Htypes in Ht. apply Hcommands in Hc. cbn [publish fst]. rewrite list_elem_of_filter.
  assert (Is_true (event_is_enabled types commands (payload e)) <->
    enabled_by (selected_names raw_types) (event_type_name (payload e)) /\
    (forall activity, payload e = PMongodbActivity activity ->
        enabled_by (selected_commands raw_commands) (to_ascii_lowercase (activity_command activity)))) as ->; [|tauto].
  unfold event_is_enabled, event_type_is_enabled. rewrite <- (selects_enabled _ _ _ _ Ht).
  destruct (enabled_name types _) eqn:Hty; cbn [negb]; [|by split; [|intros [? _]]].
  destruct (payload e) as [activity| | | | | | |]; try (split; [|done]; intros _; split; [done|]; by intros ? [=]).
  rewrite Is_true_true, (selects_enabled _ _ _ _ Hc). split; [|intros [_ Ha]; by apply Ha].
  intros He. split; [done|]. by intros ? [= <-].
Qed.
End selection.
