(* ===== verification/Pipeline.v ===== *)
(** The sensor and Outpost together: two disks, the requests of the sensor's
    exporter answered by Outpost's intake, and those of Outpost's exporter by the
    final receiver.  A batch the sensor spooled is on one of the two disks until
    the receiver answered for it. *)
From Stdlib Require Import ZArith Lia ZifyBool Strings.Byte Strings.Ascii Strings.String.
From stdpp Require Import base list strings gmap.
From S2P Require Import Prelude Text Float64 Json Bson Schema Observer Spool SpoolSpec SpoolLife Trace Accounted Interleave.
From S2P Require Import Enrich Destination Outpost OutpostSpec Agent AgentSpec.

Local Open Scope string_scope.
Local Open Scope list_scope.
Local Open Scope Z_scope.

Section pipeline.
Context {OffsetDateTime : Type} `{Sha256}.
Context (nanos : OffsetDateTime -> bytes) (from_slice : bytes -> string + DamBatch OffsetDateTime)
  (to_vec : DamBatch OffsetDateTime -> string + bytes) (io_text : IoError -> string)
  (record_json : S3NdjsonRecord (OffsetDateTime := OffsetDateTime) -> option bytes) (gzip : bytes -> bytes)
  (header_value : string -> bool) (year month day hour : OffsetDateTime -> Z).
Context (d : DestinationConfig) (doubtful : gset string) (faulty : bool).

Abbreviation accept_batch := (accept_batch from_slice to_vec io_text spool_digest).
Abbreviation export_pass := (export_pass from_slice record_json gzip header_value year month day hour).
Abbreviation flush_batch := (flush_batch nanos to_vec).
Abbreviation observer_pass := (observer_pass from_slice header_value).
Abbreviation final_pass := (final_pass from_slice header_value).
Abbreviation outpost_life :=
  (outpost_life from_slice to_vec io_text spool_digest record_json gzip header_value year month day hour d doubtful faulty).
Abbreviation delivered := (delivered from_slice spool_digest record_json gzip year month day hour d).
Abbreviation delivered_observer := (delivered_observer from_slice spool_digest).

(** * The sensor's histories

    What the batcher does while the exporter is at work: it spools a batch and has
    its receipt, which is [doubtful] if the very same batch was on disk already and
    waits for a sync of its directory ([vouched]), or it fails or is cut off. *)
Inductive flushing : world -> gset string -> world -> gset string -> Prop :=
| flushing_spooled w ids max_bytes a es now m w' m' body :
    es <> [] -> to_vec (batch_of nanos a es now) = inr body -> vouched doubtful (spool_digest body) w ->
    exec faulty (flush_batch max_bytes a es now m) w (Done w' (m', true)) ->
    flushing w ids w' ({[spool_digest body]} ∪ ids)
| flushing_cut w ids max_bytes a es now m o :
    exec faulty (flush_batch max_bytes a es now m) w o -> flushing w ids (world_of o) ids.

(** The passes of the exporter *)
Definition exports (t : task RuntimeMetrics) : Prop := exists m, t = observer_pass m \/ t = final_pass m.

(** [sensor_life w ids requests]: after some history from an empty directory the
    sensor's disk may be in the state [w], the sensor having spooled the batches
    [ids] and made the [requests] to Outpost.  [doubtful] are names
    as in [SpoolLife.life]: no history is left out, but nothing is said of them. *)
Inductive sensor_life : world -> gset string -> list sent -> Prop :=
| sensor_new : sensor_life (restart ∅) ∅ []
| sensor_crash w ids requests s : sensor_life w ids requests -> crash w s -> sensor_life (restart s) ids requests
| sensor_open w ids requests o :
    sensor_life w ids requests -> whole_synced spool_digest doubtful (visible w) ->
    exec faulty (open spool_digest) w o -> sensor_life (world_of o) ids requests
| sensor_flush w ids requests w' ids' :
    sensor_life w ids requests -> flushing w ids w' ids' -> sensor_life w' ids' requests
| sensor_export w ids requests t made o ids' :
    sensor_life w ids requests -> exports t -> interleaved faulty flushing t w ids made o ids' ->
    sensor_life (world_of o) ids' (requests ++ made).

(** * The two together

    They share nothing but the requests and answers, so a history of the pipeline
    is a history of each, in which every answer the sensor got is one Outpost gave
    to that body.  Outpost may have answered others too, and the sensor may have
    had no answer. *)
Definition answered (handled : list exchange) (r : sent) : Prop :=
  forall code, answer r = Some code -> exists response, (sent_body r, response) ∈ handled /\ status response = code.

Record pipeline (ws : world) (ids : gset string) (requests : list sent)
    (wo : world) (handled : list exchange) (tr : list sent) : Prop := {
  pipeline_sensor : sensor_life ws ids requests;
  pipeline_outpost : outpost_life wo handled tr;
  pipeline_link : Forall (answered handled) requests
}.

(** * Outpost's side *)
(** The body parses, and the enriched batch has this receipt. *)
Definition relayed (body : bytes) (encoded : bytes) : Prop :=
  exists b cluster identities known, from_slice body = inr b /\ valid_batch b /\
    to_vec (enrich_batch cluster identities known b) = inr encoded.
Definition handled_ok (entry : exchange) : Prop :=
  disposition (status entry.2) = Delivered ->
  exists encoded, relayed entry.1 encoded /\ receipt_of entry = Some (spool_digest encoded).

Lemma answer_ok wo s identities authorization body wo' s' r :
  exec faulty (accept_batch s identities authorization body) wo (Done wo' (s', r)) -> handled_ok (body, r).
Proof.
  intros Ho. pose proof (cwp_intake _ _ _ _ _ _ _ _ _ _ slen_spool_digest _ Ho) as Hspec. cbn [snd fst] in Hspec.
  destruct Hspec as (_ & [(b & encoded & [] & -> & _)|(_ & _ & Hno)]).
  - intros _. exists encoded. split; [|done]. by exists b, (config_cluster_name (config s)), identities, (pods s).
  - intros Hd. exfalso. cbn [snd] in Hd.
    destruct Hno as [(_ & Hin & _)|[Hin _]]; [|by rewrite Hin in Hd].
    destruct Hin as [Hin|[Hin|[Hin|[Hin|[]]]]]; by rewrite <- Hin in Hd.
Qed.

Lemma intake_ok wo handled wo' handled' :
  intake from_slice to_vec io_text spool_digest doubtful faulty wo handled wo' handled' ->
  Forall handled_ok handled -> Forall handled_ok handled'.
Proof.
  intros [w h s idm auth body w' s' r Ho _|w h s idm auth body o _] Hok; [|done].
  apply Forall_app. split; [done|]. by eapply Forall_singleton, answer_ok.
Qed.

Lemma outpost_handled_ok wo handled tr : outpost_life wo handled tr -> Forall handled_ok handled.
Proof.
  induction 1 as [| | |w h tr w' h' _ IH Hi|w h tr s tr' o h' _ IH Hd Ho]; try done; [by eapply intake_ok|].
  eapply interleaved_told; [|exact Ho|exact IH]. intros; by eapply intake_ok.
Qed.

(** * The sensor's side *)

Lemma flush_keeps kept ws max_bytes a es now m o :
  keeps spool_digest doubtful kept ws -> exec faulty (flush_batch max_bytes a es now m) ws o ->
  keeps spool_digest doubtful kept (world_of o).
Proof.
  intros Hk. apply cwp_every. unfold Agent.flush_batch. destruct es as [|e es]; [by apply cwp_ret|].
  destruct (to_vec _) as [error|body]; [by apply cwp_ret|].
  apply cwp_bind. intros o1 Ho1. assert (keeps spool_digest doubtful kept (world_of o1)) as Hk1
    by (by eapply enqueue_keeps).
  destruct o1 as [w1 [error|i]|w1]; [by apply cwp_ret..|done].
Qed.

(** A flush that was spooled enqueued the batch. *)
Lemma flush_receipt ws max_bytes a es now m ws' m' body :
  es <> [] -> to_vec (batch_of nanos a es now) = inr body ->
  exec faulty (flush_batch max_bytes a es now m) ws (Done ws' (m', true)) ->
  exists i, exec faulty (enqueue spool_digest max_bytes body) ws (Done ws' (inr i)).
Proof.
  intros Hes Hb Ho.
  assert (cwp faulty (fun w' r => r.2 = true ->
     exists i, exec faulty (enqueue spool_digest max_bytes body) ws (Done w' (inr i)))
     (fun _ => True) (flush_batch max_bytes a es now m) ws) as Hc; [|by apply (Hc _ Ho)].
  unfold Agent.flush_batch. destruct es as [|e es]; [done|]. rewrite Hb.
  apply cwp_bind. intros o1 Ho1. destruct o1 as [w1 [error|i]|w1]; [by apply cwp_ret|apply cwp_ret; eauto|done].
Qed.

Lemma flushing_accounted delivered w ids w' ids' tr :
  flushing w ids w' ids' -> accounted spool_digest doubtful delivered ids w tr -> accounted spool_digest doubtful delivered ids' w' tr.
Proof.
  intros [w0 ids0 max_bytes a es now m w1 m' body Hes Hb Hcl Ho|w0 ids0 max_bytes a es now m o Ho] Ha.
  - apply accounted_receipt with w0; [done|]. intros kept Hk.
    destruct (flush_receipt _ _ _ _ _ _ _ _ _ Hes Hb Ho) as [i He].
    assert (i = spool_digest body) as ->.
    { pose proof (cwp_sound_enqueue spool_digest doubtful faulty max_bytes body w0 (proj1 Hk) _ He) as [_ Hr].
      by destruct (Hr i eq_refl). }
    by eapply accept_keeps_receipt; [apply slen_spool_digest|..].
  - rewrite <- (app_nil_r tr). apply accounted_step with w0; [done|]. intros kept Hk. by eapply flush_keeps.
Qed.

Lemma sensor_accounted w ids requests :
  sensor_life w ids requests -> accounted spool_digest doubtful delivered_observer ids w requests.
Proof.
  induction 1 as [|w ids requests s _ IH Hc|w ids requests o _ IH Hset Ho|w ids requests w' ids' _ IH Hf
    |w ids requests t made o ids' _ IH [m Ht] Ho].
  - apply accounted_keeps. split; [by apply every_restart, sound_empty|]. by intros i Hi%elem_of_empty.
  - destruct IH as (kept & Hk & Hi). exists kept. split; [by eapply keeps_crash|done].
  - destruct IH as (kept & Hk & Hi). exists kept. split; [by eapply open_keeps|done].
  - by eapply flushing_accounted.
  - eapply (honours_interleaved _ _ _ _ _ (fun ids => ids)); [|destruct Ht as [-> | ->]|done|exact Ho].
    + intros; by eapply flushing_accounted.
    + apply honours_observer_pass.
    + apply honours_final_pass.
Qed.

(** A batch that an answer counted as delivered is at Outpost. *)
Lemma delivered_handed handled requests i :
  Forall (answered handled) requests -> Exists (delivered_observer i) requests ->
  exists body r, spool_digest body = i /\ (body, r) ∈ handled /\ disposition (status r) = Delivered.
Proof.
  intros Ha (r & Hr & Hd & batch & code & _ & _ & Hc & Hdel)%Exists_exists. rewrite Forall_forall in Ha.
  destruct (Ha r Hr code Hc) as (response & Hin & <-). by exists (sent_body r), response.
Qed.

(** Where the batch [i] of the sensor is after crashes of both machines.  Of a batch
    whose name, here or at Outpost, is doubtful nothing is known. *)
Definition whereabouts (s1 s2 : fs) (tr : list sent) (i : string) : Prop :=
  (exists dir f, s1 !! (dir, json_name i) = Some f /\ spool_digest (content f) = i) \/
  exists body encoded, spool_digest body = i /\ relayed body encoded /\
    ((exists dir f, s2 !! (dir, json_name (spool_digest encoded)) = Some f /\
        spool_digest (content f) = spool_digest encoded) \/
     Exists (delivered (spool_digest encoded)) tr \/ spool_digest encoded ∈ doubtful).

Lemma batch_whereabouts ws ids requests wo handled tr i s1 s2 :
  pipeline ws ids requests wo handled tr -> i ∈ ids -> i ∉ doubtful -> crash ws s1 -> crash wo s2 ->
  whereabouts s1 s2 tr i.
Proof.
  intros [Hs Hlife Hlink] Hi Hd Hc1 Hc2.
  destruct (sensor_accounted _ _ _ Hs) as (kept & Hk & Hall).
  destruct (Hall i Hi Hd) as [Hkept|Hdel]; [left; by eapply keeps_on_disk|right].
  destruct (delivered_handed _ _ _ Hlink Hdel) as (body & r & <- & Hin & Hst).
  pose proof (outpost_handled_ok _ _ _ Hlife) as Hok. rewrite Forall_forall in Hok.
  destruct (Hok _ Hin Hst) as (encoded & Hrel & Hrec). exists body, encoded. split; [done|]. split; [done|].
  destruct (outpost_accounted from_slice to_vec io_text spool_digest slen_spool_digest record_json gzip header_value
    year month day hour d doubtful faulty _ _ _ Hlife) as (rkept & Hrk & Ha).
  destruct (decide (spool_digest encoded ∈ doubtful)) as [Hdt|Hdt]; [by right; right|].
  destruct (Ha _ (elem_of_receipts _ _ _ Hin Hrec) Hdt) as [Hin'|Hdel']; [left|by right; left].
  by eapply keeps_on_disk.
Qed.
(** C3: End to end.  In any history of the sensor and Outpost (flushes and requests
    also while an export pass is under way, requests and answers lost or repeated,
    I/O errors on either disk, calls cut off, crashes and recoveries of either
    machine) a batch the sensor spooled is on the sensor's disk after the next
    crash too, whole, pending or in quarantine; or it parses, it is valid, and
    Outpost, having enriched it, has it on its disk after the next crash, whole; or
    the receiver answered for it; unless it is doubtful on one of the disks.  A batch
    is doubtful when a restart of a process found it whole in a temporary file
    that was never synced, or when a receipt was given for it while it was already
    on disk and waited for a sync of the directory: the code can lose these
    ([SpoolLife.recovered_not_durable], [SpoolLife.retry_not_durable]). *)
Theorem end_to_end ws ids requests wo handled tr i s1 s2 :
  pipeline ws ids requests wo handled tr -> i ∈ ids -> i ∉ doubtful -> crash ws s1 -> crash wo s2 ->
  whereabouts s1 s2 tr i.
Proof. apply batch_whereabouts. Qed.
End pipeline.
