(* ===== verification/Sensor.v ===== *)
(** The running agent, [main] of crates/observer/src/main.rs: the eBPF thread, the
    processor, the batcher and the exporter, which work at the same time, hand
    each other records and events through bounded channels, share a disk, and are
    stopped one after the other. *)
From Stdlib Require Import ZArith Lia ZifyBool Strings.Byte Strings.Ascii Strings.String.
From stdpp Require Import base list strings gmap.
From S2P Require Import Prelude Text Float64 Json Bson Wire Schema Proc Kernel Observer Spool SpoolSpec.
From S2P Require Import Trace Accounted Interleave Agent AgentSpec.

Local Open Scope string_scope.
Local Open Scope list_scope.
Local Open Scope Z_scope.

(** * What [main] makes of its command line *)
Record Settings : Set := {
  st_config : ProcessorConfig;
  st_assignment : Assignment;
  st_event_types : option (gset string);
  st_commands : option (gset string);
  st_emit_sensor_health : bool;
  st_internal_token : option string;
  st_max_bytes : Z;
  st_max_events : Z
}.

(** [path.as_deref().map(read_secret).transpose()]; [content] is what reading a
    file gives *)
Definition read_optional_secret (content : string -> option string) (path : option string)
    : res string (option string) :=
  match path with
  | None => Ok None
  | Some path => let! secret := read_secret path (content path) in Ok (Some secret)
  end.

Definition settings_of (iteration : gset string -> list string) (content : string -> option string) (cli : Cli)
    : res string Settings :=
  let! _ := validate_cli cli in
  let! event_types := parse_enabled_event_types iteration (cli_enabled_event_types cli) in
  let! commands := parse_enabled_mongodb_commands iteration (cli_enabled_mongodb_commands cli) in
  let! internal_token := read_optional_secret content (cli_internal_token_file cli) in
  let! principal_hash_salt := read_optional_secret content (cli_principal_hash_salt_file cli) in
  Ok {|
    st_config := processor_config_of cli principal_hash_salt;
    st_assignment := assignment_of cli;
    st_event_types := event_types;
    st_commands := commands;
    st_emit_sensor_health := event_type_is_enabled event_types "sensor_health";
    st_internal_token := internal_token;
    st_max_bytes := cli_spool_max_bytes cli;
    st_max_events := cli_batch_max_events cli
  |}.

(** * The tasks *)

(** Where [main] is: it serves until a signal; then it joins the thread, waits for
    the processor, the batcher and the exporter, and returns.  [Killed]: it
    returned an error, or the process was killed. *)
Inductive Main : Set :=
| Serving | JoiningThread | AwaitingProcessor | AwaitingBatcher | AwaitingExporter | Exited | Killed.

(** [mpsc::channel(8_192)] and [mpsc::channel(4_096)] *)
Definition KERNEL_CAPACITY : Z := 8192.
Definition EVENT_CAPACITY : Z := 4096.

Section sensor.
Context {OffsetDateTime World : Type} `{Host OffsetDateTime World} `{Sha256} `{Decompressors}.
Abbreviation DamEvent := (DamEvent OffsetDateTime).
Abbreviation DamBatch := (DamBatch OffsetDateTime).
Abbreviation EventProcessor := (EventProcessor OffsetDateTime).
Abbreviation Batcher := (Batcher (OffsetDateTime := OffsetDateTime)).
Abbreviation Wake := (Wake (OffsetDateTime := OffsetDateTime)).
Context (iteration : gmap (Z * Z * Z) (PendingRequest OffsetDateTime) -> list ((Z * Z * Z) * PendingRequest OffsetDateTime)).
Context (nanos : OffsetDateTime -> bytes) (from_slice : bytes -> string + DamBatch)
  (to_vec : DamBatch -> string + bytes) (header_value : string -> bool).
Context (st : Settings) (faulty : bool).

(** The processor between two awaits: [sending] waits for room in the channel,
    [outbox] are the selected events of the call that come after it. *)
Inductive ProcessorTask : Type :=
| Processing (p : EventProcessor) (sending : option DamEvent) (outbox : list DamEvent)
| ProcessorEnded.
Inductive BatcherTask : Type :=
| Batching (b : Batcher)
| BatcherEnded.
(** The exporter in a pass, of which the task is left, or between two *)
Inductive ExporterTask : Type :=
| Exporting (final : bool) (t : task RuntimeMetrics)
| Waiting
| ExporterEnded.

Record Sensor : Type := {
  main_at : Main;
  polling : bool;
  kernel_queue : list CapturedKernelEvent;
  processor_task : ProcessorTask;
  event_queue : list DamEvent;
  batcher_task : BatcherTask;
  exporter_task : ExporterTask;
  disk : world;
  metrics : RuntimeMetrics
}.

Definition set_main (v : Main) (s : Sensor) : Sensor :=
  {| main_at := v; polling := polling s; kernel_queue := kernel_queue s; processor_task := processor_task s;
     event_queue := event_queue s; batcher_task := batcher_task s; exporter_task := exporter_task s;
     disk := disk s; metrics := metrics s |}.
Definition set_polling (v : bool) (s : Sensor) : Sensor :=
  {| main_at := main_at s; polling := v; kernel_queue := kernel_queue s; processor_task := processor_task s;
     event_queue := event_queue s; batcher_task := batcher_task s; exporter_task := exporter_task s;
     disk := disk s; metrics := metrics s |}.
Definition set_kernel_queue (v : list CapturedKernelEvent) (s : Sensor) : Sensor :=
  {| main_at := main_at s; polling := polling s; kernel_queue := v; processor_task := processor_task s;
     event_queue := event_queue s; batcher_task := batcher_task s; exporter_task := exporter_task s;
     disk := disk s; metrics := metrics s |}.
Definition set_processor (v : ProcessorTask) (s : Sensor) : Sensor :=
  {| main_at := main_at s; polling := polling s; kernel_queue := kernel_queue s; processor_task := v;
     event_queue := event_queue s; batcher_task := batcher_task s; exporter_task := exporter_task s;
     disk := disk s; metrics := metrics s |}.
Definition set_event_queue (v : list DamEvent) (s : Sensor) : Sensor :=
  {| main_at := main_at s; polling := polling s; kernel_queue := kernel_queue s; processor_task := processor_task s;
     event_queue := v; batcher_task := batcher_task s; exporter_task := exporter_task s;
     disk := disk s; metrics := metrics s |}.
Definition set_batcher (v : BatcherTask) (s : Sensor) : Sensor :=
  {| main_at := main_at s; polling := polling s; kernel_queue := kernel_queue s; processor_task := processor_task s;
     event_queue := event_queue s; batcher_task := v; exporter_task := exporter_task s;
     disk := disk s; metrics := metrics s |}.
Definition set_exporter (v : ExporterTask) (s : Sensor) : Sensor :=
  {| main_at := main_at s; polling := polling s; kernel_queue := kernel_queue s; processor_task := processor_task s;
     event_queue := event_queue s; batcher_task := batcher_task s; exporter_task := v;
     disk := disk s; metrics := metrics s |}.
Definition set_disk (v : world) (s : Sensor) : Sensor :=
  {| main_at := main_at s; polling := polling s; kernel_queue := kernel_queue s; processor_task := processor_task s;
     event_queue := event_queue s; batcher_task := batcher_task s; exporter_task := exporter_task s;
     disk := v; metrics := metrics s |}.
Definition set_metrics (v : RuntimeMetrics) (s : Sensor) : Sensor :=
  {| main_at := main_at s; polling := polling s; kernel_queue := kernel_queue s; processor_task := processor_task s;
     event_queue := event_queue s; batcher_task := batcher_task s; exporter_task := exporter_task s;
     disk := disk s; metrics := v |}.

Definition new_batcher (start : Z) : Batcher := {| buffered := []; last_health := start |}.

(** The tasks as they are spawned, on a spool that was opened; the exporter ends
    at once when its HTTP client cannot be built. *)
Definition boot (spool : world) (start : Z) (client : bool) : Sensor := {|
  main_at := Serving;
  polling := true;
  kernel_queue := [];
  processor_task := Processing (new_processor (st_config st)) None [];
  event_queue := [];
  batcher_task := Batching (new_batcher start);
  exporter_task := if client then Exporting false (observer_pass from_slice header_value no_metrics) else ExporterEnded;
  disk := spool;
  metrics := no_metrics
|}.

(** ** The eBPF thread *)
Definition slot (s : Sensor) : Slot :=
  match processor_task s with
  | ProcessorEnded => Closed
  | Processing _ _ _ => if len (kernel_queue s) <? KERNEL_CAPACITY then Free else Full
  end.
(** The callback, with the record it puts into the channel, if it does *)
Definition ring_callback (stacks : Z -> option bytes) (bs : bytes) (s : Sensor)
    : Sensor * option CapturedKernelEvent * Z :=
  let '(captured, code, m) := on_ring_record stacks (slot s) bs (metrics s) in
  (set_metrics m (set_kernel_queue (kernel_queue s ++ option_list captured) s), captured, code).

(** What a scan and a rescan store *)
Definition set_gauges (ready : bool) (dropped targets tls : Z) (m : RuntimeMetrics) : RuntimeMetrics := {|
  bpf_ready := ready; ring_events := ring_events m; malformed_ring_events := malformed_ring_events m;
  userspace_dropped_events := userspace_dropped_events m; parse_errors := parse_errors m;
  metadata_events := metadata_events m; batches_spooled := batches_spooled m;
  spool_dropped_events := spool_dropped_events m; batches_delivered := batches_delivered m;
  delivery_failures := delivery_failures m; quarantined_batches := quarantined_batches m;
  bpf_dropped_events := dropped; target_processes := targets; tls_uprobe_processes := tls
|}.
(** The thread ends: it was told to, or polling or a scan failed.  The sender of
    the channel goes with it. *)
Definition thread_ends (s : Sensor) : Sensor :=
  set_polling false (set_metrics (set_gauges false (bpf_dropped_events (metrics s)) (target_processes (metrics s))
    (tls_uprobe_processes (metrics s)) (metrics s)) s).

(** ** The processor *)
Definition selected (events : list DamEvent) : list DamEvent :=
  filter (fun event => event_is_enabled (st_event_types st) (st_commands st) (payload event)) events.
(** The task goes on to its next await, if it can; with the result of the call of
    [process] it made. *)
Definition processor_step (w : World) (s : Sensor) : option (Sensor * option (res string (list DamEvent))) :=
  match processor_task s with
  | ProcessorEnded => None
  | Processing p (Some event) outbox =>
      match batcher_task s with
      | BatcherEnded => Some (set_processor ProcessorEnded s, None)
      | Batching _ =>
          if len (event_queue s) <? EVENT_CAPACITY
          then Some (set_processor (Processing p None outbox) (set_event_queue (event_queue s ++ [event]) s), None)
          else None
      end
  | Processing p None (event :: outbox) =>
      Some (set_processor (Processing p (Some event) outbox) (set_metrics (count_events 0 1 0 0 (metrics s)) s), None)
  | Processing p None [] =>
      match kernel_queue s with
      | [] => if polling s then None else Some (set_processor ProcessorEnded s, None)
      | captured :: queue =>
          let '(result, (p, _)) := process iteration captured (p, w) in
          let s := set_kernel_queue queue s in
          Some (match result with
                | Ok events => set_processor (Processing p None (selected events)) s
                | Err _ => set_processor (Processing p None []) (set_metrics (count_events 1 0 0 0 (metrics s)) s)
                | Fault _ => set_processor ProcessorEnded s
                end, Some result)
      end
  end.

(** ** The batcher *)

(** [recv] has something, or the ticker fires: the wake-up, and what is left in
    the channel. *)
Inductive woken (s : Sensor) : Wake -> list DamEvent -> Prop :=
| woken_received event queue now : event_queue s = event :: queue -> woken s (Received event now) queue
| woken_hangup now : event_queue s = [] -> processor_task s = ProcessorEnded -> woken s (Hangup now) []
| woken_ticked instant health_now now : woken s (Ticked instant health_now now) (event_queue s).
Abbreviation turn := (batcher_turn nanos to_vec (st_max_bytes st) (st_assignment st) (st_max_events st)
  (st_emit_sensor_health st)).
Definition after_turn (queue : list DamEvent) (w : world) (b : Batcher) (m : RuntimeMetrics) (more : bool) (s : Sensor)
    : Sensor :=
  set_batcher (if more then Batching b else BatcherEnded) (set_event_queue queue (set_disk w (set_metrics m s))).

(** ** The exporter *)

(** The counters of a pass: they are added when it ends. *)
Definition take_delivery (pass m : RuntimeMetrics) : RuntimeMetrics := {|
  bpf_ready := bpf_ready m; ring_events := ring_events m; malformed_ring_events := malformed_ring_events m;
  userspace_dropped_events := userspace_dropped_events m; parse_errors := parse_errors m;
  metadata_events := metadata_events m; batches_spooled := batches_spooled m;
  spool_dropped_events := spool_dropped_events m; batches_delivered := batches_delivered pass;
  delivery_failures := delivery_failures pass; quarantined_batches := quarantined_batches pass;
  bpf_dropped_events := bpf_dropped_events m; target_processes := target_processes m;
  tls_uprobe_processes := tls_uprobe_processes m
|}.
(** [shutdown] was sent. *)
Definition shutting_down (s : Sensor) : bool :=
  match main_at s with AwaitingExporter => true | _ => false end.
(** It waits until it is notified, or the interval has passed, or there is a
    shutdown: [shutdown] says which of the two ends of the wait it sees. *)
Definition exporter_step (shutdown : bool) (s : Sensor) : option Sensor :=
  match exporter_task s with
  | Exporting final (Finish pass) =>
      Some (set_exporter (if (final : bool) then ExporterEnded else Waiting) (set_metrics (take_delivery pass (metrics s)) s))
  | Exporting _ (Spool.Method _ _) => None
  | Waiting =>
      if shutdown
      then if shutting_down s then Some (set_exporter (Exporting true (final_pass from_slice header_value (metrics s))) s)
           else None
      else Some (set_exporter (Exporting false (observer_pass from_slice header_value (metrics s))) s)
  | ExporterEnded => None
  end.

(** ** The main task *)
Definition main_step (s : Sensor) : option Sensor :=
  match main_at s with
  | Serving => Some (set_main JoiningThread s)
  | JoiningThread => if polling s then None else Some (set_main AwaitingProcessor s)
  | AwaitingProcessor =>
      match processor_task s with ProcessorEnded => Some (set_main AwaitingBatcher s) | _ => None end
  | AwaitingBatcher =>
      match batcher_task s with BatcherEnded => Some (set_main AwaitingExporter s) | _ => None end
  | AwaitingExporter =>
      match exporter_task s with ExporterEnded => Some (set_main Exited s) | _ => None end
  | Exited | Killed => None
  end.
Definition running (s : Sensor) : bool :=
  match main_at s with Exited | Killed => false | _ => true end.

(** * Runs *)

(** What happened in a run: the records of the ring buffer, those that got into
    the channel, the results of [process], the events the batcher took from its
    channel, and the requests of the exporter. *)
Record Log : Type := {
  records : list bytes;
  accepted : list CapturedKernelEvent;
  results : list (res string (list DamEvent));
  received : list DamEvent;
  requests : list sent
}.
Definition log_ring (bs : bytes) (captured : option CapturedKernelEvent) (l : Log) : Log :=
  {| records := records l ++ [bs]; accepted := accepted l ++ option_list captured; results := results l;
     received := received l; requests := requests l |}.
Definition log_result (result : option (res string (list DamEvent))) (l : Log) : Log :=
  {| records := records l; accepted := accepted l; results := results l ++ option_list result;
     received := received l; requests := requests l |}.
Definition log_wake (wake : Wake) (l : Log) : Log :=
  {| records := records l; accepted := accepted l; results := results l;
     received := received l ++ (match wake with Received event _ => [event] | _ => [] end); requests := requests l |}.
Definition log_requests (made : list sent) (l : Log) : Log :=
  {| records := records l; accepted := accepted l; results := results l; received := received l;
     requests := requests l ++ made |}.

(** What is assumed of the digest of a batch when it is flushed: nothing, or that it
    is [vouched], where the doubtful ones are named. *)
Context (fresh : string -> world -> Prop).
Definition fresh_at (now : OffsetDateTime) (w : world) : Prop :=
  forall es body, to_vec (batch_of nanos (st_assignment st) es now) = inr body -> fresh (spool_digest body) w.

(** One step of one task, on any machine, with any outcome of its calls.  A turn
    of the batcher is one step, a method of the spool or a request another.  The
    process may be killed at any time, also within a step. *)
Inductive step (s : Sensor) (l : Log) : Sensor -> Log -> Prop :=
| step_ring stacks bs s' captured code :
    polling s = true -> ring_callback stacks bs s = (s', captured, code) -> step s l s' (log_ring bs captured l)
| step_gauges ready dropped targets tls :
    polling s = true -> step s l (set_metrics (set_gauges ready dropped targets tls (metrics s)) s) l
| step_thread_ends : polling s = true -> step s l (thread_ends s) l
| step_processor w s' result : processor_step w s = Some (s', result) -> step s l s' (log_result result l)
| step_batcher b wake queue w' b' m' more :
    batcher_task s = Batching b -> woken s wake queue -> fresh_at (flush_time wake) (disk s) ->
    exec faulty (turn wake b (metrics s)) (disk s) (Done w' (b', m', more)) ->
    step s l (after_turn queue w' b' m' more s) (log_wake wake l)
| step_batcher_cut b wake queue w' :
    batcher_task s = Batching b -> woken s wake queue ->
    exec faulty (turn wake b (metrics s)) (disk s) (Crashed w') -> step s l (set_main Killed (set_disk w' s)) l
| step_method final X (m : prog X) k tr w' x :
    exporter_task s = Exporting final (Spool.Method m k) -> exec_trace faulty m (disk s) tr (Done w' x) ->
    step s l (set_exporter (Exporting final (k x)) (set_disk w' s)) (log_requests tr l)
| step_method_cut final X (m : prog X) k tr w' :
    exporter_task s = Exporting final (Spool.Method m k) -> exec_trace faulty m (disk s) tr (Crashed w') ->
    step s l (set_main Killed (set_exporter ExporterEnded (set_disk w' s))) (log_requests tr l)
| step_exporter shutdown s' : exporter_step shutdown s = Some s' -> step s l s' l
| step_main s' : main_step s = Some s' -> step s l s' l
| step_killed : step s l (set_main Killed s) l.

Inductive steps : Sensor -> Log -> Sensor -> Log -> Prop :=
| steps_none s l : steps s l s l
| steps_one s l s1 l1 s' l' : running s = true -> step s l s1 l1 -> steps s1 l1 s' l' -> steps s l s' l'.

(** The log of earlier runs is their requests. *)
Definition boot_log (earlier : list sent) : Log :=
  {| records := []; accepted := []; results := []; received := []; requests := earlier |}.
End sensor.
