(* ===== verification/SensorSpec.v ===== *)
(** What the running agent guarantees: every record of the kernel, every event and
    every batch is accounted for at each moment, in whatever order the tasks work;
    a shutdown drains everything, and it can always be completed. *)
From Stdlib Require Import ZArith Lia ZifyBool Strings.Byte Strings.Ascii Strings.String.
From stdpp Require Import base list strings gmap.
From S2P Require Import Prelude Text Float64 Json Bson Wire Schema Proc Kernel Observer ObserverSpec ObserverLife.
From S2P Require Import Spool SpoolSpec SpoolLife Trace Accounted Interleave Enrich Destination Outpost OutpostSpec.
From S2P Require Import Agent AgentSpec Pipeline Sensor.

Local Open Scope string_scope.
Local Open Scope list_scope.
Local Open Scope Z_scope.

Section spec.
Context {OffsetDateTime World : Type} `{Host OffsetDateTime World} `{Sha256} `{Decompressors}.
Abbreviation DamEvent := (DamEvent OffsetDateTime).
Abbreviation DamBatch := (DamBatch OffsetDateTime).
Abbreviation EventProcessor := (EventProcessor OffsetDateTime).
Abbreviation Batcher := (Batcher (OffsetDateTime := OffsetDateTime)).
Abbreviation flush_record := (flush_record (OffsetDateTime := OffsetDateTime)).
Context (iteration : gmap (Z * Z * Z) (PendingRequest OffsetDateTime) -> list ((Z * Z * Z) * PendingRequest OffsetDateTime)).
Context (iteration_permutes : forall m, iteration m ≡ₚ map_to_list m).
Context (nanos : OffsetDateTime -> bytes) (from_slice : bytes -> string + DamBatch)
  (to_vec : DamBatch -> string + bytes) (header_value : string -> bool).
Context (st : Settings) (faulty : bool) (max_positive : 0 < st_max_events st).
Abbreviation Sensor := (Sensor (OffsetDateTime := OffsetDateTime)).
Abbreviation Log := (Log (OffsetDateTime := OffsetDateTime)).
Abbreviation processor_step := (processor_step iteration st).
Abbreviation exporter_step := (exporter_step from_slice header_value).
Abbreviation step := (step iteration nanos from_slice to_vec header_value st faulty).
Abbreviation steps := (steps iteration nanos from_slice to_vec header_value st faulty).
Abbreviation turn := (batcher_turn nanos to_vec (st_max_bytes st) (st_assignment st) (st_max_events st)
  (st_emit_sensor_health st)).

Lemma steps_invariant fresh (P : Sensor -> Log -> Prop) s l s' l' :
  (forall s l s' l', running s = true -> step fresh s l s' l' -> P s l -> P s' l') ->
  P s l -> steps fresh s l s' l' -> P s' l'.
Proof. intros Hstep Hs Hsteps. induction Hsteps; eauto. Qed.

Lemma steps_trans fresh s l s1 l1 s2 l2 :
  steps fresh s l s1 l1 -> steps fresh s1 l1 s2 l2 -> steps fresh s l s2 l2.
Proof. induction 1; [done|]. intros. by eapply steps_one; eauto. Qed.

(** * Control *)
Definition in_buffer (t : BatcherTask (OffsetDateTime := OffsetDateTime)) : list DamEvent :=
  match t with Batching b => buffered b | BatcherEnded => [] end.

(** The channels are bounded and the tasks end one after the other: each when the
    one before has ended and its channel is empty. *)
Record orderly (s : Sensor) : Prop := {
  or_kernel : len (kernel_queue s) <= KERNEL_CAPACITY;
  or_events : len (event_queue s) <= EVENT_CAPACITY;
  or_buffer : len (in_buffer (batcher_task s)) < st_max_events st;
  or_typed : Forall (fun captured => well_typed (raw captured)) (kernel_queue s);
  or_sound : match processor_task s with Processing p _ _ => ObserverSpec.sound (st_config st) p | ProcessorEnded => True end;
  or_processor : processor_task s = ProcessorEnded -> polling s = false /\ kernel_queue s = [];
  or_batcher : batcher_task s = BatcherEnded -> processor_task s = ProcessorEnded /\ event_queue s = [];
  or_main : match main_at s with
            | Serving | JoiningThread | Killed => True
            | AwaitingProcessor => polling s = false
            | AwaitingBatcher => processor_task s = ProcessorEnded
            | AwaitingExporter => batcher_task s = BatcherEnded
            | Exited => batcher_task s = BatcherEnded /\ exporter_task s = ExporterEnded
            end
}.

(** ** The turns of the batcher *)
Lemma turn_turned wake b m w w' b' m' more :
  len (buffered b) < st_max_events st -> exec faulty (turn wake b m) w (Done w' (b', m', more)) ->
  turned nanos to_vec (st_assignment st) (st_max_bytes st) (st_max_events st) (st_emit_sensor_health st) faulty
    wake b m w w' b' m' more.
Proof using max_positive.
  intros Hl Ho.
  exact (cwp_batcher_turn nanos to_vec (st_assignment st) (st_max_bytes st) (st_max_events st)
    (st_emit_sensor_health st) faulty wake b m w max_positive Hl _ Ho).
Qed.

(** The loop ends at a hangup only. *)
Lemma turn_more wake b m w w' b' m' more :
  exec faulty (turn wake b m) w (Done w' (b', m', more)) -> more = match wake with Hangup _ => false | _ => true end.
Proof.
  intros Ho.
  assert (cwp faulty (fun _ r => r.2 = match wake with Hangup _ => false | _ => true end) (fun _ => True)
    (turn wake b m) w) as Hc; [|exact (Hc _ Ho)].
  assert (forall A (x : prog A) (k : A -> prog (Batcher * RuntimeMetrics * bool)) v,
    (forall a w', cwp faulty (fun _ r => r.2 = v) (fun _ => True) (k a) w') ->
    cwp faulty (fun _ r => r.2 = v) (fun _ => True) (bind_prog x k) w) as Hbind.
  { intros A x k v Hk. apply cwp_bind. intros [w1 a|w1] _; [apply Hk|done]. }
  destruct wake as [event now|now|instant hnow now]; apply Hbind.
  - intros [b1 m1] w1. by apply cwp_ret.
  - intros [b1 m1] w1. by apply cwp_ret.
  - intros b1 w1. apply cwp_bind. intros [w2 [b2 m2]|w2] _; [by apply cwp_ret|done].
Qed.

(** ** The steps *)
Lemma orderly_boot w start client : orderly (boot from_slice header_value st w start client).
Proof using max_positive.
  by split.
Qed.

Lemma ring_callback_orderly stacks bs s s' captured code :
  polling s = true -> ring_callback stacks bs s = (s', captured, code) -> orderly s -> orderly s'.
Proof.
  intros Hp. unfold ring_callback, on_ring_record, slot.
  destruct (from_ring_bytes bs) as [raw|] eqn:Hraw; [|intros [= <- <- <-] []; split; simpl; rewrite ?app_nil_r; done].
  destruct (processor_task s) as [p sending outbox|] eqn:Ht.
  - destruct (len (kernel_queue s) <? KERNEL_CAPACITY) eqn:Hl; intros [= <- <- <-] []; split; simpl; rewrite ?app_nil_r; try done.
    + rewrite len_app. unfold len at 2. simpl. lia.
    + apply Forall_app. split; [done|]. apply Forall_singleton. by eapply from_ring_well_typed.
    + by rewrite Ht.
  - intros _ Ho. destruct (or_processor _ Ho Ht) as [Hf _]. congruence.
Qed.

(** A call of [process], from a sound state and on a typed record *)
Lemma process_sound captured p w result p' w' :
  ObserverSpec.sound (st_config st) p -> well_typed (raw captured) ->
  process iteration captured (p, w) = (result, (p', w')) ->
  ObserverSpec.sound (st_config st) p' /\ ((exists events, result = Ok events) \/ exists e, result = Err e).
Proof using iteration_permutes.
  intros Hp Hw Hr. pose proof (keeps_process iteration iteration_permutes (st_config st) captured Hw p Hp w) as [Hs Hg].
  rewrite Hr in *. split; [done|]. by destruct Hg.
Qed.

Lemma processor_step_orderly w s s' result :
  processor_step w s = Some (s', result) -> orderly s -> orderly s'.
Proof using iteration_permutes.
  unfold Sensor.processor_step. destruct (processor_task s) as [p [event|] [|event' outbox]|] eqn:Ht; [| | | |done];
    intros Hstep Ho; pose proof Ho as [Hk He Hb Hty Hs Hproc Hbat Hmain]; rewrite Ht in *.
  1,2: destruct (batcher_task s) eqn:Hbt; [|by destruct (Hbat eq_refl)];
    destruct (len (event_queue s) <? EVENT_CAPACITY) eqn:Hl; [|done]; injection Hstep as <- _;
    split; simpl; rewrite ?Hbt; try done; [rewrite len_app; unfold len at 2; simpl; lia|by destruct (main_at s)].
  - destruct (kernel_queue s) as [|captured queue] eqn:Hq.
    + destruct (polling s) eqn:Hpoll; [done|]. injection Hstep as <- _.
      split; simpl; rewrite ?Hpoll, ?Hq; try done; [|by destruct (main_at s)].
      intros Hbt. by destruct (Hbat Hbt).
    + destruct (process iteration captured (p, w)) as [res [p' w']] eqn:Hpr.
      apply Forall_cons in Hty as [Hty1 Hty]. rewrite len_cons in Hk.
      destruct (process_sound _ _ _ _ _ _ Hs Hty1 Hpr) as [Hs' [[events ->]|[e ->]]]; injection Hstep as <- _;
        (split; simpl; try done; [lia|intros Hbt; by destruct (Hbat Hbt)|by destruct (main_at s)]).
  - injection Hstep as <- _. split; simpl; try done; [intros Hbt; by destruct (Hbat Hbt)|by destruct (main_at s)].
Qed.

Lemma after_turn_orderly b wake queue w' b' m' more s :
  batcher_task s = Batching b -> woken s wake queue ->
  exec faulty (turn wake b (metrics s)) (disk s) (Done w' (b', m', more)) ->
  orderly s -> orderly (after_turn queue w' b' m' more s).
Proof using max_positive.
  intros Hb Hw Ho Hor. pose proof Hor as [Hk He Hbuf Hty Hs Hproc Hbat Hmain]. rewrite Hb in Hbuf.
  destruct (turn_turned wake b (metrics s) _ _ _ _ _ Hbuf Ho) as (_ & _ & _ & _ & Hlen & Hset & _ & _).
  pose proof (turn_more wake b (metrics s) _ _ _ _ _ Ho) as Hm.
  assert (len queue <= EVENT_CAPACITY) as Hq.
  { destruct Hw as [event queue now Hq|now|instant hnow now]; [|unfold EVENT_CAPACITY; unfold len; simpl; lia|done].
    rewrite Hq, len_cons in He. lia. }
  split; simpl; try done.
  - by destruct more.
  - destruct more; [done|]. intros _. by destruct Hw.
  - destruct (main_at s); try done; try congruence. destruct Hmain. congruence.
Qed.

(** The disk, the counters and the exporter have no part in it. *)
Lemma orderly_same s s' :
  kernel_queue s' = kernel_queue s -> event_queue s' = event_queue s -> processor_task s' = processor_task s ->
  batcher_task s' = batcher_task s -> (polling s = false -> polling s' = false) ->
  match main_at s' with
  | Serving | JoiningThread | Killed => True
  | AwaitingProcessor => polling s' = false
  | AwaitingBatcher => processor_task s' = ProcessorEnded
  | AwaitingExporter => batcher_task s' = BatcherEnded
  | Exited => batcher_task s' = BatcherEnded /\ exporter_task s' = ExporterEnded
  end -> orderly s -> orderly s'.
Proof.
  intros Hk He Hp Hb Hpoll Hm []. split; rewrite ?Hk, ?He, ?Hp, ?Hb; try done; [|by rewrite <- Hp, <- Hb].
  intros Ht. destruct (or_processor0 Ht). auto.
Qed.

Lemma step_orderly fresh s l s' l' : running s = true -> step fresh s l s' l' -> orderly s -> orderly s'.
Proof using max_positive iteration_permutes.
  intros Hrun Hstep Ho. pose proof (or_main s Ho) as Hmain. unfold running in Hrun.
  destruct Hstep as [stacks bs s' captured code Hp Hc|ready dropped targets tls Hp|Hp|w s' result Hs
    |b wake queue w' b' m' more Hb Hw Hf He|b wake queue w' Hb Hw He|final X m k tr w' x Hx He|final X m k tr w' Hx He
    |shutdown s' He|s' Hm|].
  - by eapply ring_callback_orderly.
  - by apply (orderly_same s).
  - apply (orderly_same s); [done..| |done]. simpl. by destruct (main_at s).
  - by eapply processor_step_orderly.
  - by eapply after_turn_orderly.
  - by apply (orderly_same s).
  - apply (orderly_same s); [done..| |done]. simpl. by destruct (main_at s).
  - by apply (orderly_same s).
  - unfold Sensor.exporter_step in He. destruct (exporter_task s) as [final [pass|X m k]| |]; [|done| |done].
    + injection He as <-. apply (orderly_same s); [done..| |done]. simpl. by destruct (main_at s).
    + destruct shutdown; [destruct (shutting_down s); [|done]|]; injection He as <-;
        (apply (orderly_same s); [done..| |done]); simpl; by destruct (main_at s).
  - unfold main_step in Hm. destruct (main_at s) eqn:Hat; try done.
    + injection Hm as <-. by apply (orderly_same s).
    + destruct (polling s) eqn:Hp; [done|]. injection Hm as <-. by apply (orderly_same s).
    + destruct (processor_task s) eqn:Hp; [done|]. injection Hm as <-. by apply (orderly_same s).
    + destruct (batcher_task s) eqn:Hp; [done|]. injection Hm as <-. by apply (orderly_same s).
    + destruct (exporter_task s) eqn:Hp; [done..|]. injection Hm as <-. by apply (orderly_same s).
  - by apply (orderly_same s).
Qed.

(** * From the kernel to the channel of events *)

(** Counters are modulo 2^64. *)
Definition wrap (n : Z) : Z := n mod 18446744073709551616.

Lemma fetch_add_wrap k n : fetch_add (wrap k) n = wrap (k + n).
Proof. unfold fetch_add, wrap. apply Zplus_mod_idemp_l. Qed.
Lemma wrap_add0 k : fetch_add (wrap k) 0 = wrap k.
Proof. by rewrite fetch_add_wrap, Z.add_0_r. Qed.
Lemma fetch_add_eq k n k' : k + n = k' -> fetch_add (wrap k) n = wrap k'.
Proof. intros <-. apply fetch_add_wrap. Qed.

Definition malformed (bs : bytes) : bool := negb (is_some (from_ring_bytes bs)).
Definition is_error (result : res string (list DamEvent)) : bool :=
  match result with Err _ => true | _ => false end.
Definition count_of {A} (f : A -> bool) (l : list A) : Z := len (filter (fun x => f x = true) l).

Lemma len_one {A} (x : A) : len [x] = 1.
Proof. done. Qed.

Lemma count_of_snoc {A} (f : A -> bool) l x : count_of f (l ++ [x]) = count_of f l + (if f x then 1 else 0).
Proof.
  unfold count_of. rewrite filter_app, len_app. f_equal.
  destruct (f x) eqn:Hf; [rewrite filter_cons_True|rewrite filter_cons_False]; by rewrite ?Hf.
Qed.

(** The calls of [process], on any machine *)
Inductive course : list CapturedKernelEvent -> list (res string (list DamEvent)) -> EventProcessor -> Prop :=
| course_new : course [] [] (new_processor (st_config st))
| course_call taken rs p w captured r p' w' :
    course taken rs p -> well_typed (raw captured) -> process iteration captured (p, w) = (r, (p', w')) ->
    course (taken ++ [captured]) (rs ++ [r]) p'.

Lemma course_history taken rs p : course taken rs p -> history iteration (st_config st) rs p.
Proof. induction 1; [apply history_new|by eapply history_step]. Qed.
Lemma course_length taken rs p : course taken rs p -> length taken = length rs.
Proof. induction 1; [done|]. rewrite !length_app. simpl. lia. Qed.

Definition selected_of (result : res string (list DamEvent)) : list DamEvent :=
  match result with Ok events => selected st events | _ => [] end.
(** The events the processor has in hand, and those of them it has counted *)
Definition in_hand (t : ProcessorTask (OffsetDateTime := OffsetDateTime)) : list DamEvent :=
  match t with Processing _ sending outbox => option_list sending ++ outbox | ProcessorEnded => [] end.
Definition in_flight (t : ProcessorTask (OffsetDateTime := OffsetDateTime)) : list DamEvent :=
  match t with Processing _ sending _ => option_list sending | ProcessorEnded => [] end.

(** Each record of the kernel was malformed, met a full channel, or was accepted,
    and the first two are counted; the accepted ones were processed, in order, or
    wait in the channel; of the results the errors are counted, and the selected
    events were received by the batcher, in order, or wait in the channel or at
    the processor. *)
Record capturing (s : Sensor) (l : Log) : Prop := {
  cp_course : exists p taken, course taken (results l) p /\ accepted l = taken ++ kernel_queue s /\
    match processor_task s with Processing q _ _ => q = p | ProcessorEnded => True end;
  cp_records : 0 <= len (records l) - count_of malformed (records l) - len (accepted l);
  cp_ring : ring_events (metrics s) = wrap (len (records l));
  cp_malformed : malformed_ring_events (metrics s) = wrap (count_of malformed (records l));
  cp_dropped : userspace_dropped_events (metrics s)
    = wrap (len (records l) - count_of malformed (records l) - len (accepted l));
  cp_errors : parse_errors (metrics s) = wrap (count_of is_error (results l));
  cp_events : concat (selected_of <$> results l) = received l ++ event_queue s ++ in_hand (processor_task s);
  cp_counted : metadata_events (metrics s) = wrap (len (received l ++ event_queue s ++ in_flight (processor_task s)))
}.

Lemma capturing_boot w start client earlier :
  capturing (boot from_slice header_value st w start client) (boot_log earlier).
Proof. split; try done. exists (new_processor (st_config st)), []. by split; [apply course_new|]. Qed.

Lemma ring_capturing stacks bs s l s' captured code :
  orderly s -> polling s = true -> ring_callback stacks bs s = (s', captured, code) ->
  capturing s l -> capturing s' (log_ring bs captured l).
Proof.
  intros Hor Hp. unfold ring_callback, on_ring_record, slot.
  assert (forall r, from_ring_bytes bs = r -> malformed bs = negb (is_some r)) as Hmal by (intros r <-; done).
  destruct (from_ring_bytes bs) as [raw|] eqn:Hraw; specialize (Hmal _ eq_refl); simpl in Hmal.
  - destruct (processor_task s) as [p sending outbox|] eqn:Ht.
    + destruct (len (kernel_queue s) <? KERNEL_CAPACITY); intros [= <- <- <-] [(q & taken & Hc & Hacc & Hq) Hr R M D E Ev C];
        rewrite Ht in *; (split; simpl; rewrite ?app_nil_r, ?Ht, ?count_of_snoc, ?Hmal, ?R, ?M, ?D, ?E, ?C, ?len_app,
          ?len_one, ?wrap_add0, ?Z.add_0_r; try done; try (apply fetch_add_eq; lia); try (f_equal; lia); try lia).
      all: try (exists q, taken; by rewrite ?Hacc, ?app_assoc).
    + destruct (or_processor _ Hor Ht). congruence.
  - intros [= <- <- <-] [(q & taken & Hc & Hacc & Hq) Hr R M D E Ev C].
    split; simpl; rewrite ?app_nil_r, ?count_of_snoc, ?Hmal, ?R, ?M, ?D, ?E, ?C, ?len_app, ?len_one, ?wrap_add0;
      try done; try (apply fetch_add_eq; lia); try (f_equal; lia); try lia.
    by exists q, taken.
Qed.

Lemma processor_capturing w s l s' result :
  orderly s -> processor_step w s = Some (s', result) -> capturing s l -> capturing s' (log_result result l).
Proof using iteration_permutes.
  intros Hor. unfold Sensor.processor_step. pose proof (or_sound _ Hor) as Hsound. pose proof (or_typed _ Hor) as Hty.
  destruct (processor_task s) as [p [event|] [|event' outbox]|] eqn:Ht; [| | | |done];
    intros Hstep [(q & taken & Hc & Hacc & Hq) Hr R M D E Ev C]; rewrite Ht in *; subst q.
  1,2: destruct (batcher_task s) eqn:Hbt; [|destruct (or_batcher _ Hor Hbt); congruence];
    destruct (len (event_queue s) <? EVENT_CAPACITY); [|done]; injection Hstep as <- <-;
    (split; simpl; rewrite ?app_nil_r, ?Ev, ?C, <- ?app_assoc; try done; try by exists p, taken).
  - destruct (kernel_queue s) as [|captured queue] eqn:Hk.
    + destruct (polling s); [done|]. injection Hstep as <- <-.
      split; simpl; rewrite ?app_nil_r, ?Hk; try done; [by exists p, taken|by rewrite Ev; simpl; rewrite app_nil_r|by rewrite C; simpl; rewrite app_nil_r].
    + destruct (process iteration captured (p, w)) as [res [p' w']] eqn:Hp.
      apply Forall_cons in Hty as [Hty _]. pose proof (course_call _ _ _ _ _ _ _ _ Hc Hty Hp) as Hc'.
      destruct (process_sound _ _ _ _ _ _ Hsound Hty Hp) as [_ [[events ->]|[e ->]]]; injection Hstep as <- <-;
        (split; simpl; rewrite ?fmap_app, ?concat_app, ?count_of_snoc, ?Z.add_0_r, ?Ev; simpl; rewrite ?app_nil_r,
          <- ?app_assoc; try done).
      * exists p', (taken ++ [captured]). by rewrite Hacc, <- app_assoc.
      * rewrite C. simpl. by rewrite app_nil_r.
      * exists p', (taken ++ [captured]). by rewrite Hacc, <- app_assoc.
      * rewrite E. by apply fetch_add_eq.
      * rewrite C. simpl. by rewrite app_nil_r, wrap_add0.
  - injection Hstep as <- <-. split; simpl; rewrite ?app_nil_r, ?Ev, ?E, ?wrap_add0; try done; [by exists p, taken|].
    rewrite C. apply fetch_add_eq. simpl. rewrite app_nil_r, !len_app, len_one. lia.
Qed.

(** What a flush does to the counters *)
Definition spooled_of (flushes : list flush_record) : Z := len (filter (fun f => f.2 = true) flushes).
Definition dropped_of (flushes : list flush_record) : Z :=
  foldr (fun (f : flush_record) n => (if f.2 then 0 else len f.1) + n) 0 flushes.
Definition batch_counters (spooled dropped : Z) (m : RuntimeMetrics) : Prop :=
  batches_spooled m = wrap spooled /\ spool_dropped_events m = wrap dropped.
(** The counters the ring buffer callback and the processor keep *)
Definition capture_counters (m : RuntimeMetrics) : list Z :=
  [ring_events m; malformed_ring_events m; userspace_dropped_events m].

Lemma tally_capture (flushes : list flush_record) m errors events :
  parse_errors m = wrap errors -> metadata_events m = wrap events ->
  capture_counters (tally flushes m) = capture_counters m /\
  parse_errors (tally flushes m) = wrap errors /\ metadata_events (tally flushes m) = wrap events.
Proof.
  revert m. induction flushes as [|[es ok] flushes IH]; intros m He Hv; [done|].
  destruct ok; [apply (IH (count_events 0 0 1 0 m))|apply (IH (count_events 0 0 0 (len es) m))]; simpl;
    rewrite ?He, ?Hv; apply wrap_add0.
Qed.

Lemma tally_batches (flushes : list flush_record) m spooled dropped :
  batch_counters spooled dropped m ->
  batch_counters (spooled + spooled_of flushes) (dropped + dropped_of flushes) (tally flushes m).
Proof.
  revert m spooled dropped. induction flushes as [|[es ok] flushes IH]; intros m sp dr [Hs Hd].
  - unfold spooled_of, len. simpl. by rewrite !Z.add_0_r.
  - unfold spooled_of in *. destruct ok; [rewrite filter_cons_True by done|rewrite filter_cons_False by done];
      rewrite ?len_cons; cbn [dropped_of foldr snd fst]; rewrite !Z.add_assoc.
    + rewrite Z.add_0_r. apply (IH (count_events 0 0 1 0 m)). split; simpl; rewrite ?Hs, ?Hd, fetch_add_wrap; by rewrite ?Z.add_0_r.
    + apply (IH (count_events 0 0 0 (len es) m)). split; simpl; rewrite ?Hs, ?Hd, fetch_add_wrap; by rewrite ?Z.add_0_r.
Qed.

Lemma batcher_capturing wake b queue w' b' m' more s l :
  batcher_task s = Batching b -> woken s wake queue -> orderly s ->
  exec faulty (turn wake b (metrics s)) (disk s) (Done w' (b', m', more)) ->
  capturing s l -> capturing (after_turn queue w' b' m' more s) (log_wake wake l).
Proof using max_positive.
  intros Hb Hw Hor Ho [Hc Hr R M D E Ev C]. pose proof (or_buffer _ Hor) as Hbuf. rewrite Hb in Hbuf.
  destruct (turn_turned wake b (metrics s) _ _ _ _ _ Hbuf Ho) as (arrived & flushes & [_ _ ->] & _).
  destruct (tally_capture flushes (metrics s) _ _ E C) as ([= R' M' D'] & E' & C').
  assert (received l ++ event_queue s = received (log_wake wake l) ++ queue) as Hq.
  { destruct Hw as [event queue now Hq|now Hq|instant hnow now]; simpl; rewrite ?app_nil_r;
      [by rewrite Hq, <- app_assoc|by rewrite Hq, app_nil_r|done]. }
  split; simpl; rewrite ?R', ?M', ?D'; try done.
  - by rewrite Ev, !app_assoc, Hq.
  - by rewrite C', !app_assoc, Hq.
Qed.

(** The disk, the exporter, the gauges and the main task have no part in it. *)
Lemma capturing_same s l s' l' :
  kernel_queue s' = kernel_queue s -> event_queue s' = event_queue s -> processor_task s' = processor_task s ->
  records l' = records l -> accepted l' = accepted l -> results l' = results l -> received l' = received l ->
  capture_counters (metrics s') = capture_counters (metrics s) -> parse_errors (metrics s') = parse_errors (metrics s) ->
  metadata_events (metrics s') = metadata_events (metrics s) ->
  capturing s l -> capturing s' l'.
Proof.
  intros Hk He Hp Hr Ha Hres Hrec [= R M D] E C []. split; rewrite ?Hk, ?He, ?Hp, ?Hr, ?Ha, ?Hres, ?Hrec, ?R, ?M, ?D, ?E, ?C; done.
Qed.

Lemma step_capturing fresh s l s' l' :
  orderly s -> step fresh s l s' l' -> capturing s l -> capturing s' l'.
Proof using max_positive iteration_permutes.
  intros Hor Hstep Hc.
  destruct Hstep as [stacks bs s' captured code Hp Hr|ready dropped targets tls Hp|Hp|w s' result Hs
    |b wake queue w' b' m' more Hb Hw Hf He|b wake queue w' Hb Hw He|final X m k tr w' x Hx He|final X m k tr w' Hx He
    |shutdown s' He|s' Hm|].
  - by eapply ring_capturing.
  - by apply (capturing_same s l).
  - by apply (capturing_same s l).
  - by eapply processor_capturing.
  - by eapply batcher_capturing.
  - by apply (capturing_same s l).
  - by apply (capturing_same s l).
  - by apply (capturing_same s l).
  - unfold Sensor.exporter_step in He. destruct (exporter_task s) as [final [pass|X m k]| |]; [|done| |done].
    + injection He as <-. by apply (capturing_same s l).
    + destruct shutdown; [destruct (shutting_down s); [|done]|]; injection He as <-; by apply (capturing_same s l).
  - unfold main_step in Hm. destruct (main_at s); try done; [|destruct (polling s)|destruct (processor_task s)
      |destruct (batcher_task s)|destruct (exporter_task s)]; try done; injection Hm as <-; by apply (capturing_same s l).
  - by apply (capturing_same s l).
Qed.

(** * From the channel of events to the disk *)
Context (doubtful : gset string).
Abbreviation flushing := (flushing nanos to_vec doubtful faulty).
Abbreviation sensor_life := (sensor_life nanos from_slice to_vec header_value doubtful faulty).
Abbreviation flush_batch := (flush_batch nanos to_vec (st_max_bytes st) (st_assignment st)).

(** The disk has a history with these batches and requests; the pass under way is
    part of it. *)
Definition disk_history (t : ExporterTask) (w : world) (ids : gset string) (made : list sent) : Prop :=
  match t with
  | Exporting _ t => exists t0 w0 ids0 tr0 tr1, sensor_life w0 ids0 tr0 /\ exports from_slice header_value t0 /\
      advanced faulty flushing t0 w0 ids0 tr1 t w ids /\ made = tr0 ++ tr1
  | _ => sensor_life w ids made
  end.

Lemma disk_history_life t w ids made : disk_history t w ids made -> sensor_life w ids made.
Proof.
  destruct t as [final t| |]; [|done..]. intros (t0 & w0 & ids0 & tr0 & tr1 & Hl & Ht & Ha & ->).
  rewrite <- (app_nil_r tr1). apply (sensor_export _ _ _ _ _ _ w0 ids0 tr0 t0 _ (Crashed w)); [done..|].
  eapply advanced_interleaved; [exact Ha|apply interleaved_stop].
Qed.

Lemma disk_history_flush t w ids made w' ids' :
  disk_history t w ids made -> flushing w ids w' ids' -> disk_history t w' ids' made.
Proof.
  destruct t as [final t| |]; [|by apply sensor_flush..]. intros (t0 & w0 & ids0 & tr0 & tr1 & Hl & Ht & Ha & ->) Hf.
  exists t0, w0, ids0, tr0, tr1. split_and!; [done..| |done]. by eapply advanced_env.
Qed.

(** The batch of the events is among those spooled. *)
Definition in_batch (ids : gset string) (es : list DamEvent) : Prop :=
  exists now body, to_vec (batch_of nanos (st_assignment st) es now) = inr body /\ spool_digest body ∈ ids.
(** A flush was not empty nor too large, and its batch is spooled, or it was
    dropped. *)
Definition fate (ids : gset string) (f : flush_record) : Prop :=
  1 <= len f.1 <= st_max_events st /\ (f.2 = true -> in_batch ids f.1).

Lemma fate_mono ids ids' f : ids ⊆ ids' -> fate ids f -> fate ids' f.
Proof. intros Hs [Hl Hf]. split; [exact Hl|]. intros Ht. destruct (Hf Ht) as (now & body & Hv & Hi). exists now, body. auto. Qed.

Lemma flush_body es now m w w' m' :
  exec faulty (flush_batch es now m) w (Done w' (m', true)) ->
  exists body, to_vec (batch_of nanos (st_assignment st) es now) = inr body.
Proof.
  intros Ho. assert (cwp faulty (fun _ r => r.2 = true -> exists body,
    to_vec (batch_of nanos (st_assignment st) es now) = inr body) (fun _ => True) (flush_batch es now m) w) as Hc;
    [|exact (Hc _ Ho eq_refl)].
  unfold Agent.flush_batch. destruct es as [|e es]; [by apply cwp_ret|].
  destruct (to_vec _) as [error|body] eqn:Hv; [by apply cwp_ret|].
  apply cwp_bind. intros [w1 r|w1] _; [|done]. destruct r; (apply cwp_ret; [done|]); eauto.
Qed.

Lemma flushed_history t w ids made now w' flushes :
  fresh_at nanos to_vec st (vouched doubtful) now w ->
  flushed nanos to_vec (st_assignment st) (st_max_bytes st) faulty now w w' flushes ->
  Forall (fun f => 1 <= len f.1 <= st_max_events st) flushes -> disk_history t w ids made ->
  exists ids', disk_history t w' ids' made /\ ids ⊆ ids' /\ Forall (fate ids') flushes.
Proof.
  intros Hfresh [[-> ->]|(es & ok & m & m' & Hes & -> & Ho)] Hlen Hh; [by exists ids|].
  rewrite Forall_singleton in Hlen. destruct ok.
  - destruct (flush_body _ _ _ _ _ _ Ho) as [body Hb]. exists ({[spool_digest body]} ∪ ids). split_and!.
    + eapply disk_history_flush; [exact Hh|]. eapply flushing_spooled; [exact Hes|exact Hb|by eapply Hfresh|exact Ho].
    + apply union_subseteq_r.
    + apply Forall_singleton. split; [exact Hlen|]. intros _. exists now, body.
      split; [done|by apply elem_of_union_l, elem_of_singleton].
  - exists ids. split_and!; [|done|by apply Forall_singleton; split; [exact Hlen|]].
    eapply disk_history_flush; [exact Hh|]. exact (flushing_cut _ _ _ _ w ids _ _ _ _ m (Done w' (m', false)) Ho).
Qed.

(** A turn that is cut off leaves the disk as it was, or within a flush. *)
Definition cut_flush (w w' : world) : Prop :=
  w' = w \/ exists es now m o, exec faulty (flush_batch es now m) w o /\ world_of o = w'.

Lemma cwp_flush_cut (b : bool) x now m w :
  cwp faulty (fun w' _ => cut_flush w w') (cut_flush w)
    (flush_if nanos to_vec b (st_max_bytes st) (st_assignment st) x now m) w.
Proof.
  unfold flush_if. destruct b; [|apply cwp_ret; by left]. apply cwp_bind.
  intros [w1 [m1 ok]|w1] Ho; [|by right; exists (buffered x), now, m, (Crashed w1)].
  assert (cut_flush w w1) by (by right; exists (buffered x), now, m, (Done w1 (m1, ok))). by apply cwp_ret.
Qed.

Lemma turn_cut wake b m w w' : exec faulty (turn wake b m) w (Crashed w') -> cut_flush w w'.
Proof.
  intros Ho. assert (cwp faulty (fun _ _ => True) (cut_flush w) (turn wake b m) w) as Hc; [|exact (Hc _ Ho)].
  assert (cut_flush w w) as Hw by (by left).
  assert (forall (x : bool) y now m (v : bool), cwp faulty (fun _ _ => True) (cut_flush w)
    (bind_prog (flush_if nanos to_vec x (st_max_bytes st) (st_assignment st) y now m)
       (fun sm : Batcher * RuntimeMetrics => let '(s, m) := sm in Ret (s, m, v))) w) as Hflush.
  { intros x y now m1 v. apply cwp_bind. eapply cwp_mono; [apply cwp_flush_cut| |done].
    intros w1 [b1 m2] Hw1. by apply cwp_ret. }
  destruct wake as [event now|now|instant hnow now]; [apply Hflush|apply Hflush|].
  apply cwp_bind. apply (cwp_mono _ (fun w1 _ => w1 = w) _ (fun w1 => w1 = w)); [|by intros w1 b1 ->; apply Hflush|by intros w1 ->].
  destruct (_ && _); [|by apply cwp_ret]. apply cwp_bind, cwp_bind.
  eapply cwp_mono; [apply cwp_directory_stats| |done]. intros w1 r [-> _]. by apply cwp_ret; [|apply cwp_ret].
Qed.

(** The events received, with health events of this sensor among them *)
Inductive mixed : list DamEvent -> list DamEvent -> Prop :=
| mixed_nil : mixed [] []
| mixed_received rs es e : mixed rs es -> mixed (rs ++ [e]) (es ++ [e])
| mixed_health rs es m now n : mixed rs es -> mixed rs (es ++ [health_event nanos (st_assignment st) m now n]).

Lemma mixed_turn wake b m w w' b' m' more rs es :
  turned nanos to_vec (st_assignment st) (st_max_bytes st) (st_max_events st) (st_emit_sensor_health st) faulty
    wake b m w w' b' m' more -> mixed rs es ->
  exists arrived flushes,
    batched nanos to_vec (st_assignment st) (st_max_events st) arrived b m w' b' m' flushes /\
    flushed nanos to_vec (st_assignment st) (st_max_bytes st) faulty (flush_time wake) w w' flushes /\
    (more = false -> buffered b' = []) /\
    mixed (rs ++ (match wake with Received event _ => [event] | _ => [] end)) (es ++ arrived).
Proof.
  intros (arrived & flushes & Hb & Hf & _ & Hset & Hmore & Harr) Hmix. exists arrived, flushes.
  split_and!; [done|done| |].
  - intros Hm. apply Hset. destruct (settling wake) eqn:Hw; [done|]. by specialize (Hmore eq_refl); subst.
  - specialize (Harr [] [] (fun _ => eq_refl) (fun _ => arrivals_nil _ _ _ _)). rewrite app_nil_r in Harr.
    inversion Harr as [|l e now ws es' Ha| |l i hn now ws es' Hd Ha|l i hn now ws es' mm n Hd Ha]; subst;
      try (inversion Ha; subst); rewrite ?app_nil_r; [by apply mixed_received|done|done|by apply mixed_health].
Qed.

Lemma elem_of_concat {A} (x : A) ls : x ∈ concat ls <-> exists l, l ∈ ls /\ x ∈ l.
Proof. rewrite list_elem_of_In, in_concat. setoid_rewrite list_elem_of_In. done. Qed.

Lemma mixed_elem rs es : mixed rs es -> forall e, e ∈ rs -> e ∈ es.
Proof. induction 1; intros x; rewrite ?elem_of_app; intuition. Qed.

(** What the batcher made of the events it received *)
Record batching (s : Sensor) (l : Log) (arrived : list DamEvent) (flushes : list flush_record) (ids : gset string)
    : Prop := {
  ba_mixed : mixed (received l) arrived;
  ba_flushes : arrived = concat (flushes.*1) ++ in_buffer (batcher_task s);
  ba_fates : Forall (fate ids) flushes;
  ba_counters : batch_counters (spooled_of flushes) (dropped_of flushes) (metrics s);
  ba_disk : disk_history (exporter_task s) (disk s) ids (requests l)
}.

Lemma spooled_of_app flushes flushes' : spooled_of (flushes ++ flushes') = spooled_of flushes + spooled_of flushes'.
Proof. unfold spooled_of. by rewrite filter_app, len_app. Qed.
Lemma dropped_of_app flushes flushes' : dropped_of (flushes ++ flushes') = dropped_of flushes + dropped_of flushes'.
Proof. induction flushes as [|f flushes IH]; [done|]. cbn [app dropped_of foldr] in *. unfold dropped_of in *. rewrite IH. lia. Qed.

Lemma batcher_batching wake b queue w' b' m' more s l arrived flushes ids :
  batcher_task s = Batching b -> orderly s -> fresh_at nanos to_vec st (vouched doubtful) (flush_time wake) (disk s) ->
  exec faulty (turn wake b (metrics s)) (disk s) (Done w' (b', m', more)) ->
  batching s l arrived flushes ids ->
  exists arrived' flushes' ids', ids ⊆ ids' /\
    batching (after_turn queue w' b' m' more s) (log_wake wake l) arrived' flushes' ids'.
Proof using max_positive.
  intros Hb Hor Hfresh Ho [Hmix Hfl Hfate Hcount Hdisk]. pose proof (or_buffer _ Hor) as Hbuf. rewrite Hb in Hbuf, Hfl.
  pose proof (turn_turned wake b (metrics s) _ _ _ _ _ Hbuf Ho) as Ht.
  destruct (mixed_turn _ _ _ _ _ _ _ _ _ _ Ht Hmix) as (new & made & [Hev Hok ->] & Hflushed & Hend & Hmix').
  assert (Forall (fun f => 1 <= len f.1 <= st_max_events st) made) as Hlen.
  { eapply Forall_impl; [exact Hok|]. by intros f [Hf _]. }
  destruct (flushed_history _ _ _ _ _ _ _ Hfresh Hflushed Hlen Hdisk) as (ids' & Hh & Hsub & Hfates).
  exists (arrived ++ new), (flushes ++ made), ids'. split; [done|]. split; simpl; [done| | | |done].
  - rewrite Hfl, fmap_app, concat_app, <- !app_assoc. simpl. rewrite Hev. do 2 f_equal.
    destruct more; [done|]. simpl. by apply Hend.
  - apply Forall_app. split; [|done]. eapply Forall_impl; [exact Hfate|]. intros f Hf. by eapply fate_mono.
  - rewrite spooled_of_app, dropped_of_app. by apply tally_batches.
Qed.

Lemma batching_same s l s' l' arrived flushes ids :
  received l' = received l -> in_buffer (batcher_task s') = in_buffer (batcher_task s) ->
  batch_counters (spooled_of flushes) (dropped_of flushes) (metrics s') ->
  disk_history (exporter_task s') (disk s') ids (requests l') ->
  batching s l arrived flushes ids -> batching s' l' arrived flushes ids.
Proof. intros Hr Hb Hc Hd []. split; rewrite ?Hr, ?Hb; done. Qed.

Lemma ring_batching stacks bs (s s' : Sensor) captured code :
  ring_callback stacks bs s = (s', captured, code) ->
  batcher_task s' = batcher_task s /\ exporter_task s' = exporter_task s /\ disk s' = disk s /\
  batches_spooled (metrics s') = batches_spooled (metrics s) /\
  spool_dropped_events (metrics s') = spool_dropped_events (metrics s).
Proof.
  unfold ring_callback, on_ring_record. destruct (from_ring_bytes bs); [destruct (slot s)|]; intros [= <- _ _]; done.
Qed.

Lemma processor_batching w (s s' : Sensor) result spooled dropped :
  processor_step w s = Some (s', result) ->
  batcher_task s' = batcher_task s /\ exporter_task s' = exporter_task s /\ disk s' = disk s /\
  (batch_counters spooled dropped (metrics s) -> batch_counters spooled dropped (metrics s')).
Proof.
  assert (forall e v, batch_counters spooled dropped (metrics s) ->
    batch_counters spooled dropped (count_events e v 0 0 (metrics s))) as Hcount.
  { intros e v [Hs Hd]. split; simpl; rewrite ?Hs, ?Hd; apply wrap_add0. }
  unfold Sensor.processor_step. destruct (processor_task s) as [p [event|] [|event' outbox]|]; [..|done];
    [destruct (batcher_task s) eqn:Hb; [destruct (_ <? _); [|done]|].. | |];
    [intros [= <- _]; by rewrite ?Hb..| |].
  - destruct (kernel_queue s) as [|captured queue]; [destruct (polling s); [done|]; by intros [= <- _]|].
    destruct (process iteration captured (p, w)) as [[events|e|f] [p' w']]; intros [= <- _]; split_and!; try done.
    apply Hcount.
  - intros [= <- _]. split_and!; try done. apply Hcount.
Qed.

Lemma exporter_batching shutdown (s s' : Sensor) ids made :
  exporter_step shutdown s = Some s' ->
  batcher_task s' = batcher_task s /\ disk s' = disk s /\
  batches_spooled (metrics s') = batches_spooled (metrics s) /\
  spool_dropped_events (metrics s') = spool_dropped_events (metrics s) /\
  (disk_history (exporter_task s) (disk s) ids made -> disk_history (exporter_task s') (disk s') ids made).
Proof.
  unfold Sensor.exporter_step. destruct (exporter_task s) as [final [pass|X m k]| |]; [|done| |done].
  - intros [= <-]. split_and!; try done. intros Hh%disk_history_life. by destruct final.
  - assert (forall t, exports from_slice header_value t -> sensor_life (disk s) ids made ->
      exists t0 w0 ids0 tr0 tr1, sensor_life w0 ids0 tr0 /\ exports from_slice header_value t0 /\
        advanced faulty flushing t0 w0 ids0 tr1 t (disk s) ids /\ made = tr0 ++ tr1) as Hstart.
    { intros t Ht Hl. exists t, (disk s), ids, made, []. rewrite app_nil_r. split_and!; [done..|apply advanced_start|done]. }
    destruct shutdown; [destruct (shutting_down s); [|done]|]; intros [= <-]; split_and!; try done; intros Hl;
      apply Hstart; try done; eexists; [by right|by left].
Qed.

Lemma step_batching s l s' l' arrived flushes ids :
  orderly s -> step (vouched doubtful) s l s' l' -> batching s l arrived flushes ids ->
  exists arrived' flushes' ids', ids ⊆ ids' /\ batching s' l' arrived' flushes' ids'.
Proof using max_positive.
  intros Hor Hstep Hb. pose proof Hb as [Hmix Hfl Hfate Hcount Hdisk].
  assert (batching s' l' arrived flushes ids ->
    exists arrived' flushes' ids', ids ⊆ ids' /\ batching s' l' arrived' flushes' ids') as Hsame.
  { intros H'. by exists arrived, flushes, ids. }
  destruct Hstep as [stacks bs s' captured code Hp Hr|ready dropped targets tls Hp|Hp|w s' result Hs
    |b wake queue w' b' m' more Hbt Hw Hf He|b wake queue w' Hbt Hw He|final X m k tr w' x Hx He|final X m k tr w' Hx He
    |shutdown s' He|s' Hm|].
  5: by eapply batcher_batching.
  all: apply Hsame.
  - destruct (ring_batching _ _ _ _ _ _ Hr) as (E1 & E2 & E3 & E4 & E5).
    apply (batching_same s l); rewrite ?E1, ?E2, ?E3; try done. destruct Hcount. split; congruence.
  - by apply (batching_same s l).
  - by apply (batching_same s l).
  - destruct (processor_batching _ _ _ _ (spooled_of flushes) (dropped_of flushes) Hs) as (E1 & E2 & E3 & E4).
    apply (batching_same s l); rewrite ?E1, ?E2, ?E3; auto.
  - apply (batching_same s l); try done. simpl. eapply disk_history_flush; [exact Hdisk|].
    destruct (turn_cut _ _ _ _ _ He) as [->|(es & now & m & o & Ho & <-)]; [|by eapply flushing_cut].
    apply (flushing_cut _ _ _ _ _ _ (st_max_bytes st) (st_assignment st) [] (flush_time wake) (metrics s) (Crashed (disk s))).
    by left.
  - apply (batching_same s l); try done. simpl. rewrite Hx in Hdisk.
    destruct Hdisk as (t0 & w0 & ids0 & tr0 & tr1 & Hl & Ht & Ha & Hr). exists t0, w0, ids0, tr0, (tr1 ++ tr).
    rewrite Hr, <- app_assoc. split_and!; [done..| |done]. by eapply advanced_method.
  - apply (batching_same s l); try done. simpl. rewrite Hx in Hdisk.
    destruct Hdisk as (t0 & w0 & ids0 & tr0 & tr1 & Hl & Ht & Ha & Hr). rewrite Hr, <- app_assoc.
    apply (sensor_export _ _ _ _ _ _ w0 ids0 tr0 t0 _ (Crashed w')); [done..|].
    eapply advanced_interleaved; [exact Ha|by apply interleaved_cut].
  - destruct (exporter_batching _ _ _ ids (requests l) He) as (E1 & E2 & E3 & E4 & E5).
    apply (batching_same s l); rewrite ?E1; auto. destruct Hcount. split; congruence.
  - unfold main_step in Hm. destruct (main_at s); try done; [|destruct (polling s)|destruct (processor_task s)
      |destruct (batcher_task s) eqn:Hbt|destruct (exporter_task s) eqn:Hx]; try done; injection Hm as <-;
      apply (batching_same s l); simpl; rewrite ?Hbt, ?Hx; done.
  - by apply (batching_same s l).
Qed.

(** * Shutdown

    [can s P]: the tasks can get from [s] to a state of [P] on their own, without a
    record of the kernel or a signal. *)
Section shutdown.
Context (fresh : string -> world -> Prop) (always_fresh : forall i w, fresh i w) (machine : World)
  (time : OffsetDateTime).
Abbreviation step := (step fresh).
Abbreviation steps := (steps fresh).

Definition can (s : Sensor) (P : Sensor -> Prop) : Prop :=
  orderly s -> forall l, exists s' l', steps s l s' l' /\ records l' = records l /\ orderly s' /\ P s'.

Lemma can_now (P : Sensor -> Prop) s : P s -> can s P.
Proof. intros HP Ho l. exists s, l. split_and!; [constructor|done..]. Qed.

Lemma can_step (P : Sensor -> Prop) s s' (f : Log -> Log) :
  running s = true -> (forall l, step s l s' (f l) /\ records (f l) = records l) -> can s' P -> can s P.
Proof using iteration_permutes max_positive.
  intros Hr Hs Hc Ho l. destruct (Hs l) as [Hs1 Hrec].
  pose proof (step_orderly fresh s l s' (f l) Hr Hs1 Ho) as Ho'.
  destruct (Hc Ho' (f l)) as (s2 & l2 & Hsteps & Hrec2 & Ho2 & HP). exists s2, l2.
  split_and!; [by eapply steps_one|congruence|done..].
Qed.

Lemma can_trans (P Q : Sensor -> Prop) s : can s P -> (forall s', orderly s' -> P s' -> can s' Q) -> can s Q.
Proof.
  intros Hc Hq Ho l. destruct (Hc Ho l) as (s1 & l1 & Hs1 & Hr1 & Ho1 & HP).
  destruct (Hq s1 Ho1 HP Ho1 l1) as (s2 & l2 & Hs2 & Hr2 & Ho2 & HQ). exists s2, l2.
  split_and!; [by eapply steps_trans|congruence|done..].
Qed.

(** What stays as it is while the processor and the batcher work *)
Definition stopped (at_ : Main) (s : Sensor) : Prop := main_at s = at_ /\ polling s = false.
Lemma stopped_running at_ s : stopped at_ s -> (match at_ with Exited | Killed => false | _ => true end) = true -> running s = true.
Proof. intros [Hm _] H'. unfold running. by rewrite Hm. Qed.

(** ** The batcher *)
Definition batcher_works (s : Sensor) : Prop := exists b, batcher_task s = Batching b.

Lemma can_receive at_ event queue s P :
  (match at_ with Exited | Killed => false | _ => true end) = true -> stopped at_ s -> batcher_works s ->
  event_queue s = event :: queue ->
  (forall s', stopped at_ s' -> batcher_works s' -> event_queue s' = queue -> kernel_queue s' = kernel_queue s ->
     processor_task s' = processor_task s -> exporter_task s' = exporter_task s -> can s' P) ->
  can s P.
Proof using always_fresh iteration_permutes max_positive machine time.
  intros Hat Hst [b Hb] Hq Hk.
  pose proof (run_exec faulty (turn (Received event time) b (metrics s)) (disk s)) as Ho.
  destruct (run (turn (Received event time) b (metrics s)) (disk s)) as [w' [[b' m'] more]]. cbn [fst snd] in Ho.
  pose proof (turn_more _ _ _ _ _ _ _ _ Ho) as ->.
  eapply (can_step P s (after_turn queue w' b' m' true s) (log_wake (Received event time)));
    [by eapply stopped_running| |apply Hk; [done|by exists b'|done..]].
  intros l. split; [|done]. eapply step_batcher; [exact Hb|by apply woken_received| |exact Ho].
  intros es body _. apply always_fresh.
Qed.

(** ** The processor *)
Definition processing (p : EventProcessor) sending outbox queue (s : Sensor) : Prop :=
  batcher_works s /\ processor_task s = Processing p sending outbox /\ kernel_queue s = queue.
Abbreviation active at_ := (match at_ with Exited | Killed => false | _ => true end = true).

Lemma can_processor s s' result P :
  running s = true -> processor_step machine s = Some (s', result) -> can s' P -> can s P.
Proof using iteration_permutes max_positive.
  intros Hr Hs. eapply can_step with (f := log_result result); [done|]. intros l. split; [by eapply step_processor|done].
Qed.

Lemma can_send at_ p event outbox queue s :
  active at_ -> stopped at_ s -> processing p (Some event) outbox queue s ->
  can s (fun s' => stopped at_ s' /\ processing p None outbox queue s').
Proof using always_fresh iteration_permutes max_positive machine time.
  intros Hat Hst Hpr.
  assert (forall s, stopped at_ s -> processing p (Some event) outbox queue s -> len (event_queue s) < EVENT_CAPACITY ->
    can s (fun s' => stopped at_ s' /\ processing p None outbox queue s')) as Hroom.
  { intros s0 Hst0 ([b Hb] & Hp & Hq) Hl. eapply can_processor with (result := None); [by eapply stopped_running|..].
    - unfold Sensor.processor_step. rewrite Hp, Hb. destruct (len (event_queue s0) <? EVENT_CAPACITY) eqn:Hlt; [done|lia].
    - apply can_now. split; [by destruct Hst0|]. split; [by exists b|]. split; [reflexivity|exact Hq]. }
  destruct (len (event_queue s) <? EVENT_CAPACITY) eqn:Hlt; [apply Hroom; [done..|lia]|].
  destruct (event_queue s) as [|first rest] eqn:Hq; [done|]. intros Ho. pose proof (or_events _ Ho) as Hev. revert Ho.
  rewrite Hq, len_cons in Hev. destruct Hpr as (Hb & Hp & Hk).
  eapply can_receive; [done|done|done|exact Hq|]. intros s' Hst' Hb' Hq' Hk' Hp' _.
  apply Hroom; [done|by split_and!; [|rewrite Hp'|rewrite Hk']|rewrite Hq'; lia].
Qed.

Lemma can_outbox at_ p outbox queue s :
  active at_ -> stopped at_ s -> processing p None outbox queue s ->
  can s (fun s' => stopped at_ s' /\ processing p None [] queue s').
Proof using always_fresh iteration_permutes max_positive machine time.
  intros Hat. revert s. induction outbox as [|event outbox IH]; intros s Hst Hpr; [by apply can_now|].
  pose proof Hpr as ([b Hb] & Hp & Hk).
  eapply can_processor with (result := None);
    [by eapply stopped_running|unfold Sensor.processor_step; rewrite Hp; reflexivity|].
  eapply can_trans; [apply (can_send at_ p event outbox queue)|].
  - done.
  - by destruct Hst.
  - split; [by exists b|done].
  - intros s' _ [Hst' Hpr']. by apply IH.
Qed.

Lemma can_process at_ p queue s :
  active at_ -> stopped at_ s -> processing p None [] queue s ->
  can s (fun s' => stopped at_ s' /\ batcher_works s' /\ processor_task s' = ProcessorEnded).
Proof using always_fresh iteration_permutes max_positive machine time.
  intros Hat. revert p s. induction queue as [|captured queue IH]; intros p s Hst Hpr; pose proof Hpr as ([b Hb] & Hp & Hk).
  - eapply can_processor with (result := None); [by eapply stopped_running|..].
    + unfold Sensor.processor_step. rewrite Hp, Hk. destruct Hst as [_ ->]. reflexivity.
    + apply can_now. split_and!; [by destruct Hst..|by exists b|done].
  - destruct (process iteration captured (p, machine)) as [r [p' w']] eqn:Hr. intros Ho.
    pose proof (or_typed _ Ho) as Hty. rewrite Hk in Hty. apply Forall_cons in Hty as [Hty _].
    pose proof (or_sound _ Ho) as Hso. rewrite Hp in Hso.
    destruct (process_sound _ _ _ _ _ _ Hso Hty Hr) as [_ Hres]. revert Ho.
    assert (forall outbox s', stopped at_ s' -> processing p' None outbox queue s' ->
      can s' (fun s' => stopped at_ s' /\ batcher_works s' /\ processor_task s' = ProcessorEnded)) as Hgo.
    { intros outbox s' Hst' Hpr'. eapply can_trans; [by apply (can_outbox at_ p' outbox queue)|].
      intros s2 _ [Hst2 Hpr2]. by apply (IH p'). }
    destruct Hres as [[events ->]|[e ->]]; (eapply can_processor with (result := Some _);
      [by eapply stopped_running|unfold Sensor.processor_step; rewrite Hp, Hk, Hr; reflexivity|]);
      (eapply Hgo; [by destruct Hst|split; [by exists b|by split]]).
Qed.

Lemma can_end_processor at_ s :
  active at_ -> stopped at_ s -> batcher_works s ->
  can s (fun s' => stopped at_ s' /\ batcher_works s' /\ processor_task s' = ProcessorEnded).
Proof using always_fresh iteration_permutes max_positive machine time.
  intros Hat Hst Hb. destruct (processor_task s) as [p sending outbox|] eqn:Hp; [|by apply can_now].
  assert (forall s', stopped at_ s' -> processing p None outbox (kernel_queue s) s' ->
    can s' (fun s' => stopped at_ s' /\ batcher_works s' /\ processor_task s' = ProcessorEnded)) as Hgo.
  { intros s' Hst' Hpr'. eapply can_trans; [by apply (can_outbox at_ p outbox (kernel_queue s))|].
    intros s2 _ [Hst2 Hpr2]. by eapply can_process. }
  destruct sending as [event|]; [|by apply Hgo].
  eapply can_trans; [by eapply (can_send at_ p event outbox (kernel_queue s))|]. intros s' _ [Hst' Hpr']. by apply Hgo.
Qed.

Lemma can_end_batcher at_ s :
  active at_ -> stopped at_ s -> batcher_works s -> processor_task s = ProcessorEnded ->
  can s (fun s' => stopped at_ s' /\ batcher_task s' = BatcherEnded).
Proof using always_fresh iteration_permutes max_positive machine time.
  intros Hat. remember (event_queue s) as queue eqn:Hq. symmetry in Hq. revert s Hq.
  induction queue as [|event queue IH]; intros s Hq Hst Hb Hp.
  - destruct Hb as [b Hb]. pose proof (run_exec faulty (turn (Hangup time) b (metrics s)) (disk s)) as Ho.
    destruct (run (turn (Hangup time) b (metrics s)) (disk s)) as [w' [[b' m'] more]]. cbn [fst snd] in Ho.
    pose proof (turn_more _ _ _ _ _ _ _ _ Ho) as ->.
    eapply (can_step _ s (after_turn [] w' b' m' false s) (log_wake (Hangup time)));
      [by eapply stopped_running| |apply can_now; split; [by destruct Hst|done]].
    intros l. split; [|done]. eapply step_batcher; [exact Hb|by apply woken_hangup| |exact Ho].
    intros es body _. apply always_fresh.
  - eapply can_receive; [done|done|done|exact Hq|]. intros s' Hst' Hb' Hq' _ Hp' _. apply IH; try done. congruence.
Qed.

(** ** The exporter *)
Lemma can_finish final t s :
  running s = true -> exporter_task s = Exporting final t ->
  can s (fun s' => main_at s' = main_at s /\ exporter_task s' = if final then ExporterEnded else Waiting).
Proof using iteration_permutes max_positive.
  revert s. induction t as [pass|X m k IH]; intros s Hr Hx.
  - eapply (can_step _ s _ (fun l => l)); [done|intros l; split; [|done]; apply (step_exporter _ _ _ _ _ _ _ _ _ _ false);
      unfold Sensor.exporter_step; rewrite Hx; reflexivity|]. by apply can_now.
  - pose proof (run_trace_exec faulty m (disk s)) as Ho.
    eapply (can_step _ s (set_exporter (Exporting final (k (run m (disk s)).2)) (set_disk (run m (disk s)).1 s))
      (log_requests (run_trace m (disk s)))); [done|intros l; split; [by eapply step_method|done]|].
    by apply (IH (run m (disk s)).2 (set_exporter (Exporting final (k (run m (disk s)).2)) (set_disk (run m (disk s)).1 s))).
Qed.

Lemma can_end_exporter s :
  main_at s = AwaitingExporter ->
  can s (fun s' => main_at s' = AwaitingExporter /\ exporter_task s' = ExporterEnded).
Proof using iteration_permutes max_positive.
  intros Hm. assert (forall s : Sensor, main_at s = AwaitingExporter -> running s = true) as Hrun by (intros s0 H0'; unfold running; by rewrite H0').
  assert (forall s, main_at s = AwaitingExporter -> exporter_task s = Waiting ->
    can s (fun s' => main_at s' = AwaitingExporter /\ exporter_task s' = ExporterEnded)) as Hwait.
  { intros s0 Hm0 Hx. eapply (can_step _ s0 _ (fun l => l)); [by apply Hrun|intros l; split; [|done]; apply (step_exporter _ _ _ _ _ _ _ _ _ _ true);
      unfold Sensor.exporter_step, shutting_down; rewrite Hx, Hm0; reflexivity|].
    eapply can_trans; [by eapply can_finish; [apply Hrun|]|]. intros s1 _ [Hm1 Hx1]. apply can_now. simpl in Hm1. split; congruence. }
  destruct (exporter_task s) as [final t| |] eqn:Hx; [|by apply Hwait|by apply can_now].
  eapply can_trans; [eapply can_finish; [by apply Hrun|exact Hx]|]. intros s1 _ [Hm1 Hx1]. rewrite Hm in Hm1.
  destruct final; [by apply can_now|by apply Hwait].
Qed.

(** ** The main task *)
Lemma can_main s s' P : main_step s = Some s' -> can s' P -> can s P.
Proof using iteration_permutes max_positive.
  intros Hm. apply (can_step P s s' (fun l => l)); [|intros l; split; [by apply step_main|done]].
  unfold running, main_step in *. by destruct (main_at s).
Qed.

Abbreviation exits s := (can s (fun s' => main_at s' = Exited)).

Lemma exits_exporter s : main_at s = AwaitingExporter -> exits s.
Proof using iteration_permutes max_positive.
  intros Hm. eapply can_trans; [by apply can_end_exporter|]. intros s1 _ [Hm1 Hx1].
  eapply can_main; [unfold main_step; rewrite Hm1, Hx1; reflexivity|by apply can_now].
Qed.

Lemma exits_batcher s : main_at s = AwaitingBatcher -> exits s.
Proof using always_fresh iteration_permutes max_positive machine time.
  assert (forall s, main_at s = AwaitingBatcher -> batcher_task s = BatcherEnded -> exits s) as Hend.
  { intros s1 Hm1 Hb1. eapply can_main; [unfold main_step; rewrite Hm1, Hb1; reflexivity|by apply exits_exporter]. }
  intros Hm Ho. pose proof (or_main _ Ho) as Hp. rewrite Hm in Hp. destruct (or_processor _ Ho Hp) as [Hpoll _].
  revert Ho. destruct (batcher_task s) as [b|] eqn:Hb; [|by apply Hend].
  eapply can_trans; [by apply (can_end_batcher AwaitingBatcher); [|split|exists b|]|].
  intros s1 _ [[Hm1 _] Hb1]. by apply Hend.
Qed.

Lemma exits_processor s : main_at s = AwaitingProcessor -> exits s.
Proof using always_fresh iteration_permutes max_positive machine time.
  assert (forall s, main_at s = AwaitingProcessor -> processor_task s = ProcessorEnded -> exits s) as Hend.
  { intros s1 Hm1 Hp1. eapply can_main; [unfold main_step; rewrite Hm1, Hp1; reflexivity|by apply exits_batcher]. }
  intros Hm Ho. pose proof (or_main _ Ho) as Hp. rewrite Hm in Hp. pose proof (or_batcher _ Ho) as Hb.
  revert Ho. destruct (batcher_task s) as [b|] eqn:Hbt; [|by apply Hend; [|apply Hb]].
  eapply can_trans; [by apply (can_end_processor AwaitingProcessor); [|split|exists b]|].
  intros s1 _ ([Hm1 _] & _ & Hp1). by apply Hend.
Qed.

Lemma exits_thread s : main_at s = JoiningThread -> exits s.
Proof using always_fresh iteration_permutes max_positive machine time.
  assert (forall s, main_at s = JoiningThread -> polling s = false -> exits s) as Hend.
  { intros s1 Hm1 Hp1. eapply can_main; [unfold main_step; rewrite Hm1, Hp1; reflexivity|by apply exits_processor]. }
  intros Hm. destruct (polling s) eqn:Hp; [|by apply Hend].
  eapply (can_step _ s _ (fun l => l)); [unfold running; by rewrite Hm|intros l; split; [by apply step_thread_ends|done]|by apply Hend].
Qed.

Lemma can_exit s : running s = true -> exits s.
Proof using always_fresh iteration_permutes max_positive machine time.
  unfold running. destruct (main_at s) eqn:Hm; try done; intros _;
    [|by apply exits_thread|by apply exits_processor|by apply exits_batcher|by apply exits_exporter].
  eapply can_main; [unfold main_step; rewrite Hm; reflexivity|by apply exits_thread].
Qed.
End shutdown.

(** * The theorems *)
Abbreviation boot := (boot from_slice header_value st).

Lemma steps_orderly fresh w start client earlier s l :
  steps fresh (boot w start client) (boot_log earlier) s l -> orderly s.
Proof using max_positive iteration_permutes.
  apply (steps_invariant fresh (fun s _ => orderly s)); [|apply orderly_boot].
  intros; by eapply step_orderly.
Qed.

Lemma disk_history_boot w client ids earlier :
  sensor_life w ids earlier -> disk_history (exporter_task (boot w 0 client)) w ids earlier.
Proof.
  destruct client; [|done]. intros Hl. exists (observer_pass from_slice header_value Agent.no_metrics), w, ids, earlier, [].
  rewrite app_nil_r. split_and!; [done|eexists; by left|apply advanced_start|done].
Qed.

Lemma steps_account w start client earlier ids s l :
  sensor_life w ids earlier -> steps (vouched doubtful) (boot w start client) (boot_log earlier) s l ->
  orderly s /\ capturing s l /\ exists arrived flushes ids', ids ⊆ ids' /\ batching s l arrived flushes ids'.
Proof using max_positive iteration_permutes.
  intros Hlife. apply (steps_invariant (vouched doubtful) (fun s l => orderly s /\ capturing s l /\
    exists arrived flushes ids', ids ⊆ ids' /\ batching s l arrived flushes ids')).
  - intros s0 l0 s1 l1 Hr Hs (Ho & Hc & arrived & flushes & ids' & Hsub & Hb). split; [by eapply step_orderly|].
    split; [by eapply step_capturing|].
    destruct (step_batching _ _ _ _ _ _ _ Ho Hs Hb) as (arrived' & flushes' & ids2 & Hsub2 & Hb').
    exists arrived', flushes', ids2. split; [by transitivity ids'|done].
  - split; [apply orderly_boot|]. split; [apply capturing_boot|]. exists [], [], ids. split; [done|].
    split; [apply mixed_nil|done|done|done|]. exact (disk_history_boot w client ids earlier Hlife).
Qed.

(** C4: Nothing is lost uncounted in the agent.  At every moment of every run, in
    whatever order the eBPF thread, the processor, the batcher, the exporter and
    the shutdown take their steps, on any machine and with any I/O errors: the
    channels and the buffer are within their bounds; each record of the ring
    buffer was malformed or met a full channel, which is counted, or was accepted;
    the accepted records were processed, in order, or wait; the selected events of
    the results are those the batcher received, in order, followed by those that
    wait; those received, with health events among them, are those of the flushes,
    in order, followed by the buffer; each flush is in a batch that the spool
    gave a receipt for, or was dropped, and both are counted; and the disk has a
    history with these receipts and the requests of the exporter. *)
Theorem agent_accounts w start client earlier ids s l :
  sensor_life w ids earlier -> steps (vouched doubtful) (boot w start client) (boot_log earlier) s l ->
  (len (kernel_queue s) <= KERNEL_CAPACITY /\ len (event_queue s) <= EVENT_CAPACITY /\
   len (in_buffer (batcher_task s)) < st_max_events st) /\
  capturing s l /\ exists arrived flushes ids', ids ⊆ ids' /\ batching s l arrived flushes ids'.
Proof using max_positive iteration_permutes.
  intros Hlife Hsteps. destruct (steps_account _ _ _ _ _ _ _ Hlife Hsteps) as ([] & Hc & Hb). done.
Qed.

(** C31: A shutdown drains.  When the agent has exited, every record the channel
    accepted was processed, and every selected event is in a flush, whose batch
    the spool gave a receipt for or which was counted as dropped. *)
Theorem shutdown_drains w start client earlier ids s l :
  sensor_life w ids earlier -> steps (vouched doubtful) (boot w start client) (boot_log earlier) s l -> main_at s = Exited ->
  (exists p, course (accepted l) (results l) p) /\ concat (selected_of <$> results l) = received l /\
  exists flushes ids', mixed (received l) (concat (flushes.*1)) /\ Forall (fate ids') flushes /\
    batch_counters (spooled_of flushes) (dropped_of flushes) (metrics s) /\
    sensor_life (disk s) ids' (requests l).
Proof using max_positive iteration_permutes.
  intros Hlife Hsteps Hm.
  destruct (steps_account _ _ _ _ _ _ _ Hlife Hsteps) as (Ho & Hc & arrived & flushes & ids' & _ & [Hmix -> Hf Hcount Hd]).
  pose proof (or_main _ Ho) as Hend. rewrite Hm in Hend. destruct Hend as [Hb Hx].
  destruct (or_batcher _ Ho Hb) as [Hp Hq]. destruct (or_processor _ Ho Hp) as [_ Hk].
  destruct Hc as [(p & taken & Hc & Hacc & _) _ _ _ _ _ Hev _]. rewrite Hk, app_nil_r in Hacc.
  rewrite Hp, Hq, app_nil_r in Hev. rewrite Hb, app_nil_r in Hmix. rewrite Hx in Hd.
  split; [exists p; by rewrite Hacc|]. split; [done|]. by exists flushes, ids'.
Qed.

(** C32: A shutdown can always be completed.  From every state of a run the tasks
    can bring the agent to its exit on their own: no task waits for another that
    waits for it, and none can be without a next step. *)
Theorem shutdown_completes (machine : World) (time : OffsetDateTime) w start client earlier s l :
  steps (fun _ _ => True) (boot w start client) (boot_log earlier) s l -> running s = true ->
  exists s' l', steps (fun _ _ => True) s l s' l' /\ main_at s' = Exited /\ records l' = records l.
Proof using max_positive iteration_permutes.
  intros Hsteps Hr. destruct (can_exit (fun _ _ => True) (fun _ _ => I) machine time s Hr
    (steps_orderly _ _ _ _ _ _ _ Hsteps) l) as (s' & l' & Hs' & Hrec & _ & Hm).
  by exists s', l'.
Qed.

(** ** To the receiver *)
Context (io_text : IoError -> string)
  (record_json : S3NdjsonRecord (OffsetDateTime := OffsetDateTime) -> option bytes) (gzip : bytes -> bytes)
  (year month day hour : OffsetDateTime -> Z) (d : DestinationConfig).
Abbreviation outpost_life :=
  (outpost_life from_slice to_vec io_text spool_digest record_json gzip header_value year month day hour d doubtful faulty).
Abbreviation whereabouts := (whereabouts from_slice to_vec record_json gzip year month day hour d doubtful).

End spec.
