(* ===== verification/AgentSample.v ===== *)
(** Concrete runs of the sensor's agent and of the pipeline: the inputs at which
    their theorems hold, and the query that no pass gets past. *)
From Stdlib Require Import ZArith Lia ZifyBool Strings.Byte Strings.Ascii Strings.String.
From stdpp Require Import base list strings gmap fin_maps.
From S2P Require Import Prelude Text Float64 Json Dns Bson BsonJson Summary Wire Stream Encode BsonRef WireRef Schema.
From S2P Require Import Proc Kernel Observer ObserverSpec ObserverLife ObserverSample.
From S2P Require Import Spool SpoolSpec SpoolLife Trace Accounted Interleave Enrich Destination Outpost OutpostSpec Delivery.
From S2P Require Import Agent AgentSpec Pipeline.

Local Open Scope string_scope.
Local Open Scope list_scope.
Local Open Scope Z_scope.

(** * A sensor *)
Definition sample_cli : Cli := {|
  cli_customer_id := "customer"; cli_tenant_id := "tenant"; cli_source_id := "source"; cli_regional_cell_id := "cell";
  cli_cluster_name := "cluster"; cli_node_name := "node"; cli_sensor_id := Some "sensor";
  cli_outpost_url := "http://mongodb-dam-outpost:8090/v1/observer/batches"; cli_internal_token_file := None;
  cli_principal_hash_salt_file := None; cli_host_proc := "/proc"; cli_spool_dir := "/var/lib/mongodb-dam/observer";
  cli_spool_max_bytes := 268435456; cli_batch_max_events := 200; cli_enabled_event_types := "all";
  cli_enabled_mongodb_commands := "all"; cli_capture_query_content := true; cli_batch_flush_milliseconds := 1000;
  cli_export_interval_seconds := 5; cli_rescan_seconds := 2; cli_max_message_bytes := 1048576; cli_cpu_profile_hz := 0;
  cli_mongodb_port := 27017; cli_tls_uprobes := Auto; cli_lock_profiling := true; cli_listen_addr := "0.0.0.0:8091"
|}.
Example sample_cli_valid : validate_cli sample_cli = Ok tt /\ processor_config_of sample_cli (Some "customer-salt") = sample_config.
Proof. split; vm_compute; reflexivity. Qed.
Definition sample_assignment : Assignment := assignment_of sample_cli.

Definition sample_nanos (now : unit) : bytes := repeat x00 16.
Definition sensor_batch (es : list (DamEvent unit)) : DamBatch unit := batch_of sample_nanos sample_assignment es tt.
Definition sample_health : DamEvent unit := health_event sample_nanos sample_assignment Agent.no_metrics tt 0.
Definition one_event : DamBatch unit := sensor_batch [sample_health].
(** A batch is encoded as its id, and only one is ever read. *)
Definition read_one (bs : bytes) : string + DamBatch unit := inr one_event.

(** * The batcher *)
Definition sample_wakes : list (Wake (OffsetDateTime := unit)) :=
  [Received (healthy true) tt; Ticked 60000000000 tt tt; Received (healthy true) tt; Received (healthy true) tt; Hangup tt].
Definition new_batcher : Batcher (OffsetDateTime := unit) := {| buffered := []; last_health := 0 |}.
Definition batcher_result : world * (Batcher * RuntimeMetrics) :=
  Spool.run (run_batcher sample_nanos sample_to_vec 1000 sample_assignment 2 true sample_wakes new_batcher Agent.no_metrics)
    (restart ∅).
Lemma batcher_result_exec faulty :
  exec faulty (run_batcher sample_nanos sample_to_vec 1000 sample_assignment 2 true sample_wakes new_batcher Agent.no_metrics)
    (restart ∅) (Done batcher_result.1 (batcher_result.2.1, batcher_result.2.2)).
Proof. rewrite <- surjective_pairing. apply run_exec. Qed.

Lemma batcher_accounts_witness :
  exists arrived flushes,
    arrivals sample_nanos sample_assignment true 0 sample_wakes arrived /\
    arrived = concat (flushes.*1) ++ buffered batcher_result.2.1 /\
    Forall (flush_ok sample_nanos sample_to_vec sample_assignment 2 batcher_result.1) flushes /\
    batcher_result.2.2 = tally flushes Agent.no_metrics /\ buffered batcher_result.2.1 = [].
Proof.
  destruct (batcher_accounts sample_nanos sample_to_vec sample_assignment 1000 2 true true sample_wakes new_batcher
    Agent.no_metrics (restart ∅) batcher_result.1 batcher_result.2.1 batcher_result.2.2
    ltac:(lia) ltac:(vm_compute; reflexivity) (batcher_result_exec true)) as (arrived & flushes & Ha & He & Hf & Hm & Hs).
  exists arrived, flushes. split; [exact Ha|]. split; [exact He|]. split; [exact Hf|]. split; [exact Hm|].
  by apply (Hs (Hangup tt)).
Defined.
Example batcher_counts :
  batches_spooled batcher_result.2.2 = 2 /\ Agent.spool_dropped_events batcher_result.2.2 = 0.
Proof. vm_compute. auto. Qed.

(** * Admission *)
Definition admitted_run : world * (AppState * Response) :=
  Spool.run (accept_batch (fun _ => inr (sensor_batch reply_events)) sample_to_vec (fun _ => "") spool_digest sample_state ∅
    (Some "Bearer secret") []) (restart ∅).
Lemma admitted_run_exec :
  exec true (accept_batch (fun _ => inr (sensor_batch reply_events)) sample_to_vec (fun _ => "") spool_digest sample_state ∅
    (Some "Bearer secret") []) (restart ∅) (Done admitted_run.1 (admitted_run.2.1, admitted_run.2.2)).
Proof. rewrite <- surjective_pairing. apply run_exec. Qed.

Lemma sensor_batches_admitted_witness :
  disposition (status admitted_run.2.2) <> Rejected.
Proof.
  destruct (sensor_batches_admitted (fun m => map_to_list m) (fun m => reflexivity _) sample_nanos
    (fun _ => inr (sensor_batch reply_events)) sample_to_vec (fun _ => "") sample_cli (Some "customer-salt") (fst ObserverSample.sample_run) sample_processor
    reply_events tt [] true (restart ∅) sample_state ∅ (Some "Bearer secret") admitted_run.1 admitted_run.2.1
    admitted_run.2.2 (proj1 sample_cli_valid)) as [(Hs & Hd & _)|[_ Hd]].
  - intros id [= <-]. by apply visible_letter.
  - exact sample_history_run.
  - intros H. apply (f_equal length) in H. vm_compute in H. discriminate H.
  - eapply Forall_impl; [exact reply_emitted|]. intros e He. by left.
  - reflexivity.
  - reflexivity.
  - reflexivity.
  - reflexivity.
  - reflexivity.
  - intros token [= <-]. reflexivity.
  - exact admitted_run_exec.
  - rewrite Hs, Hd. discriminate.
  - rewrite Hd. discriminate.
Defined.
Example admitted_run_accepted : status admitted_run.2.2 = 202.
Proof. vm_compute. reflexivity. Qed.
(** A sensor whose id is blank passes its own checks, and is refused. *)
Definition blank_cli : Cli := {|
  cli_customer_id := "customer"; cli_tenant_id := "tenant"; cli_source_id := "source"; cli_regional_cell_id := "cell";
  cli_cluster_name := "cluster"; cli_node_name := "node"; cli_sensor_id := Some "";
  cli_outpost_url := "http://mongodb-dam-outpost:8090/v1/observer/batches"; cli_internal_token_file := None;
  cli_principal_hash_salt_file := None; cli_host_proc := "/proc"; cli_spool_dir := "/var/lib/mongodb-dam/observer";
  cli_spool_max_bytes := 268435456; cli_batch_max_events := 200; cli_enabled_event_types := "all";
  cli_enabled_mongodb_commands := "all"; cli_capture_query_content := false; cli_batch_flush_milliseconds := 1000;
  cli_export_interval_seconds := 5; cli_rescan_seconds := 2; cli_max_message_bytes := 1048576; cli_cpu_profile_hz := 0;
  cli_mongodb_port := 27017; cli_tls_uprobes := Auto; cli_lock_profiling := true; cli_listen_addr := "0.0.0.0:8091"
|}.
Definition blank_batch : DamBatch unit :=
  let a := assignment_of blank_cli in batch_of sample_nanos a [health_event sample_nanos a Agent.no_metrics tt 0] tt.
Example blank_sensor_refused :
  validate_cli blank_cli = Ok tt /\
  (Spool.run (accept_batch (fun _ => inr blank_batch) sample_to_vec (fun _ => "") spool_digest sample_state ∅
     (Some "Bearer secret") []) (restart ∅)).2.2 = error_response 400 "event identity fields must not be empty" /\
  disposition 400 = Rejected.
Proof. vm_compute. auto. Qed.

(** * Selection *)
Definition two_types : option (gset string) := Some {["mongodb_activity"; "mongodb_auth"]}.
Definition one_command : option (gset string) := Some {["usersinfo"]}.
Lemma sample_types : parse_enabled_event_types (fun names => elements names) "mongodb_activity, mongodb_auth," = Ok two_types.
Proof. vm_compute. reflexivity. Qed.
Lemma sample_command : parse_enabled_mongodb_commands (fun names => elements names) " usersInfo" = Ok one_command.
Proof. vm_compute. reflexivity. Qed.
Lemma sample_names : selected_names "mongodb_activity, mongodb_auth," = ["mongodb_activity"; "mongodb_auth"].
Proof. vm_compute. reflexivity. Qed.
Definition published : list (DamEvent unit) := (publish two_types one_command (Ok reply_events) Agent.no_metrics).1.
Lemma selection_exact_witness :
  Forall (fun e => e ∈ reply_events /\ enabled_by ["mongodb_activity"; "mongodb_auth"] (event_type_name (payload e))) published.
Proof.
  apply Forall_forall. intros e He.
  destruct (selection_exact (fun names => elements names) (fun names => reflexivity _)
    "mongodb_activity, mongodb_auth," " usersInfo" reply_events Agent.no_metrics) as (_ & _ & H).
  destruct (proj1 (H two_types one_command sample_types sample_command e) He) as (Hin & Hty & _).
  split; [exact Hin|]. rewrite <- sample_names. exact Hty.
Defined.
Example published_count : len published = 2.
Proof. vm_compute. reflexivity. Qed.

(** * A query that no pass gets past *)

(** [find] with a filter of documents nested 135 deep: a frame of 996 bytes.
    In the JSON of a batch the query is the fifth level (batch, events, event,
    details, query), and serde_json reads 127 levels. *)
Fixpoint nested_filter (n : nat) : bytes :=
  match n with
  | O => document []
  | S n => document [embedded_element x03 "" (nested_filter n)]
  end.
Definition deep_find : bytes :=
  op_msg 9 0 0 (document [string_element "find" "c"; embedded_element x03 "filter" (nested_filter 135)]).
Fixpoint json_depth (v : JsonValue) : nat :=
  match v with
  | JArray l => S (fold_right Nat.max 0%nat (map json_depth l))
  | JObject m => S (fold_right Nat.max 0%nat (map (fun entry => json_depth entry.2) m))
  | _ => 0%nat
  end.
Definition deep_run := ObserverSample.run [io_event 5000 77 0 deep_find; io_event 10005000 77 1 (ok_reply_frame 10 9)]
  (new_processor sample_config, quiet).
Lemma deep_query :
  len deep_find = 996 /\
  ((fun r => match r with
            | Ok es => omap (fun e => json_depth <$> query_content e) es
            | _ => []
            end) <$> fst deep_run) = [[]; [137%nat]].
Proof. split; vm_compute; reflexivity. Qed.

Definition refuse (bs : bytes) : string + DamBatch unit := inl "recursion limit exceeded".
Definition flushed_run : world * (RuntimeMetrics * bool) :=
  Spool.run (flush_batch sample_nanos sample_to_vec 1000 sample_assignment [sample_health] tt Agent.no_metrics) (restart ∅).
Definition flushed_body : bytes := bytes_of (batch_id one_event).
Abbreviation sample_observer_spool m := (alone (deliver_observer_spool refuse sample_header m)).

Lemma unreadable_blocks_witness :
  exists e, (Spool.run (sample_observer_spool Agent.no_metrics) flushed_run.1).2.2 = inl e.
Proof.
  set (name := json_name (spool_digest flushed_body)).
  set (x := {| id := spool_digest flushed_body; item_path := (Root, name); item_bytes := len flushed_body |}).
  apply (proj1 (unreadable_blocks refuse sample_header flushed_run.1 Agent.no_metrics
    (run_trace (sample_observer_spool Agent.no_metrics) flushed_run.1)
    (Spool.run (sample_observer_spool Agent.no_metrics) flushed_run.1).1
    (Spool.run (sample_observer_spool Agent.no_metrics) flushed_run.1).2.1
    (Spool.run (sample_observer_spool Agent.no_metrics) flushed_run.1).2.2 name x
    {| content := flushed_body; synced := true |} "recursion limit exceeded"
    ltac:(vm_compute; reflexivity) ltac:(vm_compute; reflexivity) eq_refl
    ltac:(rewrite <- surjective_pairing; apply run_trace_exec))).
Defined.

(** * The pipeline: one batch, from the sensor to the receiver *)
Lemma flushed_exec faulty :
  exec faulty (flush_batch sample_nanos sample_to_vec 1000 sample_assignment [sample_health] tt Agent.no_metrics) (restart ∅)
    (Done flushed_run.1 (flushed_run.2.1, flushed_run.2.2)).
Proof. rewrite <- surjective_pairing. apply run_exec. Qed.
Example flushed_spooled : flushed_run.2.2 = true.
Proof. vm_compute. reflexivity. Qed.

Definition relayed_run : world * (AppState * Response) :=
  Spool.run (accept_batch read_one sample_to_vec (fun _ => "") spool_digest sample_state ∅
    (Some "Bearer secret") flushed_body) (restart ∅).
Lemma relayed_exec faulty :
  exec faulty (accept_batch read_one sample_to_vec (fun _ => "") spool_digest sample_state ∅
    (Some "Bearer secret") flushed_body) (restart ∅) (Done relayed_run.1 (relayed_run.2.1, relayed_run.2.2)).
Proof. rewrite <- surjective_pairing. apply run_exec. Qed.
Lemma relayed_status : status relayed_run.2.2 = 202.
Proof. vm_compute. reflexivity. Qed.

(** The deterministic run, with every request answered [code] *)
Definition perform_answering (code : Z) {T} (c : call T) (w : world) : world * T :=
  match c in call T return world * T -> world * T with
  | Request _ _ => fun _ => (w, Some code)
  | _ => fun wt => wt
  end (perform c w).
Fixpoint run_answering (code : Z) {A} (m : prog A) (w : world) : world * A * list sent :=
  match m with
  | Ret a => (w, a, [])
  | Do c k =>
      let '(w', t) := perform_answering code c w in
      let '(w', a, tr) := run_answering code (k t) w' in (w', a, note c t ++ tr)
  end.
Lemma run_answering_exec code faulty {A} (m : prog A) w :
  exec_trace faulty m w (run_answering code m w).2 (Done (run_answering code m w).1.1 (run_answering code m w).1.2).
Proof.
  revert w. induction m as [a|T c k IH]; intros w; simpl; [by right|].
  destruct (perform_answering code c w) as [w' t] eqn:Hp.
  pose proof (IH t w') as H. destruct (run_answering code (k t) w') as [[w2 a] tr]. right.
  exists w', t, tr. split; [|by split]. pose proof (step_perform faulty c w) as Hs.
  destruct c; cbn [perform_answering] in Hp; try (rewrite Hp in Hs; exact Hs). by injection Hp as <- <-.
Qed.

Definition sent_run : world * RuntimeMetrics * list sent :=
  run_answering 202 (alone (observer_pass read_one sample_header flushed_run.2.1)) flushed_run.1.
Definition final_run : world * AppState * list sent :=
  run_answering 200 (alone (export_pass read_one sample_json (fun bs => bs) sample_header
    (fun _ => 2026) (fun _ => 1) (fun _ => 2) (fun _ => 3) relayed_run.2.1)) relayed_run.1.
Abbreviation sample_pipeline := (pipeline sample_nanos read_one sample_to_vec (fun _ => "") sample_json (fun bs => bs)
  sample_header (fun _ => 2026) (fun _ => 1) (fun _ => 2) (fun _ => 3) sample_destination ∅ true).

Lemma sent_answered : Forall (answered [(flushed_body, relayed_run.2.2)]) sent_run.2.
Proof.
  assert (sent_run.2 = [{| sent_key := batch_id one_event; sent_body := flushed_body; answer := Some 202 |}]) as ->
    by (vm_compute; reflexivity).
  apply Forall_singleton. intros code [= <-]. exists relayed_run.2.2. split; [by left|exact relayed_status].
Qed.

Lemma sample_sensor_life :
  sensor_life sample_nanos read_one sample_to_vec sample_header ∅ true
    sent_run.1.1 ({[spool_digest flushed_body]} ∪ ∅) ([] ++ sent_run.2).
Proof.
  apply (sensor_export _ _ _ _ _ _ flushed_run.1 ({[spool_digest flushed_body]} ∪ ∅) _
    (observer_pass read_one sample_header flushed_run.2.1) _ (Done sent_run.1.1 sent_run.1.2));
    [|by eexists; left|apply alone_interleaved, run_answering_exec].
  apply (sensor_flush _ _ _ _ _ _ (restart ∅) ∅); [apply sensor_new|].
  eapply flushing_spooled; [|reflexivity|by right; apply clean_idle|].
  - discriminate.
  - rewrite <- flushed_spooled. apply flushed_exec.
Qed.

Definition relayed_handled : list exchange := [] ++ [(flushed_body, relayed_run.2.2)].
Lemma sample_relay_life :
  outpost_life read_one sample_to_vec (fun _ => "") spool_digest sample_json (fun bs => bs)
    sample_header (fun _ => 2026) (fun _ => 1) (fun _ => 2) (fun _ => 3) sample_destination ∅ true
    final_run.1.1 relayed_handled ([] ++ final_run.2).
Proof.
  apply (outpost_export _ _ _ _ _ _ _ _ _ _ _ _ _ _ relayed_run.1 relayed_handled _ relayed_run.2.1 _
    (Done final_run.1.1 final_run.1.2)); [|vm_compute; reflexivity|apply alone_interleaved, run_answering_exec].
  apply (outpost_intake _ _ _ _ _ _ _ _ _ _ _ _ _ _ (restart ∅) []); [apply outpost_new|].
  apply (intake_answered _ _ _ _ _ _ (restart ∅) [] sample_state ∅ (Some "Bearer secret")
    flushed_body relayed_run.1 relayed_run.2.1 relayed_run.2.2 (relayed_exec true)).
  intros receipt _. by right; apply clean_idle.
Qed.

Lemma sample_pipeline_run :
  sample_pipeline sent_run.1.1 ({[spool_digest flushed_body]} ∪ ∅) ([] ++ sent_run.2)
    final_run.1.1 relayed_handled ([] ++ final_run.2).
Proof. split; [exact sample_sensor_life|exact sample_relay_life|exact sent_answered]. Qed.

Lemma sample_durable : settled (durable sent_run.1.1) /\ settled (durable final_run.1.1).
Proof. split; apply (bool_decide_unpack _); vm_compute; exact I. Qed.

Lemma end_to_end_witness :
  (exists dir f, durable sent_run.1.1 !! (dir, json_name (spool_digest flushed_body)) = Some f /\
     spool_digest (content f) = spool_digest flushed_body) \/
  exists body encoded, spool_digest body = spool_digest flushed_body /\ relayed read_one sample_to_vec body encoded /\
    ((exists dir f, durable final_run.1.1 !! (dir, json_name (spool_digest encoded)) = Some f /\
        spool_digest (content f) = spool_digest encoded) \/
     Exists (delivered read_one spool_digest sample_json (fun bs => bs)
       (fun _ => 2026) (fun _ => 1) (fun _ => 2) (fun _ => 3) sample_destination (spool_digest encoded)) ([] ++ final_run.2)).
Proof.
  destruct (end_to_end sample_nanos read_one sample_to_vec (fun _ => "") sample_json (fun bs => bs) sample_header
    (fun _ => 2026) (fun _ => 1) (fun _ => 2) (fun _ => 3) sample_destination ∅ true _ _ _ _ _ _
    (spool_digest flushed_body) (durable sent_run.1.1) (durable final_run.1.1) sample_pipeline_run
    (elem_of_union_l _ _ _ (proj2 (elem_of_singleton _ _) eq_refl)) (not_elem_of_empty _)
    (crash_durable _ (proj1 sample_durable)) (crash_durable _ (proj2 sample_durable)))
    as [Hs|(body & encoded & Hb & Hr & [Ho|[Hd|He]])].
  - left. exact Hs.
  - right. exists body, encoded. split; [exact Hb|]. split; [exact Hr|]. left. exact Ho.
  - right. exists body, encoded. split; [exact Hb|]. split; [exact Hr|]. right. exact Hd.
  - destruct (not_elem_of_empty _ He).
Defined.
(** At the end both spools are empty, and the receiver has the batch. *)
Example delivered_end :
  listing Root (visible sent_run.1.1) = [] /\ listing Root (visible final_run.1.1) = [] /\
  final_run.2 = [{| sent_key := batch_id one_event; sent_body := flushed_body; answer := Some 200 |}].
Proof. vm_compute. auto. Qed.
