(* ===== verification/SensorSample.v ===== *)
(** A concrete run of the agent, from the records of the ring buffer to its exit,
    and of Outpost with it: the inputs at which the theorems on the agent hold. *)
From Stdlib Require Import ZArith Lia ZifyBool Strings.Byte Strings.Ascii Strings.String.
From stdpp Require Import base list strings gmap fin_maps.
From S2P Require Import Prelude Text Float64 Json Dns Bson BsonJson Summary Wire Stream Encode BsonRef WireRef Schema.
From S2P Require Import Proc Kernel Observer ObserverSpec ObserverLife ObserverSample.
From S2P Require Import Spool SpoolSpec SpoolLife Trace Accounted Interleave Enrich Destination Outpost OutpostSpec Delivery.
From S2P Require Import Agent AgentSpec Pipeline AgentSample Sensor SensorSpec.

Local Open Scope string_scope.
Local Open Scope list_scope.
Local Open Scope Z_scope.

(** * A scheduler *)
Section schedule.
Context {OffsetDateTime World : Type} `{Host OffsetDateTime World} `{Sha256} `{Decompressors}.
Context (iteration : gmap (Z * Z * Z) (PendingRequest OffsetDateTime) -> list ((Z * Z * Z) * PendingRequest OffsetDateTime)).
Context (nanos : OffsetDateTime -> bytes) (from_slice : bytes -> string + DamBatch OffsetDateTime)
  (to_vec : DamBatch OffsetDateTime -> string + bytes) (header_value : string -> bool) (st : Settings).
Abbreviation Sensor := (Sensor (OffsetDateTime := OffsetDateTime)).
Abbreviation Log := (Log (OffsetDateTime := OffsetDateTime)).
Abbreviation step := (step iteration nanos from_slice to_vec header_value st true (vouched ∅)).
Abbreviation steps := (steps iteration nanos from_slice to_vec header_value st true (vouched ∅)).

(** Who takes the next step, and what it meets.  Calls on the disk do not fail,
    and Outpost answers 202. *)
Inductive Action : Type :=
| ARing (bs : bytes)
| AThreadEnds
| AProcessor (w : World)
| AReceive (now : OffsetDateTime)
| ATick (instant : Z) (health_now now : OffsetDateTime)
| AHangup (now : OffsetDateTime)
| AMethod
| AExporter (shutdown : bool)
| AMain.

Definition turn_of (wake : Wake) (queue : list (DamEvent OffsetDateTime)) (s : Sensor) (l : Log) : option (Sensor * Log) :=
  match batcher_task s, journal (disk s) with
  | Batching b, [] =>
      let '(w', (b', m', more)) := Spool.run (batcher_turn nanos to_vec (st_max_bytes st) (st_assignment st)
        (st_max_events st) (st_emit_sensor_health st) wake b (metrics s)) (disk s) in
      Some (after_turn queue w' b' m' more s, log_wake wake l)
  | _, _ => None
  end.
Definition act (a : Action) (s : Sensor) (l : Log) : option (Sensor * Log) :=
  match a with
  | ARing bs =>
      if polling s then
        let '(s', captured, _) := ring_callback (fun _ => None) bs s in Some (s', log_ring bs captured l)
      else None
  | AThreadEnds => if polling s then Some (thread_ends s, l) else None
  | AProcessor w =>
      match processor_step iteration st w s with
      | Some (s', result) => Some (s', log_result result l)
      | None => None
      end
  | AReceive now =>
      match event_queue s with
      | event :: queue => turn_of (Received event now) queue s l
      | [] => None
      end
  | ATick instant health_now now => turn_of (Ticked instant health_now now) (event_queue s) s l
  | AHangup now =>
      match event_queue s, processor_task s with
      | [], ProcessorEnded => turn_of (Hangup now) [] s l
      | _, _ => None
      end
  | AMethod =>
      match exporter_task s with
      | Exporting final (Spool.Method m k) =>
          let '(w', x, tr) := run_answering 202 m (disk s) in
          Some (set_exporter (Exporting final (k x)) (set_disk w' s), log_requests tr l)
      | _ => None
      end
  | AExporter shutdown =>
      match exporter_step from_slice header_value shutdown s with
      | Some s' => Some (s', l)
      | None => None
      end
  | AMain => match main_step s with Some s' => Some (s', l) | None => None end
  end.
Fixpoint acts (l : list Action) (s : Sensor) (log : Log) : option (Sensor * Log) :=
  match l with
  | [] => Some (s, log)
  | a :: l =>
      if running s then
        match act a s log with
        | Some (s', log') => acts l s' log'
        | None => None
        end
      else None
  end.

Lemma turn_of_step wake queue s l s' l' :
  woken s wake queue -> turn_of wake queue s l = Some (s', l') -> step s l s' l'.
Proof.
  intros Hw. unfold turn_of. destruct (batcher_task s) as [b|] eqn:Hb; [|done].
  destruct (journal (disk s)) eqn:Hj; [|done].
  pose proof (run_exec true (batcher_turn nanos to_vec (st_max_bytes st) (st_assignment st)
        (st_max_events st) (st_emit_sensor_health st) wake b (metrics s)) (disk s)) as Ho.
  destruct (Spool.run _ _) as [w' [[b' m'] more]]. intros [= <- <-]. eapply step_batcher; [exact Hb|exact Hw| |exact Ho].
  intros es body _. by right; apply clean_idle.
Qed.

Lemma act_step a s l s' l' : act a s l = Some (s', l') -> step s l s' l'.
Proof.
  destruct a as [bs| |w|now|instant hnow now|now| |shutdown|]; cbn [act].
  - destruct (polling s) eqn:Hp; [|done]. destruct (ring_callback _ bs s) as [[s1 captured] code] eqn:Hr.
    intros [= <- <-]. by eapply step_ring.
  - destruct (polling s) eqn:Hp; [|done]. intros [= <- <-]. by apply step_thread_ends.
  - destruct (processor_step iteration st w s) as [[s1 result]|] eqn:Hs; [|done]. intros [= <- <-]. by eapply step_processor.
  - destruct (event_queue s) as [|event queue] eqn:Hq; [done|]. by apply turn_of_step, woken_received.
  - apply turn_of_step, woken_ticked.
  - destruct (event_queue s) eqn:Hq; [|done]. destruct (processor_task s) eqn:Hp; [done|]. by apply turn_of_step, woken_hangup.
  - destruct (exporter_task s) as [final [pass|X m k]| |] eqn:Hx; try done.
    pose proof (run_answering_exec 202 true m (disk s)) as Ho.
    destruct (run_answering 202 m (disk s)) as [[w' x] tr]. intros [= <- <-]. by eapply step_method.
  - destruct (exporter_step from_slice header_value shutdown s) eqn:He; [|done]. intros [= <- <-]. by eapply step_exporter.
  - destruct (main_step s) eqn:Hm; [|done]. intros [= <- <-]. by apply step_main.
Qed.

Lemma acts_steps l s log s' log' : acts l s log = Some (s', log') -> steps s log s' log'.
Proof.
  revert s log. induction l as [|a l IH]; intros s log; cbn [acts]; [intros [= <- <-]; apply steps_none|].
  destruct (running s) eqn:Hr; [|done]. destruct (act a s log) as [[s1 log1]|] eqn:Ha; [|done].
  intros Hl. eapply steps_one; [done|by eapply act_step|by apply IH].
Qed.
End schedule.

(** * A run *)
(** The record of the ring buffer *)
Definition ring_bytes (r : KernelEvent) : bytes :=
  le_bytes 8 (raw_timestamp_ns r) ++ le_bytes 8 (raw_connection_key r) ++ le_bytes 8 (raw_cgroup_id r)
  ++ le_bytes 8 (raw_duration_ns r) ++ le_bytes 8 (raw_bytes r) ++ le_bytes 8 (raw_result r)
  ++ le_bytes 4 (raw_pid r) ++ le_bytes 4 (raw_tgid r) ++ le_bytes 4 (raw_uid r) ++ le_bytes 4 (raw_gid r)
  ++ le_bytes 4 (raw_fd r) ++ le_bytes 4 (raw_original_len r) ++ le_bytes 4 (raw_captured_len r)
  ++ le_bytes 1 (raw_event_type r) ++ le_bytes 1 (raw_direction r) ++ le_bytes 1 (raw_source r)
  ++ le_bytes 1 (raw_operation r) ++ raw_comm r ++ raw_data r.
Definition request_record : bytes := ring_bytes (raw (io_event 1000 77 0 users_info_frame)).
Definition reply_record : bytes := ring_bytes (raw (io_event 5000 77 1 (ok_reply_frame 9 7))).

Definition sample_settings : Settings := {|
  st_config := processor_config_of sample_cli None; st_assignment := sample_assignment; st_event_types := None;
  st_commands := None; st_emit_sensor_health := true; st_internal_token := None; st_max_bytes := 268435456;
  st_max_events := 200
|}.
Example settings_of_sample : settings_of (fun names => elements names) (fun _ => None) sample_cli = Ok sample_settings.
Proof. vm_compute. reflexivity. Qed.

(** A request and its reply, a record that is none; then a signal.  The exporter
    has made its first pass, on an empty spool, and makes its last. *)
Definition sample_actions : list (Action (OffsetDateTime := unit) (World := machine)) :=
  [ARing request_record; ARing [x00]; ARing reply_record; AMethod; AExporter false;
   AProcessor quiet; AProcessor quiet; AProcessor quiet; AProcessor quiet; AMain; AReceive tt; AThreadEnds;
   AProcessor quiet; AProcessor quiet; AMain; AProcessor quiet; AMain; AReceive tt; AHangup tt; AMain;
   AExporter true; AMethod; AMethod; AMethod; AMethod; AExporter false; AMain].
Definition sample_boot := boot read_one sample_header sample_settings (restart ∅) 0 true.
Abbreviation sample_acts :=
  (acts (fun m => map_to_list m) sample_nanos read_one sample_to_vec sample_header sample_settings).
Definition sample_result : option (Sensor.Sensor (OffsetDateTime := unit) * Log (OffsetDateTime := unit)) :=
  sample_acts sample_actions sample_boot (boot_log []).
Definition sample_end : Sensor.Sensor (OffsetDateTime := unit) * Log (OffsetDateTime := unit) :=
  default (sample_boot, boot_log []) sample_result.

Lemma some_default {A} (o : option A) d : is_some o = true -> o = Some (default d o).
Proof. by destruct o. Qed.

Abbreviation sample_steps :=
  (steps (fun m => map_to_list m) sample_nanos read_one sample_to_vec sample_header sample_settings true).
Lemma sample_end_steps : sample_steps (vouched ∅) sample_boot (boot_log []) sample_end.1 sample_end.2.
Proof.
  apply (acts_steps (fun m => map_to_list m) sample_nanos read_one sample_to_vec sample_header sample_settings
    sample_actions). change (sample_result = Some (sample_end.1, sample_end.2)). rewrite <- surjective_pairing.
  apply some_default. vm_compute. reflexivity.
Qed.
Lemma sample_exited : main_at sample_end.1 = Exited.
Proof. vm_compute. reflexivity. Qed.
(** Three records, one malformed; two events, in one batch, which Outpost took. *)
Example sample_counters :
  (ring_events (metrics sample_end.1), malformed_ring_events (metrics sample_end.1), len (accepted sample_end.2),
   metadata_events (metrics sample_end.1), batches_spooled (metrics sample_end.1), batches_delivered (metrics sample_end.1))
  = (3, 1, 2, 2, 1, 1).
Proof. vm_compute. reflexivity. Qed.

Abbreviation sample_life := (sensor_life sample_nanos read_one sample_to_vec sample_header ∅ true).
Lemma new_life : sample_life (restart ∅) ∅ [].
Proof. apply sensor_new. Qed.
Lemma sample_positive : 0 < st_max_events sample_settings.
Proof. reflexivity. Qed.
Lemma listing_permutes (m : gmap (Z * Z * Z) (PendingRequest unit)) : map_to_list m ≡ₚ map_to_list m.
Proof. reflexivity. Qed.

Lemma agent_accounts_witness :
  capturing (fun m => map_to_list m) sample_settings sample_end.1 sample_end.2 /\
  exists arrived flushes ids, batching sample_nanos read_one sample_to_vec sample_header sample_settings true ∅
    sample_end.1 sample_end.2 arrived flushes ids.
Proof.
  destruct (agent_accounts (fun m => map_to_list m) listing_permutes sample_nanos read_one sample_to_vec sample_header
    sample_settings true sample_positive ∅ (restart ∅) 0 true [] ∅ sample_end.1 sample_end.2 new_life sample_end_steps)
    as (_ & Hc & arrived & flushes & ids & _ & Hb).
  split; [exact Hc|]. exists arrived, flushes, ids. exact Hb.
Defined.

Lemma shutdown_drains_witness :
  concat (selected_of sample_settings <$> results sample_end.2) = received sample_end.2 /\ len (received sample_end.2) = 2.
Proof.
  destruct (shutdown_drains (fun m => map_to_list m) listing_permutes sample_nanos read_one sample_to_vec sample_header
    sample_settings true sample_positive ∅ (restart ∅) 0 true [] ∅ sample_end.1 sample_end.2 new_life sample_end_steps
    sample_exited) as (_ & He & _).
  split; [exact He|]. vm_compute. reflexivity.
Defined.

Lemma shutdown_completes_witness :
  exists s' l', sample_steps (fun _ _ => True) sample_boot (boot_log []) s' l' /\ main_at s' = Exited /\ records l' = [].
Proof.
  exact (shutdown_completes (fun m => map_to_list m) listing_permutes sample_nanos read_one sample_to_vec sample_header
    sample_settings true sample_positive quiet tt (restart ∅) 0 true [] sample_boot (boot_log [])
    (steps_none _ _ _ _ _ _ _ _ _ _) eq_refl).
Defined.

(** ** Outpost, which answered the agent *)
Definition sample_made : list sent := requests sample_end.2.
Definition made_body : bytes := sent_body (nth 0 sample_made {| sent_key := ""; sent_body := []; answer := None |}).
Definition answered_run : world * (AppState * Response) :=
  Spool.run (accept_batch read_one sample_to_vec (fun _ => "") spool_digest sample_state ∅
    (Some "Bearer secret") made_body) (restart ∅).
Lemma answered_exec :
  exec true (accept_batch read_one sample_to_vec (fun _ => "") spool_digest sample_state ∅
    (Some "Bearer secret") made_body) (restart ∅) (Done answered_run.1 (answered_run.2.1, answered_run.2.2)).
Proof. rewrite <- surjective_pairing. apply run_exec. Qed.
Definition made_handled : list exchange := [] ++ [(made_body, answered_run.2.2)].
Lemma sample_outpost :
  outpost_life read_one sample_to_vec (fun _ => "") spool_digest sample_json (fun bs => bs)
    sample_header (fun _ => 2026) (fun _ => 1) (fun _ => 2) (fun _ => 3) sample_destination ∅ true
    answered_run.1 made_handled [].
Proof.
  apply (outpost_intake _ _ _ _ _ _ _ _ _ _ _ _ _ _ (restart ∅) []); [apply outpost_new|].
  apply (intake_answered _ _ _ _ _ _ (restart ∅) [] sample_state ∅ (Some "Bearer secret")
    made_body answered_run.1 answered_run.2.1 answered_run.2.2 answered_exec).
  intros receipt _. by right; apply clean_idle.
Qed.
Lemma made_answered : Forall (answered made_handled) (requests sample_end.2).
Proof.
  assert (requests sample_end.2 = [{| sent_key := batch_id one_event; sent_body := made_body; answer := Some 202 |}]) as ->
    by (vm_compute; reflexivity).
  apply Forall_singleton. intros code [= <-]. exists answered_run.2.2. split; [by left|]. vm_compute. reflexivity.
Qed.

Definition reply_result : res string (list (DamEvent unit)) := nth 1 (results sample_end.2) (Err "").
Definition reply_event : DamEvent unit := nth 0 (selected_of sample_settings reply_result) (healthy true).
Lemma reply_in_results : reply_result ∈ results sample_end.2.
Proof. apply list_elem_of_In, nth_In, Nat.ltb_lt. vm_compute. reflexivity. Qed.
Lemma reply_selected : reply_event ∈ selected_of sample_settings reply_result.
Proof. apply list_elem_of_In, nth_In, Nat.ltb_lt. vm_compute. reflexivity. Qed.
Lemma end_durable : settled (durable (disk sample_end.1)) /\ settled (durable answered_run.1).
Proof. split; apply (bool_decide_unpack _); vm_compute; exact I. Qed.
(** Nothing was dropped, so the event is in a batch. *)
Lemma nothing_dropped : Agent.spool_dropped_events (metrics sample_end.1) = 0.
Proof. vm_compute. reflexivity. Qed.

