(* ===== verification/Probes.v ===== *)
(** The uprobes of the sensor, crates/observer/src/main.rs: which processes and
    libraries are probed, and what stays attached from scan to scan.  Attaching
    one probe is libbpf's: whether it works is up to the machine. *)
From Stdlib Require Import ZArith Lia ZifyBool Strings.Byte Strings.Ascii Strings.String.
From stdpp Require Import base list strings gmap pretty.
From S2P Require Import Prelude Text Agent.

Local Open Scope string_scope.
Local Open Scope list_scope.
Local Open Scope Z_scope.
Local Open Scope dam_scope.

(** * Paths

    [PathBuf]s are compared by their components. *)

(** An absolute path: what is between the slashes, without empty parts and dots *)
Definition components (path : string) : list string :=
  filter (fun c => c <> "" /\ c <> ".") (split "/"%char path).
Fixpoint compare_components (a b : list string) : comparison :=
  match a, b with
  | [], [] => Eq
  | [], _ => Lt
  | _, [] => Gt
  | x :: a, y :: b =>
      match String.compare x y with
      | Eq => compare_components a b
      | c => c
      end
  end.
(** Insertion in a sorted list without duplicates: of two spellings of a path the
    first stays, as in a [HashSet] *)
Fixpoint insert_path (path : string) (l : list string) : list string :=
  match l with
  | [] => [path]
  | x :: l' =>
      match compare_components (components path) (components x) with
      | Lt => path :: l
      | Eq => l
      | Gt => x :: insert_path path l'
      end
  end.

(** [trim_start_matches] of a character *)
Fixpoint trim_start_slash (s : string) : string :=
  match s with
  | String "/" s => trim_start_slash s
  | _ => s
  end.

Definition mapped_library (root : string) (needles : list string) (line : string) : option string :=
  match list.last (split_whitespace line) with
  | Some mapped =>
      if negb (starts_with "/" mapped) || negb (existsb (fun needle => contains needle mapped) needles) then None
      else Some (join_path root (trim_start_slash (trim_end_matches " (deleted)" mapped)))
  | None => None
  end.
(** [maps] is the text of the process's maps file *)
Definition mapped_libraries (host_proc : string) (pid : Z) (needles : list string) (maps : option string)
    : res string (list string) :=
  let process := join_path host_proc (pretty pid) in
  match maps with
  | None => Err ("reading " ++ join_path process "maps")%string
  | Some maps =>
      Ok (foldl (fun l path => insert_path path l) [] (omap (mapped_library (join_path process "root") needles) (lines maps)))
  end.

Section probes.
Context {Link : Type}.
(** [attach_symbol]: the program, the path, the symbol, at its return or not *)
Context (attach_symbol : string -> string -> string -> bool -> option Link).

(** * Attaching to a library *)
Definition SSL_PAIRS : list (string * string * string) :=
  [("handle_ssl_read_enter", "handle_ssl_read_exit", "SSL_read");
   ("handle_ssl_write_enter", "handle_ssl_write_exit", "SSL_write");
   ("handle_ssl_read_ex_enter", "handle_ssl_read_ex_exit", "SSL_read_ex");
   ("handle_ssl_write_ex_enter", "handle_ssl_write_ex_exit", "SSL_write_ex")].
Definition SSL_SINGLES : list (string * string) :=
  [("handle_ssl_set_fd", "SSL_set_fd"); ("handle_ssl_free", "SSL_free")].

(** The probes of a symbol's entry and return: both, or neither is kept *)
Definition attach_pair (path : string) (pair : string * string * string) : list Link :=
  let '(entry, exit, symbol) := pair in
  match attach_symbol entry path symbol false, attach_symbol exit path symbol true with
  | Some entry, Some exit => [entry; exit]
  | _, _ => []
  end.
Definition attach_single (path : string) (single : string * string) : list Link :=
  match attach_symbol single.1 path single.2 false with
  | Some link => [link]
  | None => []
  end.
Definition ssl_links_of (path : string) : list Link :=
  concat (attach_pair path <$> SSL_PAIRS) ++ concat (attach_single path <$> SSL_SINGLES).

(** [executable_exists] is what the file system says of the process's exe. *)
Definition attach_ssl_uprobes (host_proc : string) (pid : Z) (maps : option string) (executable_exists : bool)
    : res string (list Link) :=
  let! candidates := mapped_libraries host_proc pid ["libssl.so"; "libboringssl"] maps in
  let executable := join_path (join_path host_proc (pretty pid)) "exe" in
  let candidates := match candidates with
                    | [] => if executable_exists then [executable] else []
                    | _ => candidates
                    end in
  Ok (concat (ssl_links_of <$> candidates)).

Definition attach_lock_uprobes (host_proc : string) (pid : Z) (maps : option string) : res string (list Link) :=
  let! candidates := mapped_libraries host_proc pid ["libpthread.so"; "libc.so"] maps in
  Ok (default [] (head (filter (fun links => links <> [])
        ((fun path => attach_pair path ("handle_mutex_lock_enter", "handle_mutex_lock_exit", "pthread_mutex_lock"))
           <$> candidates)))).
End probes.

(** * A scan *)
Section scan.
Context {Link : Type}.

Record UprobeSet : Type := {
  ssl_links : list Link;
  lock_links : list Link
}.
Definition no_uprobes : UprobeSet := {| ssl_links := []; lock_links := [] |}.

(** What the machine answers to the attempts of one scan: the update of the map
    of targets, and the two attachments. *)
Context (update_target : Z -> bool) (attach_ssl attach_lock : Z -> res string (list Link)).

Definition no_links (links : list Link) : bool := match links with [] => true | _ => false end.
Definition attach_target (tls_mode : TlsUprobeMode) (lock_profiling : bool) (pid : Z) (set : UprobeSet) : UprobeSet :=
  let set :=
    if negb (match tls_mode with Off => true | _ => false end) && no_links (ssl_links set) then
      match attach_ssl pid with
      | Ok links => if no_links links then set else {| ssl_links := links; lock_links := lock_links set |}
      | _ => set
      end
    else set in
  if lock_profiling && no_links (lock_links set) then
    match attach_lock pid with
    | Ok links => {| ssl_links := ssl_links set; lock_links := links |}
    | _ => set
    end
  else set.

(** The loop over the processes; an update that fails ends the scan. *)
Fixpoint scan_loop (tls_mode : TlsUprobeMode) (lock_profiling : bool) (pids : list Z) (attached : gmap Z UprobeSet)
    : gmap Z UprobeSet * bool :=
  match pids with
  | [] => (attached, true)
  | pid :: pids =>
      if update_target pid then
        let set := attach_target tls_mode lock_profiling pid (default no_uprobes (attached !! pid)) in
        scan_loop tls_mode lock_profiling pids (<[pid := set]> attached)
      else (attached, false)
  end.

Definition with_tls (attached : gmap Z UprobeSet) : gmap Z UprobeSet :=
  filter (fun entry => no_links (ssl_links entry.2) = false) attached.

(** The uprobes after the scan, the two gauges when they are set, the result *)
Definition scan_and_attach_uprobes (tls_mode : TlsUprobeMode) (lock_profiling : bool) (pids : res string (list Z))
    (attached : gmap Z UprobeSet) : gmap Z UprobeSet * option (Z * Z) * res string unit :=
  match pids with
  | Ok pids =>
      let live := filter (fun entry => entry.1 ∈ pids) attached in
      let '(attached, complete) := scan_loop tls_mode lock_profiling pids live in
      if complete then
        (attached, Some (len pids, Z.of_nat (size (with_tls attached))),
         if match tls_mode with Required => true | _ => false end && negb (match pids with [] => true | _ => false end)
            && bool_decide (with_tls attached = ∅)
         then Err "TLS uprobes are required, but no mongod/mongos OpenSSL symbols could be attached" else Ok tt)
      else (attached, None, Err "updating the map of targets")
  | Err e => (attached, None, Err e)
  | Fault f => (attached, None, Fault f)
  end.

(** * What a scan keeps *)
Lemma scan_loop_lookup tls_mode lock_profiling pids attached attached' :
  scan_loop tls_mode lock_profiling pids attached = (attached', true) -> NoDup pids ->
  forall pid, attached' !! pid =
    if decide (pid ∈ pids) then Some (attach_target tls_mode lock_profiling pid (default no_uprobes (attached !! pid)))
    else attached !! pid.
Proof.
  revert attached. induction pids as [|x pids IH]; intros attached Hs Hnd pid; cbn [scan_loop] in Hs.
  - injection Hs as ->. by rewrite decide_False by apply not_elem_of_nil.
  - destruct (update_target x); [|done]. apply NoDup_cons in Hnd as [Hx Hnd]. rewrite (IH _ Hs Hnd pid).
    destruct (decide (pid = x)) as [->|Hne].
    + rewrite decide_False by done. rewrite decide_True by (by left). by rewrite lookup_insert_eq.
    + rewrite lookup_insert_ne by done. assert (pid ∈ x :: pids <-> pid ∈ pids) as Hin
        by (rewrite elem_of_cons; split; [by intros [|]|by right]).
      by rewrite (decide_ext _ _ _ _ Hin).
Qed.

(** The scan is complete when every update of the map of targets succeeds. *)
Lemma scan_loop_complete tls_mode lock_profiling pids attached :
  (scan_loop tls_mode lock_profiling pids attached).2 = true <-> (forall pid, pid ∈ pids -> update_target pid = true).
Proof.
  revert attached. induction pids as [|x pids IH]; intros attached; cbn [scan_loop].
  - split; [intros _ pid Hp; by apply elem_of_nil in Hp|done].
  - destruct (update_target x) eqn:Hx.
    + rewrite IH. split; [intros H pid [->|Hp]%elem_of_cons; auto|intros H pid Hp; apply H; by right].
    + split; [done|]. intros H. rewrite H in Hx; [done|by left].
Qed.

(** Complete or not, each process is as it was, or as the scan leaves it; the others
    are not touched. *)
Lemma scan_loop_each tls_mode lock_profiling pids attached pid :
  NoDup pids -> let attached' := (scan_loop tls_mode lock_profiling pids attached).1 in
  attached' !! pid = attached !! pid \/
  pid ∈ pids /\ attached' !! pid = Some (attach_target tls_mode lock_profiling pid (default no_uprobes (attached !! pid))).
Proof.
  intros Hnd. revert attached. induction Hnd as [|x pids Hx _ IH]; intros attached; cbn [scan_loop]; [by left|].
  destruct (update_target x); [|by left]. destruct (decide (pid = x)) as [->|Hne].
  - right. split; [by left|]. destruct (IH (<[x := attach_target tls_mode lock_profiling x (default no_uprobes (attached !! x))]>
      attached)) as [->|[? _]]; [by rewrite lookup_insert_eq|done].
  - destruct (IH (<[x := attach_target tls_mode lock_profiling x (default no_uprobes (attached !! x))]> attached))
      as [->|[Hp ->]]; rewrite lookup_insert_ne by done; [by left|]. right. split; [by right|done].
Qed.

(** TLS links stay as they are once there are any. *)
Lemma attach_target_keeps tls_mode lock_profiling pid set :
  ssl_links set <> [] -> ssl_links (attach_target tls_mode lock_profiling pid set) = ssl_links set.
Proof.
  intros Hs. unfold attach_target. destruct (ssl_links set) eqn:He; [done|]. cbn [no_links]. rewrite andb_false_r.
  destruct (lock_profiling && _); [|done]. by destruct (attach_lock pid).
Qed.

Lemma with_tls_lookup attached pid set :
  with_tls attached !! pid = Some set <-> attached !! pid = Some set /\ ssl_links set <> [].
Proof. unfold with_tls. rewrite map_lookup_filter_Some. simpl. destruct (ssl_links set); simpl; intuition congruence. Qed.

(** The check for required TLS uprobes *)
Lemma required_exact tls_mode (l : list Z) attached e :
  (if match tls_mode with Required => true | _ => false end && negb (match l with [] => true | _ => false end)
      && bool_decide (with_tls attached = ∅) then Err e else Ok tt) = Ok tt :> res string unit <->
  (tls_mode = Required -> l <> [] -> exists pid set, attached !! pid = Some set /\ ssl_links set <> []).
Proof.
  assert (with_tls attached = ∅ <-> ~ exists pid set, attached !! pid = Some set /\ ssl_links set <> []) as He.
  { split.
    - intros He (pid & set & Hs). apply with_tls_lookup in Hs. by rewrite He in Hs.
    - intros Hn. apply map_empty. intros pid. destruct (with_tls attached !! pid) as [set|] eqn:Hs; [|done].
      destruct Hn. apply with_tls_lookup in Hs. eauto. }
  destruct tls_mode; cbn [andb]; try by split; [|done].
  destruct l as [|x l]; cbn [negb andb]; [by split; [|done]|].
  case_bool_decide as Hb; split; try done.
  - intros Hx. apply He in Hb. destruct Hb. by apply Hx.
  - intros _ _ _. apply map_choose in Hb as (pid & set & Hs). apply with_tls_lookup in Hs. eauto.
Qed.

(** C40: Probes follow the processes.  The list of processes may fail to be read (then
    nothing changes), and the update of the map of targets may fail for one of them
    (then the scan stops there).  A scan of a list, which names each process once,
    drops the links of every process that is not in it, and never loses or replaces
    TLS links of one that is.  When every update succeeds, each process in the list
    is probed as the options ask, and the gauges count the processes and those with
    TLS links; else the gauges are left.  The scan succeeds exactly when the list
    was read, every update succeeded, and, if TLS uprobes are required and there are
    processes, at least one of them has a TLS link. *)
Theorem scan_exact tls_mode lock_profiling pids attached attached' gauges result :
  (forall l, pids = Ok l -> NoDup l) ->
  scan_and_attach_uprobes tls_mode lock_profiling pids attached = (attached', gauges, result) ->
  (forall l, pids = Ok l ->
    (forall pid, pid ∉ l -> attached' !! pid = None) /\
    (forall pid set, pid ∈ l -> attached !! pid = Some set -> ssl_links set <> [] ->
      exists set', attached' !! pid = Some set' /\ ssl_links set' = ssl_links set) /\
    if forallb update_target l then
      (forall pid, pid ∈ l ->
        attached' !! pid = Some (attach_target tls_mode lock_profiling pid (default no_uprobes (attached !! pid)))) /\
      gauges = Some (len l, Z.of_nat (size (with_tls attached')))
    else gauges = None) /\
  ((forall l, pids <> Ok l) -> attached' = attached /\ gauges = None) /\
  (result = Ok tt <-> exists l, pids = Ok l /\ forallb update_target l = true /\
    (tls_mode = Required -> l <> [] -> exists pid set, attached' !! pid = Some set /\ ssl_links set <> [])).
Proof.
  intros Hnd. unfold scan_and_attach_uprobes. destruct pids as [l|e|f]; cycle 1.
  1-2: intros [= <- <- <-]; (split; [done|]); (split; [done|]); split; [done|by intros (l & ? & _)].
  specialize (Hnd l eq_refl). set (live := filter _ attached).
  assert (forall pid, live !! pid = if decide (pid ∈ l) then attached !! pid else None) as Hlive.
  { intros pid. unfold live. rewrite map_lookup_filter. simpl. destruct (attached !! pid); simpl; [|by case_decide].
    case_decide; [by rewrite option_guard_True|by rewrite option_guard_False]. }
  pose proof (scan_loop_complete tls_mode lock_profiling l live) as Hall.
  pose proof (fun pid => scan_loop_each tls_mode lock_profiling l live pid Hnd) as Heach.
  destruct (scan_loop tls_mode lock_profiling l live) as [final complete] eqn:Hf. cbn [fst snd] in *.
  assert (complete = forallb update_target l) as Hcomplete.
  { apply eq_bool_prop_intro. rewrite !Is_true_true, forallb_forall, Hall. by setoid_rewrite list_elem_of_In. }
  assert ((forall pid, pid ∉ l -> final !! pid = None) /\
    (forall pid set, pid ∈ l -> attached !! pid = Some set -> ssl_links set <> [] ->
      exists set', final !! pid = Some set' /\ ssl_links set' = ssl_links set)) as [Hdrop Hkeep].
  { split.
    - intros pid Hp. destruct (Heach pid) as [->|[? _]]; [|done]. by rewrite Hlive, decide_False.
    - intros pid set Hp Hs Hne. pose proof (Hlive pid) as Hl. rewrite decide_True, Hs in Hl by done.
      destruct (Heach pid) as [->|[_ ->]]; [eauto|]. rewrite Hl. eexists. split; [done|]. by apply attach_target_keeps. }
  assert (forall l', Ok l = Ok l' :> res string (list Z) -> l' = l) as Hl by (by intros l' [= ->]).
  destruct complete; intros [= <- <- <-].
  - split; [|split; [by intros Hno; destruct (Hno l)|]].
    + intros l' ->%Hl. rewrite <-Hcomplete. split; [done|]. split; [done|]. split; [|done]. intros pid Hp.
      by rewrite (scan_loop_lookup _ _ _ _ _ Hf Hnd), Hlive, !decide_True by done.
    + rewrite required_exact. split; [intros H; exists l; by rewrite <-Hcomplete|]. by intros (l' & ->%Hl & _ & H).
  - split; [|split; [by intros Hno; destruct (Hno l)|]].
    + intros l' ->%Hl. by rewrite <-Hcomplete.
    + split; [done|]. intros (l' & ->%Hl & H & _). by rewrite <-Hcomplete in H.
Qed.
End scan.

(** * Examples *)
Definition sample_maps : string :=
  ("7f00 r-xp 00000000 08:01 1 /usr/lib/libssl.so.3" ++ string_of [x0a] ++
   "7f01 r--p 00000000 08:01 1 /usr/lib//libssl.so.3" ++ string_of [x0a] ++
   "7f02 r--p 00000000 08:01 1 /opt/libssl.so.1 (deleted)" ++ string_of [x0a] ++ "7f03 rw-p 00000000 00:00 0 [heap]" ++ string_of [x0a])%string.
(** The last word of a line for a deleted file is the mark, so the file is not
    found; the two spellings of one path are one library. *)
Example sample_libraries :
  mapped_libraries "/host/proc" 42 ["libssl.so"; "libboringssl"] (Some sample_maps) = Ok ["/host/proc/42/root/usr/lib/libssl.so.3"].
Proof. vm_compute. reflexivity. Qed.

Definition sample_scan := scan_and_attach_uprobes (Link := nat) (fun _ => true)
  (fun pid => Ok (if pid =? 42 then [1; 2]%nat else [])) (fun _ => Ok [3]%nat) Required true (Ok [42; 43])
  {[ 7 := {| ssl_links := [9]%nat; lock_links := [] |} ]}.
Lemma scan_exact_witness :
  sample_scan.1.1 !! 7 = None /\ sample_scan.1.2 = Some (2, 1) /\ sample_scan.2 = Ok tt.
Proof.
  destruct (scan_exact (Link := nat) (fun _ => true) (fun pid => Ok (if pid =? 42 then [1; 2]%nat else [])) (fun _ => Ok [3]%nat)
    Required true (Ok [42; 43]) {[ 7 := {| ssl_links := [9]%nat; lock_links := [] |} ]}
    sample_scan.1.1 sample_scan.1.2 sample_scan.2) as (Hl & _ & Hr).
  - intros l [= <-]. apply (bool_decide_unpack _). vm_compute. exact I.
  - by rewrite <- !surjective_pairing.
  - destruct (Hl [42; 43] eq_refl) as (Hdrop & _ & _ & Hg). split; [|split].
    + apply Hdrop. apply (bool_decide_unpack _). vm_compute. exact I.
    + rewrite Hg. vm_compute. reflexivity.
    + apply Hr. exists [42; 43]. split; [reflexivity|]. split; [reflexivity|]. intros _ _.
      exists 42, {| ssl_links := [1; 2]%nat; lock_links := [3]%nat |}. split; [vm_compute; reflexivity|discriminate].
Defined.
