(* ===== verification/Bpf.v ===== *)
(** The eBPF worker, [run_bpf] of crates/observer/src/main.rs and the thread around
    it: how it starts and reports, the loop that polls the ring buffer and scans
    for processes, and how it ends.  What libbpf and the kernel answer is input of
    the steps. *)
From Stdlib Require Import ZArith Lia ZifyBool Strings.Byte Strings.Ascii Strings.String.
From stdpp Require Import base list strings gmap list_numbers pretty.
From S2P Require Import Prelude Text Float64 Json Bson Wire Schema Proc Kernel Observer ObserverSpec Spool SpoolSpec.
From S2P Require Import Trace Delivery Agent AgentSample Sensor SensorSpec SensorSample ObserverSample Probes.

Local Open Scope string_scope.
Local Open Scope list_scope.
Local Open Scope Z_scope.

(** * Configuration *)
Record BpfConfig : Set := {
  bpf_host_proc : string;
  rescan_interval : Z;
  bpf_cpu_profile_hz : Z;
  bpf_mongodb_port : Z;
  tls_mode : TlsUprobeMode;
  lock_profiling : bool
}.
(** As [main] makes it; the interval in seconds *)
Definition bpf_config_of (cli : Cli) : BpfConfig := {|
  bpf_host_proc := cli_host_proc cli;
  rescan_interval := Z.max (cli_rescan_seconds cli) 1;
  bpf_cpu_profile_hz := cli_cpu_profile_hz cli;
  bpf_mongodb_port := cli_mongodb_port cli;
  tls_mode := cli_tls_uprobes cli;
  lock_profiling := cli_lock_profiling cli
|}.

(** * The kernel probes: the program and the name it is reported with *)
Definition REQUIRED_PROBES : list (string * string) :=
  [("handle_sys_enter", "raw_syscalls/sys_enter"); ("handle_sys_exit", "raw_syscalls/sys_exit");
   ("handle_sched_switch", "sched/sched_switch"); ("handle_process_exec", "sched/sched_process_exec");
   ("handle_process_exit", "sched/sched_process_exit"); ("handle_tcp_sendmsg", "tcp_sendmsg");
   ("handle_tcp_recvmsg", "tcp_recvmsg")].
Definition OPTIONAL_PROBES : list (string * string) :=
  [("handle_udp_sendmsg", "udp_sendmsg"); ("handle_udp_recvmsg", "udp_recvmsg");
   ("handle_udpv6_sendmsg", "udpv6_sendmsg"); ("handle_udpv6_recvmsg", "udpv6_recvmsg");
   ("handle_tcp_connect", "tcp_connect"); ("handle_tcp_state", "tcp_set_state");
   ("handle_tcp_accept", "inet_csk_accept"); ("handle_tcp_close", "tcp_close");
   ("handle_tcp_rtt", "tcp_rcv_established"); ("handle_tcp_retransmit", "tcp_retransmit_skb");
   ("handle_tcp_reset", "tcp_reset"); ("handle_tcp_active_reset", "tcp_send_active_reset");
   ("handle_page_fault_enter", "handle_mm_fault entry"); ("handle_page_fault_exit", "handle_mm_fault return")].

(** The answer of a call to libbpf: an error, by its text, or a value *)
Definition answer {A} (r : string + A) : res string A :=
  match r with
  | inl e => Err e
  | inr a => Ok a
  end.
(** [Context::context], as [{error:#}] prints it *)
Definition context {A} (what : string) (r : res string A) : res string A :=
  map_err (fun cause => (what ++ ": " ++ cause)%string) r.

(** The fields of a [perf_event_attr] that are not zero, beside its type and size *)
Record PerfEventAttr : Set := {
  sample_freq : Z;
  freq : bool;
  exclude_hv : bool
}.

Section startup.
Context {Link Fd : Type}.

(** What libbpf and the kernel answer to the calls of a start.  [load] is given the
    port that was written to the read-only data. *)
Record Node : Type := {
  open_object : string + unit;
  has_rodata : bool;
  load : Z -> string + unit;
  attach : string -> string + Link;
  map_handle : string -> string + unit;
  possible_cpus : option Z;
  perf_event_open : PerfEventAttr -> Z -> option Fd;
  attach_perf_event : Fd -> option Link;
  ring_buffer : string + unit
}.

Fixpoint attach_required (attach : string -> string + Link) (l : list (string * string)) : res string (list Link) :=
  match l with
  | [] => Ok []
  | (program, name) :: l =>
      let! link := context ("attaching " ++ name) (answer (attach program)) in
      let! links := attach_required attach l in
      Ok (link :: links)
  end.
Definition attach_optional (attach : string -> string + Link) (l : list (string * string)) : list Link :=
  omap (fun '(program, _) => match attach program with inr link => Some link | inl _ => None end) l.

(** A CPU whose event cannot be opened or attached is left out. *)
Definition attach_cpu_sampling (n : Node) (frequency_hz : Z) : list (Fd * Link) :=
  match possible_cpus n with
  | None => []
  | Some cpus =>
      omap (fun cpu =>
        fd ← perf_event_open n {| sample_freq := frequency_hz; freq := true; exclude_hv := true |} cpu;
        link ← attach_perf_event n fd;
        Some (fd, link)) (seqZ 0 cpus)
  end.

(** What a worker holds besides the uprobes *)
Record Held : Type := {
  kernel_links : list Link;
  perf_links : list (Fd * Link)
}.
Definition nothing_held : Held := {| kernel_links := []; perf_links := [] |}.

(** [run_bpf] up to the ring buffer *)
Definition load_and_attach (config : BpfConfig) (n : Node) : res string Held :=
  let! _ := context "opening the eBPF object" (answer (open_object n)) in
  let! _ := (if has_rodata n then Ok tt else Err "eBPF rodata map is unavailable") in
  let! _ := context "loading eBPF programs; the node needs BTF, Linux 5.8+, and privileged BPF access"
              (answer (load n (bpf_mongodb_port config))) in
  let! required := attach_required (attach n) REQUIRED_PROBES in
  let optional := attach_optional (attach n) OPTIONAL_PROBES in
  let! _ := answer (map_handle n "target_tgids") in
  let! _ := answer (map_handle n "dropped_events") in
  let! _ := answer (map_handle n "stack_traces") in
  let sampling := if 0 <? bpf_cpu_profile_hz config then attach_cpu_sampling n (bpf_cpu_profile_hz config) else [] in
  let! _ := answer (ring_buffer n) in
  Ok {| kernel_links := required ++ optional; perf_links := sampling |}.

(** ** A scan *)

(** What the machine answers to a scan: the entries of /proc, the files of a
    process, the update of the map, the uprobes. *)
Record Scan : Type := {
  entries : option (list (option string));
  comm : string -> option string;
  maps : Z -> option string;
  exe_exists : Z -> bool;
  update_target : Z -> bool;
  attach_symbol : Z -> string -> string -> string -> bool -> option Link
}.
Definition scan_once (config : BpfConfig) (x : Scan) (uprobes : gmap Z (UprobeSet (Link := Link)))
    : gmap Z UprobeSet * option (Z * Z) * res string unit :=
  scan_and_attach_uprobes (update_target x)
    (fun pid => attach_ssl_uprobes (attach_symbol x pid) (bpf_host_proc config) pid (maps x pid) (exe_exists x pid))
    (fun pid => attach_lock_uprobes (attach_symbol x pid) (bpf_host_proc config) pid (maps x pid))
    (tls_mode config) (lock_profiling config)
    (mongodb_pids (bpf_host_proc config) (comm x) (entries x)) uprobes.

(** The two gauges of a scan, if it got so far *)
Definition store_gauges (gauges : option (Z * Z)) (m : RuntimeMetrics) : RuntimeMetrics :=
  match gauges with
  | Some (targets, tls) => set_gauges (bpf_ready m) (bpf_dropped_events m) targets tls m
  | None => m
  end.
Definition set_ready (ready : bool) (m : RuntimeMetrics) : RuntimeMetrics :=
  set_gauges ready (bpf_dropped_events m) (target_processes m) (tls_uprobe_processes m) m.
(** The first eight bytes of the map's value; a shorter one is left aside. *)
Definition store_dropped (value : option bytes) (m : RuntimeMetrics) : RuntimeMetrics :=
  match value ≫= (fun value => get_range value 0 8) with
  | Some bs => set_gauges (bpf_ready m) (u64_from_le_bytes bs) (target_processes m) (tls_uprobe_processes m) m
  | None => m
  end.

(** * The worker *)

(** Where the thread is: before the start; at the head of the loop; with records
    the poll still has to hand over; after the poll; back from [run_bpf]; ended. *)
Inductive Control : Type :=
| Starting
| Looping
| Consuming (records : list bytes)
| Consumed
| Returned (r : res string unit)
| Finished.

(** [startup]: the sender of the report is still there. *)
Record Worker : Type := {
  control : Control;
  held : Held;
  uprobes : gmap Z (UprobeSet (Link := Link));
  last_scan : Z;
  startup : bool;
  reports : list (string + unit)
}.
Definition new_worker : Worker := {|
  control := Starting; held := nothing_held; uprobes := ∅; last_scan := 0; startup := true; reports := []
|}.
Definition set_control (c : Control) (wk : Worker) : Worker := {|
  control := c; held := held wk; uprobes := uprobes wk; last_scan := last_scan wk; startup := startup wk;
  reports := reports wk
|}.
Definition set_uprobes (u : gmap Z UprobeSet) (now : Z) (wk : Worker) : Worker := {|
  control := control wk; held := held wk; uprobes := u; last_scan := now; startup := startup wk; reports := reports wk
|}.
Definition set_held (h : Held) (wk : Worker) : Worker := {|
  control := control wk; held := h; uprobes := uprobes wk; last_scan := last_scan wk; startup := startup wk;
  reports := reports wk
|}.
(** [if let Some(sender) = startup.take() { sender.send(message) }] *)
Definition report (message : string + unit) (wk : Worker) : Worker := {|
  control := control wk; held := held wk; uprobes := uprobes wk; last_scan := last_scan wk; startup := false;
  reports := if startup wk then reports wk ++ [message] else reports wk
|}.
(** The thread drops what it holds. *)
Definition drop_all (wk : Worker) : Worker := {|
  control := Finished; held := nothing_held; uprobes := ∅; last_scan := last_scan wk; startup := false;
  reports := reports wk
|}.

(** What [main] gets from [startup_rx.await]; nothing as long as there is neither
    a report nor the end of the sender *)
Definition awaited (wk : Worker) : option (res string unit) :=
  match reports wk with
  | inr _ :: _ => Some (Ok tt)
  | inl error :: _ => Some (Err error)
  | [] => if startup wk then None else Some (Err "eBPF worker exited before reporting startup")
  end.
End startup.
Arguments Node : clear implicits.
Arguments Held : clear implicits.
Arguments Scan : clear implicits.
Arguments Worker : clear implicits.

Section worker.
Context {OffsetDateTime World : Type} `{Host OffsetDateTime World} `{Sha256} `{Decompressors}.
Abbreviation DamBatch := (DamBatch OffsetDateTime).
Abbreviation Sensor := (Sensor (OffsetDateTime := OffsetDateTime)).
Abbreviation Log := (Log (OffsetDateTime := OffsetDateTime)).
Context {Link Fd : Type}.
Abbreviation Worker := (Worker Link Fd).
(** The configuration, the node, and the text of an error of the poll whose
    callback returned the code *)
Context (config : BpfConfig) (node : Node Link Fd) (callback_error : Z -> string).

(** [stopping], which [main] sets when it stops serving *)
Definition stopping (s : Sensor) : bool := match main_at s with Serving => false | _ => true end.

(** What comes in at a step: the first scan and the time after it; the records a
    poll finds, or its failure; the map of stacks when a record is handed over;
    after a poll the time, and for a rescan its answers, the value of the map of
    dropped events and the time after it. *)
Inductive Input : Type :=
| Start (scan : Scan Link) (now : Z)
| Poll (found : string + list bytes)
| Stacks (map : Z -> option bytes)
| After (now : Z) (scan : Scan Link) (dropped : option bytes) (later : Z)
| Go.

Definition start_step (scan : Scan Link) (now : Z) (wk : Worker) (s : Sensor) : Worker * Sensor :=
  match load_and_attach config node with
  | Ok h =>
      let '(found, gauges, result) := scan_once config scan ∅ in
      let s := set_metrics (store_gauges gauges (metrics s)) s in
      match result with
      | Ok _ => (report (inr tt) (set_control Looping (set_uprobes found now (set_held h wk))),
                 set_metrics (set_ready true (metrics s)) s)
      | _ => (set_control (Returned result) wk, s)
      end
  | Err e => (set_control (Returned (Err e)) wk, s)
  | Fault f => (set_control (Returned (Fault f)) wk, s)
  end.

Definition rescan_step (now : Z) (scan : Scan Link) (dropped : option bytes) (later : Z) (wk : Worker) (s : Sensor)
    : Worker * Sensor :=
  if rescan_interval config <=? now - last_scan wk then
    let '(found, gauges, result) := scan_once config scan (uprobes wk) in
    let s := set_metrics (store_gauges gauges (metrics s)) s in
    match result with
    | Ok _ => (set_control Looping (set_uprobes found later wk), set_metrics (store_dropped dropped (metrics s)) s)
    | _ => (set_control (Returned result) wk, s)
    end
  else (set_control Looping wk, s).

(** What the closure of the thread does with the result of [run_bpf]; a panic
    passes it by. *)
Definition thread_end (r : res string unit) (wk : Worker) : Worker :=
  drop_all (match r with Err e => report (inl e) wk | _ => wk end).

(** The record a step hands over, and what the channel got *)
Abbreviation handed := (option (bytes * option CapturedKernelEvent)).
Definition log_handed (h : handed) (l : Log) : Log :=
  match h with Some (bs, captured) => log_ring bs captured l | None => l end.

Definition worker_step (i : Input) (wk : Worker) (s : Sensor) : option (Worker * Sensor * handed) :=
  match control wk, i with
  | Starting, Start scan now => Some (start_step scan now wk s, None)
  | Looping, Poll found =>
      Some (if stopping s then (set_control (Returned (Ok tt)) wk, set_metrics (set_ready false (metrics s)) s)
            else match found with
                 | inr records => (set_control (Consuming records) wk, s)
                 | inl e => (set_control (Returned (Err e)) wk, s)
                 end, None)
  | Consuming (bs :: records), Stacks map =>
      let '(s, captured, code) := ring_callback map bs s in
      Some (set_control (if code <? 0 then Returned (Err (callback_error code)) else Consuming records) wk, s,
            Some (bs, captured))
  | Consuming [], Go => Some (set_control Consumed wk, s, None)
  | Consumed, After now scan dropped later => Some (rescan_step now scan dropped later wk s, None)
  | Returned r, Go => Some (thread_end r wk, thread_ends s, None)
  | _, _ => None
  end.

(** * The agent with its worker *)
Context (iteration : gmap (Z * Z * Z) (PendingRequest OffsetDateTime) -> list ((Z * Z * Z) * PendingRequest OffsetDateTime)).
Context (nanos : OffsetDateTime -> bytes) (from_slice : bytes -> string + DamBatch)
  (to_vec : DamBatch -> string + bytes) (header_value : string -> bool).
Context (st : Settings) (faulty : bool) (fresh : string -> world -> Prop).
Abbreviation step := (step iteration nanos from_slice to_vec header_value st faulty fresh).
Abbreviation steps := (steps iteration nanos from_slice to_vec header_value st faulty fresh).

(** Steps of the worker, and of the other tasks, which do not end it or say that
    it is ready *)
Inductive agent_steps : Worker -> Sensor -> Log -> Worker -> Sensor -> Log -> Prop :=
| agent_none wk s l : agent_steps wk s l wk s l
| agent_worker i wk s l wk1 s1 h wk' s' l' :
    running s = true -> worker_step i wk s = Some (wk1, s1, h) ->
    agent_steps wk1 s1 (log_handed h l) wk' s' l' -> agent_steps wk s l wk' s' l'
| agent_task wk s l s1 l1 wk' s' l' :
    running s = true -> step s l s1 l1 -> polling s1 = polling s -> bpf_ready (metrics s1) = bpf_ready (metrics s) ->
    agent_steps wk s1 l1 wk' s' l' -> agent_steps wk s l wk' s' l'.

Definition alive (wk : Worker) : bool := match control wk with Finished => false | _ => true end.

(** ** Refinement *)
Lemma set_gauges_again r d t u r' d' t' u' m :
  set_gauges r d t u (set_gauges r' d' t' u' m) = set_gauges r d t u m.
Proof. done. Qed.
Lemma metrics_again m m' (s : Sensor) : set_metrics m (set_metrics m' s) = set_metrics m s.
Proof. done. Qed.
Lemma set_metrics_same (s : Sensor) : set_metrics (metrics s) s = s.
Proof. by destruct s. Qed.

(** The gauges and the flag are all that such a change may touch. *)
Definition gauged (m m' : RuntimeMetrics) : Prop :=
  m' = m \/ exists ready dropped targets tls, m' = set_gauges ready dropped targets tls m.

Lemma gauged_trans m m1 m2 : gauged m m1 -> gauged m1 m2 -> gauged m m2.
Proof.
  intros Hm [->|(r & d & t & u & ->)]; [done|]. right. exists r, d, t, u.
  destruct Hm as [->|(r' & d' & t' & u' & ->)]; done.
Qed.
Lemma gauged_store gauges m : gauged m (store_gauges gauges m).
Proof. destruct gauges as [[t u]|]; [right|by left]. by eexists _, _, _, _. Qed.
Lemma gauged_ready ready m : gauged m (set_ready ready m).
Proof. right. by eexists _, _, _, _. Qed.
Lemma gauged_dropped value m : gauged m (store_dropped value m).
Proof. unfold store_dropped. case_match; [right|by left]. by eexists _, _, _, _. Qed.

Lemma steps_gauged m s l :
  running s = true -> polling s = true -> gauged (metrics s) m -> steps s l (set_metrics m s) l.
Proof.
  intros Hr Hp [->|(r & d & t & u & ->)]; [rewrite set_metrics_same; constructor|].
  eapply steps_one; [done|by apply step_gauges|constructor].
Qed.

(** What a step of the worker does to the agent: it hands a record over, sets
    gauges, or ends the thread. *)
Lemma worker_step_shape i wk s wk' s' h :
  worker_step i wk s = Some (wk', s', h) ->
  (exists map bs captured code, ring_callback map bs s = (s', captured, code) /\ h = Some (bs, captured) /\ alive wk' = true) \/
  (exists m, gauged (metrics s) m /\ s' = set_metrics m s /\ h = None /\ alive wk' = true) \/
  (s' = thread_ends s /\ h = None /\ alive wk' = false).
Proof.
  assert (forall (wk' : Worker), alive wk' = true ->
    exists m, gauged (metrics s) m /\ s = set_metrics m s /\ None = (None : handed) /\ alive wk' = true) as Hsame.
  { intros wk0 Ha. exists (metrics s). rewrite set_metrics_same. split_and!; [by left|done..]. }
  unfold worker_step. destruct (control wk) as [| |[|bs records]| |r|], i as [scan now|found|map|now scan dropped later|];
    try done.
  - unfold start_step. destruct (load_and_attach config node) as [h0|e|f].
    + destruct (scan_once config scan ∅) as [[found gauges] result].
      destruct result; intros [= <- <- <-]; right; left; eexists; split_and!; try done.
      * eapply gauged_trans; [apply gauged_store|apply gauged_ready].
      * apply gauged_store.
      * apply gauged_store.
    + intros [= <- <- <-]. right. left. by apply Hsame.
    + intros [= <- <- <-]. right. left. by apply Hsame.
  - destruct (stopping s).
    + intros [= <- <- <-]. right. left. eexists. split_and!; [apply gauged_ready|done..].
    + destruct found; intros [= <- <- <-]; right; left; by apply Hsame.
  - intros [= <- <- <-]. right. left. by apply Hsame.
  - destruct (ring_callback map bs s) as [[s1 captured] code] eqn:Hc. intros [= <- <- <-]. left.
    exists map, bs, captured, code. split_and!; [done..|]. unfold alive. simpl. by destruct (code <? 0).
  - unfold rescan_step. destruct (_ <=? _).
    + destruct (scan_once config scan (uprobes wk)) as [[found gauges] result].
      destruct result; intros [= <- <- <-]; right; left; eexists; split_and!; try done.
      * eapply gauged_trans; [apply gauged_store|apply gauged_dropped].
      * apply gauged_store.
      * apply gauged_store.
    + intros [= <- <- <-]. right. left. by apply Hsame.
  - intros [= <- <- <-]. right. right. done.
Qed.

Lemma worker_step_alive i wk s wk' s' h : worker_step i wk s = Some (wk', s', h) -> alive wk = true.
Proof. unfold worker_step, alive. by destruct (control wk). Qed.

Lemma worker_refines i wk s wk' s' h l :
  running s = true -> polling s = alive wk -> worker_step i wk s = Some (wk', s', h) ->
  steps s l s' (log_handed h l) /\ polling s' = alive wk'.
Proof.
  intros Hr Hp Hs. pose proof (worker_step_alive _ _ _ _ _ _ Hs) as Ha. rewrite Ha in Hp.
  apply worker_step_shape in Hs as [(map & bs & captured & code & Hc & -> & Ha')|[(m & Hm & -> & -> & Ha')|(-> & -> & Ha')]].
  - split; [eapply steps_one; [done|by eapply step_ring|constructor]|]. rewrite Ha', <- Hp.
    revert Hc. unfold ring_callback. destruct (on_ring_record _ _ _ _) as [[c k] m]. by intros [= <- _ _].
  - rewrite Ha'. split; [by apply steps_gauged|done].
  - rewrite Ha'. split; [eapply steps_one; [done|by apply step_thread_ends|constructor]|done].
Qed.

(** C13: The agent with its worker is a run of the agent.  Whatever libbpf and the
    kernel answer, and however the tasks interleave with the steps of the worker
    thread, what happens are steps of the agent as Sensor.v has them; its records
    are those the worker handed over, and the channel is open exactly until the
    thread has ended. *)
Theorem worker_simulated wk s l wk' s' l' :
  agent_steps wk s l wk' s' l' -> polling s = alive wk -> steps s l s' l' /\ polling s' = alive wk'.
Proof.
  induction 1 as [wk s l|i wk s l wk1 s1 h wk' s' l' Hr Hs _ IH|wk s l s1 l1 wk' s' l' Hr Hs Hp _ _ IH]; intros Hl.
  - split; [constructor|done].
  - destruct (worker_refines _ _ _ _ _ _ l Hr Hl Hs) as [Hsteps Hl1]. destruct (IH Hl1) as [Hrest Hl'].
    split; [by eapply steps_trans|done].
  - destruct IH as [Hrest Hl']; [congruence|]. split; [by eapply steps_one|done].
Qed.

(** ** The report *)

(** Every required program is attached, by a link the worker holds. *)
Definition probed (h : Held Link Fd) : Prop :=
  Forall (fun probe => exists link, attach node probe.1 = inr link /\ link ∈ kernel_links h) REQUIRED_PROBES.

Lemma attach_required_all attach l links :
  attach_required attach l = Ok links ->
  Forall (fun probe => exists link : Link, attach probe.1 = inr link /\ link ∈ links) l.
Proof.
  revert links. induction l as [|[program name] l IH]; intros links; [by constructor|]. cbn [attach_required].
  intros (link & Hlink & (links' & Hr & [= <-])%bind_Ok_inv)%bind_Ok_inv. constructor.
  - exists link. split; [|by left]. simpl. by destruct (attach program); [|injection Hlink as ->].
  - eapply Forall_impl; [by apply IH|]. intros probe (link' & Ha & Hin). exists link'. split; [done|by right].
Qed.

Lemma safe_answer {A} (r : string + A) : safe (fun _ => True) (answer r).
Proof. by destruct r. Qed.
Lemma safe_attach_required (attach : string -> string + Link) l : safe (fun _ => True) (attach_required attach l).
Proof.
  induction l as [|[program name] l IH]; [done|]. cbn [attach_required].
  apply (safe_bind_with (fun _ => True)); [apply safe_map_err, safe_answer|]. intros link _. by apply (safe_bind_with (fun _ => True)); [exact IH|].
Qed.

Lemma load_probed : ensures probed (load_and_attach config node).
Proof.
  unfold load_and_attach. do 3 (apply ensures_call; intros _).
  eapply ensures_bind; [intros required; apply attach_required_all|]. intros required Hr. cbv zeta.
  do 4 (apply ensures_call; intros _). apply ensures_Ok. unfold probed. eapply Forall_impl; [exact Hr|].
  intros probe (link & Ha & Hin). exists link. split; [exact Ha|]. apply elem_of_app. by left.
Qed.
Lemma safe_load_and_attach : safe (fun _ => True) (load_and_attach config node).
Proof.
  unfold load_and_attach.
  apply (safe_bind_with (fun _ => True)); [apply safe_map_err, safe_answer|intros _ _].
  apply (safe_bind_with (fun _ => True)); [by destruct (has_rodata node)|intros _ _].
  apply (safe_bind_with (fun _ => True)); [apply safe_map_err, safe_answer|intros _ _].
  apply (safe_bind_with (fun _ => True)); [apply safe_attach_required|intros required _]. cbv zeta.
  do 4 (apply (safe_bind_with (fun _ => True)); [apply safe_answer|intros _ _]). done.
Qed.
Lemma safe_scan (scan : Scan Link) u : safe (fun _ => True) (scan_once config scan u).2.
Proof.
  unfold scan_once, scan_and_attach_uprobes, mongodb_pids. destruct (entries scan) as [l|]; [|done].
  destruct (scan_loop _ _ _ _ _ _ _) as [attached []]; [|done]. simpl. by case_match.
Qed.

(** What the worker has told [main]: nothing before the start is decided, success
    from then on, or the one error it ended with. *)
Definition told (wk : Worker) : Prop :=
  let started := startup wk = false /\ reports wk = [inr tt] in
  match control wk with
  | Starting => startup wk = true /\ reports wk = []
  | Looping | Consuming _ | Consumed => started /\ probed (held wk)
  | Returned r => safe (fun _ => True) r /\
      (startup wk = true /\ reports wk = [] /\ r <> Ok tt \/ started /\ probed (held wk))
  | Finished => started \/ startup wk = false /\ exists e, reports wk = [inl e]
  end.

Lemma worker_told i wk s wk' s' h : worker_step i wk s = Some (wk', s', h) -> told wk -> told wk'.
Proof.
  unfold worker_step, told.
  destruct (control wk) as [| |[|bs records]| |r|], i as [scan now|found|map|now scan dropped later|]; try done.
  - unfold start_step. intros Hs [Hst Hrep]. pose proof safe_load_and_attach as Hsafe.
    destruct (load_and_attach config node) as [h0|e|f] eqn:Hload; [|injection Hs as <- <- <-; simpl; by eauto|done].
    pose proof (safe_scan scan ∅) as Hscan. destruct (scan_once config scan ∅) as [[found gauges] result].
    destruct result as [[]|e|f]; injection Hs as <- <- <-; simpl; [|by eauto|done].
    rewrite Hst, Hrep. split; [done|]. by apply load_probed.
  - intros Hs [Hst Hp]. destruct (stopping s); [|destruct found]; injection Hs as <- <- <-; simpl; by auto.
  - by intros [= <- <- <-].
  - destruct (ring_callback map bs s) as [[s1 captured] code]. intros [= <- <- <-] [Hst Hp]. simpl.
    destruct (code <? 0); simpl; auto.
  - unfold rescan_step. intros Hs [Hst Hp]. destruct (_ <=? _); [|by injection Hs as <- <- <-].
    pose proof (safe_scan scan (uprobes wk)) as Hscan. destruct (scan_once config scan (uprobes wk)) as [[found gauges] result].
    destruct result; injection Hs as <- <- <-; simpl; auto.
  - intros [= <- <- <-] [Hsafe [(Hst & Hrep & Hr)|[[Hst Hrep] Hp]]]; destruct r as [[]|e|f]; simpl; rewrite ?Hst, ?Hrep; try done.
    + right. split; [done|]. by exists e.
    + by left.
    + by left.
Qed.

Lemma agent_told wk s l wk' s' l' : agent_steps wk s l wk' s' l' -> told wk -> told wk'.
Proof. induction 1; eauto using worker_told. Qed.

(** The worker reports its start once.  [main] waits for a report before it
    serves.  Whatever the machine answers and the other tasks do: the worker sends
    at most one report, and one before it ends, so [main] never waits in vain and
    never finds the sender gone without a report; it reports success only when
    every required probe is attached, and keeps them attached until it ends. *)
Theorem startup_reported s l wk s' l' :
  agent_steps new_worker s l wk s' l' ->
  (length (reports wk) <= 1)%nat /\
  (startup wk = false -> reports wk <> []) /\
  (alive wk = false -> awaited wk <> None) /\
  (awaited wk = Some (Ok tt) -> alive wk = true -> probed (held wk)).
Proof.
  intros Hsteps. apply agent_told in Hsteps; [|done]. revert Hsteps. unfold told, awaited, alive.
  destruct (control wk) as [| |records| |r|].
  all: try (intros [[-> ->] Hp]; simpl; split_and!; by auto).
  - intros [-> ->]. simpl. split_and!; [lia|done..].
  - intros [_ [(-> & -> & _)|[[-> ->] Hp]]]; simpl; split_and!; auto; done || lia.
  - intros [[-> ->]|[-> [e ->]]]; simpl; split_and!; done || lia.
Qed.

(** ** The end *)

(** The steps the worker can still make once it is to stop *)
Definition remaining (wk : Worker) : nat :=
  match control wk with
  | Finished => 0
  | Returned _ => 1
  | Looping => 2
  | Consumed => 3
  | Consuming records => 4 + length records
  | Starting => 5
  end.

Lemma ring_callback_stopping map bs s s' captured code :
  ring_callback map bs s = (s', captured, code) -> stopping s' = stopping s.
Proof. unfold ring_callback. destruct (on_ring_record _ _ _ _) as [[c k] m]. by intros [= <- _ _]. Qed.

(** The worker stops.  Once [main] has set the flag, the thread it joins can
    always go on, and whatever the machine answers each of its steps leaves fewer:
    after the records in hand it sees the flag, returns and ends. *)
Theorem worker_stops wk s :
  stopping s = true -> alive wk = true ->
  (exists i wk' s' h, worker_step i wk s = Some (wk', s', h)) /\
  forall i wk' s' h, worker_step i wk s = Some (wk', s', h) -> (remaining wk' < remaining wk)%nat /\ stopping s' = true.
Proof.
  intros Hstop Ha. split.
  - enough (exists i x, worker_step i wk s = Some x) as (i & [[wk' s'] h] & Hx) by (by exists i, wk', s', h).
    unfold alive in Ha. unfold worker_step. pose (scan := {| entries := None; comm := fun _ => None; maps := fun _ => None;
      exe_exists := fun _ => false; update_target := fun _ => false; attach_symbol := fun _ _ _ _ _ => None |} : Scan Link).
    destruct (control wk) as [| |[|bs records]| |r|]; [exists (Start scan 0)|exists (Poll (inr []))|exists Go
      |exists (Stacks (fun _ => None))|exists (After 0 scan None 0)|exists Go|done];
      try by eexists.
    destruct (ring_callback _ bs s) as [[s1 captured] code]. eauto.
  - intros i wk' s' h. unfold worker_step, remaining.
    destruct (control wk) as [| |[|bs records]| |r|], i as [scan now|found|map|now scan dropped later|]; try done.
    + unfold start_step. intros Hs. destruct (load_and_attach config node); [|injection Hs as <- <- <-; simpl; split; [lia|done]..].
      destruct (scan_once config scan ∅) as [[found gauges] result].
      destruct result; injection Hs as <- <- <-; simpl; (split; [lia|done]).
    + rewrite Hstop. intros [= <- <- <-]. simpl. split; [lia|done].
    + intros [= <- <- <-]. simpl. split; [lia|done].
    + destruct (ring_callback map bs s) as [[s1 captured] code] eqn:Hc. intros [= <- <- <-].
      rewrite (ring_callback_stopping _ _ _ _ _ _ Hc). split; [|done]. simpl. destruct (code <? 0); simpl; lia.
    + unfold rescan_step. intros Hs. destruct (_ <=? _); [|injection Hs as <- <- <-; simpl; split; [lia|done]].
      destruct (scan_once config scan (uprobes wk)) as [[found gauges] result].
      destruct result; injection Hs as <- <- <-; simpl; (split; [lia|done]).
    + intros [= <- <- <-]. simpl. split; [lia|done].
Qed.

(** ** Runs *)

(** A sequence of steps of the worker and, for [None], of [main] *)
Fixpoint work (l : list (option Input)) (wk : Worker) (s : Sensor) (log : Log) : option (Worker * Sensor * Log) :=
  match l with
  | [] => Some (wk, s, log)
  | i :: l =>
      if running s then
        match i with
        | Some i =>
            match worker_step i wk s with
            | Some (wk, s, h) => work l wk s (log_handed h log)
            | None => None
            end
        | None => match main_step s with Some s => work l wk s log | None => None end
        end
      else None
  end.

Lemma main_step_same (s s' : Sensor) : main_step s = Some s' -> polling s' = polling s /\ metrics s' = metrics s.
Proof. unfold main_step. destruct (main_at s); repeat case_match; by intros [= <-]. Qed.

Lemma work_steps l wk s log wk' s' log' : work l wk s log = Some (wk', s', log') -> agent_steps wk s log wk' s' log'.
Proof.
  revert wk s log. induction l as [|i l IH]; intros wk s log; cbn [work]; [intros [= <- <- <-]; constructor|].
  destruct (running s) eqn:Hr; [|done]. destruct i as [i|].
  - destruct (worker_step i wk s) as [[[wk1 s1] h]|] eqn:Hs; [|done]. intros Hw%IH. by eapply agent_worker.
  - destruct (main_step s) as [s1|] eqn:Hs; [|done]. intros Hw%IH. destruct (main_step_same _ _ Hs) as [Hp Hm].
    eapply agent_task; [done|by apply step_main|done|by rewrite Hm|done].
Qed.
End worker.

(** * A run: a start, a request, a signal, a reply, and the end *)
Definition sample_node : Node string string := {|
  open_object := inr tt; has_rodata := true; load := fun port => if port =? 27017 then inr tt else inl "no such port";
  attach := fun program => if String.eqb program "handle_tcp_reset" then inl "no such function" else inr program;
  map_handle := fun _ => inr tt; possible_cpus := Some 2;
  perf_event_open := fun attr cpu => if cpu =? 0 then None else Some "fd"; attach_perf_event := fun fd => Some fd;
  ring_buffer := inr tt
|}.
Definition sample_scanned : Scan string := {|
  entries := Some [Some "42"; Some "self"; None]; comm := fun _ => Some "mongod"; maps := fun _ => Some sample_maps;
  exe_exists := fun _ => false; update_target := fun _ => true;
  attach_symbol := fun _ program path symbol ret => Some symbol
|}.
Definition sample_inputs : list (option Input) :=
  [Some (Start sample_scanned 0); Some (Poll (inr [request_record])); Some (Stacks (fun _ => None)); Some Go;
   Some (After 60 sample_scanned (Some (le_bytes 8 3)) 61); Some (Poll (inr [reply_record; [x00]])); None;
   Some (Stacks (fun _ => None)); Some (Stacks (fun _ => None)); Some Go; Some (After 62 sample_scanned None 62);
   Some (Poll (inr [])); Some Go].
Abbreviation sample_work := (work (bpf_config_of sample_cli) sample_node pretty).
Definition sample_worked := sample_work sample_inputs new_worker sample_boot (boot_log []).
#[local] Strategy expand [sample_worked].
Definition sample_worker : Worker string string := default new_worker (fst ∘ fst <$> sample_worked).
Definition sample_agent := default sample_boot (snd ∘ fst <$> sample_worked).
Definition sample_log := default (boot_log []) (snd <$> sample_worked).

Lemma sample_worked_eq : sample_worked = Some (sample_worker, sample_agent, sample_log).
Proof.
  unfold sample_worker, sample_agent, sample_log.
  assert (is_some sample_worked = true) as Hs by (vm_compute; reflexivity).
  by destruct sample_worked as [[[wk s] l]|].
Qed.

Example sample_worker_ended : control sample_worker = Finished /\ reports sample_worker = [inr tt].
Proof. vm_compute. done. Qed.
Example sample_gauges : bpf_dropped_events (metrics sample_agent) = 3 /\ target_processes (metrics sample_agent) = 1 /\
  tls_uprobe_processes (metrics sample_agent) = 1 /\ bpf_ready (metrics sample_agent) = false.
Proof. vm_compute. done. Qed.

Abbreviation sample_agent_steps := (agent_steps (bpf_config_of sample_cli) sample_node pretty (fun m => map_to_list m)
  sample_nanos read_one sample_to_vec sample_header sample_settings true (vouched ∅)).
Lemma sample_agent_run :
  sample_agent_steps new_worker sample_boot (boot_log []) sample_worker sample_agent sample_log.
Proof.
  pose proof sample_worked_eq as Hw. unfold sample_worked in Hw.
  exact (work_steps (bpf_config_of sample_cli) sample_node pretty (fun m => map_to_list m) sample_nanos read_one
    sample_to_vec sample_header sample_settings true (vouched ∅) sample_inputs new_worker sample_boot (boot_log [])
    sample_worker sample_agent sample_log Hw).
Qed.

Lemma worker_simulated_witness :
  sample_steps (vouched ∅) sample_boot (boot_log []) sample_agent sample_log /\ polling sample_agent = alive sample_worker.
Proof.
  exact (worker_simulated (bpf_config_of sample_cli) sample_node pretty (fun m => map_to_list m) sample_nanos read_one
    sample_to_vec sample_header sample_settings true (vouched ∅) _ _ _ _ _ _ sample_agent_run eq_refl).
Defined.

(** The same start, where one of the required programs cannot be attached *)
Definition old_node : Node string string := {|
  open_object := inr tt; has_rodata := true; load := fun _ => inr tt;
  attach := fun program => if String.eqb program "handle_tcp_sendmsg" then inl "no such function" else inr program;
  map_handle := fun _ => inr tt; possible_cpus := None; perf_event_open := fun _ _ => None;
  attach_perf_event := fun _ => None; ring_buffer := inr tt
|}.
Example old_node_reported :
  awaited <$> (fst ∘ fst <$> work (bpf_config_of sample_cli) old_node pretty [Some (Start sample_scanned 0); Some Go]
    new_worker sample_boot (boot_log [])) = Some (Some (Err "attaching tcp_sendmsg: no such function")).
Proof. vm_compute. reflexivity. Qed.

Lemma startup_reported_witness :
  (length (reports sample_worker) <= 1)%nat /\ awaited sample_worker <> None.
Proof.
  destruct (startup_reported (bpf_config_of sample_cli) sample_node pretty (fun m => map_to_list m) sample_nanos read_one
    sample_to_vec sample_header sample_settings true (vouched ∅) sample_boot (boot_log []) sample_worker sample_agent sample_log
    sample_agent_run) as (Hone & _ & Hend & _).
  split; [exact Hone|]. apply Hend. vm_compute. reflexivity.
Defined.
