(* ===== verification/Launch.v ===== *)
(** How Outpost starts, crates/outpost/src/main.rs: the destination the command
    line and the environment select, the secrets read from files, and the
    configuration that is validated before anything runs.  Parsing the arguments
    is clap's. *)
From Stdlib Require Import ZArith Lia ZifyBool Strings.Byte Strings.Ascii Strings.String.
From stdpp Require Import base list strings gmap pretty.
From S2P Require Import Prelude Text Float64 Json Schema Enrich Destination.

Local Open Scope string_scope.
Local Open Scope list_scope.
Local Open Scope Z_scope.
Local Open Scope dam_scope.

Inductive DestinationKind : Set := KindHttp | KindS3.

Record Cli : Set := {
  out_listen_addr : string;
  out_customer_id : string;
  out_tenant_id : string;
  out_source_id : string;
  out_regional_cell_id : string;
  out_cluster_name : string;
  out_internal_token_file : option string;
  out_destination : option DestinationKind;
  out_endpoint : option string;
  out_bearer_token_file : option string;
  out_ca_file : option string;
  out_s3_bucket : option string;
  out_s3_prefix : option string;
  out_s3_endpoint_url : option string;
  out_s3_force_path_style : bool;
  out_spool_dir : string;
  out_spool_max_bytes : Z;
  out_max_request_bytes : Z;
  out_export_interval_seconds : Z;
  out_kubernetes_service_host : option string;
  out_kubernetes_service_port : string;
  out_kubernetes_token_path : string;
  out_kubernetes_ca_path : string;
  out_kubernetes_refresh_seconds : Z;
  out_identity_mapping_file : option string
}.

Section launch.
(** The text of a file, and [Url::parse] *)
Context (read_to_string : string -> option string) (url_parse : string -> option Url).

Definition read_secret (path : string) : res string string :=
  let! content := ok_or ("reading secret file " ++ path)%string (read_to_string path) in
  let value := trim content in
  let! _ := ensure (negb (String.eqb value "")) ("secret file " ++ path ++ " is empty") in
  Ok value.

(** [path.map(read_secret).transpose()] *)
Definition read_optional_secret (path : option string) : res string (option string) :=
  match path with
  | Some path => let! value := read_secret path in Ok (Some value)
  | None => Ok None
  end.

(** The kind that is named, or S3 when a bucket or a prefix is given *)
Definition destination_kind (cli : Cli) : DestinationKind :=
  default (if is_some (out_s3_bucket cli) || is_some (out_s3_prefix cli) then KindS3 else KindHttp)
    (out_destination cli).

Definition destination_of (cli : Cli) : res string DestinationConfig :=
  match destination_kind cli with
  | KindHttp =>
      let! endpoint := ok_or "OUTPOST_ENDPOINT is required for the HTTP destination" (out_endpoint cli) in
      let! token_file := ok_or "OUTPOST_BEARER_TOKEN_FILE is required for the HTTP destination"
                           (out_bearer_token_file cli) in
      let! token := read_secret token_file in
      Ok (Http {| endpoint := endpoint; bearer_token := token; ca_file := out_ca_file cli |})
  | KindS3 =>
      let! bucket := ok_or "OUTPOST_S3_BUCKET is required for the S3 destination" (out_s3_bucket cli) in
      let! prefix := ok_or "OUTPOST_S3_PREFIX is required for the S3 destination" (out_s3_prefix cli) in
      Ok (S3 {| bucket := bucket; prefix := prefix; endpoint_url := out_s3_endpoint_url cli;
                force_path_style := out_s3_force_path_style cli |})
  end.

Definition kubernetes_url (cli : Cli) : option string :=
  (fun host => ("https://" ++ host ++ ":" ++ out_kubernetes_service_port cli)%string) <$> out_kubernetes_service_host cli.

Definition config_with (cli : Cli) (destination : DestinationConfig) (internal_token : option string) : OutpostConfig := {|
  config_customer_id := out_customer_id cli;
  config_tenant_id := out_tenant_id cli;
  config_source_id := out_source_id cli;
  config_regional_cell_id := out_regional_cell_id cli;
  config_cluster_name := out_cluster_name cli;
  Destination.internal_token := internal_token;
  Destination.destination := destination;
  spool_dir := out_spool_dir cli;
  spool_max_bytes := out_spool_max_bytes cli;
  max_request_bytes := out_max_request_bytes cli;
  export_interval := Z.max 1 (out_export_interval_seconds cli);
  kubernetes_api_url := kubernetes_url cli;
  kubernetes_token_path := out_kubernetes_token_path cli;
  kubernetes_ca_path := out_kubernetes_ca_path cli;
  kubernetes_refresh_interval := Z.max 5 (out_kubernetes_refresh_seconds cli);
  identity_mapping_file := out_identity_mapping_file cli
|}.

(** [main], up to the check that [build_state] starts with *)
Definition launch (cli : Cli) : res string OutpostConfig :=
  let! destination := destination_of cli in
  let! internal_token := read_optional_secret (out_internal_token_file cli) in
  let config := config_with cli destination internal_token in
  let! _ := validate_config url_parse config in
  Ok config.

(** * What starts *)

(** The secret of a file: its text without the white space around it, if there is
    any left *)
Definition secret_in (path value : string) : Prop :=
  exists content, read_to_string path = Some content /\ value = trim content /\ value <> "".

Lemma read_secret_spec path value : read_secret path = Ok value <-> secret_in path value.
Proof.
  unfold read_secret, secret_in, ok_or, ensure. destruct (read_to_string path) as [content|]; cbn;
    [|split; [done|]; by intros (c & [=] & _)].
  destruct (String.eqb_spec (trim content) "") as [He|He]; cbn.
  - split; [done|]. intros (c & [= <-] & -> & Hn). done.
  - split; [intros [= <-]; eauto|]. intros (c & [= <-] & -> & _). done.
Qed.

(** The destination the command line stands for *)
Definition selected (cli : Cli) (d : DestinationConfig) : Prop :=
  match d with
  | Http h =>
      (out_destination cli = Some KindHttp \/
       out_destination cli = None /\ out_s3_bucket cli = None /\ out_s3_prefix cli = None) /\
      out_endpoint cli = Some (endpoint h) /\ ca_file h = out_ca_file cli /\
      exists path, out_bearer_token_file cli = Some path /\ secret_in path (bearer_token h)
  | S3 s =>
      (out_destination cli = Some KindS3 \/ out_destination cli = None) /\
      out_s3_bucket cli = Some (bucket s) /\ out_s3_prefix cli = Some (prefix s) /\
      endpoint_url s = out_s3_endpoint_url cli /\ force_path_style s = out_s3_force_path_style cli
  end.

Lemma destination_kind_http cli :
  destination_kind cli = KindHttp <->
  out_destination cli = Some KindHttp \/
  out_destination cli = None /\ out_s3_bucket cli = None /\ out_s3_prefix cli = None.
Proof.
  unfold destination_kind. destruct (out_destination cli) as [[]|], (out_s3_bucket cli), (out_s3_prefix cli); cbn;
    intuition congruence.
Qed.

(** For two values read from options: an equation of results is one of values. *)
Lemma bind_ok_or {A B} (e : string) (o : option A) (k : A -> res string B) b :
  (let! x := ok_or e o in k x) = Ok b <-> exists x, o = Some x /\ k x = Ok b.
Proof. destruct o as [x|]; cbn; [|by split; [|intros (? & ? & _)]]. split; [eauto|]. by intros (? & [= <-] & ?). Qed.

Lemma bind_secret {B} path (k : string -> res string B) b :
  (let! x := read_secret path in k x) = Ok b <-> exists value, secret_in path value /\ k value = Ok b.
Proof.
  setoid_rewrite <- read_secret_spec. destruct (read_secret path) as [value|e|f]; cbn;
    [|by split; [|intros (? & ? & _)]..]. split; [eauto|]. by intros (? & [= <-] & ?).
Qed.

Lemma destination_of_spec cli d : destination_of cli = Ok d <-> selected cli d.
Proof.
  unfold destination_of, selected. pose proof (destination_kind_http cli) as Hk.
  assert (destination_kind cli = KindS3 -> out_destination cli = Some KindS3 \/ out_destination cli = None) as Hs3.
  { unfold destination_kind. destruct (out_destination cli) as [[]|]; by auto. }
  destruct (destination_kind cli); rewrite !bind_ok_or; setoid_rewrite bind_ok_or; [setoid_rewrite bind_secret|].
  - split.
    + intros (endpoint & He & file & Hf & token & Ht & [= <-]). simpl. split; [by apply Hk|]. eauto.
    + destruct d as [h|s]; [|].
      * intros (_ & He & Hca & path & Hp & Ht). exists (endpoint h). split; [done|]. exists path. split; [done|].
        exists (bearer_token h). split; [done|]. rewrite <- Hca. by destruct h.
      * intros (Hd & Hb & _). destruct Hk as [Hk _]. destruct (Hk eq_refl) as [H|(H & H' & _)]; [|congruence].
        destruct Hd; congruence.
  - split.
    + intros (bucket & Hb & prefix & Hp & [= <-]). simpl. auto.
    + destruct d as [h|s].
      * intros (Hd & _). by apply Hk in Hd.
      * intros (_ & Hb & Hp & He & Hf). exists (bucket s). split; [done|]. exists (prefix s). split; [done|].
        rewrite <- He, <- Hf. by destruct s.
Qed.

(** Start.  Outpost starts exactly when its destination is complete (HTTP with
    an endpoint and a non-blank token file, S3 with a bucket and a prefix; the one
    that is named, or S3 when nothing is named and a bucket or prefix is given),
    the credential of its sensors, if a file is named for it, is there and not
    blank, and the configuration made of them is valid; and it runs with that
    configuration. *)
Theorem launch_exact cli c :
  launch cli = Ok c <->
  exists destination token,
    selected cli destination /\
    match out_internal_token_file cli with
    | Some path => exists value, token = Some value /\ secret_in path value
    | None => token = None
    end /\
    c = config_with cli destination token /\ valid_config url_parse c.
Proof.
  unfold launch. setoid_rewrite <- destination_of_spec.
  destruct (destination_of cli) as [destination|e|f]; cbn [mbind res_bind];
    [|by split; [|intros (? & ? & ? & _)]..].
  assert (forall token, read_optional_secret (out_internal_token_file cli) = Ok token <->
    match out_internal_token_file cli with
    | Some path => exists value, token = Some value /\ secret_in path value
    | None => token = None
    end) as Htoken.
  { intros token. unfold read_optional_secret. destruct (out_internal_token_file cli) as [path|]; [|split; congruence].
    rewrite bind_secret. split; [intros (v & Hv & [= <-])|intros (v & -> & Hv)]; eauto. }
  setoid_rewrite <- Htoken. destruct (read_optional_secret _) as [token|e|f]; cbn [mbind res_bind];
    [|by split; [|intros (? & ? & _ & ? & _)]..].
  setoid_rewrite <- (validate_config_exact url_parse).
  split.
  - destruct (validate_config _ _) as [[]|e|f] eqn:Hv; cbn [mbind res_bind]; [|done..]. intros [= <-]. by exists destination, token.
  - intros (? & ? & [= <-] & [= <-] & -> & Hv). by rewrite Hv.
Qed.
End launch.
