(* ===== verification/Serve.v ===== *)
(** Outpost as it runs, crates/outpost/src/lib.rs: what it builds at its start, the
    routes, and its tasks: requests, the exporter and the refresh of the pods, which
    share the state, the disk and the counters.  The clients, the registry and the
    text encoder are libraries': what they answer are parameters. *)
From Stdlib Require Import ZArith Lia ZifyBool Strings.Byte Strings.Ascii Strings.String.
From stdpp Require Import base list strings gmap.
From S2P Require Import Prelude Text Float64 Json Schema Spool SpoolSpec SpoolLife Trace Accounted Interleave.
From S2P Require Import Enrich Destination Outpost OutpostSpec Delivery Launch.

Local Open Scope string_scope.
Local Open Scope list_scope.
Local Open Scope Z_scope.

(** * The metrics *)

(** The collectors, in the order of [Metrics::new]: the name, the help text and
    the field *)
Definition METRICS : list (string * string * (Metrics -> Z)) :=
  [("mongodb_dam_outpost_accepted_batches_total", "Observer batches durably accepted by Outpost", accepted_batches);
   ("mongodb_dam_outpost_rejected_batches_total", "Observer batches rejected before spooling", rejected_batches);
   ("mongodb_dam_outpost_delivered_batches_total", "Batches successfully delivered to the configured destination",
    delivered_batches);
   ("mongodb_dam_outpost_delivery_failures_total", "Destination delivery attempts that failed", delivery_failures);
   ("mongodb_dam_outpost_quarantined_batches_total", "Permanently rejected HTTP batches retained in the spool",
    quarantined_batches);
   ("mongodb_dam_outpost_spool_items", "Metadata batches awaiting destination delivery", spool_items);
   ("mongodb_dam_outpost_spool_bytes", "Metadata bytes awaiting regional delivery", spool_bytes);
   ("mongodb_dam_outpost_quarantine_items", "Permanently rejected metadata batches retained for review",
    quarantine_items);
   ("mongodb_dam_outpost_quarantine_bytes", "Permanently rejected metadata bytes retained for review",
    quarantine_bytes);
   ("mongodb_dam_outpost_kubernetes_cache_entries", "Pods available for event enrichment", kubernetes_cache_entries)].

Section metrics.
(** [IntCounter::new] and [IntGauge::new], and [Registry::register] on the names
    registered so far: an error is its text. *)
Context (collector : string -> string -> string + unit) (register : list string -> string -> string + unit).

Fixpoint collectors (l : list (string * string * (Metrics -> Z))) : res string unit :=
  match l with
  | [] => Ok tt
  | (name, help, _) :: l =>
      match collector name help with
      | inl e => Err e
      | inr _ => collectors l
      end
  end.
Fixpoint register_all (registered : list string) (l : list (string * string * (Metrics -> Z))) : res string unit :=
  match l with
  | [] => Ok tt
  | (name, _, _) :: l =>
      match register registered name with
      | inl e => Err e
      | inr _ => register_all (registered ++ [name]) l
      end
  end.
(** [Metrics::new] *)
Definition new_metrics : res string Metrics :=
  let! _ := collectors METRICS in
  let! _ := register_all [] METRICS in
  Ok no_metrics.

(** A registry that refuses only a name it has registers them all. *)
Theorem metrics_registered :
  (forall name help _field, (name, help, _field) ∈ METRICS -> collector name help = inr tt) ->
  (forall registered name, name ∉ registered -> register registered name = inr tt) ->
  new_metrics = Ok no_metrics.
Proof.
  intros Hc Hr. unfold new_metrics.
  assert (forall l, (forall name help field, (name, help, field) ∈ l -> collector name help = inr tt) -> collectors l = Ok tt) as Hcol.
  { induction l as [|[[name help] field] l IH]; intros Hl; [done|]. cbn [collectors]. rewrite (Hl name help field) by (by left).
    apply IH. intros name' help' field' Hin. eapply Hl. by right. }
  assert (forall l registered, NoDup (registered ++ ((fun x => x.1.1) <$> l)) -> register_all registered l = Ok tt) as Hreg.
  { induction l as [|[[name help] field] l IH]; intros registered Hnd; [done|]. cbn [register_all]. cbn in Hnd.
    rewrite Hr by (apply NoDup_app in Hnd as (_ & Hd & _); intros Hin; by apply (Hd name Hin), list_elem_of_here).
    apply IH. by rewrite <- app_assoc. }
  rewrite Hcol by exact Hc. cbn [mbind res_bind]. rewrite Hreg; [done|].
  apply (bool_decide_unpack _). vm_compute. exact I.
Qed.
End metrics.

(** * The routes *)
Inductive Route : Set := HealthRoute | MetricsRoute | BatchesRoute.
Definition route (path : string) : option (string * Route) :=
  if one_of path ["/health"; "/ready"] then Some ("GET", HealthRoute)
  else if String.eqb path "/metrics" then Some ("GET", MetricsRoute)
  else if String.eqb path "/v1/observer/batches" then Some ("POST", BatchesRoute)
  else None.
(** The handler of a request, or the status axum answers with: [get] takes HEAD
    too, and a body above the limit is refused where a handler takes the body. *)
Definition router (c : OutpostConfig) (method path : string) (body : bytes) : Z + Route :=
  match route path with
  | None => inl 404
  | Some (allowed, r) =>
      if negb (String.eqb method allowed || (String.eqb allowed "GET" && String.eqb method "HEAD")) then inl 405
      else match r with
           | BatchesRoute => if max_request_bytes c <? len body then inl 413 else inr r
           | _ => inr r
           end
  end.

Section serve.
Context {OffsetDateTime : Type}.
Abbreviation DamBatch := (DamBatch OffsetDateTime).
Context (from_slice : bytes -> string + DamBatch) (to_vec : DamBatch -> string + bytes)
  (io_text : IoError -> string) (digest : bytes -> string)
  (record_json : S3NdjsonRecord (OffsetDateTime := OffsetDateTime) -> option bytes) (gzip : bytes -> bytes)
  (header_value : string -> bool) (year month day hour : OffsetDateTime -> Z).
(** The bytes and the text of a file; [Certificate::from_pem]; whether a client is
    built, with the certificate it is given *)
Context (read_file : string -> option bytes) (read_to_string : string -> option string)
  (from_pem : bytes -> option bytes) (build_client : option bytes -> bool).
(** [Url::parse]; the registry; the text of the samples *)
Context (url_parse : string -> option Url) (collector : string -> string -> string + unit)
  (register : list string -> string -> string + unit) (encode : list (string * string * Z) -> string + bytes).
Context (faulty : bool).

Abbreviation accept_batch := (accept_batch from_slice to_vec io_text digest).
Abbreviation export_pass := (export_pass from_slice record_json gzip header_value year month day hour).

(** ** The start *)
Definition build_state (c : OutpostConfig) : prog (string + AppState) :=
  match validate_config url_parse c with
  | Ok _ =>
      bind_prog (open digest) (fun spool =>
        match spool, new_metrics collector register with
        | inl e, _ => Ret (inl (spool_error_text io_text e))
        | inr _, Ok m =>
            bind_prog (refresh_spool_metrics m) (fun m =>
              Ret (inr {| config := c; app_metrics := m; notified := false; pods := ∅ |}))
        | inr _, Err e => Ret (inl e)
        | inr _, Fault _ => Ret (inl "")
        end)
  | Err e => Ret (inl e)
  | Fault _ => Ret (inl "")
  end.

(** [metrics], the page *)
Definition metrics_page (s : AppState) : prog (AppState * (string + bytes)) :=
  bind_prog (refresh_spool_metrics (app_metrics s)) (fun m =>
    Ret (on_metrics (fun _ => m) s, encode ((fun x => (x.1.1, x.1.2, x.2 m)) <$> METRICS))).

(** ** The clients *)
Definition built (what : string) (ca : option bytes) : res string unit :=
  if build_client ca then Ok tt else Err ("building " ++ what)%string.
(** [regional_client] *)
Definition regional_client (d : HttpDestinationConfig) : res string unit :=
  match ca_file d with
  | Some path =>
      let! pem := ok_or ("reading destination CA " ++ path)%string (read_file path) in
      let! ca := ok_or "parsing destination CA" (from_pem pem) in
      built "regional HTTP client" (Some ca)
  | None => built "regional HTTP client" None
  end.
(** The S3 client is always built. *)
Definition destination_client (c : OutpostConfig) : res string unit :=
  match destination c with
  | Http d => regional_client d
  | S3 _ => Ok tt
  end.
Definition kubernetes_client (c : OutpostConfig) : res string unit :=
  let! pem := ok_or ("reading " ++ kubernetes_ca_path c)%string (read_file (kubernetes_ca_path c)) in
  let! ca := ok_or "parsing Kubernetes service CA" (from_pem pem) in
  built "Kubernetes API client" (Some ca).

(** ** The refresh of the pods *)

(** [get]: what the API server answers to a request with this URL and token: an
    error of the connection, of the status or of the decoding, or the pods *)
Definition refreshed (c : OutpostConfig) (get : string -> string -> string + list PodMetadata)
    : res string (gmap string KubernetesMetadata) :=
  let! api_url := ok_or "Kubernetes API URL missing" (kubernetes_api_url c) in
  let! token := read_secret read_to_string (kubernetes_token_path c) in
  match get (trim_end_matches "/" api_url ++ "/api/v1/pods")%string token with
  | inl e => Err e
  | inr items => Ok (kubernetes_cache (config_cluster_name c) items)
  end.
Definition set_pods (next : gmap string KubernetesMetadata) (s : AppState) : AppState := {|
  config := config s;
  app_metrics := {|
    accepted_batches := accepted_batches (app_metrics s); rejected_batches := rejected_batches (app_metrics s);
    delivered_batches := delivered_batches (app_metrics s); delivery_failures := delivery_failures (app_metrics s);
    quarantined_batches := quarantined_batches (app_metrics s);
    spool_items := spool_items (app_metrics s); spool_bytes := spool_bytes (app_metrics s);
    quarantine_items := quarantine_items (app_metrics s); quarantine_bytes := quarantine_bytes (app_metrics s);
    kubernetes_cache_entries := Z.of_nat (size next) |};
  notified := notified s;
  pods := next
|}.
(** [refresh_kubernetes_cache]: after an error the pods stay as they were. *)
Definition refresh_kubernetes_cache (get : string -> string -> string + list PodMetadata) (s : AppState)
    : AppState * res string unit :=
  match refreshed (config s) get with
  | Ok next => (set_pods next s, Ok tt)
  | Err e => (s, Err e)
  | Fault f => (s, Fault f)
  end.

(** * The running Outpost *)

(** The exporter in a pass, of which the task is left, between two, or ended; the
    other task refreshes the pods, or is not there. *)
Inductive ExporterTask : Type :=
| Exporting (t : task AppState)
| Waiting
| ExporterEnded.

Record Server : Type := {
  app : AppState;
  disk : world;
  exporter : ExporterTask;
  refreshing : bool
}.
Definition set_app (v : AppState) (s : Server) : Server :=
  {| app := v; disk := disk s; exporter := exporter s; refreshing := refreshing s |}.
Definition set_disk (v : world) (s : Server) : Server :=
  {| app := app s; disk := v; exporter := exporter s; refreshing := refreshing s |}.
Definition set_exporter (v : ExporterTask) (s : Server) : Server :=
  {| app := app s; disk := disk s; exporter := v; refreshing := refreshing s |}.

(** [spawn_background_tasks]: a task whose client cannot be built ends at once. *)
Definition spawn_background_tasks (s : AppState) (w : world) : Server := {|
  app := s;
  disk := w;
  exporter := if is_ok (destination_client (config s)) then Exporting (export_pass s) else ExporterEnded;
  refreshing := is_some (kubernetes_api_url (config s)) && is_ok (kubernetes_client (config s))
|}.

(** A pass ends: its counters and the gauges it refreshed are those of the state. *)
Definition take_pass (pass : AppState) (s : AppState) : AppState :=
  on_metrics (fun m => {|
    accepted_batches := accepted_batches m; rejected_batches := rejected_batches m;
    delivered_batches := delivered_batches (app_metrics pass); delivery_failures := delivery_failures (app_metrics pass);
    quarantined_batches := quarantined_batches (app_metrics pass);
    spool_items := spool_items (app_metrics pass); spool_bytes := spool_bytes (app_metrics pass);
    quarantine_items := quarantine_items (app_metrics pass); quarantine_bytes := quarantine_bytes (app_metrics pass);
    kubernetes_cache_entries := kubernetes_cache_entries m |}) s.
(** A wait ends with the interval, or takes the notification. *)
Definition take_notification (s : AppState) : AppState :=
  {| config := config s; app_metrics := app_metrics s; notified := false; pods := pods s |}.
Definition exporter_step (woken : bool) (s : Server) : option Server :=
  match exporter s with
  | Exporting (Finish pass) => Some (set_exporter Waiting (set_app (take_pass pass (app s)) s))
  | Exporting (Method _ _) => None
  | Waiting =>
      if woken then
        if notified (app s) then
          let a := take_notification (app s) in Some (set_exporter (Exporting (export_pass a)) (set_app a s))
        else None
      else Some (set_exporter (Exporting (export_pass (app s))) s)
  | ExporterEnded => None
  end.

(** A turn of the loop of [run_kubernetes_cache] *)
Definition refresh_step (get : string -> string -> string + list PodMetadata) (s : Server) : option Server :=
  if refreshing s then Some (set_app (refresh_kubernetes_cache get (app s)).1 s) else None.

(** What is assumed of the receipt of a request when it is answered: nothing, or that
    it is [vouched], where the doubtful ones are named. *)
Context (fresh : string -> world -> Prop).

(** [step s handled tr o handled' tr']: one step of one task, with the answers
    recorded and the requests made; [inl]: the process ended, and left this disk.
    [step_unanswered] is a request whose answer is lost. *)
Inductive step (s : Server) (handled : list exchange) (tr : list sent)
    : world + Server -> list exchange -> list sent -> Prop :=
| step_batch body identities authorization w' a' r :
    router (config (app s)) "POST" "/v1/observer/batches" body = inr BatchesRoute ->
    exec faulty (accept_batch (app s) identities authorization body) (disk s) (Done w' (a', r)) ->
    (forall receipt, receipt_of (body, r) = Some receipt -> fresh receipt (disk s)) ->
    step s handled tr (inr (set_app a' (set_disk w' s))) (handled ++ [(body, r)]) tr
| step_unanswered body identities authorization w' a' r :
    router (config (app s)) "POST" "/v1/observer/batches" body = inr BatchesRoute ->
    exec faulty (accept_batch (app s) identities authorization body) (disk s) (Done w' (a', r)) ->
    step s handled tr (inr (set_app a' (set_disk w' s))) handled tr
| step_batch_cut body identities authorization w' :
    router (config (app s)) "POST" "/v1/observer/batches" body = inr BatchesRoute ->
    exec faulty (accept_batch (app s) identities authorization body) (disk s) (Crashed w') ->
    step s handled tr (inl w') handled tr
| step_page w' a' page :
    exec faulty (metrics_page (app s)) (disk s) (Done w' (a', page)) ->
    step s handled tr (inr (set_app a' (set_disk w' s))) handled tr
| step_method {X} (m : prog X) k made w' x :
    exporter s = Exporting (Method m k) -> exec_trace faulty m (disk s) made (Done w' x) ->
    step s handled tr (inr (set_exporter (Exporting (k x)) (set_disk w' s))) handled (tr ++ made)
| step_method_cut {X} (m : prog X) k made w' :
    exporter s = Exporting (Method m k) -> exec_trace faulty m (disk s) made (Crashed w') ->
    step s handled tr (inl w') handled (tr ++ made)
| step_exporter woken s' : exporter_step woken s = Some s' -> step s handled tr (inr s') handled tr
| step_refresh get s' : refresh_step get s = Some s' -> step s handled tr (inr s') handled tr
| step_killed : step s handled tr (inl (disk s)) handled tr.

Inductive steps : Server -> list exchange -> list sent -> world + Server -> list exchange -> list sent -> Prop :=
| steps_none s handled tr : steps s handled tr (inr s) handled tr
| steps_ended s handled tr w handled' tr' :
    step s handled tr (inl w) handled' tr' -> steps s handled tr (inl w) handled' tr'
| steps_one s handled tr s1 handled1 tr1 o handled' tr' :
    step s handled tr (inr s1) handled1 tr1 -> steps s1 handled1 tr1 o handled' tr' -> steps s handled tr o handled' tr'.
Definition disk_of (o : world + Server) : world := match o with inl w => w | inr s => disk s end.
End serve.

(** * What the running Outpost guarantees *)
Section spec.
Context {OffsetDateTime : Type}.
Abbreviation DamBatch := (DamBatch OffsetDateTime).
Context (from_slice : bytes -> string + DamBatch) (to_vec : DamBatch -> string + bytes)
  (io_text : IoError -> string) (digest : bytes -> string) (Hdigest : forall body, slen (digest body) = 64)
  (record_json : S3NdjsonRecord (OffsetDateTime := OffsetDateTime) -> option bytes) (gzip : bytes -> bytes)
  (header_value : string -> bool) (year month day hour : OffsetDateTime -> Z).
Context (read_file : string -> option bytes) (read_to_string : string -> option string)
  (from_pem : bytes -> option bytes) (build_client : option bytes -> bool)
  (encode : list (string * string * Z) -> string + bytes).
Context (d : DestinationConfig) (doubtful : gset string) (faulty : bool).
Abbreviation export_pass := (export_pass from_slice record_json gzip header_value year month day hour).
Abbreviation outpost_life := (outpost_life from_slice to_vec io_text digest record_json gzip header_value year month
  day hour d doubtful faulty).
Abbreviation intake := (intake from_slice to_vec io_text digest doubtful faulty).
Abbreviation boot := (spawn_background_tasks from_slice record_json gzip header_value year month day hour read_file
  from_pem build_client).
Abbreviation step := (step from_slice to_vec io_text digest record_json gzip header_value year month day hour
  read_to_string encode faulty).
Abbreviation steps := (steps from_slice to_vec io_text digest record_json gzip header_value year month day hour
  read_to_string encode faulty).
Abbreviation exporter_step := (exporter_step from_slice record_json gzip header_value year month day hour).

(** The disk has a history with these answers and requests; the pass under way is
    part of it. *)
Definition server_history (s : Server) (handled : list exchange) (tr : list sent) : Prop :=
  destination (config (app s)) = d /\
  match exporter s with
  | Exporting t => exists s0 w0 handled0 tr0 tr1, outpost_life w0 handled0 tr0 /\ destination (config s0) = d /\
      advanced faulty intake (export_pass s0) w0 handled0 tr1 t (disk s) handled /\ tr = tr0 ++ tr1
  | _ => outpost_life (disk s) handled tr
  end.

Lemma server_history_life s handled tr : server_history s handled tr -> outpost_life (disk s) handled tr.
Proof.
  intros [_ Hh]. destruct (exporter s) as [t| |]; [|done..]. destruct Hh as (s0 & w0 & handled0 & tr0 & tr1 & Hl & Hd & Ha & ->).
  rewrite <- (app_nil_r tr1). apply (outpost_export _ _ _ _ _ _ _ _ _ _ _ _ _ _ w0 handled0 tr0 s0 _ (Crashed (disk s)));
    [done..|]. eapply advanced_interleaved; [exact Ha|apply interleaved_stop].
Qed.

(** A request, and a step that leaves the disk *)
Lemma server_history_intake s handled tr a' w' handled' :
  destination (config a') = destination (config (app s)) -> intake (disk s) handled w' handled' ->
  server_history s handled tr -> server_history (set_app a' (set_disk w' s)) handled' tr.
Proof.
  intros Hc Hi [Hd Hh]. split; [by rewrite <- Hd|]. simpl.
  destruct (exporter s) as [t| |]; [|by eapply outpost_intake..].
  destruct Hh as (s0 & w0 & handled0 & tr0 & tr1 & Hl & Hd0 & Ha & ->). exists s0, w0, handled0, tr0, tr1.
  split_and!; [done..| |done]. by eapply advanced_env.
Qed.
Lemma server_history_app s handled tr a' :
  destination (config a') = destination (config (app s)) ->
  server_history s handled tr -> server_history (set_app a' s) handled tr.
Proof. intros Hc [Hd Hh]. split; [by rewrite <- Hd|done]. Qed.
Lemma server_history_start s handled tr a :
  destination (config a) = d -> destination (config (app s)) = d -> outpost_life (disk s) handled tr ->
  server_history (set_exporter (Exporting (export_pass a)) s) handled tr.
Proof.
  intros Hd Hd' Hl. split; [done|]. exists a, (disk s), handled, tr, []. rewrite app_nil_r.
  split_and!; [done..|apply advanced_start|done].
Qed.

(** A handler leaves the configuration alone. *)
Lemma accept_batch_config a identities authorization body w w' a' r :
  exec faulty (accept_batch from_slice to_vec io_text digest a identities authorization body) w (Done w' (a', r)) ->
  config a' = config a.
Proof.
  assert (cwp faulty (fun _ sr => config sr.1 = config a) (fun _ => True)
    (accept_batch from_slice to_vec io_text digest a identities authorization body) w) as Hc;
    [|intros Ho; exact (Hc _ Ho)].
  unfold accept_batch, reject. destruct (negb (authorized _ _)); [by apply cwp_ret|].
  destruct (from_slice body) as [error|b]; [by apply cwp_ret|].
  destruct (validate b) as [[]|error|f]; [|by apply cwp_ret..].
  destruct (negb (assigned _ _)); [by apply cwp_ret|]. cbv zeta.
  destruct (to_vec _) as [error|encoded]; [by apply cwp_ret|].
  apply cwp_bind. intros o1 Ho1. destruct o1 as [w1 r1|w1]; [|done].
  destruct r1 as [e|receipt']; apply cwp_bind; (eapply cwp_mono; [apply cwp_refresh| |done]);
    intros w2 m ->; by apply cwp_ret.
Qed.
Lemma metrics_page_same a w w' a' page :
  exec faulty (metrics_page encode a) w (Done w' (a', page)) -> w' = w /\ config a' = config a.
Proof.
  assert (cwp faulty (fun w' sr => w' = w /\ config sr.1 = config a) (fun _ => True) (metrics_page encode a) w) as Hc;
    [|intros Ho; exact (Hc _ Ho)].
  unfold metrics_page. apply cwp_bind. eapply cwp_mono; [apply cwp_refresh| |done]. intros w2 m ->. by apply cwp_ret.
Qed.
Lemma refresh_config get a : config (refresh_kubernetes_cache read_to_string get a).1 = config a.
Proof. unfold refresh_kubernetes_cache. by destruct (refreshed _ _ _). Qed.

Lemma exporter_step_history woken s s' handled tr :
  exporter_step woken s = Some s' -> server_history s handled tr -> server_history s' handled tr.
Proof.
  intros Hs Hh. pose proof (server_history_life _ _ _ Hh) as Hl. destruct Hh as [Hd _]. revert Hs.
  unfold Serve.exporter_step. destruct (exporter s) as [[pass|X m k]| |]; [|done| |done].
  - intros [= <-]. by split.
  - destruct woken; [destruct (notified (app s)); [|done]|]; intros [= <-]; by apply server_history_start.
Qed.

Lemma step_history s handled tr o handled' tr' :
  step (vouched doubtful) s handled tr o handled' tr' -> server_history s handled tr ->
  match o with
  | inl w => outpost_life w handled' tr'
  | inr s' => server_history s' handled' tr'
  end.
Proof.
  intros Hstep Hh.
  destruct Hstep as [body ids auth w' a' r _ Ho Hf|body ids auth w' a' r _ Ho|body ids auth w' _ Ho|w' a' page Ho
    |X m k made w' x Hx Ho|X m k made w' Hx Ho|woken s' He|get s' Hr|].
  - apply server_history_intake with handled; [by erewrite accept_batch_config| |done]. by eapply intake_answered.
  - apply server_history_intake with handled; [by erewrite accept_batch_config| |done].
    exact (intake_cut _ _ _ _ _ _ _ _ _ _ _ _ _ Ho).
  - eapply outpost_intake; [by apply server_history_life|]. exact (intake_cut _ _ _ _ _ _ _ _ _ _ _ _ _ Ho).
  - destruct (metrics_page_same _ _ _ _ _ Ho) as [-> Hc].
    apply (server_history_app (set_disk (disk s) s)); [by rewrite Hc|by destruct s].
  - destruct Hh as [Hd Hh]. split; [done|]. rewrite Hx in Hh. simpl.
    destruct Hh as (s0 & w0 & handled0 & tr0 & tr1 & Hl & Hd0 & Ha & ->). exists s0, w0, handled0, tr0, (tr1 ++ made).
    rewrite <- app_assoc. split_and!; [done..| |done]. by eapply advanced_method.
  - destruct Hh as [Hd Hh]. rewrite Hx in Hh.
    destruct Hh as (s0 & w0 & handled0 & tr0 & tr1 & Hl & Hd0 & Ha & ->). rewrite <- app_assoc.
    apply (outpost_export _ _ _ _ _ _ _ _ _ _ _ _ _ _ w0 handled0 tr0 s0 _ (Crashed w')); [done..|].
    eapply advanced_interleaved; [exact Ha|by apply interleaved_cut].
  - by eapply exporter_step_history.
  - unfold refresh_step in Hr. destruct (refreshing s); [|done]. injection Hr as <-.
    apply server_history_app; [by rewrite refresh_config|done].
  - by apply server_history_life.
Qed.

Lemma steps_history s handled tr o handled' tr' :
  steps (vouched doubtful) s handled tr o handled' tr' -> server_history s handled tr -> outpost_life (disk_of o) handled' tr'.
Proof.
  induction 1 as [s handled tr|s handled tr w handled' tr' Hs|s handled tr s1 handled1 tr1 o handled' tr' Hs _ IH]; intros Hh.
  - by apply server_history_life.
  - exact (step_history _ _ _ _ _ _ Hs Hh).
  - apply IH. exact (step_history _ _ _ _ _ _ Hs Hh).
Qed.

Lemma boot_history a w handled tr :
  outpost_life w handled tr -> destination (config a) = d -> server_history (boot a w) handled tr.
Proof.
  intros Hl Hd. split; [done|]. simpl. destruct (is_ok _); [|done]. exists a, w, handled, tr, [].
  rewrite app_nil_r. split_and!; [done..|apply advanced_start|done].
Qed.

(** C12: The running Outpost keeps what it accepted.  Take any disk with a history,
    and any run on it: requests, pages, methods and requests of the exporter,
    wake-ups, and refreshes of the pods in any order, with I/O errors, any answers,
    and an end at any moment.  Then disk, answers and requests have a history as
    OutpostSpec.v has them; and after the next crash a batch whose sender ever got
    a receipt is on disk, with a content of its digest, or the receiver answered
    for it, unless its name is doubtful: the receipt was given while the batch was
    already on disk and waited for a sync of the directory, or a restart found it
    whole in a temporary file that was never synced.  The code can lose these
    ([SpoolLife.retry_not_durable], [SpoolLife.recovered_not_durable]). *)
Theorem served_batch_kept a w handled tr o handled' tr' body r i s :
  outpost_life w handled tr -> destination (config a) = d ->
  steps (vouched doubtful) (boot a w) handled tr o handled' tr' ->
  outpost_life (disk_of o) handled' tr' /\
  ((body, r) ∈ handled' -> receipt_of (body, r) = Some i -> i ∉ doubtful -> crash (disk_of o) s ->
   (exists dir f, s !! (dir, json_name i) = Some f /\ digest (content f) = i) \/
   Exists (delivered from_slice digest record_json gzip year month day hour d i) tr').
Proof using Hdigest.
  intros Hl Hd Hs. apply steps_history in Hs; [|by apply boot_history]. split; [exact Hs|]. intros Hi Hr Hdt Hc.
  destruct (outpost_accounted _ _ _ _ Hdigest _ _ _ _ _ _ _ _ _ _ _ _ _ Hs) as (ids & Hk & Ha).
  destruct (Ha i (elem_of_receipts _ _ _ Hi Hr) Hdt) as [Hin|Hdel]; [left|by right]. by eapply keeps_on_disk.
Qed.

(** ** Without a client *)
Lemma step_without_exporter fresh s handled tr o handled' tr' :
  step fresh s handled tr o handled' tr' -> exporter s = ExporterEnded ->
  tr' = tr /\ match o with inl _ => True | inr s' => exporter s' = ExporterEnded end.
Proof.
  intros Hstep Hx. destruct Hstep as [body ids auth w' a' r _ _ _|body ids auth w' a' r _ _|body ids auth w' _ _|w' a' page _
    |X m k made w' x Hx' _|X m k made w' Hx' _|woken s' He|get s' Hr|]; try by split.
  - by rewrite Hx in Hx'.
  - by rewrite Hx in Hx'.
  - revert He. unfold Serve.exporter_step. by rewrite Hx.
  - revert Hr. unfold refresh_step. destruct (refreshing s); [|done]. by intros [= <-].
Qed.
Lemma steps_without_exporter fresh s handled tr o handled' tr' :
  steps fresh s handled tr o handled' tr' -> exporter s = ExporterEnded ->
  tr' = tr /\ match o with inl _ => True | inr s' => exporter s' = ExporterEnded end.
Proof.
  induction 1 as [s handled tr|s handled tr w handled' tr' Hs|s handled tr s1 handled1 tr1 o handled' tr' Hs _ IH]; intros Hx.
  - by split.
  - exact (step_without_exporter _ _ _ _ _ _ _ Hs Hx).
  - destruct (step_without_exporter _ _ _ _ _ _ _ Hs Hx) as [<- Hx1]. by apply IH.
Qed.

Lemma health_ok a w w' r : exec false (health io_text a) w (Done w' r) -> status r = 200.
Proof.
  assert (cwp false (fun _ r => status r = 200) (fun _ => True) (health io_text a) w) as Hc; [|intros Ho; exact (Hc _ Ho)].
  unfold health. apply cwp_bind. eapply cwp_mono; [apply cwp_directory_size| |done]. intros w1 r1 [-> (st1 & -> & _)].
  apply cwp_bind. eapply cwp_mono; [apply cwp_directory_size| |done]. intros w2 r2 [-> (st2 & -> & _)]. by apply cwp_ret.
Qed.

(** C39: An Outpost without a client never delivers and does not tell.  When the
    client of the destination cannot be built at the start, as with a file of
    certificates that cannot be read, the exporter ends and nothing starts it
    again: no request is ever made, while the other tasks go on, accept batches,
    and answer every health check on a disk that works with status 200. *)
Theorem no_client_no_delivery fresh a w handled tr o handled' tr' :
  destination_client read_file from_pem build_client (config a) <> Ok tt ->
  steps fresh (boot a w) handled tr o handled' tr' ->
  tr' = tr /\
  forall s', o = inr s' -> exporter s' = ExporterEnded /\
    forall w' r, exec false (health io_text (app s')) (disk s') (Done w' r) -> status r = 200.
Proof.
  intros Hc Hs. assert (exporter (boot a w) = ExporterEnded) as Hx.
  { simpl. destruct (destination_client _ _ _ _) as [[]|e|f]; [by destruct Hc|done|done]. }
  destruct (steps_without_exporter _ _ _ _ _ _ _ Hs Hx) as [-> Ho]. split; [done|]. intros s' ->.
  split; [exact Ho|]. intros w' r. apply health_ok.
Qed.
End spec.
