(* ===== verification/ServeSample.v ===== *)
(** Concrete runs of Outpost: a batch accepted and delivered while the pods are
    refreshed, and an Outpost whose client could not be built. *)
From Stdlib Require Import ZArith Lia ZifyBool Strings.Byte Strings.Ascii Strings.String.
From stdpp Require Import base list strings gmap.
From S2P Require Import Prelude Text Float64 Json Schema Spool SpoolSpec SpoolLife Trace Accounted Interleave.
From S2P Require Import Enrich Destination Outpost OutpostSpec Delivery AgentSample Serve.

Local Open Scope string_scope.
Local Open Scope list_scope.
Local Open Scope Z_scope.

(** * A scheduler *)
Section schedule.
Context (read_to_string : string -> option string) (encode : list (string * string * Z) -> string + bytes).
Abbreviation sample_step := (step sample_from_slice sample_to_vec (fun _ => "") sample_digest sample_json
  (fun bs => bs) sample_header (fun _ => 2026) (fun _ => 1) (fun _ => 2) (fun _ => 3) read_to_string encode true).
Abbreviation sample_steps := (steps sample_from_slice sample_to_vec (fun _ => "") sample_digest sample_json
  (fun bs => bs) sample_header (fun _ => 2026) (fun _ => 1) (fun _ => 2) (fun _ => 3) read_to_string encode true).

(** Who takes the next step.  Calls on the disk do not fail, and the receiver
    answers 200.  A batch comes only when the disk is synced. *)
Inductive Action : Type :=
| ABatch (authorization : option string) (body : bytes)
| AMethod
| AExporter (woken : bool)
| ARefresh (get : string -> string -> string + list PodMetadata).

Definition act (a : Action) (s : Server) (handled : list exchange) (tr : list sent)
    : option (Server * list exchange * list sent) :=
  match a with
  | ABatch authorization body =>
      match router (config (app s)) "POST" "/v1/observer/batches" body, journal (disk s) with
      | inr BatchesRoute, [] =>
          let '(w', (a', r)) := Spool.run (accept_batch sample_from_slice sample_to_vec (fun _ => "") sample_digest
            (app s) ∅ authorization body) (disk s) in
          Some (set_app a' (set_disk w' s), handled ++ [(body, r)], tr)
      | _, _ => None
      end
  | AMethod =>
      match exporter s with
      | Exporting (Method m k) =>
          let '(w', x, made) := run_answering 200 m (disk s) in
          Some (set_exporter (Exporting (k x)) (set_disk w' s), handled, tr ++ made)
      | _ => None
      end
  | AExporter woken =>
      match exporter_step sample_from_slice sample_json (fun bs => bs) sample_header (fun _ => 2026) (fun _ => 1)
        (fun _ => 2) (fun _ => 3) woken s with
      | Some s' => Some (s', handled, tr)
      | None => None
      end
  | ARefresh get =>
      match refresh_step read_to_string get s with
      | Some s' => Some (s', handled, tr)
      | None => None
      end
  end.
Fixpoint acts (l : list Action) (s : Server) (handled : list exchange) (tr : list sent)
    : option (Server * list exchange * list sent) :=
  match l with
  | [] => Some (s, handled, tr)
  | a :: l =>
      match act a s handled tr with
      | Some (s', handled', tr') => acts l s' handled' tr'
      | None => None
      end
  end.

Lemma serve_act_step a s handled tr s' handled' tr' :
  act a s handled tr = Some (s', handled', tr') -> sample_step (vouched ∅) s handled tr (inr s') handled' tr'.
Proof.
  destruct a as [authorization body| |woken|get]; cbn [act].
  - destruct (router _ _ _ body) as [|[| |]] eqn:Hr; [done..|]. destruct (journal (disk s)) eqn:Hj; [|done].
    pose proof (run_exec true (accept_batch sample_from_slice sample_to_vec (fun _ => "") sample_digest
      (app s) ∅ authorization body) (disk s)) as Ho.
    destruct (Spool.run _ _) as [w' [a' r]]. intros [= <- <- <-]. eapply step_batch; [exact Hr|exact Ho|].
    intros receipt _. by right; apply clean_idle.
  - destruct (exporter s) as [[pass|X m k]| |] eqn:Hx; try done.
    pose proof (run_answering_exec 200 true m (disk s)) as Ho.
    destruct (run_answering 200 m (disk s)) as [[w' x] made]. intros [= <- <- <-]. by eapply step_method.
  - destruct (exporter_step _ _ _ _ _ _ _ _ woken s) eqn:He; [|done]. intros [= <- <- <-]. by eapply step_exporter.
  - destruct (refresh_step read_to_string get s) eqn:Hr; [|done]. intros [= <- <- <-]. by eapply step_refresh.
Qed.
Lemma serve_acts_steps l s handled tr s' handled' tr' :
  acts l s handled tr = Some (s', handled', tr') -> sample_steps (vouched ∅) s handled tr (inr s') handled' tr'.
Proof.
  revert s handled tr. induction l as [|a l IH]; intros s handled tr; cbn [acts]; [intros [= <- <- <-]; apply steps_none|].
  destruct (act a s handled tr) as [[[s1 handled1] tr1]|] eqn:Ha; [|done]. intros Hl%IH.
  eapply steps_one; [exact (serve_act_step _ _ _ _ _ _ _ Ha)|exact Hl].
Qed.
End schedule.

(** * The runs *)
Definition sample_text (path : string) : option string := if String.eqb path "/token" then Some "token" else None.
Definition sample_encode (samples : list (string * string * Z)) : string + bytes := inr [].
Definition sample_get (url token : string) : string + list PodMetadata :=
  if String.eqb url "https://10.0.0.1:443/api/v1/pods" && String.eqb token "token" then
    inr [{| pod_meta_uid := Some "uid"; pod_meta_name := Some "mongo-0"; pod_meta_namespace := None;
            pod_meta_labels := None; owner_references := None |}]
  else inl "not found".

(** The state of Delivery.v with an API server and, maybe, a file of certificates *)
Definition state_with (ca : option string) : AppState := {|
  config := {|
    config_customer_id := "customer"; config_tenant_id := "tenant"; config_source_id := "source";
    config_regional_cell_id := "cell"; config_cluster_name := "cluster"; internal_token := Some "secret";
    destination := Http {| endpoint := "https://cell.example/ingest"; bearer_token := "token"; ca_file := ca |};
    spool_dir := "/spool"; spool_max_bytes := 100; max_request_bytes := 1000; export_interval := 5;
    kubernetes_api_url := Some "https://10.0.0.1:443/"; kubernetes_token_path := "/token"; kubernetes_ca_path := "/ca";
    kubernetes_refresh_interval := 30; identity_mapping_file := None |};
  app_metrics := no_metrics; notified := false; pods := ∅
|}.
Definition sample_boot (ca : option string) : Server :=
  spawn_background_tasks sample_from_slice sample_json (fun bs => bs) sample_header (fun _ => 2026) (fun _ => 1)
    (fun _ => 2) (fun _ => 3) (fun path => if String.eqb path "/ca" then Some [x01] else None) Some (fun _ => true)
    (state_with ca) (restart ∅).

Definition batch_1 : Action := ABatch (Some "Bearer secret") (bytes_of "batch-1").
(** The first pass finds the spool empty; a batch comes in, and wakes the exporter. *)
Definition served_actions : list Action :=
  [AMethod; ARefresh sample_get; batch_1; AMethod; AExporter false; AExporter true;
   AMethod; AMethod; AMethod; AMethod; AMethod; AExporter false].
Definition unserved_actions : list Action := [ARefresh sample_get; batch_1].

Definition end_of (l : list Action) (s : Server) : Server * list exchange * list sent :=
  default (s, [], []) (acts sample_text l s [] []).
Lemma acts_end l s : is_some (acts sample_text l s [] []) = true ->
  acts sample_text l s [] [] = Some ((end_of l s).1.1, (end_of l s).1.2, (end_of l s).2).
Proof. unfold end_of. by destruct (acts _ _ _ _ _) as [[[s' handled'] tr']|]. Qed.
Definition served := end_of served_actions (sample_boot None).
Definition unserved := end_of unserved_actions (sample_boot (Some "/missing")).
#[local] Strategy expand [served unserved].

Example served_sent : (sent_key <$> served.2, answer <$> served.2) = (["batch-1"], [Some 200]).
Proof. vm_compute. reflexivity. Qed.
Example served_counters :
  let m := app_metrics (app served.1.1) in
  (accepted_batches m, delivered_batches m, spool_items m, kubernetes_cache_entries m) = (1, 1, 0, 1).
Proof. vm_compute. reflexivity. Qed.
(** Without its client, Outpost takes the same batch, and sends nothing. *)
Example unserved_accepted : (status ∘ snd <$> unserved.1.2, unserved.2) = ([202], []).
Proof. vm_compute. reflexivity. Qed.

Abbreviation served_steps := (steps sample_from_slice sample_to_vec (fun _ => "") sample_digest sample_json
  (fun bs => bs) sample_header (fun _ => 2026) (fun _ => 1) (fun _ => 2) (fun _ => 3) sample_text sample_encode true).
Lemma served_run : served_steps (vouched ∅) (sample_boot None) [] [] (inr served.1.1) served.1.2 served.2.
Proof. apply (serve_acts_steps sample_text sample_encode served_actions), acts_end. vm_compute. reflexivity. Qed.
Lemma unserved_run : served_steps (vouched ∅) (sample_boot (Some "/missing")) [] [] (inr unserved.1.1) unserved.1.2 unserved.2.
Proof. apply (serve_acts_steps sample_text sample_encode unserved_actions), acts_end. vm_compute. reflexivity. Qed.

Lemma served_durable : settled (durable (disk served.1.1)).
Proof. apply (bool_decide_unpack _). vm_compute. exact I. Qed.

Definition served_response : Response := default (error_response 0 "") (snd <$> head served.1.2).
Lemma served_handled : (bytes_of "batch-1", served_response) ∈ served.1.2.
Proof. replace served.1.2 with [(bytes_of "batch-1", served_response)] by (vm_compute; reflexivity). by left. Qed.

Lemma served_batch_kept_witness :
  (exists dir f, durable (disk served.1.1) !! (dir, json_name sample_receipt) = Some f /\
     sample_digest (content f) = sample_receipt) \/
  Exists (delivered sample_from_slice sample_digest sample_json (fun bs => bs)
    (fun _ => 2026) (fun _ => 1) (fun _ => 2) (fun _ => 3) sample_destination sample_receipt) served.2.
Proof.
  apply (served_batch_kept sample_from_slice sample_to_vec (fun _ => "") sample_digest slen_sample_digest sample_json
    (fun bs => bs) sample_header (fun _ => 2026) (fun _ => 1) (fun _ => 2) (fun _ => 3)
    (fun path => if String.eqb path "/ca" then Some [x01] else None) sample_text Some (fun _ => true) sample_encode
    sample_destination ∅ true (state_with None) (restart ∅) [] [] (inr served.1.1) served.1.2 served.2
    (bytes_of "batch-1") served_response sample_receipt (durable (disk served.1.1))).
  - apply outpost_new.
  - reflexivity.
  - exact served_run.
  - exact served_handled.
  - vm_compute. reflexivity.
  - apply not_elem_of_empty.
  - apply crash_durable, served_durable.
Defined.

Lemma no_client_no_delivery_witness :
  unserved.2 = [] /\ exporter unserved.1.1 = ExporterEnded.
Proof.
  destruct (no_client_no_delivery sample_from_slice sample_to_vec (fun _ => "") sample_digest sample_json
    (fun bs => bs) sample_header (fun _ => 2026) (fun _ => 1) (fun _ => 2) (fun _ => 3)
    (fun path => if String.eqb path "/ca" then Some [x01] else None) sample_text Some (fun _ => true) sample_encode
    true (vouched ∅) (state_with (Some "/missing")) (restart ∅) [] [] (inr unserved.1.1) unserved.1.2 unserved.2
    ltac:(discriminate) unserved_run) as [Htr Hend].
  split; [exact Htr|]. exact (proj1 (Hend unserved.1.1 eq_refl)).
Defined.
