(* ===== verification/Mock.v ===== *)
(** The mock of the regional endpoint, crates/mock-endpoint/src/main.rs: what
    receives Outpost's batches in the tests and the demo.  A request is a task
    that takes one atomic step at a time (a lock, the write of the file), and
    tasks interleave; what a write does to the disk is up to the environment. *)
From Stdlib Require Import ZArith Lia ZifyBool Strings.Byte Strings.Ascii Strings.String.
From stdpp Require Import base list strings gmap.
From S2P Require Import Prelude Text Float64 Json Schema.

Local Open Scope string_scope.
Local Open Scope list_scope.
Local Open Scope Z_scope.

(** * State and requests *)
Section mock.
Context {OffsetDateTime : Type}.
Abbreviation DamBatch := (DamBatch OffsetDateTime).
(** [serde_json::from_slice] of a batch: an error is its text. *)
Context (from_slice : bytes -> string + DamBatch).

Record Config : Set := {
  token : string;
  max_batches : Z;
  output_dir : option string
}.
(** [files]: what the process has written under the output directory *)
Record MockState : Type := {
  seen : gset string;
  batches : list DamBatch;
  files : gmap string bytes
}.
(** The command line, with clap's defaults *)
Record Cli : Set := {
  cli_listen_addr : string;
  cli_token : string;
  cli_output_dir : option string;
  cli_max_batches : Z
}.
Definition default_cli : Cli := {|
  cli_listen_addr := "0.0.0.0:8088"; cli_token := "local-development-token"; cli_output_dir := None;
  cli_max_batches := 250
|}.
(** [main], up to the router: [created] is what making the output directory gives. *)
Definition start (created : string -> res string unit) (cli : Cli) : res string Config :=
  if negb (0 <? cli_max_batches cli) then Err "max_batches must be positive" else
  let! _ := match cli_output_dir cli with Some directory => created directory | None => Ok tt end in
  Ok {| token := cli_token cli; max_batches := cli_max_batches cli; output_dir := cli_output_dir cli |}.

Inductive Route : Set := HealthRoute | ListRoute | IngestRoute.
Definition route (path : string) : option (string * Route) :=
  if String.eqb path "/health" then Some ("GET", HealthRoute)
  else if String.eqb path "/v1/batches" then Some ("GET", ListRoute)
  else if String.eqb path "/v1/ingest/mongodb-dam" then Some ("POST", IngestRoute)
  else None.

Definition new_state : MockState := {| seen := ∅; batches := []; files := ∅ |}.

(** The headers that are there and are text *)
Record Incoming : Set := {
  authorization : option string;
  idempotency_key : option string;
  incoming_body : bytes
}.
Inductive Answer : Set :=
| Refused (status : Z) (text : string)
| Accepted (receipt_id ingest_batch_id : string).
Definition answer_status (a : Answer) : Z := match a with Refused status _ => status | Accepted _ _ => 202 end.

Definition authorized (provided : option string) (token : string) : bool :=
  match provided with
  | Some value => String.eqb value ("Bearer " ++ token)
  | None => false
  end.

(** The checks of [ingest], before its first lock *)
Definition admit_request (config : Config) (r : Incoming) : Answer + string * DamBatch :=
  if negb (authorized (authorization r) (token config)) then inl (Refused 401 "invalid token") else
  match idempotency_key r with
  | None => inl (Refused 400 "idempotency-key is required")
  | Some key =>
      match from_slice (incoming_body r) with
      | inl error => inl (Refused 400 error)
      | inr batch =>
          match validate batch with
          | Ok _ =>
              if negb (String.eqb key (batch_id batch))
              then inl (Refused 400 "idempotency key must equal batch_id") else inr (key, batch)
          | Err error => inl (Refused 400 error)
          | Fault _ => inl (Refused 400 "")
          end
      end
  end.

(** * A request, step by step *)
Inductive Task : Type :=
| Arrived (r : Incoming)
| Reserved (key : string) (batch : DamBatch) (body : bytes)
| Storing (key : string) (batch : DamBatch)
| Failing (key error : string)
| Answered (a : Answer).

(** What the file system makes of a write: its success, or an error and what it
    leaves under the path. *)
Inductive Written : Set := WriteOk | WriteFailed (error : string) (left_over : option bytes).

(** [push_front], then [pop_back] down to [max_batches] *)
Definition push_batch (config : Config) (batch : DamBatch) (l : list DamBatch) : list DamBatch :=
  take (Z.to_nat (max_batches config)) (batch :: l).

Definition set_seen (f : gset string -> gset string) (s : MockState) : MockState :=
  {| seen := f (seen s); batches := batches s; files := files s |}.
Definition set_batches (f : list DamBatch -> list DamBatch) (s : MockState) : MockState :=
  {| seen := seen s; batches := f (batches s); files := files s |}.
Definition set_files (f : gmap string bytes -> gmap string bytes) (s : MockState) : MockState :=
  {| seen := seen s; batches := batches s; files := f (files s) |}.

Definition ingest_step (config : Config) (written : Written) (t : Task) (s : MockState) : MockState * Task :=
  match t with
  | Arrived r =>
      match admit_request config r with
      | inl a => (s, Answered a)
      | inr (key, batch) =>
          if bool_decide (key ∈ seen s) then (s, Answered (Refused 409 "duplicate idempotency key"))
          else (set_seen (union {[key]}) s, Reserved key batch (incoming_body r))
      end
  | Reserved key batch body =>
      match output_dir config with
      | None => (s, Storing key batch)
      | Some directory =>
          let path := join_path directory (key ++ ".json") in
          match written with
          | WriteOk => (set_files (insert path body) s, Storing key batch)
          | WriteFailed error left_over =>
              (set_files (partial_alter (fun _ => left_over) path) s, Failing key error)
          end
      end
  | Failing key error => (set_seen (fun seen => seen ∖ {[key]}) s, Answered (Refused 500 error))
  | Storing key batch =>
      (set_batches (push_batch config batch) s,
       Answered (Accepted ("mock-" ++ key) (batch_id batch)))
  | Answered a => (s, t)
  end.

(** [ingest], when nothing interleaves: four steps answer any request. *)
Definition ingest (config : Config) (written : Written) (r : Incoming) (s : MockState) : MockState * Task :=
  Nat.iter 4 (fun '(s, t) => ingest_step config written t s) (s, Arrived r).

Record Health : Set := {
  received_batches : Z;
  retained_batches : Z
}.
Definition health (s : MockState) : Health :=
  {| received_batches := Z.of_nat (size (seen s)); retained_batches := len (batches s) |}.

(** [limit.unwrap_or(50).clamp(1, max_batches)], which panics when [max_batches] is 0 *)
Definition list_limit (config : Config) (limit : option Z) : res string Z :=
  if max_batches config <? 1 then Fault Panic else Ok (Z.min (max_batches config) (Z.max 1 (default 50 limit))).
Definition list_batches (config : Config) (limit : option Z) (provided : option string) (s : MockState)
    : res string (Answer + list DamBatch) :=
  if negb (authorized provided (token config)) then Ok (inl (Refused 401 "invalid token")) else
  match list_limit config limit with
  | Ok n => Ok (inr (take (Z.to_nat n) (batches s)))
  | Err e => Err e
  | Fault f => Fault f
  end.

(** The check at the start is what keeps [clamp] from its panic. *)
Lemma started_lists created cli config limit :
  start created cli = Ok config -> exists n, list_limit config limit = Ok n /\ 1 <= n <= max_batches config.
Proof.
  unfold start, list_limit. destruct (negb _) eqn:Hp; [done|]. intros (_ & _ & [= <-])%bind_Ok_inv.
  cbn [max_batches]. replace (cli_max_batches cli <? 1) with false by lia. eexists. split; [done|]. lia.
Qed.

(** * Histories: requests arrive, and any of them takes its next step *)
Inductive reached (config : Config) : MockState -> list Task -> Prop :=
| reached_new : reached config new_state []
| reached_arrive s tasks r : reached config s tasks -> reached config s (Arrived r :: tasks)
| reached_step s before t after written s' t' :
    reached config s (before ++ t :: after) -> ingest_step config written t s = (s', t') ->
    reached config s' (before ++ t' :: after).

(** The batch ids that were accepted, and those a task holds *)
Definition accepted_id (t : Task) : option string :=
  match t with Answered (Accepted _ id) => Some id | _ => None end.
Definition held_id (t : Task) : option string :=
  match t with
  | Reserved key _ _ | Storing key _ | Failing key _ => Some key
  | Answered (Accepted _ id) => Some id
  | _ => None
  end.
(** A task carries a valid batch under its id. *)
Definition task_ok (t : Task) : Prop :=
  match t with
  | Reserved key batch _ | Storing key batch => key = batch_id batch /\ valid_batch batch
  | _ => True
  end.

Record mock_invariant (config : Config) (s : MockState) (tasks : list Task) : Prop := {
  mi_nodup : NoDup (omap held_id tasks);
  mi_seen : forall key, key ∈ seen s <-> key ∈ omap held_id tasks;
  mi_tasks : Forall task_ok tasks;
  mi_bound : len (batches s) <= Z.max 0 (max_batches config);
  mi_batches : NoDup (batch_id <$> batches s) /\
    Forall (fun b => batch_id b ∈ omap accepted_id tasks /\ valid_batch b) (batches s)
}.

(** * Invariant *)
Lemma omap_middle {A B} (f : A -> option B) (t : A) before after :
  omap f (before ++ t :: after) ≡ₚ option_list (f t) ++ omap f (before ++ after).
Proof. rewrite <- Permutation_middle. cbn [omap list_omap]. by destruct (f t). Qed.

Lemma elem_of_middle {A B} (f : A -> option B) (t : A) before after x :
  x ∈ omap f (before ++ t :: after) <-> f t = Some x \/ x ∈ omap f (before ++ after).
Proof.
  rewrite omap_middle, elem_of_app. destruct (f t) as [y|]; simpl.
  - rewrite list_elem_of_singleton. split; (intros [H|H]; [left; congruence|by right]).
  - split; [intros [H|H]; [by apply elem_of_nil in H|by right]|]. intros [[=]|H]. by right.
Qed.

Lemma Forall_middle {A} (P : A -> Prop) t before after : Forall P (before ++ t :: after) <-> P t /\ Forall P (before ++ after).
Proof. rewrite <- Permutation_middle, Forall_cons. done. Qed.

(** The holdings of the other tasks, with those of this one *)
Lemma invariant_middle config s t before after :
  mock_invariant config s (before ++ t :: after) <->
  NoDup (option_list (held_id t) ++ omap held_id (before ++ after)) /\
  (forall key, key ∈ seen s <-> held_id t = Some key \/ key ∈ omap held_id (before ++ after)) /\
  (task_ok t /\ Forall task_ok (before ++ after)) /\
  len (batches s) <= Z.max 0 (max_batches config) /\ NoDup (batch_id <$> batches s) /\
  Forall (fun b => (accepted_id t = Some (batch_id b) \/ batch_id b ∈ omap accepted_id (before ++ after)) /\ valid_batch b)
    (batches s).
Proof.
  assert (forall l, Forall (fun b : DamBatch => batch_id b ∈ omap accepted_id (before ++ t :: after) /\ valid_batch b) l <->
    Forall (fun b => (accepted_id t = Some (batch_id b) \/ batch_id b ∈ omap accepted_id (before ++ after)) /\ valid_batch b) l) as Hb.
  { intros l. rewrite !Forall_forall. by setoid_rewrite elem_of_middle. }
  split.
  - intros [H1 H2 H3 H4 [H5 H6]]. rewrite omap_middle in H1. rewrite Forall_middle in H3.
    setoid_rewrite elem_of_middle in H2. apply Hb in H6. tauto.
  - intros (H1 & H2 & H3 & H4 & H5 & H6). split; [by rewrite omap_middle| |by apply Forall_middle|done|split; [done|by apply Hb]].
    intros key. rewrite H2. symmetry. apply elem_of_middle.
Qed.

Lemma push_bound config b l : len (push_batch config b l) <= Z.max 0 (max_batches config).
Proof. unfold push_batch, len. rewrite length_take. lia. Qed.

Lemma admit_request_inv config r key batch :
  admit_request config r = inr (key, batch) -> key = batch_id batch /\ valid_batch batch.
Proof.
  unfold admit_request. repeat case_match; try done. intros [= <- <-].
  match goal with H : negb _ = false |- _ => apply negb_false_iff, String.eqb_eq in H end.
  split; [done|]. apply valid_validate. by repeat match goal with u : unit |- _ => destruct u end.
Qed.

(** An accepted id is held. *)
Lemma accepted_held (l : list Task) id : id ∈ omap accepted_id l -> id ∈ omap held_id l.
Proof.
  rewrite !list_elem_of_omap. intros (t & Ht & Hid). exists t. split; [done|]. by destruct t as [| | | |[]].
Qed.

Lemma admit_request_refused config r a :
  admit_request config r = inl a -> exists code text, a = Refused code text.
Proof. unfold admit_request. repeat case_match; try done; intros [= <-]; eauto. Qed.

Lemma step_invariant config written s t before after s' t' :
  mock_invariant config s (before ++ t :: after) -> ingest_step config written t s = (s', t') ->
  mock_invariant config s' (before ++ t' :: after).
Proof.
  rewrite !invariant_middle. intros (H1 & H2 & [Hok H3] & H4 & H5 & H6) Hstep.
  destruct t as [r|key batch body|key batch|key error|a]; cbn [ingest_step] in Hstep.
  - destruct (admit_request config r) as [a|[key batch]] eqn:Hr.
    + injection Hstep as <- <-. by destruct (admit_request_refused _ _ _ Hr) as (code & text & ->).
    + case_bool_decide as Hk; injection Hstep as <- <-; [done|]. apply admit_request_inv in Hr as [Hkey Hv].
      cbn [held_id accepted_id option_list seen batches set_seen app task_ok] in *. split_and!; try done.
      * constructor; [|done]. intros Hin. apply Hk, H2. by right.
      * intros k. rewrite elem_of_union, elem_of_singleton, H2. split; (intros [H|H]; [left; congruence|]); [|by right; right].
        destruct H as [[=]|H]; by right.
  - assert (held_id t' = Some key /\ accepted_id t' = None /\ task_ok t' /\ seen s' = seen s /\ batches s' = batches s)
      as (-> & -> & Ht' & -> & ->).
    { by destruct (output_dir config), written; injection Hstep as <- <-. }
    cbn [held_id accepted_id] in *. tauto.
  - injection Hstep as <- <-. destruct Hok as [-> Hv]. cbn [held_id accepted_id option_list seen batches set_batches] in *.
    split_and!; try done; [apply push_bound|..].
    + unfold push_batch. rewrite fmap_take. eapply sublist_NoDup; [|apply sublist_take].
      rewrite fmap_cons. constructor; [|done].
      intros (b & Hb & Hin)%list_elem_of_fmap. rewrite Forall_forall in H6.
      destruct (H6 b Hin) as [[[=]|Hacc] _]. apply accepted_held in Hacc.
      apply NoDup_app in H1 as (_ & Hdisj & _). apply (Hdisj (batch_id batch)); [by apply list_elem_of_singleton|by rewrite Hb].
    + unfold push_batch. apply Forall_take. constructor; [by split; [left|]|].
      eapply Forall_impl; [exact H6|]. intros b [[[=]|Hb] Hvb]. auto.
  - injection Hstep as <- <-. cbn [held_id accepted_id option_list seen batches set_seen app] in *.
    apply NoDup_cons in H1 as [Hn H1]. split_and!; try done. intros k.
    rewrite elem_of_difference, elem_of_singleton, H2. split.
    + intros [[[=]|Hk] Hne]; [congruence|by right].
    + intros [[=]|Hk]. split; [by right|]. intros ->. done.
  - by injection Hstep as <- <-.
Qed.

Lemma reached_invariant config s tasks : reached config s tasks -> mock_invariant config s tasks.
Proof.
  induction 1 as [|s tasks r _ IH|s tasks t after written s' t' _ IH Hs].
  - split; [by apply NoDup_nil| |done|unfold len; simpl; lia|by split; [apply NoDup_nil|]]. intros key. split; [by intros ?%elem_of_empty|by intros ?%elem_of_nil].
  - destruct IH as [H1 H2 H3 H4 H5]. split; try done. by constructor.
  - by eapply step_invariant.
Qed.

(** Each batch once.  However requests interleave and whatever becomes of the
    writes: no two requests are answered 202 for the same batch id; an accepted
    id stays in [seen]; and the retained batches are at most [max_batches] valid
    batches of accepted requests with different ids. *)
Theorem mock_accepts_once config s tasks :
  reached config s tasks ->
  NoDup (omap accepted_id tasks) /\ (forall key, key ∈ omap accepted_id tasks -> key ∈ seen s) /\
  len (batches s) <= Z.max 0 (max_batches config) /\ NoDup (batch_id <$> batches s) /\
  Forall (fun b => batch_id b ∈ omap accepted_id tasks /\ valid_batch b) (batches s).
Proof.
  intros [H1 H2 H3 H4 [H5 H6]]%reached_invariant. split_and!; try done.
  - clear -H1. induction tasks as [|t tasks IH]; [by apply NoDup_nil|]. cbn [omap list_omap] in *.
    assert (NoDup (omap held_id tasks)) as Hn by (destruct (held_id t); [by apply NoDup_cons in H1 as []|done]).
    destruct t as [| | | |[code text|receipt id]]; cbn [accepted_id held_id] in *; auto.
    apply NoDup_cons in H1 as [Hni _]. constructor; [|auto]. intros Hin. by apply Hni, accepted_held.
  - intros key Hk. by apply H2, accepted_held.
Qed.

(** A conflict without a batch.  While the first request for a batch writes
    its file, a second one is answered 409, which Outpost takes as a delivery;
    when the write then fails, the first is answered 500 and the batch is neither
    remembered nor retained. *)
Theorem conflict_without_batch config r key batch directory error left_over s :
  admit_request config r = inr (key, batch) -> output_dir config = Some directory -> ~ key ∈ seen s ->
  exists s1 t1 s2 t2 s3 s4,
    ingest_step config WriteOk (Arrived r) s = (s1, t1) /\
    ingest_step config WriteOk (Arrived r) s1 = (s2, Answered (Refused 409 "duplicate idempotency key")) /\
    ingest_step config (WriteFailed error left_over) t1 s2 = (s3, t2) /\
    ingest_step config WriteOk t2 s3 = (s4, Answered (Refused 500 error)) /\
    seen s4 = seen s /\ batches s4 = batches s.
Proof.
  intros Hr Hd Hk. exists (set_seen (union {[key]}) s), (Reserved key batch (incoming_body r)).
  eexists _, (Failing key error), _, _. split; [|split; [|split; [|split; [|split]]]].
  - cbn [ingest_step]. by rewrite Hr, bool_decide_false.
  - cbn [ingest_step]. rewrite Hr, bool_decide_true; [done|]. apply elem_of_union_l, elem_of_singleton. done.
  - cbn [ingest_step]. by rewrite Hd.
  - done.
  - simpl. apply set_eq. intros k. rewrite elem_of_difference, elem_of_union, !elem_of_singleton.
    split; [tauto|]. intros Hin. split; [by right|]. by intros ->.
  - done.
Qed.
End mock.

(** * Examples *)
Definition sample_config : Config := {| token := "token"; max_batches := 250; output_dir := Some "/out" |}.
Definition sample_read (bs : bytes) : string + DamBatch unit := inr (health_batch "customer" true).
Definition sample_request : Incoming := {|
  authorization := Some "Bearer token"; idempotency_key := Some "batch-1"; incoming_body := bytes_of "{}"
|}.
Definition sample_ingested := ingest sample_read sample_config WriteOk sample_request new_state.
Example sample_accepted :
  sample_ingested.2 = Answered (Accepted "mock-batch-1" "batch-1") /\
  files sample_ingested.1 !! "/out/batch-1.json" = Some (bytes_of "{}") /\
  (ingest sample_read sample_config WriteOk sample_request sample_ingested.1).2
    = Answered (Refused 409 "duplicate idempotency key").
Proof. vm_compute. auto. Qed.
Example escaping_path : join_path "/out" ("../etc/x" ++ ".json") = "/out/../etc/x.json" /\ join_path "/out" "/etc/x.json" = "/etc/x.json".
Proof. vm_compute. auto. Qed.

Lemma step_eta config written t s :
  ingest_step sample_read config written t s =
    ((ingest_step sample_read config written t s).1, (ingest_step sample_read config written t s).2).
Proof. apply surjective_pairing. Qed.
Lemma sample_reached : reached sample_read sample_config sample_ingested.1 [sample_ingested.2].
Proof.
  unfold sample_ingested, ingest.
  set (next := fun '(s, t) => ingest_step sample_read sample_config WriteOk t s). generalize 4%nat. intros n.
  induction n as [|n IH]; [apply reached_arrive, reached_new|].
  change (Nat.iter (S n) next (new_state, Arrived sample_request)) with (next (Nat.iter n next (new_state, Arrived sample_request))).
  destruct (Nat.iter n next _) as [s t]. eapply (reached_step _ _ s [] t []); [exact IH|apply step_eta].
Qed.

Lemma mock_accepts_once_witness :
  NoDup (omap accepted_id [sample_ingested.2]) /\ omap accepted_id [sample_ingested.2] = ["batch-1"].
Proof.
  split; [|vm_compute; reflexivity].
  apply (mock_accepts_once sample_read sample_config sample_ingested.1 [sample_ingested.2] sample_reached).
Defined.

Lemma conflict_without_batch_witness :
  exists s1 t1 s2 t2 s3 s4,
    ingest_step sample_read sample_config WriteOk (Arrived sample_request) new_state = (s1, t1) /\
    ingest_step sample_read sample_config WriteOk (Arrived sample_request) s1
      = (s2, Answered (Refused 409 "duplicate idempotency key")) /\
    ingest_step sample_read sample_config (WriteFailed "no space left on device" None) t1 s2 = (s3, t2) /\
    ingest_step sample_read sample_config WriteOk t2 s3 = (s4, Answered (Refused 500 "no space left on device")) /\
    seen s4 = seen (OffsetDateTime := unit) new_state /\ batches s4 = [].
Proof.
  apply (conflict_without_batch sample_read sample_config sample_request "batch-1" (health_batch "customer" true) "/out"
    "no space left on device" None new_state ltac:(vm_compute; reflexivity) eq_refl ltac:(by intros ?%elem_of_empty)).
Defined.
