(* ===== verification/Testing.v ===== *)
(** The language of the repository's unit tests: a test is a program that ends,
    or panics where an assertion fails or an [unwrap] finds no value.  The test
    modules of the crates are translated into it, with the inputs and the
    assertions they have, and run by evaluation. *)
From Stdlib Require Import ZArith Strings.Byte Strings.Ascii Strings.String.
From stdpp Require Import base list strings.
From S2P Require Import Prelude Text Float64 Json Bson BsonJson Summary Wire.

Local Open Scope Z_scope.

(** * Tests *)
Abbreviation test := (res Empty_set).
Definition passes (t : test unit) : Prop := t = Ok tt.

(** [assert!], [Result::unwrap], [Option::unwrap], [unwrap_err] *)
Definition assert (b : bool) : test unit := if b then Ok tt else Fault Panic.
Definition unwrap {E A} (r : res E A) : test A :=
  match r with
  | Ok a => Ok a
  | Err _ => Fault Panic
  | Fault f => Fault f
  end.
Definition expect {A} (o : option A) : test A :=
  match o with
  | Some a => Ok a
  | None => Fault Panic
  end.
(** A result that is compared as a whole *)
Definition outcome_of {E A} (r : res E A) : test (E + A) :=
  match r with
  | Ok a => Ok (inr a)
  | Err e => Ok (inl e)
  | Fault f => Fault f
  end.

(** [assert_eq!]: equality of values, which decides the derived [PartialEq] (and
    is finer on floating point zeros). *)
Definition assert_eq {A} `{EqDecision A} (x y : A) : test unit := assert (bool_decide (x = y)).

(** [value[key]] and [value[index]] of a JSON value: [null] when there is none *)
Definition at_key (key : string) (v : JsonValue) : JsonValue :=
  match v with
  | JObject m => from_option id JNull (map_get key m)
  | _ => JNull
  end.
Definition at_index (i : nat) (v : JsonValue) : JsonValue :=
  match v with
  | JArray l => from_option id JNull (l !! i)
  | _ => JNull
  end.
(** The [json!] macro on an object and an array *)
Definition json_object (fields : list (string * JsonValue)) : JsonValue :=
  JObject (fold_left (fun m kv => map_insert (fst kv) (snd kv) m) fields []).

(** A JSON text, written here with single quotes for its double ones *)
Fixpoint json_text (s : string) : string :=
  match s with
  | EmptyString => EmptyString
  | String c s => String (if Ascii.eqb c "039" then "034" else c)%char (json_text s)
  end.
(** [str::repeat] *)
Fixpoint repeat_string (s : string) (n : nat) : string :=
  match n with
  | O => EmptyString
  | S n => (s ++ repeat_string s n)%string
  end.

(** * Decidable equality *)
#[export] Instance spec_float_eq_dec : EqDecision f64.
Proof. unfold f64. solve_decision. Defined.
#[export] Instance JsonNumber_eq_dec : EqDecision JsonNumber.
Proof. solve_decision. Defined.
#[export] Instance JsonValue_eq_dec : EqDecision JsonValue.
Proof.
  refine (fix go v v' := let _ : EqDecision _ := @go in
    match v, v' with
    | JNull, JNull => left eq_refl
    | JBool b, JBool b' => cast_if (decide (b = b'))
    | JNumber n, JNumber n' => cast_if (decide (n = n'))
    | JString s, JString s' => cast_if (decide (s = s'))
    | JArray l, JArray l' => cast_if (decide (l = l'))
    | JObject m, JObject m' => cast_if (decide (m = m'))
    | _, _ => right _
    end); abstract congruence.
Defined.
#[export] Instance DeleteScope_eq_dec : EqDecision DeleteScope.
Proof. solve_decision. Defined.
#[export] Instance MongoCommand_eq_dec : EqDecision MongoCommand.
Proof. solve_decision. Defined.
#[export] Instance ResponseStatus_eq_dec : EqDecision ResponseStatus.
Proof. solve_decision. Defined.
#[export] Instance DecodedMessage_eq_dec : EqDecision DecodedMessage.
Proof. solve_decision. Defined.
#[export] Instance DecodeError_eq_dec : EqDecision DecodeError.
Proof. solve_decision. Defined.
