(* ===== verification/ProtocolTests.v ===== *)
(** The test module of crates/mongo-protocol/src/lib.rs, with its builders of
    Encode.v: the definitions of the decoder, run on the inputs of the
    repository's tests, satisfy their assertions. *)
From Stdlib Require Import ZArith Strings.Byte Strings.Ascii Strings.String.
From stdpp Require Import base list strings.
From S2P Require Import Prelude Text Float64 Json Bson BsonJson Summary Wire Stream Encode Testing.

Local Open Scope string_scope.
Local Open Scope list_scope.
Local Open Scope Z_scope.

(** The bits of [1.0] and [0.0] *)
Definition F64_ONE : Z := 4607182418800017408.
Definition F64_ZERO : Z := 0.

Section tests.
Context `{Decompressors}.

(** [decode_frame(frame, DEFAULT_MAX_MESSAGE_BYTES).unwrap()], its command and
    its status *)
Definition decoded (frame : bytes) : test DecodedMessage := unwrap (decode_frame frame DEFAULT_MAX_MESSAGE_BYTES).
Definition decoded_command (frame : bytes) : test MongoCommand :=
  let! message := decoded frame in expect (command message).
Definition decoded_status (frame : bytes) : test ResponseStatus :=
  let! message := decoded frame in expect (status message).

Definition decodes_fragmented_find_with_query_content : test unit :=
  let bson := document [string_element "find" "orders"; string_element "$db" "sales"] in
  let frame := op_msg 41 0 0 bson in
  let split := len frame / 2 in
  let decoder := new default_config in
  let! first := slice frame 0 split in
  let '(decoder, messages) := push decoder first in
  let! messages := unwrap messages in
  let! _ := assert (bool_decide (messages = [])) in
  let! rest := slice frame split (len frame) in
  let '(decoder, messages) := push decoder rest in
  let! messages := unwrap messages in
  let! _ := assert_eq (length messages) 1%nat in
  let! message := index messages 0 in
  assert_eq (command message) (Some {|
    name := "find"; database := Some "sales"; collection := Some "orders"; auth_mechanism := None;
    principal := None; speculative_auth := false; delete_scope := None; delete_statements := None;
    query := Some (json_object [("find", JString "orders"); ("$db", JString "sales")]) |}).

Definition captures_complete_find_query_content : test unit :=
  let filter := document [string_element "customer_id" "cust-001"] in
  let bson := document [string_element "find" "orders"; embedded_element x03 "filter" filter;
    string_element "$db" "dam_demo"] in
  let! command := decoded_command (op_msg 42 0 0 bson) in
  assert_eq (query command) (Some (json_object [("find", JString "orders");
    ("filter", json_object [("customer_id", JString "cust-001")]); ("$db", JString "dam_demo")])).

Definition extracts_bulk_delete_scope_affected_count_and_query : test unit :=
  let private_filter := document [string_element "customer_email" "private@example.invalid"] in
  let statement := document [embedded_element x03 "q" private_filter; int_element "limit" 0] in
  let statements := document [embedded_element x03 "0" statement] in
  let request := op_msg 61 0 0 (document [string_element "delete" "customer_records";
    embedded_element x04 "deletes" statements; string_element "$db" "dam_demo"]) in
  let! command := decoded_command request in
  let! _ := assert_eq (name command) "delete" in
  let! _ := assert_eq (database command) (Some "dam_demo") in
  let! _ := assert_eq (collection command) (Some "customer_records") in
  let! _ := assert_eq (delete_scope command) (Some Multi) in
  let! _ := assert_eq (delete_statements command) (Some 1) in
  let! query := expect (query command) in
  let! _ := assert_eq (at_key "customer_email" (at_key "q" (at_index 0 (at_key "deletes" query))))
              (JString "private@example.invalid") in
  let response := op_msg 62 61 0 (document [int_element "n" 35; double_element "ok" F64_ONE]) in
  let! status := decoded_status response in
  let! _ := assert_eq (affected_count status) (Some 35) in
  assert_eq (status_ok status) (Some true).

Definition extracts_bulk_delete_from_op_msg_document_sequence : test unit :=
  let private_filter := document [string_element "tenant" "private-tenant"] in
  let statement := document [embedded_element x03 "q" private_filter; int_element "limit" 0] in
  let request := op_msg_with_document_sequence 63
    (document [string_element "delete" "customer_records"; string_element "$db" "dam_demo"]) "deletes" [statement] in
  let! command := decoded_command request in
  let! _ := assert_eq (delete_scope command) (Some Multi) in
  let! _ := assert_eq (delete_statements command) (Some 1) in
  let! query := expect (query command) in
  assert_eq (at_key "tenant" (at_key "q" (at_index 0 (at_key "deletes" query)))) (JString "private-tenant").

Definition treats_user_management_argument_as_principal_not_collection : test unit :=
  let bson := document [string_element "createUser" "alice@example.com"; string_element "$db" "admin"] in
  let! command := decoded_command (op_msg 43 0 0 bson) in
  let! _ := assert_eq (name command) "createUser" in
  let! _ := assert_eq (database command) (Some "admin") in
  let! _ := assert_eq (collection command) None in
  assert_eq (principal command) (Some "alice@example.com").

Definition extracts_scram_principal_without_retaining_the_auth_payload : test unit :=
  let bson := document [int_element "saslStart" 1; string_element "mechanism" "SCRAM-SHA-256";
    binary_element "payload" (bytes_of "n,,n=alice=2Cops,r=client-nonce"); string_element "$db" "admin"] in
  let! command := decoded_command (op_msg 45 0 0 bson) in
  let! _ := assert_eq (name command) "saslStart" in
  let! _ := assert_eq (auth_mechanism command) (Some "SCRAM-SHA-256") in
  let! _ := assert_eq (principal command) (Some "alice,ops") in
  assert (negb (is_some (query command))).

Definition extracts_speculative_scram_principal_and_completion_state : test unit :=
  let speculative_request := document [int_element "saslStart" 1; string_element "mechanism" "SCRAM-SHA-256";
    binary_element "payload" (bytes_of "n,,n=alice,r=client-nonce")] in
  let request := op_msg 47 0 0 (document [int_element "hello" 1;
    embedded_element x03 "speculativeAuthenticate" speculative_request; string_element "$db" "admin"]) in
  let! command := decoded_command request in
  let! _ := assert_eq (name command) "hello" in
  let! _ := assert (speculative_auth command) in
  let! _ := assert_eq (principal command) (Some "alice") in
  let! _ := assert_eq (auth_mechanism command) (Some "SCRAM-SHA-256") in
  let! _ := assert (negb (is_some (query command))) in
  let speculative_response := document [int_element "conversationId" 1; bool_element "done" false;
    double_element "ok" F64_ONE] in
  let response := op_msg 48 47 0 (document [double_element "ok" F64_ONE;
    embedded_element x03 "speculativeAuthenticate" speculative_response]) in
  let! status := decoded_status response in
  assert_eq (auth_done status) (Some false).

Definition decodes_legacy_op_query_and_reply_metadata : test unit :=
  let query := op_query 51 "sales.$cmd" (document [string_element "find" "orders"; string_element "$db" "sales"]) in
  let! command := decoded_command query in
  let! _ := assert_eq (name command) "find" in
  let! _ := assert_eq (database command) (Some "sales") in
  let! _ := assert_eq (collection command) (Some "orders") in
  let reply := op_reply 52 51 0 (document [double_element "ok" F64_ONE]) in
  let! response := decoded reply in
  let! _ := assert_eq (response_to response) 51 in
  let! status := expect (status response) in
  assert_eq (status_ok status) (Some true).

Definition maps_legacy_collection_queries_to_find : test unit :=
  let query := op_query 53 "sales.orders" (document [string_element "secret" "must-not-be-exported"]) in
  let! command := decoded_command query in
  let! _ := assert_eq (name command) "find" in
  let! _ := assert_eq (database command) (Some "sales") in
  let! _ := assert_eq (collection command) (Some "orders") in
  assert_eq (principal command) None.

Definition never_exports_an_unknown_command_string_as_a_collection : test unit :=
  let bson := document [string_element "futureCommand" "possibly-sensitive-value"; string_element "$db" "admin"] in
  let! command := decoded_command (op_msg 44 0 0 bson) in
  let! _ := assert_eq (collection command) None in
  assert_eq (principal command) None.

Definition decodes_metadata_from_a_truncated_large_message_prefix : test unit :=
  let bson := document [string_element "find" "orders"; string_element "$db" "sales";
    string_element "comment" (repeat_string "sensitive" 256)] in
  let frame := op_msg 77 0 0 bson in
  let! prefix := slice frame 0 96 in
  let! message := unwrap (decode_frame_prefix prefix DEFAULT_MAX_MESSAGE_BYTES) in
  let! command := expect (command message) in
  let! _ := assert_eq (name command) "find" in
  let! _ := assert_eq (collection command) (Some "orders") in
  let! _ := assert_eq (database command) (Some "sales") in
  let! _ := assert_eq (wire_bytes message) (len frame) in
  assert (negb (is_some (query command))).

Definition truncated_chunk_includes_a_header_from_an_earlier_short_read : test unit :=
  let bson := document [string_element "find" "orders"; string_element "$db" "sales";
    string_element "padding" (repeat_string "x" 2000)] in
  let frame := op_msg 42 0 0 bson in
  let decoder := new default_config in
  let! head := slice frame 0 16 in
  let '(decoder, messages) := push decoder head in
  let! messages := unwrap messages in
  let! _ := assert (bool_decide (messages = [])) in
  let! chunk := slice frame 16 528 in
  let '(decoder, message) := push_truncated decoder chunk in
  let! message := unwrap message in
  let! _ := assert_eq (request_id message) 42 in
  let! _ := assert_eq (wire_bytes message) (len frame) in
  let! command := expect (command message) in
  let! _ := assert_eq (name command) "find" in
  assert_eq (buffered_bytes decoder) 0.

Definition bounds_a_large_frame_split_across_short_reads_to_its_prefix : test unit :=
  let bson := document [string_element "find" "orders"; string_element "$db" "sales";
    string_element "filter" (repeat_string "private-value" 256)] in
  let frame := op_msg 91 0 0 bson in
  let decoder := new {| max_message_bytes := DEFAULT_MAX_MESSAGE_BYTES; max_buffer_bytes := 2048 |} in
  let! first := slice frame 0 512 in
  let '(decoder, messages) := push_bounded_prefix decoder first 1024 in
  let! messages := unwrap messages in
  let! _ := assert (bool_decide (messages = [])) in
  let! second := slice frame 512 1024 in
  let '(decoder, messages) := push_bounded_prefix decoder second 1024 in
  let! messages := unwrap messages in
  let! _ := assert_eq (length messages) 1%nat in
  let! message := index messages 0 in
  let! command := expect (command message) in
  let! _ := assert_eq (name command) "find" in
  let! _ := assert_eq (database command) (Some "sales") in
  let! _ := assert (negb (is_some (query command))) in
  assert_eq (buffered_bytes decoder) 0.

Definition decodes_response_status : test unit :=
  let bson := document [double_element "ok" F64_ZERO; int_element "code" 13; string_element "codeName" "Unauthorized"] in
  let! message := decoded (op_msg 42 41 0 bson) in
  assert_eq (status message) (Some {|
    status_ok := Some false; code := Some 13; code_name := Some "Unauthorized"; affected_count := None;
    auth_done := None |}).

(** [zlib] is what the encoder of flate2 makes of its input. *)
Definition decodes_zlib_compressed_op_msg (zlib : bytes -> bytes) : test unit :=
  let bson := document [string_element "aggregate" "orders"; string_element "$db" "sales"] in
  let inner := op_msg 9 0 0 bson in
  let! inner_payload := slice inner 16 (len inner) in
  let compressed_payload := zlib inner_payload in
  let payload := i32_to_le_bytes OP_MSG ++ i32_to_le_bytes (len inner_payload) ++ [x02] ++ compressed_payload in
  let! message := decoded (frame OP_COMPRESSED 9 0 payload) in
  let! _ := assert (compressed message) in
  let! command := expect (command message) in
  assert_eq (name command) "aggregate".

Definition rejects_oversized_frame_before_buffering_body : test unit :=
  let decoder := new {| max_message_bytes := 32; max_buffer_bytes := 64 |} in
  let '(decoder, result) := push decoder (i32_to_le_bytes 100) in
  let! result := outcome_of result in
  assert (bool_decide (result = inl FrameTooLarge)).
End tests.

(** * They pass *)
Definition protocol_tests `{Decompressors} : list (test unit) := [
  decodes_fragmented_find_with_query_content;
  captures_complete_find_query_content;
  extracts_bulk_delete_scope_affected_count_and_query;
  extracts_bulk_delete_from_op_msg_document_sequence;
  treats_user_management_argument_as_principal_not_collection;
  extracts_scram_principal_without_retaining_the_auth_payload;
  extracts_speculative_scram_principal_and_completion_state;
  decodes_legacy_op_query_and_reply_metadata;
  maps_legacy_collection_queries_to_find;
  never_exports_an_unknown_command_string_as_a_collection;
  decodes_metadata_from_a_truncated_large_message_prefix;
  truncated_chunk_includes_a_header_from_an_earlier_short_read;
  bounds_a_large_frame_split_across_short_reads_to_its_prefix;
  decodes_response_status;
  rejects_oversized_frame_before_buffering_body
].

(** Those that use no compressor, whatever the compressors do *)
Example protocol_tests_pass `{Decompressors} : Forall passes protocol_tests.
Proof. vm_compute. repeat constructor. Qed.

(** The other one with a compressor that stores its input *)
Example zlib_test_passes : passes (@decodes_zlib_compressed_op_msg stored id).
Proof. vm_compute. reflexivity. Qed.
