(* ===== verification/SpoolTests.v ===== *)
(** The test modules of crates/spool/src/lib.rs and crates/schema/src/lib.rs, run
    on the definitions of Spool.v and Schema.v.  [sample_digest] stands for
    SHA-256, and an empty disk for a new temporary directory. *)
From Stdlib Require Import ZArith Strings.Byte Strings.Ascii Strings.String.
From stdpp Require Import base list strings gmap.
From S2P Require Import Prelude Text Float64 Json Schema Spool SpoolSpec Testing.

Local Open Scope string_scope.
Local Open Scope list_scope.
Local Open Scope Z_scope.

(** * The spool *)
#[export] Instance IoError_eq_dec : EqDecision IoError.
Proof. solve_decision. Defined.
#[export] Instance SpoolError_eq_dec : EqDecision SpoolError.
Proof. solve_decision. Defined.
#[export] Instance SpoolStats_eq_dec : EqDecision SpoolStats.
Proof. solve_decision. Defined.

(** A call of a method on the disk of the test, and [unwrap] of its result *)
Definition call_method {A} (w : world) (m : M A) : test (world * A) :=
  let '(w, r) := run m w in
  match r with
  | inr a => Ok (w, a)
  | inl _ => Fault Panic
  end.
Definition default_stats : SpoolStats := {| items := 0; stat_bytes := 0 |}.
(** [matches!(result, Err(SpoolError::CapacityExceeded { .. }))] *)
Definition capacity_exceeded {A} (r : SpoolError + A) : bool :=
  match r with inl (CapacityExceeded _ _ _) => true | _ => false end.
(** [pending().unwrap().pop().unwrap()] *)
Definition pop {A} (l : list A) : test A := expect (last l).
Definition tempdir : world := restart ∅.

Section spool_tests.
Variable digest : bytes -> string.

Definition enqueue_is_content_idempotent_and_acknowledge_is_repeatable : test unit :=
  let body := bytes_of (json_text "{'hello':'world'}") in
  let! (w, _) := call_method tempdir (open digest) in
  let! (w, first) := call_method w (enqueue digest 1024 body) in
  let! (w, second) := call_method w (enqueue digest 1024 body) in
  let! _ := assert_eq first second in
  let! (w, s) := call_method w stats in
  let! _ := assert_eq (items s) 1 in
  let! (w, l) := call_method w pending in
  let! item := pop l in
  let! (w, content) := call_method w (read item) in
  let! _ := assert_eq content body in
  let! (w, _) := call_method w (acknowledge item) in
  let! (w, _) := call_method w (acknowledge item) in
  let! (w, s) := call_method w stats in
  assert_eq s default_stats.

Definition capacity_is_enforced_before_write : test unit :=
  let! (w, _) := call_method tempdir (open digest) in
  let '(w, result) := run (enqueue digest 3 (bytes_of "four")) w in
  let! _ := assert (capacity_exceeded result) in
  let! (w, s) := call_method w stats in
  assert_eq (items s) 0.

Definition quarantined_items_are_not_retried_and_count_toward_capacity : test unit :=
  let! (w, _) := call_method tempdir (open digest) in
  let! (w, _) := call_method w (enqueue digest 20 (bytes_of "first")) in
  let! (w, l) := call_method w pending in
  let! item := pop l in
  let! (w, _) := call_method w (quarantine item) in
  let! (w, s) := call_method w stats in
  let! _ := assert_eq s default_stats in
  let! (w, q) := call_method w quarantine_stats in
  let! _ := assert_eq (items q) 1 in
  let! (w, l) := call_method w pending in
  let! _ := assert (bool_decide (l = [])) in
  let '(w, result) := run (enqueue digest 20 (bytes_of "a different payload")) w in
  assert (capacity_exceeded result).

(** [fs::write] of the test makes the file before the spool is opened. *)
Definition restart_recovers_complete_temporary_writes_and_removes_partial_ones : test unit :=
  let complete := bytes_of (json_text "{'batch':'complete'}") in
  let complete_id := digest complete in
  let partial_id := digest (bytes_of "expected complete body") in
  let partial_path := (Root, tmp_name partial_id) in
  let directory := restart (<[(Root, tmp_name complete_id) := {| content := complete; synced := false |}]>
    (<[partial_path := {| content := bytes_of "partial"; synced := false |}]> ∅)) in
  let! (w, _) := call_method directory (open digest) in
  let! (w, items) := call_method w pending in
  let! _ := assert_eq (length items) 1%nat in
  let! item := index items 0 in
  let! _ := assert_eq (id item) complete_id in
  let! (w, content) := call_method w (read item) in
  let! _ := assert_eq content complete in
  assert (negb (is_some (visible w !! partial_path))).

(** The mutex of the spool orders the two writers: [bodies] is one of the orders. *)
Definition concurrent_writers_cannot_overcommit_capacity (bodies : list bytes) : test unit :=
  let! (w, _) := call_method tempdir (open digest) in
  let '(w, results) := fold_left (fun '(w, results) body =>
    let '(w, result) := run (enqueue digest 4 body) w in (w, results ++ [result])) bodies (w, []) in
  let! _ := assert_eq (length (filter (fun r => is_true (match r with inr _ => true | inl _ => false end)) results)) 1%nat in
  let! _ := assert_eq (length (filter (fun r => is_true (capacity_exceeded r)) results)) 1%nat in
  let! (w, s) := call_method w stats in
  assert_eq (stat_bytes s) 4.
End spool_tests.

Example spool_tests_pass : Forall passes [
  enqueue_is_content_idempotent_and_acknowledge_is_repeatable sample_digest;
  capacity_is_enforced_before_write sample_digest;
  quarantined_items_are_not_retried_and_count_toward_capacity sample_digest;
  restart_recovers_complete_temporary_writes_and_removes_partial_ones sample_digest;
  concurrent_writers_cannot_overcommit_capacity sample_digest [bytes_of "aaaa"; bytes_of "bbbb"];
  concurrent_writers_cannot_overcommit_capacity sample_digest [bytes_of "bbbb"; bytes_of "aaaa"]
].
Proof. vm_compute. repeat constructor. Qed.

(** * The schema *)
Definition health_test_event (customer : string) (metadata : bool) : DamEvent Z := {|
  event_version := EVENT_SCHEMA_VERSION; event_id := "evt-1"; observed_at := 0; monotonic_timestamp_ns := 1;
  event_customer_id := customer; event_tenant_id := "tenant"; event_source_id := "source";
  event_regional_cell_id := "cell";
  capture := {| sensor_id := "sensor"; node_name := "node"; source := CleartextSyscall; confidence := Complete;
                metadata_only := metadata; truncated := false |};
  kubernetes := None; process := None; identity := None;
  payload := PSensorHealth {| health_status := "ok"; health_component := "observer"; health_reason := "test";
    health_dropped_events := 0; health_parse_errors := 0; health_spool_bytes := 0 |}
|}.
Definition test_batch (event : DamEvent Z) : DamBatch Z := {|
  batch_version := BATCH_SCHEMA_VERSION; batch_id := "batch-1"; customer_id := "customer"; tenant_id := "tenant";
  source_id := "source"; regional_cell_id := "cell"; created_at := 0; events := [event]
|}.

Definition batch_rejects_cross_tenant_or_non_metadata_events : test unit :=
  let! foreign := outcome_of (validate (test_batch (health_test_event "other-customer" true))) in
  let! _ := assert_eq foreign (inl "event identity does not match batch identity") in
  let! content := outcome_of (validate (test_batch (health_test_event "customer" false))) in
  assert_eq content (inl "capture metadata does not match MongoDB query-content presence").

Example schema_test_passes : passes batch_rejects_cross_tenant_or_non_metadata_events.
Proof. vm_compute. reflexivity. Qed.
