(* ===== verification/OutpostTests.v ===== *)
(** The test module of crates/outpost/src/lib.rs: the tests of the configuration,
    of the S3 key and of the identity mappings.  The JSON of a fixture is given
    as the value serde reads from it; the tests of the encoded object and of the
    upload exercise gzip, serde and the S3 client. *)
From Stdlib Require Import ZArith Strings.Byte Strings.Ascii Strings.String.
From stdpp Require Import base list strings gmap.
From S2P Require Import Prelude Text Float64 Json Schema Enrich Destination Testing.

Local Open Scope string_scope.
Local Open Scope list_scope.
Local Open Scope Z_scope.

Definition test_config (destination : DestinationConfig) : OutpostConfig := {|
  config_customer_id := "customer"; config_tenant_id := "tenant"; config_source_id := "source";
  config_regional_cell_id := "cell"; config_cluster_name := "cluster"; internal_token := None;
  Destination.destination := destination; spool_dir := "/tmp/not-used"; spool_max_bytes := 1024;
  max_request_bytes := 1024; export_interval := 1; kubernetes_api_url := None; kubernetes_token_path := "";
  kubernetes_ca_path := ""; kubernetes_refresh_interval := 60; identity_mapping_file := None
|}.

(** * The configuration *)
Section configuration.
(** [Url::parse] *)
Variable url_parse : string -> option Url.

Definition rejects_non_tls_remote_endpoint : test unit :=
  let http endpoint := test_config (Http {| endpoint := endpoint; bearer_token := "token"; ca_file := None |}) in
  let config := http "http://remote.example/ingest" in
  let! _ := assert (is_err (validate_config url_parse config)) in
  let prefixed_mock := http "http://mock-endpoint.attacker.example/v1/ingest/mongodb-dam" in
  assert (is_err (validate_config url_parse prefixed_mock)).

Definition validates_s3_destination : test unit :=
  let s3 prefix := test_config (S3 {| bucket := "dam-demo-events"; prefix := prefix; endpoint_url := None;
    force_path_style := false |}) in
  let! _ := assert (is_ok (validate_config url_parse (s3 "/mongodb-dam/events/"))) in
  assert (is_err (validate_config url_parse (s3 "///"))).
End configuration.

(** The tests pass for every parser that reads the two URLs right. *)
Example configuration_tests_pass (url_parse : string -> option Url) :
  url_parse "http://remote.example/ingest"
    = Some {| scheme := "http"; host_str := Some "remote.example"; username := ""; password := None |} ->
  url_parse "http://mock-endpoint.attacker.example/v1/ingest/mongodb-dam"
    = Some {| scheme := "http"; host_str := Some "mock-endpoint.attacker.example"; username := ""; password := None |} ->
  passes (rejects_non_tls_remote_endpoint url_parse) /\ passes (validates_s3_destination url_parse).
Proof.
  intros Hremote Hmock. split; [|by vm_compute].
  unfold rejects_non_tls_remote_endpoint, validate_config, validate_http_destination, check_url.
  cbn [destination test_config endpoint]. rewrite Hremote, Hmock. by vm_compute.
Qed.

(** * The S3 key *)

(** A time: year, month, day, hour *)
Definition calendar : Set := (Z * Z * Z * Z)%type.
(** tests/fixtures/dam-batch.json, of which the key reads the identity and the time *)
Definition fixture_batch : DamBatch calendar := {|
  batch_version := 1; batch_id := "integration-batch-0001"; customer_id := "integration-customer";
  tenant_id := "integration-tenant"; source_id := "integration-source"; regional_cell_id := "integration-cell";
  created_at := (2026, 1, 1, 0); events := []
|}.

Definition creates_deterministic_partitioned_s3_key : test unit :=
  let destination := {| bucket := "dam-demo-events"; prefix := "/mongodb-dam/events/"; endpoint_url := None;
    force_path_style := false |} in
  let key := s3_object_key (fun '(y, _, _, _) => y) (fun '(_, m, _, _) => m) (fun '(_, _, d, _) => d)
    (fun '(_, _, _, h) => h) destination fixture_batch in
  assert_eq key ("mongodb-dam/events/customer_id=integration-customer/tenant_id=integration-tenant/" ++
    "regional_cell_id=integration-cell/source_id=integration-source/date=2026-01-01/hour=00/" ++
    "integration-batch-0001.ndjson.gz")%string.

Example s3_key_test_passes : passes creates_deterministic_partitioned_s3_key.
Proof. vm_compute. reflexivity. Qed.

(** * Identity mappings *)
Definition test_principal_hash : string := "sha256:0123456789abcdef0123456789abcdef0123456789abcdef0123456789abcdef".
Definition test_mapping (principal_arn credential_resource : string) : IdentityMappingDocument := {|
  document_version := 1;
  mappings := [{|
    mongodb_principal_hash := test_principal_hash; entry_provider := "aws"; entry_principal_type := "iam_user";
    entry_principal_arn := principal_arn; entry_account_id := "111122223333";
    entry_credential_source := "aws_secrets_manager"; entry_credential_resource := credential_resource |}]
|}.

Definition validates_and_parses_identity_mapping : test unit :=
  let encoded := test_mapping "arn:aws:iam::111122223333:user/dam-demo-alice"
    "arn:aws:secretsmanager:ap-south-1:111122223333:secret:mongodb-dam-demo-AbCdEf" in
  let! identities := unwrap (parse_identity_mappings encoded) in
  let! identity := expect (identities !! test_principal_hash) in
  let! _ := assert_eq (provider identity) "aws" in
  let! _ := assert_eq (principal_type identity) "iam_user" in
  assert_eq (principal_arn identity) "arn:aws:iam::111122223333:user/dam-demo-alice".

Definition rejects_identity_mapping_with_mismatched_account : test unit :=
  let encoded := test_mapping "arn:aws:iam::999900001111:user/dam-demo-alice"
    "arn:aws:secretsmanager:ap-south-1:111122223333:secret:mongodb-dam-demo-AbCdEf" in
  assert (is_err (parse_identity_mappings encoded)).

Example identity_tests_pass :
  passes validates_and_parses_identity_mapping /\ passes rejects_identity_mapping_with_mismatched_account.
Proof. vm_compute. done. Qed.
