(* ===== verification/ObserverTests.v ===== *)
(** The test module of crates/observer/src/lib.rs.  The machine of a test answers
    no read: /definitely-not-proc does not exist. *)
From Stdlib Require Import ZArith Strings.Byte Strings.Ascii Strings.String.
From stdpp Require Import base list strings gmap.
From S2P Require Import Prelude Text Float64 Json Dns Bson BsonJson Summary Wire Stream Encode Schema.
From S2P Require Import Proc Kernel Observer ObserverSample Testing.

Local Open Scope string_scope.
Local Open Scope list_scope.
Local Open Scope Z_scope.

Definition test_processor (capture_query_content : bool) : EventProcessor unit := new_processor {|
  cfg_customer_id := "customer"; cfg_tenant_id := "tenant"; cfg_source_id := "source";
  cfg_regional_cell_id := "cell"; cfg_sensor_id := "sensor"; cfg_node_name := "node";
  cfg_cluster_name := "cluster"; cfg_host_proc := "/definitely-not-proc"; cfg_max_message_bytes := 1024 * 1024;
  cfg_cpu_profile_hz := 0; cfg_principal_hash_salt := Some "customer-salt";
  cfg_capture_query_content := capture_query_content
|}.

Definition test_raw (timestamp_ns : Z) : KernelEvent := {|
  raw_timestamp_ns := timestamp_ns; raw_connection_key := 77; raw_cgroup_id := 88; raw_duration_ns := 0;
  raw_bytes := 0; raw_result := 0; raw_pid := 42; raw_tgid := 42; raw_uid := 999; raw_gid := 999;
  raw_fd := 9; raw_original_len := 0; raw_captured_len := 0; raw_event_type := EVENT_IO_CHUNK;
  raw_direction := 0; raw_source := 1; raw_operation := 0;
  raw_comm := bytes_of "mongod" ++ repeat x00 10; raw_data := repeat x00 1024
|}.

Definition test_request (request_id : Z) (command : MongoCommand) : DecodedMessage := {|
  Wire.request_id := request_id; response_to := 0; wire_bytes := 128; flags := 0; more_to_come := false;
  compressed := false; Wire.command := Some command; status := None
|}.
Definition test_response (request_id response_to : Z) (affected_count : option Z) (auth_done : option bool)
    : DecodedMessage := {|
  Wire.request_id := request_id; Wire.response_to := response_to; wire_bytes := 96; flags := 0;
  more_to_come := false; compressed := false; Wire.command := None;
  status := Some {| status_ok := Some true; code := None; code_name := None;
                    Wire.affected_count := affected_count; Wire.auth_done := auth_done |}
|}.

(** A [MongoCommand] with the fields a test sets *)
Definition test_command (name : string) (database collection auth_mechanism principal : option string)
    (speculative_auth : bool) (delete_scope : option DeleteScope) (delete_statements : option Z)
    (query : option JsonValue) : MongoCommand := {|
  Summary.name := name; Summary.database := database; Summary.collection := collection;
  Summary.auth_mechanism := auth_mechanism; Summary.principal := principal;
  Summary.speculative_auth := speculative_auth; Summary.delete_scope := delete_scope;
  Summary.delete_statements := delete_statements; Summary.query := query
|}.

(** [processor.process_message(test_raw(timestamp), false, message)] *)
Definition processed (timestamp : Z) (message : DecodedMessage) (s : state) : list (DamEvent unit) * state :=
  process_message (World := machine) (fun m => map_to_list m) (test_raw timestamp) false message s.
Definition activity_of (e : DamEvent unit) : option MongodbActivity :=
  match payload e with PMongodbActivity activity => Some activity | _ => None end.

Definition extracts_systemd_and_cgroupfs_pod_uids : test unit :=
  let uid := "08f20c35-9ab0-4a41-94b8-2e19e20c14c8" in
  let! _ := assert_eq (extract_pod_uid ("0::/kubepods.slice/kubepods-burstable-pod" ++ replace "-" "_" uid ++
    ".slice/cri-containerd-deadbeef.scope")%string) (Some uid) in
  assert_eq (extract_pod_uid ("0::/kubepods/burstable/pod" ++ uid ++ "/deadbeef")%string) (Some uid).

Definition parses_proc_ipv4_endpoint : test unit :=
  let! endpoint := expect (parse_endpoint "0100007F:6989" false) in
  let! _ := assert_eq (address endpoint) (Some "127.0.0.1") in
  assert_eq (port endpoint) (Some 27017).

Definition user_management_principals_are_treated_as_auth_and_hashed : test unit :=
  let! _ := assert (is_auth_command "createUser") in
  let command := test_command "createUser" (Some "admin") None None (Some "alice@example.com") false None None None in
  let '(command, hashed) := take_hashed_principal command (Some "customer-salt") in
  let! hashed := expect hashed in
  let! _ := assert (starts_with "sha256:" hashed) in
  let! _ := assert (negb (contains "alice" hashed)) in
  assert (negb (is_some (principal command))).

Definition attributes_bulk_delete_to_scram_principal_and_exports_query_content : test unit :=
  let s := (test_processor true, quiet) in
  let speculative_hello := test_command "hello" (Some "admin") None (Some "SCRAM-SHA-256") (Some "alice") true
    None None None in
  let '(events, s) := processed 1000 (test_request 10 speculative_hello) s in
  let! _ := assert_eq (length events) 0%nat in
  let '(_, s) := processed 2000 (test_response 11 10 None (Some false)) s in
  let sasl_continue := test_command "saslContinue" (Some "admin") None None None false None None None in
  let '(_, s) := processed 3000 (test_request 12 sasl_continue) s in
  let '(_, s) := processed 4000 (test_response 13 12 None (Some true)) s in
  let delete := test_command "delete" (Some "dam_demo") (Some "customer_records") None None false (Some Multi) (Some 1)
    (Some (json_object [("delete", JString "customer_records");
      ("deletes", JArray [json_object [("q", json_object [("demo_batch", JString "iam-bulk-delete")]);
                                       ("limit", json_int 0)]]);
      ("$db", JString "dam_demo")])) in
  let '(_, s) := processed 5000 (test_request 14 delete) s in
  let '(events, s) := processed 10005000 (test_response 15 14 (Some 35) None) s in
  let! _ := assert_eq (length events) 1%nat in
  let expected_principal := hash_principal "customer-salt" "alice" in
  let! activity := expect (head (omap activity_of events)) in
  let! _ := assert_eq (activity_principal activity) (Some expected_principal) in
  let! _ := assert_eq (activity_delete_scope activity) (Some "multi") in
  let! _ := assert_eq (activity_affected_documents activity) (Some 35) in
  let! query := expect (activity_query activity) in
  let! _ := assert_eq (at_key "demo_batch" (at_key "q" (at_index 0 (at_key "deletes" query)))) (JString "iam-bulk-delete") in
  let! event := index events 0 in
  assert (negb (metadata_only (capture event))).

Definition keeps_activity_metadata_only_when_query_capture_is_disabled : test unit :=
  let s := (test_processor false, quiet) in
  let find := test_command "find" (Some "dam_demo") (Some "orders") None None false None None
    (Some (json_object [("find", JString "orders"); ("filter", json_object [("customer_id", JString "cust-001")]);
      ("$db", JString "dam_demo")])) in
  let '(_, s) := processed 5000 (test_request 20 find) s in
  let '(events, s) := processed 10005000 (test_response 21 20 None None) s in
  let! _ := assert_eq (length events) 1%nat in
  let! event := index events 0 in
  let! activity := expect (activity_of event) in
  let! _ := assert (negb (is_some (activity_query activity))) in
  assert (metadata_only (capture event)).

Definition decodes_dns_srv_query_and_response_metadata : test unit :=
  let labels := concat ((fun label => u8_of (slen label) :: bytes_of label) <$> ["_mongodb"; "_tcp"; "example"; "com"]) in
  let message third fourth :=
    [x12; x34; third; fourth; x00; x01; x00; x00; x00; x00; x00; x00] ++ labels ++ [x00; x00; x21; x00; x01] in
  let! decoded := unwrap (decode_dns_message (message x01 x00)) in
  let! _ := assert_eq (query_id decoded) 0x1234 in
  let! _ := assert (negb (response decoded)) in
  let! _ := assert_eq (Dns.name decoded) (Some "_mongodb._tcp.example.com") in
  let! _ := assert_eq (record_type decoded) (Some "SRV") in
  let! decoded := unwrap (decode_dns_message (message x81 x83)) in
  let! _ := assert (response decoded) in
  assert_eq (response_code decoded) 3.

Example observer_tests_pass : Forall passes [
  extracts_systemd_and_cgroupfs_pod_uids;
  parses_proc_ipv4_endpoint;
  user_management_principals_are_treated_as_auth_and_hashed;
  attributes_bulk_delete_to_scram_principal_and_exports_query_content;
  keeps_activity_metadata_only_when_query_capture_is_disabled;
  decodes_dns_srv_query_and_response_metadata
].
Proof. vm_compute. repeat constructor. Qed.
